(* ===== verification/_CoqProject ===== *)
-Q . S2P
Prelude.v
Words.v
Common.v
Pure.v
Parser.v
Maps.v
Wire.v
Footprint.v
Trust.v
Blacklist.v
RateCounter.v
Limits.v
Filters.v
TcpReset.v
SynCookie.v
CookieProtocol.v
DataPlane.v
Accounting.v
Pipeline.v
DataPlaneProps.v
Typing.v
RustStd.v
Ranking.v
IpText.v
PacketLog.v
Danger.v
Config.v
TimeSeries.v
Redb.v
RuleStore.v
RuleStoreProps.v
AgentMaps.v
ConfigFile.v
Metrics.v
Exposition.v
Alert.v
Geoip.v
Adaptive.v
AuditLog.v
AuditTail.v
AuditStream.v
AgentControl.v
ControlSample.v
AgentControlProps.v
ModulePage.v
AgentRules.v
ThreatIntel.v
BlacklistSync.v
HubClient.v
HubTasks.v
HubStore.v
HubStoreProps.v
HubQuery.v
HubApi.v
HubMain.v
LoginLimiter.v
ConsoleAuth.v
Series.v
AgentMain.v
ConsoleViews.v
ConsoleApi.v
ConsoleProps.v
ConsoleSession.v
Cli.v
AgentKeeps.v
AgentRun.v
