(* ===== verification/Prelude.v ===== *)
(** * eShield: a verification library

    eShield drops hostile traffic with an XDP program in the kernel
    ([eshield-ebpf]), an agent that configures it ([eshield]) and a hub that
    shares policies between agents ([eshield-hub]).  The agent and the packet
    program meet in the kernel's maps; agents and hub exchange policies over
    HTTP.  Here the code of the three programs is a family of Rocq functions
    with the names it has in Rust, and theorems about them.

    ** Parts, files and sources

    Foundations: this file (record update, the state monad [State], the error
    monad [Try], generic lemmas), [Words] (machine integers), [RustStd] (text:
    parsing and printing of numbers and addresses as the standard library does
    it), [Common] ([eshield-common/src/lib.rs]), [Pure] ([pure.rs], the
    computations kernel and user space share) and [Redb] (the interface of the
    database library and an executable instance).

    The packet program, on the state [KState] of the maps and the frame, over
    an abstract kernel ([Class Kernel], laws in [KernelLaws], both in [Maps]):
    [Parser] and [Wire] (frames, headers, checksums), [Trust], [Blacklist],
    [RateCounter], [Limits] (rate limit, the flood detectors, port rate),
    [Filters] (port ACL, signatures, connection tracking), [TcpReset],
    [SynCookie] and [DataPlane] ([main.rs], where [try_eshield] is one run on
    one frame).  [Footprint], [CookieProtocol], [Accounting], [Pipeline],
    [DataPlaneProps] and [Typing] hold its properties.

    The agent, on [ControlState], which contains the same [KState]: [IpText]
    ([ip.rs]), [Config] and [ConfigFile] ([config.rs]: the validation, and what
    a file may leave out), [TimeSeries] ([timeseries.rs], [state.rs]),
    [RuleStore] and [RuleStoreProps] ([store.rs]), [AgentMaps] (the [init_*]
    functions of [control.rs]), [Geoip] ([geoip.rs]), [Adaptive] ([adaptive.rs],
    [event_consumer.rs]), [AgentControl] (the operations of [control.rs]) with
    [AgentControlProps] and [AgentRules], [BlacklistSync] ([blacklist_sync.rs]),
    [HubClient] and [HubTasks] ([hub_client.rs]: a round of each loop, and the
    loops), [ThreatIntel] ([threat_intel.rs]), [AuditLog], [AuditTail]
    and [AuditStream] ([audit.rs], the audit page and its event stream), [Danger]
    ([danger.rs]), [PacketLog]
    ([packet_log.rs]), [Alert] ([alert.rs]). The tasks and the start of
    [main.rs] are in [Metrics] (the copies of the kernel's counters), [Alert],
    [Series] (the time series across a restart) and [AgentMain] ([start] itself,
    the attachment and its watch, the danger task). [Ranking] is the sorting
    these share, [ControlSample] a concrete agent for the evaluated examples.
    [AgentRun] is the running agent: the tasks, the signals, the console and the
    packet program on one state, as any sequence of frames, requests, ticks and
    signals; [AgentKeeps] is what each operation leaves alone on the way.

    The console of the agent, on [WebState], which contains the [ControlState]:
    [LoginLimiter] ([login_limiter.rs] with the login handler alone),
    [ConsoleAuth] ([auth.rs], cookies, roles), [ConsoleViews], [ModulePage] and
    [Exposition] (pages computed from lists, from the configuration and from the
    counters), [ConsoleApi] ([web.rs]: the handlers, the router and its layers,
    where [ConsoleApi.serve] is one request), [ConsoleProps] and
    [ConsoleSession]; [Cli] is the command line of [main.rs] in front of it.

    The hub, on the database [Db]: [HubStore], [HubStoreProps], [HubQuery]
    ([store.rs]), [HubApi] ([limiter.rs], [registry.rs], [auth.rs], [api.rs];
    [HubApi.serve] is a request from authentication to response) and [HubMain]
    ([feed.rs], [main.rs]: the start, and the running hub as any sequence of
    requests and ticks).

    ** How the models correspond to the code

    A struct is the record [t] of a module of its name, an enum an inductive
    type, an integer a [Z] with its wrap-around or saturation written out.  A
    method on shared state is a function to a result and the next state; [?]
    is the bind of [Try], where [None] is an error that keeps what has been
    done so far.  Libraries, the kernel, the file system, JSON, CSV, SHA-256
    and HTTP are classes: their functions are parameters, what is relied on is
    stated as laws of their documentation, and an executable instance of each
    lets the witnesses evaluate.  Sharded and hash maps are finite maps whose
    iteration order is a parameter ([HashOrder]).

    ** What the theorems show

    Packet program: every run counts its packet once and never reads out of
    bounds ([try_eshield_accounting], [try_eshield_safe]); every field stays in
    its type ([data_plane_typed]); allowed sources pass and blocked ones are
    dropped ([whitelist_passes], [blocked_source_dropped], [block_lifecycle]);
    the tables of the control plane are not written ([tables_try_eshield]);
    the counters bound what a source may send ([paced_source_below],
    [conn_track_refines]); the cookie protocol accepts what it issued and
    nothing else ([cookie_roundtrip], [handle_ack_spec]); resets are well formed
    ([reply_tcp_rst_wellformed]).

    Agent to packet program: a block, a release, an allowed network, a port ACL,
    the protection projects and a changed configuration reach the maps in the
    form the packet checks read ([block_takes_effect], [unblock_takes_effect],
    [allow_cidr_exact], [port_acl_enforced], [projects_replaced],
    [patch_runtime_agrees]). Stores, windows and caches are equal to simple
    specifications ([rule_store_refines], [sync_persists],
    [adaptive_counts_window], [prune_bounded], [window_is_end_of_history],
    [geoip_cache_transparent], [parse_format_ip]).

    Running agent: a start that succeeds protects the interface and leaves the
    console guarded ([start_guarded]); the readiness shown is the state of the
    interface ([monitor_truthful]); what the charts show survives a restart
    ([series_survives]); alarms come neither too often nor too late
    ([alerts_spaced]).  Whatever frames, ticks, hubs, feeds and requests come in
    whatever order, an allowed address is let in until an administrator takes it
    back or the file is reloaded ([allowed_keeps_passing], from the file on
    [file_networks_pass]), and the four copies of the danger level agree until a
    reload ([danger_agrees_until_reload], for the task alone
    [danger_level_agrees]).

    Console: only an administrator changes anything ([console_authority]); a
    block posted there drops packets ([console_block_effective]); a new token
    opens the console and closes it to the old one ([reset_token_session]); a
    changed configuration is what the module page shows and the packet program
    reads ([console_patch_shown], [modules_in_force]); the metrics page
    tells each number of the statistics under the name of its field
    ([metrics_read_back]); guessing is bounded ([guesses_bounded]). A command with the administrator's token blocks, and
    one with any other is refused ([reset_then_block], [commands_refused]). The
    smallest configuration file works ([minimal_file_starts]), and a complete
    one reads as what was written ([config_written_read]).

    Hub: reports merge losslessly, the tables stay consistent, polling misses
    nothing that is stamped in order, and only authorised requests change state
    ([merge_absorbs], [hub_store_consistent], [polling_complete],
    [hub_authority], [token_bucket]), from the arguments of the process on and
    with all its tasks ([hub_guarded], [hub_feed_blocks]); nodes fail over and
    apply rules in order ([failover_reaches], [rules_fresh]), and keep their own
    decisions whatever a hub sends in whatever order ([hub_tasks_keep_local];
    for one operation [hub_policies_keep_local] and [hub_releases_own]), as
    long as it sends addresses with their usual padding
    ([padded_policy_takes_over]).

    Logs: the audit log verifies ([audit_log_verifies]) until a write that the
    file system refuses or a rotation breaks its chain
    ([refused_write_breaks_chain], [rotation_breaks_chain]); its pages are
    [list_tail_last], [audit_pages_complete] and [audit_stream_in_order]; the
    packet log [query_newest_first] and [packet_log_total].

    Errors the models revealed are theorems too: [restore_makes_permanent],
    [push_drops_excess], [reload_clears_danger], [reload_loses_danger],
    [monitor_ignores_mode], [allowed_not_listed], [geoip_failure_sticks],
    [metrics_declared], [empty_sections], [padded_policy_takes_over],
    [status_hides_refusal], [late_rotation_cookie_refused],
    [synack_flags_swapped] and others in the files of the components.

    ** Bounds and fuel

    Loops with a constant bound in the source (bytes of a header, hash rounds,
    the 64 decay ticks, ports and patterns of a table) are recursions on that
    bound.  [Adaptive.evict] has the fuel [evict_fuel], one more than the
    entries of both maps: each round removes an entry, and [prune_bounded]
    shows that the loop has ended.  [HubClient.attempts] is a recursion on the
    number of URLs, as in the source.  [AuditTail.tail_start] has the length of
    the file as fuel: every round reads at least one byte.  Printing a number
    has the digits of its width as fuel.

    ** Not modelled

    Tasks, requests and frames interleave by whole turns: the locks of
    [control.rs] are taken for an operation's whole effect on a map, and a turn of
    a task, a round of the hub client or a request runs alone.  One CPU runs the
    packet program.  Input and output (HTTP servers and clients, the terminal
    view, the static files, the argument parser, TLS, log output), failures
    of the database's input and output, and folding of letters outside ASCII
    are left out. *)
From stdpp Require Export base list numbers.

(** ** Functional record update

    [r <| p := v |>] replaces field [p] of the record [r], and
    [r <| p ::= f |>] applies [f] to it.  A record takes part by giving its
    eta-expansion as an instance of [Eta]; setters are then synthesised from the
    projection, so that after [cbn] an untouched field of an updated record is
    the projection of the original record. *)
Class Eta (R : Type) := eta_expand : R -> R.

Class Setter {R E : Type} (p : R -> E) := setter : (E -> E) -> R -> R.
Arguments setter {R E} p {_} f r.

Ltac solve_setter p :=
  match type of p with
  | ?R -> ?E =>
      let i := constr:(_ : Eta R) in
      let e := eval hnf in i in
      exact (fun (f : E -> E) (r : R) =>
               ltac:(let b := eval cbv beta in (e r) in
                     match b with
                     | context C [p r] => let b' := context C [f (p r)] in exact b'
                     end))
  end.

#[export] Hint Extern 1 (Setter ?p) => solve_setter p : typeclass_instances.

Declare Scope update_scope.
Delimit Scope update_scope with update.
#[warning="-postfix-notation-not-level-1"]
Notation "r <| p ::= f |>" := (setter p f r)
  (at level 12, left associativity, p constr at level 1) : update_scope.
#[warning="-postfix-notation-not-level-1"]
Notation "r <| p := v |>" := (setter p (fun _ => v) r)
  (at level 12, left associativity, p constr at level 1) : update_scope.
Open Scope update_scope.

(** ** The state monad

    Code that runs against shared kernel state is written as a function from
    the state to a result and the next state.  [let*] sequences two actions. *)
Definition State (S A : Type) : Type := S -> A * S.

Definition ret {S A} (a : A) : State S A := fun s => (a, s).
Definition bind {S A B} (m : State S A) (k : A -> State S B) : State S B :=
  fun s => let '(a, s') := m s in k a s'.
Definition gets {S A} (f : S -> A) : State S A := fun s => (f s, s).
Definition modify {S} (f : S -> S) : State S unit := fun s => (tt, f s).

Declare Scope monad_scope.
Delimit Scope monad_scope with monad.
Notation "'let*' x ':=' m 'in' k" := (bind m (fun x => k))
  (at level 10, x name, m at level 100, k at level 200) : monad_scope.
Notation "'let*' ' x ':=' m 'in' k" := (bind m (fun x => k))
  (at level 10, x strict pattern, m at level 100, k at level 200) : monad_scope.
Open Scope monad_scope.

(** Fallible code on a state: an error ([None]) keeps what was done before it.
    [let!] sequences, stopping at the first error (the [?] operator). *)
Definition Try (S A : Type) : Type := S -> option A * S.

Definition ok {S A} (a : A) : Try S A := fun s => (Some a, s).
Definition err {S A} : Try S A := fun s => (None, s).
Definition try_bind {S A B} (m : Try S A) (k : A -> Try S B) : Try S B := fun s =>
  match m s with (Some a, s') => k a s' | (None, s') => (None, s') end.
Definition of_option {S A} (o : option A) : Try S A := fun s => (o, s).
Definition ensure {S} (b : bool) : Try S unit := fun s => (if b then Some tt else None, s).
(** An action that can not fail. *)
Definition run {S A} (m : State S A) : Try S A := fun s => let '(a, s') := m s in (Some a, s').
(** [let _ = m]: an error is ignored. *)
Definition ignore {S A} (m : Try S A) : Try S unit := fun s => (Some tt, snd (m s)).

Notation "'let!' x ':=' m 'in' k" := (try_bind m (fun x => k))
  (at level 10, x name, m at level 100, k at level 200) : monad_scope.
Notation "'let!' ' x ':=' m 'in' k" := (try_bind m (fun x => k))
  (at level 10, x strict pattern, m at level 100, k at level 200) : monad_scope.

(** [for x in l { f x? }] *)
Fixpoint for_each {S A} (f : A -> Try S unit) (l : list A) : Try S unit :=
  match l with
  | [] => ok tt
  | x :: l => let! _ := f x in for_each f l
  end.

(** The same with the index, from [i]. *)
Fixpoint for_each_from {S A} (f : Z -> A -> Try S unit) (i : Z) (l : list A) : Try S unit :=
  match l with
  | [] => ok tt
  | x :: l => let! _ := f i x in for_each_from f (i + 1)%Z l
  end.

(** [stable R m]: running [m] relates the state before to the state after by
    [R].  For a preorder [R] this is preserved by sequencing, so that a
    property such as "this table is never written" is proved by walking over
    the structure of the code. *)
Definition stable {S A} (R : S -> S -> Prop) (m : State S A) : Prop :=
  forall s, R s (snd (m s)).

(** [triple P m Q]: from a state satisfying [P], [m] returns a value and a
    state satisfying [Q]. *)
Definition triple {S A} (P : S -> Prop) (m : State S A) (Q : A -> S -> Prop) : Prop :=
  forall s, P s -> Q (fst (m s)) (snd (m s)).

Section Stable.
Context {S : Type} (R : S -> S -> Prop) `{!PreOrder R}.

Lemma stable_ret {A} (a : A) : stable R (ret a).
Proof. intros s. unfold ret. cbn. reflexivity. Qed.

Lemma stable_gets {A} (f : S -> A) : stable R (gets f).
Proof. intros s. unfold gets. cbn. reflexivity. Qed.

Lemma stable_bind {A B} (m : State S A) (k : A -> State S B) :
  stable R m -> (forall a, stable R (k a)) -> stable R (bind m k).
Proof.
  intros Hm Hk s. unfold bind. specialize (Hm s).
  destruct (m s) as [a s1]. cbn in *. etransitivity; [exact Hm | apply Hk].
Qed.

Lemma stable_modify (f : S -> S) : (forall s, R s (f s)) -> stable R (modify f).
Proof. intros H s. apply H. Qed.
End Stable.

Section Triple.
Context {S : Type}.

Lemma triple_ret {A} (a : A) (P : S -> Prop) (Q : A -> S -> Prop) :
  (forall s, P s -> Q a s) -> triple P (ret a) Q.
Proof. intros H s Hs. apply H, Hs. Qed.

Lemma triple_bind {A B} (m : State S A) (k : A -> State S B) P Q T :
  triple P m Q -> (forall a, triple (Q a) (k a) T) -> triple P (bind m k) T.
Proof.
  intros Hm Hk s Hs. unfold bind. specialize (Hm s Hs).
  destruct (m s) as [a s1]. cbn in *. apply Hk, Hm.
Qed.

Lemma triple_conseq {A} (m : State S A) (P P' : S -> Prop) (Q Q' : A -> S -> Prop) :
  triple P' m Q' -> (forall s, P s -> P' s) -> (forall a s, Q' a s -> Q a s) ->
  triple P m Q.
Proof. intros H HP HQ s Hs. apply HQ, H, HP, Hs. Qed.
End Triple.

(** The hint database [stable] collects the stability lemmas of the
    operations; [stable_tac] walks over a monadic body with them. *)
Create HintDb stable discriminated.
#[export] Hint Resolve stable_ret stable_gets stable_bind : stable.

Ltac stable_step :=
  match goal with
  | |- stable _ (ret _) => apply stable_ret; [typeclasses eauto]
  | |- stable _ (gets _) => apply stable_gets; [typeclasses eauto]
  | |- stable _ (bind _ _) =>
      apply stable_bind; [typeclasses eauto | | intros ?]
  | |- stable _ (match ?x with _ => _ end) => destruct x
  | |- stable _ (if ?x then _ else _) => destruct x
  | |- stable _ (let _ := _ in _) => cbv zeta
  end.
Ltac stable_tac := repeat (solve [eauto with stable nocore] || stable_step).

(** Running a monadic body: the equations that [cbn]-free symbolic execution
    rewrites with. *)
Lemma bind_run {S A B} (m : State S A) (k : A -> State S B) s a s' :
  m s = (a, s') -> bind m k s = k a s'.
Proof. intros H. unfold bind. by rewrite H. Qed.

Lemma ret_run {S A} (a : A) (s : S) : ret a s = (a, s).
Proof. reflexivity. Qed.

Lemma gets_run {S A} (f : S -> A) (s : S) : gets f s = (f s, s).
Proof. reflexivity. Qed.

Lemma bind_gets {S A B} (f : S -> A) (k : A -> State S B) s : bind (gets f) k s = k (f s) s.
Proof. reflexivity. Qed.

Lemma bind_ret {S A B} (a : A) (k : A -> State S B) s : bind (ret a) k s = k a s.
Proof. reflexivity. Qed.

Lemma bind_modify {S B} (f : S -> S) (k : unit -> State S B) s : bind (modify f) k s = k tt (f s).
Proof. reflexivity. Qed.

(** ** Generic tactics *)

(** Case analysis on every [match] and [if] of the goal, remembering the
    equations. *)
Ltac split_matches := repeat case_match.

(** Turn boolean tests on integers found in hypotheses into propositions. *)
Ltac bool_to_prop :=
  repeat match goal with
  | H : andb _ _ = true |- _ => apply andb_true_iff in H; destruct H
  | H : orb _ _ = false |- _ => apply orb_false_iff in H; destruct H
  | H : andb _ _ = false |- _ => apply andb_false_iff in H
  | H : orb _ _ = true |- _ => apply orb_true_iff in H
  | H : negb _ = true |- _ => apply negb_true_iff in H
  | H : negb _ = false |- _ => apply negb_false_iff in H
  | H : (_ =? _)%Z = true |- _ => apply Z.eqb_eq in H
  | H : (_ =? _)%Z = false |- _ => apply Z.eqb_neq in H
  | H : (_ <? _)%Z = true |- _ => apply Z.ltb_lt in H
  | H : (_ <? _)%Z = false |- _ => apply Z.ltb_ge in H
  | H : (_ <=? _)%Z = true |- _ => apply Z.leb_le in H
  | H : (_ <=? _)%Z = false |- _ => apply Z.leb_gt in H
  | H : (_ >? _)%Z = true |- _ => rewrite Z.gtb_ltb in H
  | H : (_ >? _)%Z = false |- _ => rewrite Z.gtb_ltb in H
  | H : (_ >=? _)%Z = true |- _ => rewrite Z.geb_leb in H
  | H : (_ >=? _)%Z = false |- _ => rewrite Z.geb_leb in H
  end.

(** ** Lists *)
Section Lists.
Context {A : Type}.
Implicit Types (l k : list A).

(** [slice n len l]: the [len] elements of [l] from index [n]. *)
Definition slice (n len : nat) l : list A := take len (drop n l).

(** [splice n k l]: [l] with the elements from index [n] overwritten by [k]
    (the caller stays inside [l], as a checked pointer write does). *)
Definition splice (n : nat) k l : list A := take n l ++ k ++ drop (n + length k) l.

Lemma length_slice n len l : n + len <= length l -> length (slice n len l) = len.
Proof. intros. unfold slice. rewrite length_take, length_drop. lia. Qed.

Lemma length_splice n k l : n + length k <= length l -> length (splice n k l) = length l.
Proof. intros. unfold splice. rewrite !length_app, length_take, length_drop. lia. Qed.

Lemma slice_splice_eq n k l :
  n + length k <= length l -> slice n (length k) (splice n k l) = k.
Proof.
  intros. unfold slice, splice.
  rewrite drop_app_length' by (rewrite length_take; lia).
  by rewrite take_app_length.
Qed.

Lemma slice_take n len m l : n + len <= m -> slice n len (take m l) = slice n len l.
Proof.
  intros. unfold slice. rewrite skipn_firstn_comm, take_take. f_equal. lia.
Qed.

Lemma slice_splice_before n len m k l :
  n + len <= m -> m + length k <= length l -> slice n len (splice m k l) = slice n len l.
Proof.
  intros. unfold slice, splice. apply list_eq. intros i.
  destruct (decide (i < len)) as [Hi|Hi].
  - rewrite !lookup_take_lt, !lookup_drop by lia.
    rewrite lookup_app_l by (rewrite length_take; lia). by rewrite lookup_take_lt by lia.
  - by rewrite !lookup_take_ge by lia.
Qed.

Lemma slice_splice_after n len m k l :
  m + length k <= n -> n + len <= length l -> slice n len (splice m k l) = slice n len l.
Proof.
  intros. unfold slice, splice. apply list_eq. intros i.
  destruct (decide (i < len)) as [Hi|Hi].
  - rewrite !lookup_take_lt, !lookup_drop by lia.
    rewrite lookup_app_r; rewrite length_take; [|lia].
    rewrite lookup_app_r by lia. rewrite lookup_drop. f_equal. lia.
  - by rewrite !lookup_take_ge by lia.
Qed.
End Lists.

(** [slice::chunks]: consecutive pieces of [n] elements, the last one possibly
    shorter; the fuel is the length of the list, and every piece of a positive
    size uses up at least one element. *)
Fixpoint chunks_fuel {A} (fuel n : nat) (l : list A) : list (list A) :=
  match fuel, l with
  | _, [] => []
  | O, _ => []
  | S fuel, _ => take n l :: chunks_fuel fuel n (drop n l)
  end.

Definition chunks {A} (n : nat) (l : list A) : list (list A) := chunks_fuel (length l) n l.

Lemma concat_chunks {A} n (l : list A) : 0 < n -> concat (chunks n l) = l.
Proof.
  unfold chunks. intros Hn. remember (length l) as fuel eqn:E.
  assert (length l <= fuel) as Hf by lia. clear E. revert l Hf.
  induction fuel as [|fuel IH]; intros [|x l] Hf; cbn in *; try done; [lia|].
  rewrite IH by (rewrite length_drop; cbn; lia). by rewrite take_drop.
Qed.

Section Filter.
Context {A : Type} (P : A -> Prop) `{!forall x, Decision (P x)}.

Lemma Forall_filter_self (l : list A) : Forall P (filter P l).
Proof. apply list.Forall_forall. intros x Hx. by apply list_elem_of_filter in Hx as [? _]. Qed.

Lemma filter_all (l : list A) : Forall P l -> filter P l = l.
Proof.
  induction 1 as [|x l Hx _ IH]; [done|]. rewrite filter_cons, decide_True by done. by rewrite IH.
Qed.

Lemma filter_none (l : list A) : Forall (fun x => ~ P x) l -> filter P l = [].
Proof. induction 1 as [|x l Hx _ IH]; [done|]. by rewrite filter_cons, decide_False. Qed.
End Filter.

Lemma Forall_filter_in {A} (P Q : A -> Prop) `{!forall x, Decision (Q x)} (l : list A) :
  Forall P l -> Forall P (filter Q l).
Proof. rewrite !list.Forall_forall. intros Hl x [_ Hx]%list_elem_of_filter. by apply Hl. Qed.
