(* ===== verification/Words.v ===== *)
(** * Words: fixed-width integers and their bytes in memory

    The Rust integer operations the sources use, on [Z] with the width written
    out: wrapping and saturating arithmetic, byte order conversion, and the
    little-endian layout of integers in packet and map memory (the data plane
    is built for [bpfel-unknown-none], so [to_be]/[from_be] swap bytes). *)
From S2P Require Import Prelude.
#[local] Open Scope Z_scope.

(** ** Arithmetic *)
Definition u8_MAX : Z := 255.
Definition u16_MAX : Z := 65535.
Definition u32_MAX : Z := 4294967295.
Definition u64_MAX : Z := 18446744073709551615.

(** [x as uN], and the result of an N-bit wrapping operation. *)
Definition wrap (w x : Z) : Z := x mod 2 ^ w.

Definition wrapping_add (w a b : Z) : Z := wrap w (a + b).
Definition wrapping_sub (w a b : Z) : Z := wrap w (a - b).
Definition wrapping_mul (w a b : Z) : Z := wrap w (a * b).
Definition saturating_add (w a b : Z) : Z := Z.min (a + b) (2 ^ w - 1).
Definition saturating_sub (a b : Z) : Z := Z.max (a - b) 0.
Definition saturating_mul (w a b : Z) : Z := Z.min (a * b) (2 ^ w - 1).

(** [!x] on an N-bit integer. *)
Definition wnot (w x : Z) : Z := 2 ^ w - 1 - x.

(** [u32::rotate_left]. *)
Definition rotate_left32 (x n : Z) : Z :=
  Z.lor (wrap 32 (Z.shiftl x n)) (Z.shiftr x (32 - n)).

(** A [u8] used as a flag. *)
Definition nz (x : Z) : bool := negb (x =? 0).

(** ** Bytes *)
Fixpoint le_bytes (n : nat) (x : Z) : list Z :=
  match n with
  | O => []
  | S n' => x mod 256 :: le_bytes n' (x / 256)
  end.

Fixpoint le_val (bs : list Z) : Z :=
  match bs with
  | [] => 0
  | b :: bs' => b + 256 * le_val bs'
  end.

Definition be_bytes (n : nat) (x : Z) : list Z := reverse (le_bytes n x).
Definition be_val (bs : list Z) : Z := le_val (reverse bs).

(** [uN::to_be] and [uN::from_be] on a little-endian target, N = 8 * n. *)
Definition bswap (n : nat) (x : Z) : Z := be_val (le_bytes n x).

Definition is_byte (b : Z) : Prop := 0 <= b < 256.
Definition bytes_ok (bs : list Z) : Prop := Forall is_byte bs.

(** ** Facts *)
Lemma wrap_range w x : 0 <= w -> 0 <= wrap w x < 2 ^ w.
Proof. intros. unfold wrap. apply Z.mod_pos_bound. lia. Qed.

Lemma wrap_small w x : 0 <= x < 2 ^ w -> wrap w x = x.
Proof. intros. unfold wrap. by apply Z.mod_small. Qed.

Lemma saturating_add_range w a b : 0 <= w -> 0 <= a -> 0 <= b -> 0 <= saturating_add w a b < 2 ^ w.
Proof.
  intros. unfold saturating_add. pose proof (Z.pow_pos_nonneg 2 w). lia.
Qed.

Lemma saturating_sub_range a b m : 0 <= a <= m -> 0 <= b -> 0 <= saturating_sub a b <= m.
Proof. unfold saturating_sub. lia. Qed.

Lemma nz_false x : nz x = false <-> x = 0.
Proof. unfold nz. rewrite negb_false_iff. apply Z.eqb_eq. Qed.

Lemma nz_true x : nz x = true <-> x <> 0.
Proof. unfold nz. rewrite negb_true_iff. apply Z.eqb_neq. Qed.

Lemma length_le_bytes n x : length (le_bytes n x) = n.
Proof. revert x. induction n as [|n IH]; intros x; cbn; [done|]. by rewrite IH. Qed.

Lemma length_be_bytes n x : length (be_bytes n x) = n.
Proof. unfold be_bytes. by rewrite length_reverse, length_le_bytes. Qed.

Lemma le_bytes_ok n x : bytes_ok (le_bytes n x).
Proof.
  revert x. induction n as [|n IH]; intros x; cbn; constructor; [|apply IH].
  apply Z.mod_pos_bound. lia.
Qed.

Lemma bytes_ok_reverse bs : bytes_ok bs -> bytes_ok (reverse bs).
Proof. unfold bytes_ok. by rewrite Forall_reverse. Qed.

Lemma bytes_ok_app bs cs : bytes_ok (bs ++ cs) <-> bytes_ok bs /\ bytes_ok cs.
Proof. apply Forall_app. Qed.

Lemma pow256_S (n : nat) : 256 ^ Z.of_nat (S n) = 256 * 256 ^ Z.of_nat n.
Proof. rewrite Nat2Z.inj_succ. apply Z.pow_succ_r. lia. Qed.

Lemma le_val_range bs : bytes_ok bs -> 0 <= le_val bs < 256 ^ Z.of_nat (length bs).
Proof.
  induction 1 as [|b bs Hb _ IH]; [cbn; lia|].
  cbn [le_val length]. rewrite pow256_S. unfold is_byte in Hb. nia.
Qed.

Lemma le_val_le_bytes n x : 0 <= x < 256 ^ Z.of_nat n -> le_val (le_bytes n x) = x.
Proof.
  revert x. induction n as [|n IH]; intros x Hx; [cbn in *; lia|].
  rewrite pow256_S in Hx. cbn [le_bytes le_val].
  rewrite IH by (split; [apply Z.div_pos; lia | apply Z.div_lt_upper_bound; lia]).
  rewrite (Z.div_mod x 256) at 3 by lia. lia.
Qed.

Lemma le_bytes_le_val bs : bytes_ok bs -> le_bytes (length bs) (le_val bs) = bs.
Proof.
  induction 1 as [|b bs Hb _ IH]; [done|].
  cbn [length le_bytes le_val]. unfold is_byte in Hb. f_equal.
  - rewrite Z.mul_comm, Z_mod_plus_full. by apply Z.mod_small.
  - rewrite Z.mul_comm, Z_div_plus_full, Z.div_small by lia. exact IH.
Qed.

Lemma be_val_range bs : bytes_ok bs -> 0 <= be_val bs < 256 ^ Z.of_nat (length bs).
Proof.
  intros H. unfold be_val. rewrite <- length_reverse.
  apply le_val_range. by apply bytes_ok_reverse.
Qed.

Lemma bswap_range n x : 0 <= bswap n x < 256 ^ Z.of_nat n.
Proof.
  unfold bswap. pose proof (be_val_range _ (le_bytes_ok n x)) as H.
  by rewrite length_le_bytes in H.
Qed.

Lemma le_bytes_bswap n x : le_bytes n (bswap n x) = be_bytes n x.
Proof.
  unfold bswap, be_val, be_bytes.
  rewrite <- (length_le_bytes n x) at 1. rewrite <- length_reverse.
  apply le_bytes_le_val, bytes_ok_reverse, le_bytes_ok.
Qed.

Lemma bswap_involutive n x : 0 <= x < 256 ^ Z.of_nat n -> bswap n (bswap n x) = x.
Proof.
  intros Hx. unfold bswap at 1. rewrite le_bytes_bswap. unfold be_val, be_bytes.
  rewrite reverse_involutive. by apply le_val_le_bytes.
Qed.

(** Reading a byte-swapped load is reading the bytes in network order. *)
Lemma bswap_le_val bs : bytes_ok bs -> bswap (length bs) (le_val bs) = be_val bs.
Proof. intros H. unfold bswap. by rewrite le_bytes_le_val. Qed.

Create HintDb words.
#[export] Hint Resolve le_bytes_ok bytes_ok_reverse : words.

(** ** Bit fields *)
Lemma land_low_shiftl a b n : 0 <= n -> 0 <= a < 2 ^ n -> Z.land a (Z.shiftl b n) = 0.
Proof.
  intros Hn Ha. apply Z.bits_inj'. intros i Hi.
  rewrite Z.land_spec, Z.bits_0, Z.shiftl_spec by lia.
  destruct (Z.ltb_spec i n).
  - rewrite (Z.testbit_neg_r b) by lia. apply andb_false_r.
  - rewrite <- (Z.mod_small a (2 ^ n)) by lia.
    by rewrite Z.mod_pow2_bits_high by lia.
Qed.

(** Packing a low field [a] of [n] bits under a field [b]. *)
Lemma lor_low_shiftl a b n :
  0 <= n -> 0 <= a < 2 ^ n -> Z.lor a (Z.shiftl b n) = a + b * 2 ^ n.
Proof.
  intros Hn Ha. pose proof (Z.add_lor_land a (Z.shiftl b n)) as H.
  rewrite land_low_shiftl in H by done. rewrite Z.shiftl_mul_pow2 in H |- * by done. lia.
Qed.

Lemma lor_shiftl_low a b n :
  0 <= n -> 0 <= a < 2 ^ n -> Z.lor (Z.shiftl b n) a = b * 2 ^ n + a.
Proof. intros. rewrite Z.lor_comm, lor_low_shiftl by done. lia. Qed.

Lemma land_mask x n m : 0 <= n -> m = Z.ones n -> Z.land x m = x mod 2 ^ n.
Proof. intros Hn ->. by apply Z.land_ones. Qed.

Lemma shiftr_div x n : 0 <= n -> Z.shiftr x n = x / 2 ^ n.
Proof. apply Z.shiftr_div_pow2. Qed.

Lemma div_low_high a b n : 0 <= n -> 0 <= a < 2 ^ n -> (a + b * 2 ^ n) / 2 ^ n = b.
Proof. intros. rewrite Z.div_add, Z.div_small by lia. lia. Qed.

Lemma mod_low_high a b n : 0 <= n -> 0 <= a < 2 ^ n -> (a + b * 2 ^ n) mod 2 ^ n = a.
Proof. intros. rewrite Z.mod_add by lia. by apply Z.mod_small. Qed.

(** ** Big-endian values *)
Lemma be_val_be_bytes n x : 0 <= x < 256 ^ Z.of_nat n -> be_val (be_bytes n x) = x.
Proof. intros H. unfold be_val, be_bytes. rewrite reverse_involutive. by apply le_val_le_bytes. Qed.

Lemma be_bytes_be_val bs : bytes_ok bs -> be_bytes (length bs) (be_val bs) = bs.
Proof.
  intros H. unfold be_bytes, be_val. rewrite <- length_reverse at 1.
  rewrite le_bytes_le_val by (by apply bytes_ok_reverse). apply reverse_involutive.
Qed.

Lemma be_val_app a b : be_val (a ++ b) = be_val a * 256 ^ Z.of_nat (length b) + be_val b.
Proof.
  unfold be_val. rewrite reverse_app, <- (length_reverse b).
  induction (reverse b) as [|x l IH]; cbn [app le_val length]; [rewrite Z.pow_0_r; lia|].
  rewrite IH, pow256_S. ring.
Qed.
