(* ===== verification/Common.v ===== *)
(** * Common: the data shared by the data plane and the control plane

    [eshield-common/src/lib.rs]: the map keys and values, the runtime
    configuration, the statistics, the ring-buffer records and the constants.
    Integers are [Z] in the range of their Rust type, byte arrays are lists of
    bytes, and each struct is the record [t] of a module that bears its name. *)
From S2P Require Import Prelude Words.
#[local] Open Scope Z_scope.

(** ** Addresses *)
Inductive IpFamily := Ipv4 | Ipv6.

Definition IpFamily_as_u8 (f : IpFamily) : Z :=
  match f with Ipv4 => 4 | Ipv6 => 6 end.

Definition IpFamily_from_u8 (v : Z) : option IpFamily :=
  if v =? 4 then Some Ipv4 else if v =? 6 then Some Ipv6 else None.

Module IpKey.
Record t := mk {
  family : Z;
  addr : list Z;
  padding : list Z;
}.
End IpKey.

Definition IpKey_default : IpKey.t :=
  IpKey.mk 0 (replicate 16 0) (replicate 15 0).

(** The IPv4 octets go to the last four bytes of the address. *)
Definition from_ipv4 (octets : list Z) : IpKey.t :=
  IpKey.mk (IpFamily_as_u8 Ipv4) (replicate 12 0 ++ octets) (replicate 15 0).

Definition from_ipv6 (addr : list Z) : IpKey.t :=
  IpKey.mk (IpFamily_as_u8 Ipv6) addr (replicate 15 0).

Definition IpKey_family (k : IpKey.t) : option IpFamily :=
  IpFamily_from_u8 (IpKey.family k).

(** [u32::from_be_bytes] of the last four address bytes. *)
Definition ipv4 (k : IpKey.t) : Z := be_val (slice 12 4 (IpKey.addr k)).

(** ** Events and rules *)
Module DropEvent.
Record t := mk {
  timestamp_ns : Z;
  src_ip : list Z;
  family : Z;
  protocol : Z;
  rule_id : Z;
  dst_port : Z;
}.
End DropEvent.

Module rules.
Definition UNKNOWN : Z := 0.
Definition BLACKLIST : Z := 1.
Definition RATE_LIMIT : Z := 2.
Definition SYN_FLOOD : Z := 3.
Definition L7_PATTERN : Z := 4.
Definition ADAPTIVE : Z := 5.
Definition API_BLOCK : Z := 6.
Definition PORT_ACL : Z := 7.
Definition UDP_FLOOD : Z := 8.
Definition ICMP_FLOOD : Z := 9.
Definition GEOIP : Z := 10.
Definition THREAT_INTEL : Z := 11.
Definition PROJECT_POLICY : Z := 12.
Definition CONN_TRACK : Z := 13.
Definition FRAGMENT : Z := 14.
Definition PORT_RATE : Z := 15.
End rules.

(** ** Map values *)
Module BlockEntry.
Record t := mk {
  blocked_until_ns : Z;
  first_seen_ns : Z;
  hit_count : Z;
  block_reason : Z;
  last_reason : Z;
}.
#[global] Instance eta_t : Eta t := fun r =>
  mk (blocked_until_ns r) (first_seen_ns r) (hit_count r) (block_reason r) (last_reason r).
End BlockEntry.

Definition BLOCK_PERMANENT : Z := 0.

Module TrustEntry.
Record t := mk {
  last_update_ns : Z;
  trust_score : Z;
  pass_count : Z;
  drop_count : Z;
  level : Z;
}.
#[global] Instance eta_t : Eta t := fun r =>
  mk (last_update_ns r) (trust_score r) (pass_count r) (drop_count r) (level r).
End TrustEntry.

Definition TrustEntry_default : TrustEntry.t := TrustEntry.mk 0 0 0 0 0.

Definition TRUST_MAX : Z := 1000.
Definition TRUST_MIN : Z := 0.
Definition TRUST_ADD_DIVISOR : Z := 100.
Definition TRUST_SUB_DIVISOR : Z := 3.
Definition TRUST_DEFAULT : Z := 500.

Module ConnTrackEntry.
Record t := mk {
  last_seen_ns : Z;
  half_open : Z;
}.
End ConnTrackEntry.

Definition MAX_PORT_ACL : Z := 32.
Definition MAX_L7_PATTERNS : Z := 8.

Module RateCounter.
Record t := mk {
  counter : Z;
  last_decay_ns : Z;
}.
End RateCounter.

(** The LPM trie keys are the bytes of the address as they lie in memory:
    [addr.to_be()] for IPv4, the octets for IPv6. *)
Definition WhitelistKeyV4 (addr : Z) : list Z := le_bytes 4 addr.
Definition WhitelistKeyV6 (addr : list Z) : list Z := addr.
Definition GeoIpKeyV4 (addr : Z) : list Z := le_bytes 4 addr.
Definition GeoIpKeyV6 (addr : list Z) : list Z := addr.

Module GlobalStats.
Record t := mk {
  total_packets : Z;
  total_dropped : Z;
  total_passed : Z;
  syn_flood_blocked : Z;
  rate_limited : Z;
  l7_blocked : Z;
  udp_flood_blocked : Z;
  icmp_flood_blocked : Z;
  geoip_blocked : Z;
  blacklist_blocked : Z;
  tcp_rst_sent : Z;
  tcp_rst_fail : Z;
  tcp_rst_attempt : Z;
  tcp_dropped : Z;
  udp_dropped : Z;
  icmp_dropped : Z;
  other_dropped : Z;
  blacklist_gen : Z;
  blacklist_hit_gen : Z;
  fragment_blocked : Z;
  port_rate_blocked : Z;
  conn_track_blocked : Z;
  trust_pass_sample : Z;
  trust_drop_sample : Z;
  blacklist_hit_sample : Z;
  top_attacker_sample : Z;
}.
#[global] Instance eta_t : Eta t := fun r =>
  mk (total_packets r) (total_dropped r) (total_passed r) (syn_flood_blocked r)
     (rate_limited r) (l7_blocked r) (udp_flood_blocked r) (icmp_flood_blocked r)
     (geoip_blocked r) (blacklist_blocked r) (tcp_rst_sent r) (tcp_rst_fail r)
     (tcp_rst_attempt r) (tcp_dropped r) (udp_dropped r) (icmp_dropped r)
     (other_dropped r) (blacklist_gen r) (blacklist_hit_gen r) (fragment_blocked r)
     (port_rate_blocked r) (conn_track_blocked r) (trust_pass_sample r)
     (trust_drop_sample r) (blacklist_hit_sample r) (top_attacker_sample r).
End GlobalStats.

Definition GlobalStats_default : GlobalStats.t :=
  GlobalStats.mk 0 0 0 0 0 0 0 0 0 0 0 0 0 0 0 0 0 0 0 0 0 0 0 0 0 0.

Module RuntimeConfig.
Record t := mk {
  trust_add_divisor : Z;
  trust_sub_divisor : Z;
  conn_track_threshold : Z;
  conn_track_window_ms : Z;
  packet_log_sample_rate : Z;
  rate_limit_enabled : Z;
  syn_proxy_enabled : Z;
  l7_scan_enabled : Z;
  udp_flood_enabled : Z;
  icmp_flood_enabled : Z;
  geoip_enabled : Z;
  geoip_default_action : Z;
  tcp_reset_on_drop : Z;
  trust_enabled : Z;
  danger_level : Z;
  packet_log_enabled : Z;
  project_enabled : Z;
  port_acl_count : Z;
  l7_pattern_count : Z;
  port_rate_limit_enabled : Z;
  conn_track_enabled : Z;
  rate_limit_dport_grouping : Z;
  fragment_policy : Z;
  rate_limit_soft : Z;
}.
#[global] Instance eta_t : Eta t := fun r =>
  mk (trust_add_divisor r) (trust_sub_divisor r) (conn_track_threshold r)
     (conn_track_window_ms r) (packet_log_sample_rate r) (rate_limit_enabled r)
     (syn_proxy_enabled r) (l7_scan_enabled r) (udp_flood_enabled r)
     (icmp_flood_enabled r) (geoip_enabled r) (geoip_default_action r)
     (tcp_reset_on_drop r) (trust_enabled r) (danger_level r) (packet_log_enabled r)
     (project_enabled r) (port_acl_count r) (l7_pattern_count r)
     (port_rate_limit_enabled r) (conn_track_enabled r) (rate_limit_dport_grouping r)
     (fragment_policy r) (rate_limit_soft r).
End RuntimeConfig.

(** [RuntimeConfig::default()]: every module off. *)
Definition RuntimeConfig_default : RuntimeConfig.t :=
  RuntimeConfig.mk 0 0 0 0 0 0 0 0 0 0 0 0 0 0 0 0 0 0 0 0 0 0 0 0.

Module PacketSample.
Record t := mk {
  timestamp_ns : Z;
  src_ip : list Z;
  dst_ip : list Z;
  family : Z;
  protocol : Z;
  src_port : Z;
  dst_port : Z;
  action : Z;
  rule_id : Z;
  packet_len : Z;
  payload_bytes : Z;
  payload_sample : list Z;
}.
End PacketSample.

Module RateLimitConfig.
Record t := mk {
  threshold : Z;
  tick_ms : Z;
  decay_num : Z;
  decay_den : Z;
  block_duration_s : Z;
}.
End RateLimitConfig.

Definition RateLimitConfig_default : RateLimitConfig.t :=
  RateLimitConfig.mk 200 100 7 8 300.

Module CookieSecret.
Record t := mk {
  current : list Z;
  previous : list Z;
  bucket_index : Z;
}.
End CookieSecret.

Module L7Pattern.
Record t := mk {
  signature : Z;
  mask : Z;
  length : Z;
  action : Z;
}.
End L7Pattern.

Module PortAclEntry.
Record t := mk {
  protocol : Z;
  dport_low : Z;
  dport_high : Z;
  action : Z;
}.
End PortAclEntry.

Module ProjectPolicyKey.
Record t := mk {
  addr : Z;
  dport : Z;
  protocol : Z;
}.
End ProjectPolicyKey.

Module ProjectPolicy.
Record t := mk {
  flags : Z;
  action : Z;
}.
End ProjectPolicy.

Module project_modules.
Definition NONE : Z := 0.
Definition SYN_FLOOD : Z := Z.shiftl 1 0.
Definition UDP_FLOOD : Z := Z.shiftl 1 1.
Definition ICMP_FLOOD : Z := Z.shiftl 1 2.
Definition RATE_LIMIT : Z := Z.shiftl 1 3.
Definition ADAPTIVE : Z := Z.shiftl 1 4.
Definition L7_SCAN : Z := Z.shiftl 1 5.
Definition GEOIP : Z := Z.shiftl 1 6.
Definition TCP_RESET : Z := Z.shiftl 1 7.
Definition PORT_ACL : Z := Z.shiftl 1 8.
Definition CONN_TRACK : Z := Z.shiftl 1 9.
End project_modules.

Module project_action.
Definition NONE : Z := 0.
Definition PASS : Z := 1.
Definition DROP : Z := 2.
Definition DEFEND : Z := 3.
End project_action.

Module RateLimitPortKey.
Record t := mk {
  ip : IpKey.t;
  dport : Z;
}.
End RateLimitPortKey.

Module PortRateKey.
Record t := mk {
  dport : Z;
  protocol : Z;
}.
End PortRateKey.

Definition PROJECT_FLAGS_ALL : Z := u16_MAX.

(** ** Decidable equality of the map keys *)
#[export] Instance IpFamily_eq_dec : EqDecision IpFamily.
Proof. solve_decision. Defined.

#[export] Instance IpKey_eq_dec : EqDecision IpKey.t.
Proof. solve_decision. Defined.

#[export] Instance ProjectPolicyKey_eq_dec : EqDecision ProjectPolicyKey.t.
Proof. solve_decision. Defined.

#[export] Instance RateLimitPortKey_eq_dec : EqDecision RateLimitPortKey.t.
Proof. solve_decision. Defined.

#[export] Instance PortRateKey_eq_dec : EqDecision PortRateKey.t.
Proof. solve_decision. Defined.

#[export] Instance BlockEntry_eq_dec : EqDecision BlockEntry.t.
Proof. solve_decision. Defined.

(** ** Facts about addresses *)
Lemma from_ipv4_family octets : IpKey_family (from_ipv4 octets) = Some Ipv4.
Proof. reflexivity. Qed.

Lemma from_ipv6_family addr : IpKey_family (from_ipv6 addr) = Some Ipv6.
Proof. reflexivity. Qed.

Lemma ipv4_from_ipv4 octets :
  length octets = 4%nat -> ipv4 (from_ipv4 octets) = be_val octets.
Proof.
  intros H. unfold ipv4, from_ipv4, slice. cbn [IpKey.addr].
  rewrite drop_app_length' by done. by rewrite <- H, firstn_all.
Qed.

