(* ===== verification/Pure.v ===== *)
(** * Pure: the computations shared by kernel and user space

    [eshield-common/src/pure.rs]: merging black-list entries, the SYN cookie
    hash, the RFC 1071 checksums, the decaying rate counter, matching one port
    ACL rule and one step of connection tracking. *)
From S2P Require Import Prelude Words Common.
#[local] Open Scope Z_scope.

(** ** Black-list entries *)

(** The guard of the first match arm: the old entry is still in force. *)
Definition block_live (p : BlockEntry.t) (now_ns : Z) : bool :=
  (BlockEntry.blocked_until_ns p =? BLOCK_PERMANENT)
  || (now_ns <? BlockEntry.blocked_until_ns p).

Definition merge_block_entry (prev : option BlockEntry.t)
    (now_ns blocked_until_ns reason : Z) (explicit : bool) : BlockEntry.t :=
  let fresh := BlockEntry.mk blocked_until_ns now_ns 0 reason 0 in
  match prev with
  | Some p =>
      if block_live p now_ns then
        let until :=
          if (BlockEntry.blocked_until_ns p =? BLOCK_PERMANENT)
             || (blocked_until_ns =? BLOCK_PERMANENT) then BLOCK_PERMANENT
          else if BlockEntry.blocked_until_ns p >? blocked_until_ns
               then BlockEntry.blocked_until_ns p else blocked_until_ns in
        if explicit then
          BlockEntry.mk until (BlockEntry.first_seen_ns p) (BlockEntry.hit_count p) reason
            (if negb (BlockEntry.block_reason p =? reason)
             then BlockEntry.block_reason p else BlockEntry.last_reason p)
        else
          BlockEntry.mk until (BlockEntry.first_seen_ns p) (BlockEntry.hit_count p)
            (BlockEntry.block_reason p)
            (if negb (reason =? BlockEntry.block_reason p)
             then reason else BlockEntry.last_reason p)
      else fresh
  | None => fresh
  end.

(** ** SYN cookies *)
Definition mix (h v : Z) : Z :=
  let h := wrapping_add 32 h v in
  let h := rotate_left32 h 5 in
  Z.lxor h (Z.shiftr h 16).

Definition COOKIE_SECRET_LEN : nat := 16.

Definition secret_words (secret : list Z) : list Z :=
  [le_val (slice 0 4 secret); le_val (slice 4 4 secret);
   le_val (slice 8 4 secret); le_val (slice 12 4 secret)].

Definition build_cookie_words (saddr daddr sport dport bucket mss_idx : Z)
    (words : list Z) : Z :=
  let h := 0x9e3779b9 in
  let h := mix h (bswap 4 saddr) in
  let h := mix h (bswap 4 daddr) in
  let h := mix h (Z.lor (Z.shiftl sport 16) dport) in
  let h := mix h bucket in
  let h := mix h mss_idx in
  let h := foldl mix h words in
  Z.lor (wrap 32 (Z.shiftl mss_idx 30)) (Z.land h 0x3fffffff).

Definition build_cookie (saddr daddr sport dport bucket mss_idx : Z)
    (secret : list Z) : Z :=
  build_cookie_words saddr daddr sport dport bucket mss_idx (secret_words secret).

Definition build_cookie_runtime (addr_pair port_bucket : Z) (secret : list Z)
    (mss_idx : Z) : Z :=
  let saddr := wrap 32 (Z.land addr_pair 0xffffffff) in
  let daddr := wrap 32 (Z.shiftr addr_pair 32) in
  let sport := wrap 16 (Z.land port_bucket 0xffff) in
  let dport := wrap 16 (Z.land (Z.shiftr port_bucket 16) 0xffff) in
  let bucket := wrap 32 (Z.shiftr port_bucket 32) in
  build_cookie_words saddr daddr sport dport bucket mss_idx (secret_words secret).

Definition mss_to_idx (mss : Z) : Z :=
  if mss >=? 1460 then 2 else if mss >=? 1300 then 1 else 0.

(** ** Checksums *)

(** The [while] loops: two bytes per step, a trailing byte as the high half. *)
Fixpoint sum_words (data : list Z) (sum : Z) : Z :=
  match data with
  | a :: b :: rest =>
      sum_words rest (wrapping_add 32 sum (Z.lor (Z.shiftl a 8) b))
  | [a] => wrapping_add 32 sum (Z.shiftl a 8)
  | [] => sum
  end.

(** The [for _ in 0..n] fold with its early exit. *)
Fixpoint fold_carry (n : nat) (sum : Z) : Z :=
  match n with
  | O => sum
  | S n' =>
      if Z.shiftr sum 16 =? 0 then sum
      else fold_carry n' (wrapping_add 32 (Z.land sum 0xffff) (Z.shiftr sum 16))
  end.

Definition checksum (data : list Z) : Z :=
  wnot 16 (wrap 16 (fold_carry 4 (sum_words data 0))).

Definition tcp_checksum (saddr daddr proto : Z) (tcp_data : list Z) : Z :=
  let sum := 0 in
  let sum := wrapping_add 32 sum (Z.land (Z.shiftr saddr 16) 0xffff) in
  let sum := wrapping_add 32 sum (Z.land saddr 0xffff) in
  let sum := wrapping_add 32 sum (Z.land (Z.shiftr daddr 16) 0xffff) in
  let sum := wrapping_add 32 sum (Z.land daddr 0xffff) in
  let sum := wrapping_add 32 sum proto in
  let sum := wrapping_add 32 sum (wrap 32 (Z.of_nat (length tcp_data))) in
  wnot 16 (wrap 16 (fold_carry 4 (sum_words tcp_data sum))).

(** ** Rate counters *)
Definition decay_step (decay_num decay_den decayed : Z) : Z :=
  wrapping_mul 64 decayed decay_num / decay_den.

Definition decay_counter (counter elapsed_ns tick_ns decay_num decay_den : Z) : Z :=
  if (tick_ns =? 0) || (decay_den =? 0) then counter
  else
    let ticks := elapsed_ns / tick_ns in
    let effective_ticks := Z.min ticks 64 in
    Nat.iter (Z.to_nat effective_ticks) (decay_step decay_num decay_den) counter.

(** ** Port ACL *)
Inductive AclMatch := Allow | Drop.

Definition match_port_acl_entry (protocol dport entry_protocol dport_low dport_high
    action : Z) : option AclMatch :=
  if action =? 0 then None
  else if negb (entry_protocol =? 0) && negb (entry_protocol =? protocol) then None
  else
    let port_ok :=
      if negb (dport_low =? 0) then
        if negb (dport_high =? 0) then
          negb ((dport <? dport_low) || (dport >? dport_high))
        else negb (negb (dport =? dport_low))
      else true in
    if port_ok then
      (if action =? 1 then Some Allow else if action =? 2 then Some Drop else None)
    else None.

(** ** Connection tracking *)
Module ConnTrackStep.
Record t := mk {
  half_open : Z;
  last_seen_ns : Z;
  drop : bool;
}.
End ConnTrackStep.

Definition conn_track_step (half_open last_seen_ns now_ns : Z) (is_syn is_ack_or_rst : bool)
    (threshold window_ns : Z) : ConnTrackStep.t :=
  let half_open :=
    if negb (window_ns =? 0) && (saturating_sub now_ns last_seen_ns >? window_ns)
    then 0 else half_open in
  let half_open :=
    if is_syn then saturating_add 32 half_open 1
    else if is_ack_or_rst then saturating_sub half_open 1 else half_open in
  ConnTrackStep.mk half_open now_ns (half_open >? threshold).

(** ** Black-list entries: facts *)

(** Whether a fresh block until [until] is in force at time [t]. *)
Definition live_until (until t : Z) : bool := (until =? BLOCK_PERMANENT) || (t <? until).

Lemma merge_block_entry_live_eq prev now_ns until reason explicit t :
  block_live (merge_block_entry prev now_ns until reason explicit) t =
  match prev with
  | Some p => (block_live p now_ns && block_live p t) || live_until until t
  | None => live_until until t
  end.
Proof.
  unfold merge_block_entry. destruct prev as [p|]; [|done].
  destruct (block_live p now_ns); cbn [andb orb]; [|done].
  unfold block_live, live_until. destruct explicit; cbn;
    repeat case_match; bool_to_prop; subst; lia.
Qed.

(** merging a block into one that is in force.  An automatic block keeps the
    cause first recorded and files its own as the latest; an explicit one takes
    over and files the old cause; neither changes the first-seen time, the hit
    count, or the deadline the other would set. *)
Theorem merge_block_entry_cause p now_ns until reason :
  block_live p now_ns = true ->
  let a := merge_block_entry (Some p) now_ns until reason false in
  let e := merge_block_entry (Some p) now_ns until reason true in
  BlockEntry.block_reason a = BlockEntry.block_reason p /\
  BlockEntry.block_reason e = reason /\
  (reason <> BlockEntry.block_reason p ->
     BlockEntry.last_reason a = reason /\
     BlockEntry.last_reason e = BlockEntry.block_reason p) /\
  (reason = BlockEntry.block_reason p ->
     BlockEntry.last_reason a = BlockEntry.last_reason p /\
     BlockEntry.last_reason e = BlockEntry.last_reason p) /\
  (forall x, x = a \/ x = e ->
     BlockEntry.first_seen_ns x = BlockEntry.first_seen_ns p /\
     BlockEntry.hit_count x = BlockEntry.hit_count p /\
     BlockEntry.blocked_until_ns x = BlockEntry.blocked_until_ns a).
Proof.
  intros Hl. cbv zeta. unfold merge_block_entry. rewrite Hl. cbn.
  repeat split; intros; destruct_or?; subst; cbn; try done;
    repeat case_match; bool_to_prop; congruence.
Qed.

(** ** SYN cookies: facts *)
Lemma build_cookie_words_layout saddr daddr sport dport bucket mss_idx words :
  0 <= mss_idx < 4 ->
  Z.shiftr (build_cookie_words saddr daddr sport dport bucket mss_idx words) 30 = mss_idx.
Proof.
  intros Hi. unfold build_cookie_words. cbv zeta.
  generalize (foldl mix (mix (mix (mix (mix (mix 0x9e3779b9 (bswap 4 saddr)) (bswap 4 daddr))
    (Z.lor (Z.shiftl sport 16) dport)) bucket) mss_idx) words). intros h.
  rewrite Z.shiftr_lor, Z.shiftr_land. change (Z.shiftr 0x3fffffff 30) with 0.
  rewrite Z.land_0_r, Z.lor_0_r. rewrite wrap_small by (rewrite Z.shiftl_mul_pow2; lia).
  rewrite Z.shiftr_shiftl_l by lia. apply Z.shiftl_0_r.
Qed.

Lemma build_cookie_words_range saddr daddr sport dport bucket mss_idx words :
  0 <= build_cookie_words saddr daddr sport dport bucket mss_idx words < 2 ^ 32.
Proof.
  unfold build_cookie_words. cbv zeta.
  generalize (foldl mix (mix (mix (mix (mix (mix 0x9e3779b9 (bswap 4 saddr)) (bswap 4 daddr))
    (Z.lor (Z.shiftl sport 16) dport)) bucket) mss_idx) words). intros h.
  pose proof (wrap_range 32 (Z.shiftl mss_idx 30)) as Hw.
  rewrite (land_mask h 30) by (done || reflexivity).
  pose proof (Z.mod_pos_bound h (2 ^ 30)) as Hh.
  assert (Hnn : 0 <= Z.lor (wrap 32 (Z.shiftl mss_idx 30)) (h mod 2 ^ 30)).
  { apply Z.lor_nonneg. lia. }
  split; [done|]. apply Z.log2_lt_cancel. rewrite Z.log2_pow2 by lia.
  rewrite Z.log2_lor by lia.
  apply Z.max_lub_lt.
  - destruct (decide (wrap 32 (Z.shiftl mss_idx 30) = 0)) as [->|]; [done|].
    apply Z.log2_lt_pow2; lia.
  - destruct (decide (h mod 2 ^ 30 = 0)) as [->|]; [done|].
    apply Z.log2_lt_pow2; lia.
Qed.

(** the cookie computed from the two packed 64-bit arguments equals the
    reference cookie of the unpacked addresses, ports and time bucket. *)
Theorem build_cookie_runtime_spec saddr daddr sport dport bucket mss_idx secret :
  0 <= saddr < 2 ^ 32 -> 0 <= daddr < 2 ^ 32 ->
  0 <= sport < 2 ^ 16 -> 0 <= dport < 2 ^ 16 -> 0 <= bucket < 2 ^ 32 ->
  build_cookie_runtime (Z.lor saddr (Z.shiftl daddr 32))
    (Z.lor (Z.lor sport (Z.shiftl dport 16)) (Z.shiftl bucket 32)) secret mss_idx
  = build_cookie saddr daddr sport dport bucket mss_idx secret.
Proof.
  intros. unfold build_cookie_runtime, build_cookie. cbv zeta.
  rewrite (lor_low_shiftl saddr), (lor_low_shiftl sport) by lia.
  rewrite (lor_low_shiftl (sport + _)) by lia.
  rewrite !(land_mask _ 32 0xffffffff), !(land_mask _ 16 0xffff) by done.
  rewrite !shiftr_div by done.
  rewrite (mod_low_high saddr), (div_low_high saddr) by lia.
  rewrite (div_low_high (sport + _)) by lia.
  replace (sport + dport * 2 ^ 16 + bucket * 2 ^ 32)
    with (sport + (dport + bucket * 2 ^ 16) * 2 ^ 16) by lia.
  rewrite (mod_low_high sport), (div_low_high sport) by lia.
  rewrite (mod_low_high dport) by lia.
  by rewrite !wrap_small by lia.
Qed.

(** ** Checksums: facts *)

(** The sum of the 16-bit big-endian words of [data]. *)
Fixpoint word_total (data : list Z) : Z :=
  match data with
  | a :: b :: rest => a * 256 + b + word_total rest
  | [a] => a * 256
  | [] => 0
  end.

(** One's-complement normal form of a non-negative sum. *)
Definition oc16 (s : Z) : Z := if s =? 0 then 0 else (s - 1) mod 65535 + 1.

Lemma two_step_ind (P : list Z -> Prop) :
  P [] -> (forall a, P [a]) -> (forall a b l, P l -> P (a :: b :: l)) -> forall l, P l.
Proof.
  intros H0 H1 H2 l. cut (P l /\ forall a, P (a :: l)); [by intros []|].
  induction l as [|x l [IH1 IH2]]; split; auto.
Qed.

Lemma word_total_nonneg data : bytes_ok data -> 0 <= word_total data.
Proof.
  induction data as [|a|a b l IH] using two_step_ind; intros H; cbn [word_total]; [lia| |];
    unfold bytes_ok, is_byte in *; rewrite ?Forall_cons_iff in H; [lia|].
  destruct H as (?&?&H). specialize (IH H). lia.
Qed.

Lemma word_total_app pre post :
  Nat.Even (length pre) -> word_total (pre ++ post) = word_total pre + word_total post.
Proof.
  induction pre as [|a|a b l IH] using two_step_ind; intros H; cbn; [done| |].
  - destruct H as [k Hk]. cbn in Hk. lia.
  - rewrite IH; [lia|]. destruct H as [k Hk]. cbn in Hk. exists (k - 1)%nat. lia.
Qed.

Lemma sum_words_spec data acc :
  bytes_ok data -> 0 <= acc -> acc + word_total data < 2 ^ 32 ->
  sum_words data acc = acc + word_total data.
Proof.
  revert acc. induction data as [|a|a b l IH] using two_step_ind;
    intros acc H Hacc Hsum; cbn [sum_words word_total] in *; [lia| |];
    unfold bytes_ok, is_byte in H; rewrite ?Forall_cons_iff in H.
  - unfold wrapping_add. rewrite Z.shiftl_mul_pow2 by lia. rewrite wrap_small; lia.
  - destruct H as (Ha & Hb & H). pose proof (word_total_nonneg l H) as Hn.
    rewrite lor_shiftl_low by lia.
    unfold wrapping_add. rewrite wrap_small by lia.
    rewrite IH; [lia|done|lia|lia].
Qed.

Lemma oc16_small s : 0 <= s <= 65535 -> oc16 s = s.
Proof.
  intros. unfold oc16. case_match; bool_to_prop; [lia|]. rewrite Z.mod_small; lia.
Qed.

Lemma oc16_range s : 0 <= s -> 0 <= oc16 s <= 65535.
Proof.
  intros. unfold oc16. case_match; [lia|].
  pose proof (Z.mod_pos_bound (s - 1) 65535). lia.
Qed.

Lemma oc16_carry s : 65536 <= s -> oc16 (s mod 65536 + s / 65536) = oc16 s.
Proof.
  intros. pose proof (Z.div_mod s 65536 ltac:(lia)) as E.
  pose proof (Z.mod_pos_bound s 65536 ltac:(lia)).
  assert (1 <= s / 65536) by (apply Z.div_le_lower_bound; lia).
  unfold oc16. repeat case_match; bool_to_prop; try lia.
  f_equal. rewrite E at 3.
  replace (65536 * (s / 65536) + s mod 65536 - 1)
    with (s mod 65536 + s / 65536 - 1 + s / 65536 * 65535) by lia.
  by rewrite Z.mod_add.
Qed.

Lemma fold_carry_spec n s : 0 <= s < 2 ^ 32 -> (2 <= n)%nat -> fold_carry n s = oc16 s.
Proof.
  intros Hs Hn.
  assert (Hlt : forall m x, 0 <= x < 65536 -> fold_carry m x = oc16 x).
  { intros m x Hx. rewrite oc16_small by lia. destruct m as [|m]; cbn; [done|].
    rewrite shiftr_div, Z.div_small by lia. done. }
  assert (Hstep : forall m x, 65536 <= x < 2 ^ 32 ->
    fold_carry (S m) x = fold_carry m (x mod 65536 + x / 65536)
    /\ 0 <= x mod 65536 + x / 65536 < 131071).
  { intros m x Hx. cbn [fold_carry]. rewrite (land_mask _ 16 0xffff), shiftr_div by done.
    pose proof (Z.mod_pos_bound x 65536 ltac:(lia)).
    assert (1 <= x / 65536) by (apply Z.div_le_lower_bound; lia).
    assert (x / 65536 < 65536) by (apply Z.div_lt_upper_bound; lia).
    change (2 ^ 16) with 65536. case_match; bool_to_prop; [lia|].
    unfold wrapping_add. rewrite wrap_small by lia. split; [done|lia]. }
  destruct (Z.lt_ge_cases s 65536) as [?|Hge]; [apply Hlt; lia|].
  destruct n as [|[|n]]; [lia|lia|].
  destruct (Hstep (S n) s ltac:(lia)) as [-> Hr].
  rewrite <- (oc16_carry s) by lia. revert Hr.
  generalize (s mod 65536 + s / 65536). intros x Hx.
  destruct (Z.lt_ge_cases x 65536) as [?|Hge']; [apply Hlt; lia|].
  destruct (Hstep n x ltac:(lia)) as [-> Hr']. rewrite <- (oc16_carry x) by lia.
  apply Hlt.
  assert (Hq : x / 65536 = 1) by (symmetry; apply (Z.div_unique_pos _ _ _ (x - 65536)); lia).
  rewrite (Z.mod_eq x 65536), Hq by lia. lia.
Qed.

(** The checksum is the complement of the one's-complement sum of the words. *)
Lemma word_total_bound data :
  bytes_ok data -> word_total data <= 65535 * ((Z.of_nat (length data) + 1) / 2).
Proof.
  induction data as [|a|a b l IH] using two_step_ind; intros H; cbn [word_total length];
    unfold bytes_ok, is_byte in *; rewrite ?Forall_cons_iff in H; [done|change ((Z.of_nat 1 + 1) / 2) with 1; lia|].
  destruct H as (?&?&H). specialize (IH H).
  replace (Z.of_nat (S (S (length l))) + 1) with (Z.of_nat (length l) + 1 + 1 * 2) by lia.
  rewrite Z.div_add by lia. lia.
Qed.

Lemma checksum_spec data :
  bytes_ok data -> Z.of_nat (length data) <= 65536 ->
  checksum data = 65535 - oc16 (word_total data).
Proof.
  intros H Hl. unfold checksum, wnot.
  pose proof (word_total_bound data H). pose proof (word_total_nonneg data H).
  assert ((Z.of_nat (length data) + 1) / 2 < 32769).
  { apply Z.div_lt_upper_bound; lia. }
  rewrite sum_words_spec by (done || lia).
  rewrite Z.add_0_l, fold_carry_spec by lia.
  rewrite wrap_small by (pose proof (oc16_range (word_total data)); lia).
  change (2 ^ 16) with 65536. lia.
Qed.

Lemma checksum_range data :
  bytes_ok data -> Z.of_nat (length data) <= 65536 -> 0 <= checksum data <= 65535.
Proof.
  intros H Hl. rewrite checksum_spec by done.
  pose proof (oc16_range (word_total data) (word_total_nonneg data H)). lia.
Qed.

Lemma oc16_complement s : 0 <= s -> oc16 (s + (65535 - oc16 s)) = 65535.
Proof.
  intros Hs. pose proof (oc16_range s Hs). unfold oc16 in *.
  destruct (s =? 0) eqn:E; bool_to_prop; [by subst|].
  case_match; bool_to_prop; [lia|].
  pose proof (Z.div_mod (s - 1) 65535 ltac:(lia)) as D.
  set (m := (s - 1) mod 65535) in *.
  replace (s + (65535 - (m + 1)) - 1) with (65534 + (s - 1) / 65535 * 65535) by lia.
  by rewrite Z.mod_add.
Qed.

Lemma word_total_be_bytes c rest :
  0 <= c <= 65535 -> word_total (be_bytes 2 c ++ rest) = c + word_total rest.
Proof.
  intros. cbn. rewrite (Z.mod_small (c / 256) 256).
  - pose proof (Z.div_mod c 256). lia.
  - split; [apply Z.div_pos; lia | apply Z.div_lt_upper_bound; lia].
Qed.

(** a packet whose checksum field holds the checksum of the packet with that
    field zero verifies: the checksum over the whole packet is 0. *)
Theorem checksum_verifies pre post :
  bytes_ok pre -> bytes_ok post -> Nat.Even (length pre) ->
  Z.of_nat (length pre + 2 + length post) <= 65536 ->
  checksum (pre ++ be_bytes 2 (checksum (pre ++ [0; 0] ++ post)) ++ post) = 0.
Proof.
  intros Hpre Hpost He Hl.
  assert (Hz : bytes_ok (pre ++ [0; 0] ++ post)).
  { rewrite !bytes_ok_app. repeat split; [done| |done].
    repeat constructor; unfold is_byte; lia. }
  assert (Hlz : Z.of_nat (length (pre ++ [0; 0] ++ post)) <= 65536) by (rewrite !length_app; cbn; lia).
  pose proof (checksum_range _ Hz Hlz) as Hc.
  pose proof (checksum_spec _ Hz Hlz) as Hs.
  rewrite word_total_app in Hs by done. change (word_total ([0; 0] ++ post)) with (0 * 256 + 0 + word_total post) in Hs.
  generalize dependent (checksum (pre ++ [0; 0] ++ post)). intros c Hc Hs.
  rewrite checksum_spec.
  - rewrite word_total_app, word_total_be_bytes by done.
    pose proof (word_total_nonneg pre Hpre). pose proof (word_total_nonneg post Hpost).
    replace (word_total pre + (c + word_total post))
      with (word_total pre + word_total post + (65535 - oc16 (word_total pre + word_total post)))
      by (rewrite Hs; rewrite Z.mul_0_l, !Z.add_0_l; lia).
    rewrite oc16_complement; lia.
  - rewrite !bytes_ok_app. repeat split; [done| |done].
    apply bytes_ok_reverse, le_bytes_ok.
  - rewrite !length_app, length_be_bytes. lia.
Qed.

(** ** Rate counters: facts *)
Lemma decay_step_range num den c :
  0 < den -> 0 <= num <= den -> 0 <= c -> c * num < 2 ^ 64 ->
  0 <= decay_step num den c <= c.
Proof.
  intros. unfold decay_step, wrapping_mul. rewrite wrap_small by nia. split.
  - apply Z.div_pos; nia.
  - apply Z.div_le_upper_bound; nia.
Qed.

Lemma decay_iter_range num den n c :
  0 < den -> 0 <= num <= den -> 0 <= c -> c * num < 2 ^ 64 ->
  0 <= Nat.iter n (decay_step num den) c <= c.
Proof.
  intros. induction n as [|n IH]; [cbn; lia|].
  cbn [Nat.iter nat_rect].
  pose proof (decay_step_range num den (Nat.iter n (decay_step num den) c)) as Hs.
  unfold Nat.iter in *. nia.
Qed.

(** Decaying never increases the counter as long as the product does not
    overflow. *)
Lemma decay_counter_range c elapsed tick num den :
  0 < den -> 0 <= num <= den -> 0 <= c -> c * num < 2 ^ 64 ->
  0 <= decay_counter c elapsed tick num den <= c.
Proof.
  intros. unfold decay_counter. case_match; [lia|]. by apply decay_iter_range.
Qed.

(** Once a whole tick has elapsed, the counter has decayed at least once. *)
Lemma decay_counter_once c elapsed tick num den :
  0 < tick <= elapsed -> 0 < den -> 0 <= num <= den -> 0 <= c -> c * num < 2 ^ 64 ->
  0 <= decay_counter c elapsed tick num den <= c * num / den.
Proof.
  intros Ht Hd Hn Hc Ho. unfold decay_counter.
  case_match; bool_to_prop; [lia|]. cbv zeta.
  assert (1 <= elapsed / tick) by (apply Z.div_le_lower_bound; lia).
  destruct (Z.to_nat (Z.min (elapsed / tick) 64)) as [|n] eqn:E; [lia|].
  rewrite Nat.iter_succ_r.
  assert (Hs : decay_step num den c = c * num / den).
  { unfold decay_step, wrapping_mul. rewrite wrap_small by nia. done. }
  pose proof (decay_step_range num den c). rewrite <- Hs.
  apply decay_iter_range; nia.
Qed.

(** Beyond 64 ticks further idling changes nothing. *)
Lemma decay_counter_cap c tick num den e1 e2 :
  0 < tick -> 64 * tick <= e1 -> 64 * tick <= e2 ->
  decay_counter c e1 tick num den = decay_counter c e2 tick num den.
Proof.
  intros. unfold decay_counter. case_match; [done|]. cbv zeta.
  by rewrite !Z.min_r by (apply Z.div_le_lower_bound; lia).
Qed.

(** ** Port ACL: facts *)
Definition acl_port_matches (dport low high : Z) : Prop :=
  low = 0 \/ (high = 0 /\ dport = low) \/ (high <> 0 /\ low <= dport <= high).

(** an ACL entry decides exactly when its action says so and both its
    protocol and its port range cover the packet. *)
Theorem match_port_acl_entry_spec protocol dport entry_protocol low high action r :
  match_port_acl_entry protocol dport entry_protocol low high action = Some r <->
  (action = match r with Allow => 1 | Drop => 2 end) /\
  (entry_protocol = 0 \/ entry_protocol = protocol) /\
  acl_port_matches dport low high.
Proof.
  unfold match_port_acl_entry, acl_port_matches.
  destruct r; split; intros H;
    repeat case_match; bool_to_prop; destruct_or?; bool_to_prop; simplify_eq;
    repeat split; try lia; try congruence.
Qed.

(** ** Connection tracking: facts *)

(** The count the window rule leaves from the stored one. *)
Definition window_count (half_open last_seen_ns now_ns window_ns : Z) : Z :=
  if negb (window_ns =? 0) && (saturating_sub now_ns last_seen_ns >? window_ns)
  then 0 else half_open.

Lemma conn_track_step_syn half_open last now ack threshold window :
  0 <= half_open < 2 ^ 32 - 1 ->
  conn_track_step half_open last now true ack threshold window =
  let n := window_count half_open last now window + 1 in
  ConnTrackStep.mk n now (n >? threshold).
Proof.
  intros. unfold conn_track_step, window_count, saturating_add. cbv zeta.
  case_match; f_equal; f_equal; lia.
Qed.

Lemma conn_track_step_range half_open last now syn ack threshold window :
  0 <= half_open < 2 ^ 32 ->
  0 <= ConnTrackStep.half_open (conn_track_step half_open last now syn ack threshold window) < 2 ^ 32.
Proof.
  intros. unfold conn_track_step, saturating_add, saturating_sub. cbn. repeat case_match; lia.
Qed.

(** ** Evaluated instances *)
Lemma merge_block_entry_cause_witness :
  let p := BlockEntry.mk 0 5 9 2 2 in
  block_live p 100 = true /\
  BlockEntry.block_reason (merge_block_entry (Some p) 100 200 6 false) = 2 /\
  BlockEntry.block_reason (merge_block_entry (Some p) 100 200 6 true) = 6.
Proof.
  cbv zeta. split; [reflexivity|].
  destruct (merge_block_entry_cause (BlockEntry.mk 0 5 9 2 2) 100 200 6 eq_refl) as (Ha&He&_).
  split; [exact Ha|exact He].
Defined.

Lemma build_cookie_runtime_spec_witness :
  build_cookie_runtime (Z.lor 167772161 (Z.shiftl 167772162 32))
    (Z.lor (Z.lor 40000 (Z.shiftl 443 16)) (Z.shiftl 7 32)) (replicate 16 1) 2
  = build_cookie 167772161 167772162 40000 443 7 2 (replicate 16 1).
Proof. apply build_cookie_runtime_spec; lia. Defined.

Lemma checksum_verifies_witness :
  checksum ([0x45; 0; 0; 40] ++ be_bytes 2 (checksum ([0x45; 0; 0; 40] ++ [0; 0] ++ [10; 0]))
            ++ [10; 0]) = 0.
Proof.
  apply checksum_verifies; [repeat constructor; done | repeat constructor; done | | cbn; lia].
  exists 2%nat. reflexivity.
Defined.
