(* ===== verification/Parser.v ===== *)
(** * Parser: frames, headers and bounded pointers

    [eshield-ebpf/src/parser.rs].  A frame is the list of the bytes between
    [data] and [data_end].  A header struct is the record of its fields as the
    little-endian CPU loads them; [decode_*]/[encode_*] give its [repr(C)]
    layout, [ptr_at] the bounds check every access goes through, and
    [load_*]/[store_*] a dereference of the pointer it returns. *)
From S2P Require Import Prelude Words Common.
#[local] Open Scope Z_scope.

Abbreviation frame := (list Z) (only parsing).

Definition ETH_HDR_LEN : nat := 14.
Definition IP_HDR_LEN : nat := 20.
Definition IPV6_HDR_LEN : nat := 40.
Definition TCP_HDR_LEN : nat := 20.
Definition UDP_HDR_LEN : nat := 8.

Definition ETH_P_IP : Z := bswap 2 0x0800.
Definition ETH_P_IPV6 : Z := bswap 2 0x86dd.

Definition IPPROTO_TCP : Z := 6.
Definition IPPROTO_UDP : Z := 17.
Definition IPPROTO_ICMP : Z := 1.
Definition IPPROTO_ICMPV6 : Z := 58.

Definition TCP_FLAG_SYN : Z := 0x02.
Definition TCP_FLAG_RST : Z := 0x04.
Definition TCP_FLAG_ACK : Z := 0x10.

Definition is_syn_flags (flags : Z) : bool :=
  nz (Z.land flags TCP_FLAG_SYN) && (Z.land flags TCP_FLAG_ACK =? 0).

Definition is_ack_or_rst_flags (flags : Z) : bool :=
  nz (Z.land flags TCP_FLAG_ACK) || nz (Z.land flags TCP_FLAG_RST).

(** ** Struct layouts

    A layout is the list of the byte widths of the fields. *)
Fixpoint get_fields (ws : list nat) (bs : list Z) : list Z :=
  match ws with
  | [] => []
  | w :: ws' => le_val (take w bs) :: get_fields ws' (drop w bs)
  end.

Fixpoint put_fields (ws : list nat) (vs : list Z) : list Z :=
  match ws, vs with
  | w :: ws', v :: vs' => le_bytes w v ++ put_fields ws' vs'
  | _, _ => []
  end.

(** Each value fits its field. *)
Fixpoint fields_fit (ws : list nat) (vs : list Z) : Prop :=
  match ws, vs with
  | w :: ws', v :: vs' => 0 <= v < 256 ^ Z.of_nat w /\ fields_fit ws' vs'
  | [], [] => True
  | _, _ => False
  end.

Module EthHdr.
Record t := mk {
  dst : list Z;
  src : list Z;
  proto : Z;
}.
#[global] Instance eta_t : Eta t := fun r => mk (dst r) (src r) (proto r).
Definition size : nat := 14.
Definition decode (bs : list Z) : t :=
  mk (slice 0 6 bs) (slice 6 6 bs) (le_val (slice 12 2 bs)).
Definition encode (h : t) : list Z := dst h ++ src h ++ le_bytes 2 (proto h).
End EthHdr.

Module IpHdr.
Record t := mk {
  ver_ihl : Z;
  tos : Z;
  tot_len : Z;
  id : Z;
  frag_off : Z;
  ttl : Z;
  proto : Z;
  check : Z;
  saddr : Z;
  daddr : Z;
}.
#[global] Instance eta_t : Eta t := fun r =>
  mk (ver_ihl r) (tos r) (tot_len r) (id r) (frag_off r) (ttl r) (proto r) (check r)
     (saddr r) (daddr r).
Definition size : nat := 20.
Definition layout : list nat := [1; 1; 2; 2; 2; 1; 1; 2; 4; 4]%nat.
Definition fields (h : t) : list Z :=
  [ver_ihl h; tos h; tot_len h; id h; frag_off h; ttl h; proto h; check h; saddr h; daddr h].
Definition of_fields (vs : list Z) : t :=
  match vs with
  | [a; b; c; d; e; f; g; h; i; j] => mk a b c d e f g h i j
  | _ => mk 0 0 0 0 0 0 0 0 0 0
  end.
Definition decode (bs : list Z) : t := of_fields (get_fields layout bs).
Definition encode (h : t) : list Z := put_fields layout (fields h).
End IpHdr.

Module Ipv6Hdr.
Record t := mk {
  ver_tc_fl : Z;
  payload_len : Z;
  next_header : Z;
  hop_limit : Z;
  saddr : list Z;
  daddr : list Z;
}.
Definition size : nat := 40.
Definition decode (bs : list Z) : t :=
  mk (le_val (slice 0 4 bs)) (le_val (slice 4 2 bs)) (le_val (slice 6 1 bs))
     (le_val (slice 7 1 bs)) (slice 8 16 bs) (slice 24 16 bs).
Definition version (h : t) : Z := wrap 8 (Z.shiftr (bswap 4 (ver_tc_fl h)) 28).
End Ipv6Hdr.

Module TcpHdr.
Record t := mk {
  source : Z;
  dest : Z;
  seq : Z;
  ack_seq : Z;
  doff_flags : Z;
  window : Z;
  check : Z;
  urg_ptr : Z;
}.
#[global] Instance eta_t : Eta t := fun r =>
  mk (source r) (dest r) (seq r) (ack_seq r) (doff_flags r) (window r) (check r) (urg_ptr r).
Definition size : nat := 20.
Definition layout : list nat := [2; 2; 4; 4; 2; 2; 2; 2]%nat.
Definition fields (h : t) : list Z :=
  [source h; dest h; seq h; ack_seq h; doff_flags h; window h; check h; urg_ptr h].
Definition of_fields (vs : list Z) : t :=
  match vs with
  | [a; b; c; d; e; f; g; h] => mk a b c d e f g h
  | _ => mk 0 0 0 0 0 0 0 0
  end.
Definition decode (bs : list Z) : t := of_fields (get_fields layout bs).
Definition encode (h : t) : list Z := put_fields layout (fields h).

Definition doff (h : t) : Z := wrap 8 (Z.shiftr (bswap 2 (doff_flags h)) 12).
Definition flags (h : t) : Z := wrap 8 (Z.land (bswap 2 (doff_flags h)) 0x3f).
Definition is_syn (h : t) : bool := is_syn_flags (flags h).
End TcpHdr.

Module UdpHdr.
Record t := mk {
  source : Z;
  dest : Z;
  len : Z;
  check : Z;
}.
Definition size : nat := 8.
Definition decode (bs : list Z) : t :=
  mk (le_val (slice 0 2 bs)) (le_val (slice 2 2 bs)) (le_val (slice 4 2 bs))
     (le_val (slice 6 2 bs)).
End UdpHdr.

Inductive Protocol := Icmp | Tcp | Udp | IcmpV6 | Other (proto : Z).

Definition Protocol_from (proto : Z) : Protocol :=
  if proto =? IPPROTO_ICMP then Icmp
  else if proto =? IPPROTO_TCP then Tcp
  else if proto =? IPPROTO_UDP then Udp
  else if proto =? IPPROTO_ICMPV6 then IcmpV6
  else Other proto.

(** ** Bounded pointers *)

(** [ptr_at::<T>(ctx, offset)] with [size = size_of::<T>()]: the pointer is the
    offset of the object in the frame. *)
Definition ptr_at (size : nat) (p : frame) (offset : nat) : option nat :=
  if (length p <? offset + size)%nat then None else Some offset.

Definition ptr_at_mut (size : nat) (p : frame) (offset : nat) : option nat :=
  if (length p <? offset + size)%nat then None else Some offset.

(** Reading through a pointer. *)
Definition load_EthHdr (p : frame) (ptr : nat) : EthHdr.t := EthHdr.decode (slice ptr EthHdr.size p).
Definition load_IpHdr (p : frame) (ptr : nat) : IpHdr.t := IpHdr.decode (slice ptr IpHdr.size p).
Definition load_Ipv6Hdr (p : frame) (ptr : nat) : Ipv6Hdr.t := Ipv6Hdr.decode (slice ptr Ipv6Hdr.size p).
Definition load_TcpHdr (p : frame) (ptr : nat) : TcpHdr.t := TcpHdr.decode (slice ptr TcpHdr.size p).
Definition load_UdpHdr (p : frame) (ptr : nat) : UdpHdr.t := UdpHdr.decode (slice ptr UdpHdr.size p).
Definition load_u8 (p : frame) (ptr : nat) : Z := le_val (slice ptr 1 p).

(** Updating the object behind a pointer. *)
Definition update_EthHdr (f : EthHdr.t -> EthHdr.t) (ptr : nat) (p : frame) : frame :=
  splice ptr (EthHdr.encode (f (load_EthHdr p ptr))) p.
Definition update_IpHdr (f : IpHdr.t -> IpHdr.t) (ptr : nat) (p : frame) : frame :=
  splice ptr (IpHdr.encode (f (load_IpHdr p ptr))) p.
Definition update_TcpHdr (f : TcpHdr.t -> TcpHdr.t) (ptr : nat) (p : frame) : frame :=
  splice ptr (TcpHdr.encode (f (load_TcpHdr p ptr))) p.

(** ** Facts *)
Lemma ptr_at_Some size p offset ptr :
  ptr_at size p offset = Some ptr <-> ptr = offset /\ (offset + size <= length p)%nat.
Proof.
  unfold ptr_at. destruct (Nat.ltb_spec (length p) (offset + size)).
  - split; [done|lia].
  - split; [intros [=]; lia|]. intros [-> _]. done.
Qed.

Lemma ptr_at_None size p offset :
  ptr_at size p offset = None <-> (length p < offset + size)%nat.
Proof.
  unfold ptr_at. destruct (Nat.ltb_spec (length p) (offset + size)); split; done || lia.
Qed.

Lemma ptr_at_in size p offset :
  (offset + size <= length p)%nat -> ptr_at size p offset = Some offset.
Proof. intros. by apply ptr_at_Some. Qed.

Lemma length_put_fields ws vs :
  fields_fit ws vs -> length (put_fields ws vs) = sum_list ws.
Proof.
  revert vs. induction ws as [|w ws IH]; intros [|v vs]; cbn; try done.
  intros [_ H]. by rewrite length_app, length_le_bytes, IH.
Qed.

Lemma get_put_fields ws vs : fields_fit ws vs -> get_fields ws (put_fields ws vs) = vs.
Proof.
  revert vs. induction ws as [|w ws IH]; intros [|v vs]; cbn; try done.
  intros [Hv H]. rewrite take_app_length' by (symmetry; apply length_le_bytes).
  rewrite drop_app_length' by (symmetry; apply length_le_bytes).
  by rewrite le_val_le_bytes, IH.
Qed.

Lemma put_get_fields ws bs :
  bytes_ok bs -> length bs = sum_list ws -> put_fields ws (get_fields ws bs) = bs.
Proof.
  revert bs. induction ws as [|w ws IH]; intros bs Hb Hl; cbn in *.
  - by apply nil_length_inv in Hl.
  - rewrite IH.
    + replace w with (length (take w bs)) at 1 by (rewrite length_take; lia).
      rewrite le_bytes_le_val; [apply take_drop|]. by apply Forall_take.
    + by apply Forall_drop.
    + rewrite length_drop. lia.
Qed.

Lemma fields_fit_get ws bs :
  bytes_ok bs -> length bs = sum_list ws -> fields_fit ws (get_fields ws bs).
Proof.
  revert bs. induction ws as [|w ws IH]; intros bs Hb Hl; cbn in *; [done|]. split.
  - pose proof (le_val_range (take w bs)) as H.
    rewrite length_take, Nat.min_l in H by lia. apply H. by apply Forall_take.
  - apply IH; [by apply Forall_drop | rewrite length_drop; lia].
Qed.

Lemma put_fields_ok ws vs : bytes_ok (put_fields ws vs).
Proof.
  revert vs. induction ws as [|w ws IH]; intros [|v vs]; cbn; try constructor.
  apply bytes_ok_app. split; [apply le_bytes_ok | apply IH].
Qed.

Definition IpHdr_fit (h : IpHdr.t) : Prop := fields_fit IpHdr.layout (IpHdr.fields h).
Definition TcpHdr_fit (h : TcpHdr.t) : Prop := fields_fit TcpHdr.layout (TcpHdr.fields h).

Lemma IpHdr_decode_encode h : IpHdr_fit h -> IpHdr.decode (IpHdr.encode h) = h.
Proof.
  intros H. unfold IpHdr.decode, IpHdr.encode. rewrite get_put_fields by exact H. by destruct h.
Qed.

Lemma TcpHdr_decode_encode h : TcpHdr_fit h -> TcpHdr.decode (TcpHdr.encode h) = h.
Proof.
  intros H. unfold TcpHdr.decode, TcpHdr.encode. rewrite get_put_fields by exact H. by destruct h.
Qed.

Lemma length_IpHdr_encode h : IpHdr_fit h -> length (IpHdr.encode h) = 20%nat.
Proof. intros H. unfold IpHdr.encode. by rewrite length_put_fields. Qed.

Lemma length_TcpHdr_encode h : TcpHdr_fit h -> length (TcpHdr.encode h) = 20%nat.
Proof. intros H. unfold TcpHdr.encode. by rewrite length_put_fields. Qed.

Lemma IpHdr_encode_decode bs :
  bytes_ok bs -> length bs = 20%nat -> IpHdr.encode (IpHdr.decode bs) = bs.
Proof.
  intros Hb Hl. unfold IpHdr.decode, IpHdr.encode.
  assert (forall vs, length vs = 10%nat -> IpHdr.fields (IpHdr.of_fields vs) = vs) as ->.
  { intros vs Hv. do 11 (destruct vs as [|? vs]; try discriminate Hv). done. }
  - by apply put_get_fields.
  - done.
Qed.

Lemma TcpHdr_encode_decode bs :
  bytes_ok bs -> length bs = 20%nat -> TcpHdr.encode (TcpHdr.decode bs) = bs.
Proof.
  intros Hb Hl. unfold TcpHdr.decode, TcpHdr.encode.
  assert (forall vs, length vs = 8%nat -> TcpHdr.fields (TcpHdr.of_fields vs) = vs) as ->.
  { intros vs Hv. do 9 (destruct vs as [|? vs]; try discriminate Hv). done. }
  - by apply put_get_fields.
  - done.
Qed.

Lemma IpHdr_decode_fit bs :
  bytes_ok bs -> length bs = 20%nat -> IpHdr_fit (IpHdr.decode bs).
Proof.
  intros Hb Hl. pose proof (fields_fit_get IpHdr.layout bs Hb Hl) as H.
  unfold IpHdr_fit, IpHdr.decode. revert H. generalize (get_fields IpHdr.layout bs). intros vs H.
  do 10 (destruct vs as [|? vs]; [cbn -[Z.pow] in H; tauto|]).
  destruct vs as [|? vs]; [exact H|]. cbn -[Z.pow] in H. tauto.
Qed.

Lemma TcpHdr_decode_fit bs :
  bytes_ok bs -> length bs = 20%nat -> TcpHdr_fit (TcpHdr.decode bs).
Proof.
  intros Hb Hl. pose proof (fields_fit_get TcpHdr.layout bs Hb Hl) as H.
  unfold TcpHdr_fit, TcpHdr.decode. revert H. generalize (get_fields TcpHdr.layout bs). intros vs H.
  do 8 (destruct vs as [|? vs]; [cbn -[Z.pow] in H; tauto|]).
  destruct vs as [|? vs]; [exact H|]. cbn -[Z.pow] in H. tauto.
Qed.
