(* ===== verification/Maps.v ===== *)
(** * Maps: the kernel interface and the data plane's state

    [eshield-ebpf/src/maps.rs].  The hash maps, LPM tries, ring buffers, clock,
    random numbers, checksum and tail-adjust helpers belong to the kernel; the
    class [Kernel] lists the ones the program calls and [KernelLaws] states what
    their documentation promises.  [KState] is the state one CPU's run of the
    program works on: the maps and the frame of the packet being processed.
    [Module BoundedLru] gives an executable instance with real eviction. *)
From S2P Require Import Prelude Words Common Parser.
#[local] Open Scope Z_scope.

(** ** What the kernel provides *)

(** One entry of an LPM trie: a prefix of [prefix_len] bits of [data]. *)
Module LpmEntry.
Record t := mk {
  prefix_len : Z;
  data : list Z;
  value : Z;
}.
End LpmEntry.

(** The entry's prefix covers the first [plen] bits of [data]. *)
Definition lpm_matches (e : LpmEntry.t) (plen : Z) (data : list Z) : bool :=
  let shift := 8 * Z.of_nat (length data) - LpmEntry.prefix_len e in
  (LpmEntry.prefix_len e <=? plen)
  && (length (LpmEntry.data e) =? length data)%nat
  && (Z.shiftr (be_val (LpmEntry.data e)) shift =? Z.shiftr (be_val data) shift).

Class Kernel := {
  (** [BPF_MAP_TYPE_LRU_HASH] *)
  lru : Type -> Type -> Type;
  lru_get : forall {K V} `{EqDecision K}, lru K V -> K -> option V;
  lru_insert : forall {K V} `{EqDecision K}, lru K V -> K -> V -> lru K V;
  lru_remove : forall {K V} `{EqDecision K}, lru K V -> K -> lru K V;
  (** [BPF_MAP_TYPE_LPM_TRIE]: lookup of the longest matching prefix *)
  lpm_get : list LpmEntry.t -> Z -> list Z -> option Z;
  (** [BPF_MAP_TYPE_RINGBUF]: whether a record can be reserved, given the
      records already submitted *)
  ringbuf_reserve : forall {A}, list A -> bool;
  (** [bpf_ktime_get_ns] and [bpf_get_prandom_u32], by call number *)
  ktime_get_ns : nat -> Z;
  prandom_u32 : nat -> Z;
  (** [bpf_csum_diff(NULL, 0, to, to_size, seed)] *)
  bpf_csum_diff : list Z -> Z -> Z;
  (** [bpf_xdp_adjust_tail(ctx, delta)]: return code and resulting frame *)
  bpf_xdp_adjust_tail : frame -> Z -> Z * frame;
}.

(** Sum of the little-endian 16-bit words, the form in which the CPU adds
    packet memory. *)
Fixpoint le_word_total (data : list Z) : Z :=
  match data with
  | a :: b :: rest => a + b * 256 + le_word_total rest
  | [a] => a
  | [] => 0
  end.

(** Documented behaviour: an LRU map keeps what was just inserted and may
    evict other keys; removal removes exactly one key; a trie lookup succeeds
    iff some stored prefix covers the key; a checksum difference is the
    one's-complement sum of the buffer and the seed; a tail adjustment keeps
    the bytes both frames have, and fails with a negative code. *)
Class KernelLaws `{Kernel} := {
  lru_get_insert_eq {K V} `{EqDecision K} (m : lru K V) k v :
    lru_get (lru_insert m k v) k = Some v;
  lru_get_insert_ne {K V} `{EqDecision K} (m : lru K V) k k' v :
    k <> k' ->
    lru_get (lru_insert m k v) k' = lru_get m k' \/ lru_get (lru_insert m k v) k' = None;
  lru_get_remove_eq {K V} `{EqDecision K} (m : lru K V) k :
    lru_get (lru_remove m k) k = None;
  lru_get_remove_ne {K V} `{EqDecision K} (m : lru K V) k k' :
    k <> k' -> lru_get (lru_remove m k) k' = lru_get m k';
  lpm_get_spec (t : list LpmEntry.t) plen data :
    is_Some (lpm_get t plen data) <-> Exists (fun e => lpm_matches e plen data = true) t;
  csum_diff_spec bs seed :
    bytes_ok bs -> (4 | length bs)%nat -> (length bs <= 512)%nat -> 0 <= seed < 2 ^ 32 ->
    0 <= bpf_csum_diff bs seed < 2 ^ 32 /\
    (bpf_csum_diff bs seed) mod 65535 = (seed + le_word_total bs) mod 65535 /\
    (bpf_csum_diff bs seed = 0 -> seed + le_word_total bs = 0);
  adjust_tail_spec p delta rc p' :
    bpf_xdp_adjust_tail p delta = (rc, p') ->
    (rc = 0 /\ Z.of_nat (length p') = Z.of_nat (length p) + delta /\
     (bytes_ok p -> bytes_ok p') /\
     let n := Nat.min (length p) (length p') in take n p' = take n p)
    \/ (rc < 0 /\ p' = p);
}.

(** Reading back a map after an insertion at any key. *)
Lemma lru_insert_inv `{KernelLaws} {K V} `{EqDecision K} (m : lru K V) k v k' w :
  lru_get (lru_insert m k v) k' = Some w ->
  (k' = k /\ w = v) \/ lru_get m k' = Some w.
Proof.
  intros Hg. destruct (decide (k = k')) as [<-|Hne].
  - rewrite lru_get_insert_eq in Hg. left. by simplify_eq.
  - destruct (lru_get_insert_ne m k k' v Hne) as [E|E]; rewrite E in Hg; [by right|done].
Qed.

Lemma lru_remove_inv `{KernelLaws} {K V} `{EqDecision K} (m : lru K V) k k' w :
  lru_get (lru_remove m k) k' = Some w -> k' <> k /\ lru_get m k' = Some w.
Proof.
  intros Hg. destruct (decide (k = k')) as [<-|Hne].
  - by rewrite lru_get_remove_eq in Hg.
  - rewrite lru_get_remove_ne in Hg by done. by split.
Qed.

(** An invariant of every entry of a map survives an insertion of a good entry
    and any removal. *)
Definition lru_forall `{Kernel} {K V} `{EqDecision K} (P : K -> V -> Prop) (m : lru K V) : Prop :=
  forall k v, lru_get m k = Some v -> P k v.

Lemma lru_forall_insert `{KernelLaws} {K V} `{EqDecision K} (P : K -> V -> Prop)
    (m : lru K V) k v :
  lru_forall P m -> P k v -> lru_forall P (lru_insert m k v).
Proof. intros Hm Hv k' w [[-> ->]|Hg]%lru_insert_inv; [done|by apply Hm]. Qed.

Lemma lru_forall_remove `{KernelLaws} {K V} `{EqDecision K} (P : K -> V -> Prop)
    (m : lru K V) k :
  lru_forall P m -> lru_forall P (lru_remove m k).
Proof. intros Hm k' w [_ Hg]%lru_remove_inv. by apply Hm. Qed.

(** ** The state of the data plane *)
Section Maps.
Context {KN : Kernel}.

Record KState := mkKState {
  WHITELIST_V4 : list LpmEntry.t;
  WHITELIST_V6 : list LpmEntry.t;
  GEOIP_BLOCKED_V4 : list LpmEntry.t;
  GEOIP_BLOCKED_V6 : list LpmEntry.t;
  GEOIP_ALLOWED_V4 : list LpmEntry.t;
  GEOIP_ALLOWED_V6 : list LpmEntry.t;
  BLACKLIST : lru IpKey.t BlockEntry.t;
  GLOBAL_STATS : list GlobalStats.t;
  TOP_ATTACKERS : lru IpKey.t Z;
  EVENTS : list DropEvent.t;
  PACKET_SAMPLES : list PacketSample.t;
  CONFIG : list RuntimeConfig.t;
  RATE_LIMIT_CFG : list RateLimitConfig.t;
  RATE_MAP : lru IpKey.t RateCounter.t;
  PORT_RATE_LIMIT_CFG : list RateLimitConfig.t;
  RATE_MAP_PORT : lru RateLimitPortKey.t RateCounter.t;
  PORT_RATE_MAP : lru PortRateKey.t RateCounter.t;
  COOKIE_SECRETS : list CookieSecret.t;
  L7_PATTERNS : list L7Pattern.t;
  PORT_ACL : list PortAclEntry.t;
  PROJECT_POLICY : lru ProjectPolicyKey.t ProjectPolicy.t;
  SYN_PROXY_CONN : lru IpKey.t Z;
  CONN_TRACK : lru IpKey.t ConnTrackEntry.t;
  TRUST_MAP : lru IpKey.t TrustEntry.t;
  packet : frame;
  ktime_calls : nat;
  prandom_calls : nat;
}.

#[export] Instance eta_KState : Eta KState := fun s =>
  mkKState (WHITELIST_V4 s) (WHITELIST_V6 s) (GEOIP_BLOCKED_V4 s) (GEOIP_BLOCKED_V6 s)
    (GEOIP_ALLOWED_V4 s) (GEOIP_ALLOWED_V6 s) (BLACKLIST s) (GLOBAL_STATS s)
    (TOP_ATTACKERS s) (EVENTS s) (PACKET_SAMPLES s) (CONFIG s) (RATE_LIMIT_CFG s)
    (RATE_MAP s) (PORT_RATE_LIMIT_CFG s) (RATE_MAP_PORT s) (PORT_RATE_MAP s)
    (COOKIE_SECRETS s) (L7_PATTERNS s) (PORT_ACL s) (PROJECT_POLICY s)
    (SYN_PROXY_CONN s) (CONN_TRACK s) (TRUST_MAP s) (packet s) (ktime_calls s)
    (prandom_calls s).

Definition BPF (A : Type) : Type := State KState A.

(** [Array::get] and [PerCpuArray::get]. *)
Definition array_get {A} (l : list A) (i : Z) : option A := l !! Z.to_nat i.

(** [bpf_ktime_get_ns()] *)
Definition get_ktime_ns : BPF Z := fun s =>
  (ktime_get_ns (ktime_calls s), s <| ktime_calls ::= S |>).

(** [bpf_get_prandom_u32()] *)
Definition get_prandom_u32 : BPF Z := fun s =>
  (prandom_u32 (prandom_calls s), s <| prandom_calls ::= S |>).

(** [with_stats]: update this CPU's statistics when the slot exists. *)
Definition with_stats (f : GlobalStats.t -> GlobalStats.t) : BPF unit :=
  modify (fun s => s <| GLOBAL_STATS ::= fun l => match l with [] => [] | g :: l' => f g :: l' end |>).

(** The same with a value the closure computes from the updated slot, and the
    value used when there is no slot. *)
Definition with_stats_ret {A} (default : A) (f : GlobalStats.t -> A * GlobalStats.t) : BPF A :=
  fun s =>
    match GLOBAL_STATS s with
    | [] => (default, s)
    | g :: l => let '(a, g') := f g in (a, s <| GLOBAL_STATS := g' :: l |>)
    end.

(** Updating one map. *)
Definition BLACKLIST_insert k v : BPF unit := modify (fun s => s <| BLACKLIST ::= fun m => lru_insert m k v |>).
Definition BLACKLIST_remove k : BPF unit := modify (fun s => s <| BLACKLIST ::= fun m => lru_remove m k |>).
Definition TOP_ATTACKERS_insert k v : BPF unit := modify (fun s => s <| TOP_ATTACKERS ::= fun m => lru_insert m k v |>).
Definition RATE_MAP_insert k v : BPF unit := modify (fun s => s <| RATE_MAP ::= fun m => lru_insert m k v |>).
Definition RATE_MAP_PORT_insert k v : BPF unit := modify (fun s => s <| RATE_MAP_PORT ::= fun m => lru_insert m k v |>).
Definition PORT_RATE_MAP_insert k v : BPF unit := modify (fun s => s <| PORT_RATE_MAP ::= fun m => lru_insert m k v |>).
Definition SYN_PROXY_CONN_insert k v : BPF unit := modify (fun s => s <| SYN_PROXY_CONN ::= fun m => lru_insert m k v |>).
Definition SYN_PROXY_CONN_remove k : BPF unit := modify (fun s => s <| SYN_PROXY_CONN ::= fun m => lru_remove m k |>).
Definition CONN_TRACK_insert k v : BPF unit := modify (fun s => s <| CONN_TRACK ::= fun m => lru_insert m k v |>).
Definition CONN_TRACK_remove k : BPF unit := modify (fun s => s <| CONN_TRACK ::= fun m => lru_remove m k |>).
Definition TRUST_MAP_insert k v : BPF unit := modify (fun s => s <| TRUST_MAP ::= fun m => lru_insert m k v |>).
Definition packet_modify f : BPF unit := modify (fun s => s <| packet ::= f |>).

(** [bpf_xdp_adjust_tail] on the current frame. *)
Definition adjust_tail (delta : Z) : BPF Z := fun s =>
  let '(rc, p) := bpf_xdp_adjust_tail (packet s) delta in (rc, s <| packet := p |>).
End Maps.

(** ** An executable kernel

    LRU maps are lists, most recently inserted first, cut at a capacity; the
    clock is a constant, the checksum helper adds words, a shrink truncates
    and a grow appends zeros. *)
Module BoundedLru.
Section Inst.
Context (capacity : nat) (clock : Z).

Fixpoint assoc_get {K V} `{EqDecision K} (m : list (K * V)) (k : K) : option V :=
  match m with
  | [] => None
  | (k', v) :: m' => if decide (k = k') then Some v else assoc_get m' k
  end.

Fixpoint assoc_remove {K V} `{EqDecision K} (m : list (K * V)) (k : K) : list (K * V) :=
  match m with
  | [] => []
  | (k', v) :: m' => if decide (k = k') then assoc_remove m' k else (k', v) :: assoc_remove m' k
  end.

Definition assoc_insert {K V} `{EqDecision K} (m : list (K * V)) (k : K) (v : V) : list (K * V) :=
  (k, v) :: take capacity (assoc_remove m k).

Definition trie_get (t : list LpmEntry.t) (plen : Z) (data : list Z) : option Z :=
  foldr (fun e r => if lpm_matches e plen data then Some (LpmEntry.value e) else r) None t.

Definition fold32 (s : Z) : Z := if s =? 0 then 0 else (s - 1) mod 65535 + 1.

Definition tail (p : frame) (delta : Z) : Z * frame :=
  let n := Z.of_nat (length p) + delta in
  if n <? 14 then (-22, p)
  else (0, if delta <=? 0 then take (Z.to_nat n) p else p ++ replicate (Z.to_nat delta) 0).

Definition kernel : Kernel := {|
  lru K V := list (K * V);
  lru_get K V _ := assoc_get;
  lru_insert K V _ := assoc_insert;
  lru_remove K V _ := assoc_remove;
  lpm_get := trie_get;
  ringbuf_reserve A l := (length l <? 64)%nat;
  ktime_get_ns _ := clock;
  prandom_u32 n := Z.of_nat n;
  bpf_csum_diff bs seed := fold32 (seed + le_word_total bs);
  bpf_xdp_adjust_tail := tail;
|}.

Lemma assoc_get_remove_eq {K V} `{EqDecision K} (m : list (K * V)) k :
  assoc_get (assoc_remove m k) k = None.
Proof.
  induction m as [|[k' v] m IH]; cbn; [done|].
  case_decide; [done|]. cbn. by case_decide.
Qed.

Lemma assoc_get_remove_ne {K V} `{EqDecision K} (m : list (K * V)) k k' :
  k <> k' -> assoc_get (assoc_remove m k) k' = assoc_get m k'.
Proof.
  intros Hne. induction m as [|[k0 v] m IH]; cbn; [done|].
  repeat (case_decide; cbn); congruence.
Qed.

Lemma assoc_get_take {K V} `{EqDecision K} (m : list (K * V)) k n :
  assoc_get (take n m) k = assoc_get m k \/ assoc_get (take n m) k = None.
Proof.
  revert n. induction m as [|[k0 v] m IH]; intros [|n]; cbn; auto. case_decide; auto.
Qed.

Lemma fold32_spec s : 0 <= s -> 0 <= fold32 s < 65536 /\ fold32 s mod 65535 = s mod 65535 /\ (fold32 s = 0 -> s = 0).
Proof.
  intros Hs. unfold fold32. case_match; bool_to_prop; [subst; cbn; lia|].
  pose proof (Z.mod_pos_bound (s - 1) 65535). split; [lia|]. split; [|lia].
  rewrite Z.add_mod_idemp_l by lia. f_equal. lia.
Qed.

Lemma le_word_total_nonneg data : bytes_ok data -> 0 <= le_word_total data.
Proof.
  cut (bytes_ok data -> 0 <= le_word_total data /\ forall a, is_byte a -> 0 <= le_word_total (a :: data));
    [tauto|].
  induction 1 as [|b l Hb _ [IH1 IH2]]; [cbn; unfold is_byte; split; lia|].
  split; [by apply IH2|]. intros a Ha. cbn [le_word_total]. unfold is_byte in *. lia.
Qed.

#[export] Instance kernel_laws : @KernelLaws kernel.
Proof.
  split; cbn.
  - intros. unfold assoc_insert. cbn. by case_decide.
  - intros K V ? m k k' v Hne. unfold assoc_insert. cbn. case_decide; [congruence|].
    destruct (assoc_get_take (assoc_remove m k) k' capacity) as [E|E]; rewrite E; [|by right].
    left. by apply assoc_get_remove_ne.
  - intros. apply assoc_get_remove_eq.
  - intros. by apply assoc_get_remove_ne.
  - intros t plen data. induction t as [|e t IH]; cbn.
    + split; [intros [? ?]; done | intros H; inversion H].
    + destruct (lpm_matches e plen data) eqn:E.
      * split; [by left | done].
      * rewrite IH. split; [by right|]. intros H. inversion H; subst; [congruence|done].
  - intros bs seed Hb _ _ Hs. pose proof (le_word_total_nonneg bs Hb).
    destruct (fold32_spec (seed + le_word_total bs)) as (?&?&?); [lia|].
    split; [lia|]. split; done.
  - intros p delta rc p'. unfold tail. case_match eqn:E; bool_to_prop; intros [= <- <-].
    + right. split; [lia|done].
    + left. split; [done|]. destruct (delta <=? 0) eqn:E'; bool_to_prop.
      * rewrite length_take. split; [lia|]. split; [apply Forall_take|].
        cbv zeta. rewrite take_take. f_equal. lia.
      * rewrite length_app, length_replicate. split; [lia|].
        split; [intros; apply bytes_ok_app; split; [done|]; apply Forall_replicate; unfold is_byte; lia|].
        cbv zeta. rewrite take_app_le by lia. done.
Qed.

(** The maps as they are after the program has been loaded and the control
    plane has written [CONFIG] and the rate limits: array maps are allocated
    and zero, hash maps and tries are empty. *)
Definition boot (cfg : RuntimeConfig.t) (rl : RateLimitConfig.t) (p : frame) : @KState kernel :=
  @mkKState kernel [] [] [] [] [] [] [] [GlobalStats_default] [] [] [] [cfg] [rl] [] [rl] [] []
    [CookieSecret.mk (replicate 16 0) (replicate 16 0) 0]
    (replicate (Z.to_nat MAX_L7_PATTERNS) (L7Pattern.mk 0 0 0 0))
    (replicate (Z.to_nat MAX_PORT_ACL) (PortAclEntry.mk 0 0 0 0))
    [] [] [] [] p 0 0.
End Inst.
End BoundedLru.

(** Concrete values the evaluated examples share: two sources, a configuration
    with every per-source module on, and the state after [boot]. *)
Module Samples.
Definition kernel : Kernel := BoundedLru.kernel 8 5000000000.
#[export] Instance kernel_laws : @KernelLaws kernel := BoundedLru.kernel_laws 8 5000000000.
Definition alice : IpKey.t := from_ipv4 [10; 0; 0; 1].
Definition bob : IpKey.t := from_ipv4 [10; 0; 0; 2].
Definition limits : RateLimitConfig.t := RateLimitConfig_default.
Definition config : RuntimeConfig.t :=
  RuntimeConfig_default
    <| RuntimeConfig.trust_add_divisor := 100 |> <| RuntimeConfig.trust_sub_divisor := 3 |>
    <| RuntimeConfig.rate_limit_enabled := 1 |> <| RuntimeConfig.udp_flood_enabled := 1 |>
    <| RuntimeConfig.icmp_flood_enabled := 1 |> <| RuntimeConfig.l7_scan_enabled := 1 |>
    <| RuntimeConfig.conn_track_enabled := 1 |> <| RuntimeConfig.conn_track_threshold := 10 |>
    <| RuntimeConfig.conn_track_window_ms := 1000 |>.
Definition state (p : frame) : @KState kernel := BoundedLru.boot 8 5000000000 config limits p.
End Samples.
