(* ===== verification/Wire.v ===== *)
(** * Wire: frames as headers, and checksums as the kernel helper computes them

    Reading and writing headers in place is tracked on frames of the form
    Ethernet header, IPv4 header, TCP header, rest; [bpf_csum_diff] adds
    little-endian words, and [finalize_csum] ([tcp_reset.rs], [syn_cookie.rs])
    folds its result into the checksum to store. *)
From S2P Require Import Prelude Words Common Pure Parser Maps.
#[local] Open Scope Z_scope.

(** ** Folding *)
Definition finalize_csum (sum : Z) : Z :=
  let v := wrap 32 sum in
  let v := wrapping_add 32 (Z.land v 0xffff) (Z.shiftr v 16) in
  let v := wrapping_add 32 (Z.land v 0xffff) (Z.shiftr v 16) in
  let r := wnot 16 (wrap 16 v) in
  if r =? 0 then 0xffff else r.

Section Csum.
Context {KN : Kernel}.

(** The helper applied to [len] bytes of the frame, or -1 outside it. *)
Definition csum (p : frame) (offset len : nat) (seed : Z) : Z :=
  if (length p <? offset + len)%nat then -1 else bpf_csum_diff (slice offset len p) seed.

Lemma csum_in p offset len seed :
  (offset + len <= length p)%nat -> csum p offset len seed = bpf_csum_diff (slice offset len p) seed.
Proof.
  intros H. unfold csum. destruct (Nat.ltb_spec (length p) (offset + len)); [lia|done].
Qed.

(** The helper applied to a word on the stack. *)
Definition csum_word (word seed : Z) : Z := bpf_csum_diff (le_bytes 4 word) seed.

(** The pseudo header, word by word: addresses as they lie in memory, then the
    bytes 0, protocol 6, 0, length. *)
Definition pseudo_sum (saddr daddr len : Z) : option Z :=
  let s1 := csum_word saddr 0 in
  if s1 <? 0 then None
  else
    let s2 := csum_word daddr (wrap 32 s1) in
    if s2 <? 0 then None
    else
      let word := Z.lor (wrap 32 (Z.shiftl IPPROTO_TCP 8)) (wrap 32 (Z.shiftl len 24)) in
      let s3 := csum_word word (wrap 32 s2) in
      if s3 <? 0 then None else Some s3.
End Csum.

(** ** Little-endian sums *)
Lemma le_word_total_app pre post :
  Nat.Even (length pre) -> le_word_total (pre ++ post) = le_word_total pre + le_word_total post.
Proof.
  induction pre as [|a|a b pre IH] using two_step_ind; intros He; [done| |].
  - destruct He as [k Hk]. cbn in Hk. lia.
  - cbn [app le_word_total]. rewrite IH; [lia|].
    destruct He as [k Hk]. exists (k - 1)%nat. cbn in Hk. lia.
Qed.

Lemma le_word_total_le_bytes2 c : 0 <= c < 65536 -> le_word_total (le_bytes 2 c) = c.
Proof.
  intros Hc. cbn. rewrite (Z.mod_small (c / 256)).
  - pose proof (Z.div_mod c 256). lia.
  - split; [apply Z.div_pos; lia|apply Z.div_lt_upper_bound; lia].
Qed.

Lemma le_word_total_pos bs : bytes_ok bs ->
  0 <= le_word_total bs /\ (0 < le_word_total bs -> 0 < word_total bs) /\
  word_total bs mod 65535 = (256 * le_word_total bs) mod 65535.
Proof.
  induction bs as [|a|a b bs IH] using two_step_ind; intros Hb.
  - cbn. split_and!; done.
  - apply Forall_cons_iff in Hb as [Ha _]. unfold is_byte in Ha. cbn. split_and!; [lia|lia|].
    f_equal. lia.
  - apply Forall_cons_iff in Hb as [Ha [Hb Hbs]%Forall_cons_iff].
    destruct (IH Hbs) as (H1&H2&H3). pose proof (word_total_nonneg bs Hbs).
    unfold is_byte in *. cbn [le_word_total word_total]. split_and!; [lia|lia|].
    rewrite Z.add_mod, H3, <- Z.add_mod by lia.
    replace (256 * (a + b * 256 + le_word_total bs))
      with (a * 256 + b + 256 * le_word_total bs + b * 65535) by lia.
    by rewrite Z.mod_add by lia.
Qed.

(** A buffer whose words sum to a positive multiple of 65535 verifies. *)
Lemma checksum_verified bs :
  bytes_ok bs -> Z.of_nat (length bs) <= 65536 -> 0 < le_word_total bs ->
  (le_word_total bs) mod 65535 = 0 -> checksum bs = 0.
Proof.
  intros Hb Hl Hp Hm. destruct (le_word_total_pos bs Hb) as (_&H2&H3).
  specialize (H2 Hp). rewrite <- Z.mul_mod_idemp_r, Hm in H3 by lia. cbn in H3.
  rewrite checksum_spec by done. unfold oc16.
  destruct (Z.eqb_spec (word_total bs) 0); [lia|].
  assert ((word_total bs - 1) mod 65535 = 65534) as ->; [|done].
  apply Z.mod_divide in H3 as [k ->]; [|lia].
  replace (k * 65535 - 1) with (65534 + (k - 1) * 65535) by lia. by rewrite Z.mod_add.
Qed.

Lemma finalize_csum_spec s :
  0 <= s < 2 ^ 32 ->
  0 < finalize_csum s <= 65535 /\ (s + finalize_csum s) mod 65535 = 0.
Proof.
  intros Hs. unfold finalize_csum. rewrite (wrap_small 32 s) by lia.
  rewrite !(land_mask _ 16 0xffff), !shiftr_div by done.
  pose proof (Z.div_mod s (2 ^ 16) ltac:(lia)) as E1. pose proof (Z.mod_pos_bound s (2 ^ 16) ltac:(lia)).
  assert (0 <= s / 2 ^ 16 < 2 ^ 16) by (split; [apply Z.div_pos; lia|apply Z.div_lt_upper_bound; lia]).
  unfold wrapping_add. rewrite (wrap_small 32 (s mod _ + _)) by lia.
  set (v := s mod 2 ^ 16 + s / 2 ^ 16) in *.
  pose proof (Z.div_mod v (2 ^ 16) ltac:(lia)) as E2. pose proof (Z.mod_pos_bound v (2 ^ 16) ltac:(lia)).
  assert (0 <= v / 2 ^ 16 < 2) by (split; [apply Z.div_pos; lia|apply Z.div_lt_upper_bound; lia]).
  rewrite (wrap_small 32) by lia. set (v2 := v mod 2 ^ 16 + v / 2 ^ 16) in *.
  assert (0 <= v2 <= 65535) by (unfold v in *; lia).
  assert (Hv : s + (65535 - v2) = (s / 2 ^ 16 + v / 2 ^ 16 + 1) * 65535) by lia.
  unfold wnot. rewrite wrap_small by lia.
  destruct (Z.eqb_spec (2 ^ 16 - 1 - v2) 0) as [Hz|Hz].
  - split; [lia|]. replace (s + 65535) with ((s / 2 ^ 16 + v / 2 ^ 16 + 2) * 65535) by lia.
    by apply Z.mod_mul.
  - split; [lia|]. replace (2 ^ 16 - 1 - v2) with (65535 - v2) by lia. rewrite Hv. by apply Z.mod_mul.
Qed.

(** ** Frames as headers *)
Definition EthHdr_fit (h : EthHdr.t) : Prop :=
  (length (EthHdr.dst h) = 6%nat /\ bytes_ok (EthHdr.dst h)) /\
  (length (EthHdr.src h) = 6%nat /\ bytes_ok (EthHdr.src h)) /\
  0 <= EthHdr.proto h < 65536.

Definition hdrs (e : EthHdr.t) (i : IpHdr.t) (t : TcpHdr.t) (rest : list Z) : frame :=
  EthHdr.encode e ++ IpHdr.encode i ++ TcpHdr.encode t ++ rest.

Lemma length_EthHdr_encode h : EthHdr_fit h -> length (EthHdr.encode h) = 14%nat.
Proof.
  intros [[H1 _] [[H2 _] _]]. unfold EthHdr.encode.
  rewrite !length_app, H1, H2, length_le_bytes. done.
Qed.

Lemma EthHdr_decode_encode h : EthHdr_fit h -> EthHdr.decode (EthHdr.encode h) = h.
Proof.
  intros [[H1 _] [[H2 _] H3]]. unfold EthHdr.decode, EthHdr.encode. destruct h as [d s pr].
  cbn [EthHdr.dst EthHdr.src EthHdr.proto] in *. f_equal.
  - unfold slice. rewrite drop_0. rewrite <- H1. apply take_app_length.
  - unfold slice. rewrite drop_app_length' by done. rewrite <- H2. apply take_app_length.
  - rewrite app_assoc. unfold slice. rewrite drop_app_length' by (rewrite length_app; lia).
    rewrite firstn_all2 by (rewrite length_le_bytes; lia). by apply le_val_le_bytes.
Qed.

Lemma EthHdr_encode_decode bs :
  bytes_ok bs -> length bs = 14%nat -> EthHdr.encode (EthHdr.decode bs) = bs /\ EthHdr_fit (EthHdr.decode bs).
Proof.
  intros Hb Hl. unfold EthHdr_fit, EthHdr.decode, EthHdr.encode.
  cbn [EthHdr.dst EthHdr.src EthHdr.proto].
  assert (Hok : forall n m, bytes_ok (slice n m bs)) by (intros; by apply Forall_take, Forall_drop).
  split; [|split_and!; try apply Hok; try (apply length_slice; lia)].
  - pose proof (le_bytes_le_val _ (Hok 12%nat 2%nat)) as H2. rewrite length_slice in H2 by lia.
    rewrite H2. unfold slice. rewrite drop_0.
    rewrite (take_ge (drop 12 bs)) by (rewrite length_drop; lia).
    replace (drop 12 bs) with (drop 6 (drop 6 bs)) by (by rewrite drop_drop).
    by rewrite take_drop, take_drop.
  - pose proof (le_val_range _ (Hok 12%nat 2%nat)) as Hr. rewrite length_slice in Hr by lia. apply Hr.
  - pose proof (le_val_range _ (Hok 12%nat 2%nat)) as Hr. rewrite length_slice in Hr by lia. apply Hr.
Qed.

Lemma slice_app_at (a b c : list Z) n m :
  length a = n -> length b = m -> slice n m (a ++ b ++ c) = b.
Proof. intros <- <-. unfold slice. by rewrite drop_app_length, take_app_length. Qed.

Lemma splice_app_at (a b c k : list Z) n :
  length a = n -> length b = length k -> splice n k (a ++ b ++ c) = a ++ k ++ c.
Proof.
  intros <- Hb. unfold splice. rewrite take_app_length. do 2 f_equal.
  rewrite <- drop_drop, drop_app_length, <- Hb. apply drop_app_length.
Qed.

Section Hdrs.
Context (e : EthHdr.t) (i : IpHdr.t) (t : TcpHdr.t) (rest : list Z).
Hypothesis He : EthHdr_fit e.
Hypothesis Hi : IpHdr_fit i.
Hypothesis Ht : TcpHdr_fit t.

Lemma length_hdrs : length (hdrs e i t rest) = (54 + length rest)%nat.
Proof.
  unfold hdrs. rewrite !length_app, length_EthHdr_encode, length_IpHdr_encode, length_TcpHdr_encode
    by done. lia.
Qed.

Lemma load_Eth_hdrs : load_EthHdr (hdrs e i t rest) 0 = e.
Proof.
  unfold load_EthHdr, hdrs.
  pose proof (slice_app_at [] (EthHdr.encode e) (IpHdr.encode i ++ TcpHdr.encode t ++ rest) 0 14
    eq_refl (length_EthHdr_encode e He)) as Hs. cbn [app] in Hs.
  change EthHdr.size with 14%nat. rewrite Hs.
  by apply EthHdr_decode_encode.
Qed.

Lemma load_Ip_hdrs : load_IpHdr (hdrs e i t rest) 14 = i.
Proof.
  unfold load_IpHdr, hdrs. rewrite slice_app_at; [by apply IpHdr_decode_encode| |].
  - by apply length_EthHdr_encode.
  - by apply length_IpHdr_encode.
Qed.

Lemma load_Tcp_hdrs : load_TcpHdr (hdrs e i t rest) 34 = t.
Proof.
  unfold load_TcpHdr, hdrs. rewrite app_assoc, slice_app_at; [by apply TcpHdr_decode_encode| |].
  - by rewrite length_app, length_EthHdr_encode, length_IpHdr_encode.
  - by apply length_TcpHdr_encode.
Qed.

Lemma update_Eth_hdrs f : EthHdr_fit (f e) -> update_EthHdr f 0 (hdrs e i t rest) = hdrs (f e) i t rest.
Proof.
  intros Hf. unfold update_EthHdr. rewrite load_Eth_hdrs. unfold hdrs.
  apply (splice_app_at [] (EthHdr.encode e)); [done|]. by rewrite !length_EthHdr_encode.
Qed.

Lemma update_Ip_hdrs f : IpHdr_fit (f i) -> update_IpHdr f 14 (hdrs e i t rest) = hdrs e (f i) t rest.
Proof.
  intros Hf. unfold update_IpHdr. rewrite load_Ip_hdrs. unfold hdrs.
  apply splice_app_at; [by apply length_EthHdr_encode|]. by rewrite !length_IpHdr_encode.
Qed.

Lemma update_Tcp_hdrs f : TcpHdr_fit (f t) -> update_TcpHdr f 34 (hdrs e i t rest) = hdrs e i (f t) rest.
Proof.
  intros Hf. unfold update_TcpHdr. rewrite load_Tcp_hdrs. unfold hdrs.
  rewrite app_assoc, (app_assoc _ (IpHdr.encode i)).
  apply splice_app_at; [by rewrite length_app, length_EthHdr_encode, length_IpHdr_encode|].
  by rewrite !length_TcpHdr_encode.
Qed.

Lemma ip_bytes_hdrs : slice 14 20 (hdrs e i t rest) = IpHdr.encode i.
Proof. unfold hdrs. apply slice_app_at; [by apply length_EthHdr_encode|by apply length_IpHdr_encode]. Qed.

Lemma tcp_bytes_hdrs : slice 34 20 (hdrs e i t rest) = TcpHdr.encode t.
Proof.
  unfold hdrs. rewrite app_assoc. apply slice_app_at; [|by apply length_TcpHdr_encode].
  by rewrite length_app, length_EthHdr_encode, length_IpHdr_encode.
Qed.

Lemma tcp_opt_bytes_hdrs n :
  (n <= length rest)%nat -> slice 34 (20 + n) (hdrs e i t rest) = TcpHdr.encode t ++ take n rest.
Proof.
  intros Hn. unfold hdrs. rewrite (app_assoc (EthHdr.encode e)).
  replace (TcpHdr.encode t ++ rest) with ((TcpHdr.encode t ++ take n rest) ++ drop n rest)
    by (by rewrite <- app_assoc, take_drop).
  apply slice_app_at.
  - by rewrite length_app, length_EthHdr_encode, length_IpHdr_encode.
  - rewrite length_app, length_TcpHdr_encode, length_take by done. lia.
Qed.

Lemma splice_rest_hdrs k :
  (length k <= length rest)%nat ->
  splice 54 k (hdrs e i t rest) = hdrs e i t (k ++ drop (length k) rest).
Proof.
  intros Hk. unfold hdrs.
  replace (EthHdr.encode e ++ IpHdr.encode i ++ TcpHdr.encode t ++ rest)
    with ((EthHdr.encode e ++ IpHdr.encode i ++ TcpHdr.encode t) ++ take (length k) rest
          ++ drop (length k) rest) by (by rewrite take_drop, <- !app_assoc).
  rewrite splice_app_at.
  - by rewrite <- !app_assoc.
  - by rewrite !length_app, length_EthHdr_encode, length_IpHdr_encode, length_TcpHdr_encode.
  - rewrite length_take. lia.
Qed.
End Hdrs.

Lemma frame_hdrs p :
  bytes_ok p -> (54 <= length p)%nat ->
  let e := load_EthHdr p 0 in let i := load_IpHdr p 14 in let t := load_TcpHdr p 34 in
  p = hdrs e i t (drop 54 p) /\ EthHdr_fit e /\ IpHdr_fit i /\ TcpHdr_fit t.
Proof.
  intros Hb Hl. cbv zeta. unfold load_EthHdr, load_IpHdr, load_TcpHdr, hdrs.
  assert (Hok : forall n m, bytes_ok (slice n m p)) by (intros; by apply Forall_take, Forall_drop).
  destruct (EthHdr_encode_decode (slice 0 14 p)) as [E1 E2]; [apply Hok|apply length_slice; lia|].
  change EthHdr.size with 14%nat. change IpHdr.size with 20%nat. change TcpHdr.size with 20%nat.
  split_and!; [|done|apply IpHdr_decode_fit; [apply Hok|apply length_slice; lia]
    |apply TcpHdr_decode_fit; [apply Hok|apply length_slice; lia]].
  rewrite E1, IpHdr_encode_decode, TcpHdr_encode_decode by (apply Hok || (apply length_slice; lia)).
  unfold slice. rewrite drop_0. replace (drop 54 p) with (drop 20 (drop 34 p)) by (by rewrite drop_drop).
  rewrite (take_drop 20 (drop 34 p)). replace (drop 34 p) with (drop 20 (drop 14 p)) by (by rewrite drop_drop).
  by rewrite !take_drop.
Qed.

(** Changing a checksum field changes the sum of the header by the field. *)
Lemma le_word_total_field pre c post :
  Nat.Even (length pre) -> 0 <= c < 65536 ->
  le_word_total (pre ++ le_bytes 2 c ++ post) = le_word_total (pre ++ le_bytes 2 0 ++ post) + c.
Proof.
  intros He Hc. rewrite !(le_word_total_app pre), !(le_word_total_app (le_bytes 2 _)) by
    (done || by exists 1%nat).
  rewrite !le_word_total_le_bytes2 by lia. lia.
Qed.

Lemma IpHdr_check_sum i c :
  0 <= c < 65536 ->
  le_word_total (IpHdr.encode (i <| IpHdr.check := c |>)) =
  le_word_total (IpHdr.encode (i <| IpHdr.check := 0 |>)) + c.
Proof.
  intros Hc.
  assert (forall c, IpHdr.encode (i <| IpHdr.check := c |>) =
    (le_bytes 1 (IpHdr.ver_ihl i) ++ le_bytes 1 (IpHdr.tos i) ++ le_bytes 2 (IpHdr.tot_len i) ++
     le_bytes 2 (IpHdr.id i) ++ le_bytes 2 (IpHdr.frag_off i) ++ le_bytes 1 (IpHdr.ttl i) ++
     le_bytes 1 (IpHdr.proto i)) ++ le_bytes 2 c ++
    (le_bytes 4 (IpHdr.saddr i) ++ le_bytes 4 (IpHdr.daddr i))) as Hs.
  { intros c'. by rewrite <- !app_assoc. }
  rewrite !Hs. apply le_word_total_field; [by exists 5%nat|done].
Qed.

Lemma TcpHdr_check_sum t c rest :
  0 <= c < 65536 ->
  le_word_total (TcpHdr.encode (t <| TcpHdr.check := c |>) ++ rest) =
  le_word_total (TcpHdr.encode (t <| TcpHdr.check := 0 |>) ++ rest) + c.
Proof.
  intros Hc.
  assert (forall c, TcpHdr.encode (t <| TcpHdr.check := c |>) ++ rest =
    (le_bytes 2 (TcpHdr.source t) ++ le_bytes 2 (TcpHdr.dest t) ++ le_bytes 4 (TcpHdr.seq t) ++
     le_bytes 4 (TcpHdr.ack_seq t) ++ le_bytes 2 (TcpHdr.doff_flags t) ++ le_bytes 2 (TcpHdr.window t))
    ++ le_bytes 2 c ++ (le_bytes 2 (TcpHdr.urg_ptr t) ++ rest)) as Hs.
  { intros c'. by rewrite <- !app_assoc. }
  rewrite !Hs. apply le_word_total_field; [by exists 8%nat|done].
Qed.

(** Headers whose checksum field was computed as above verify. *)
Lemma ip_checksum_verifies i c :
  IpHdr_fit i -> IpHdr.check i = 0 -> 0 < c <= 65535 ->
  (le_word_total (IpHdr.encode i) + c) mod 65535 = 0 ->
  checksum (IpHdr.encode (i <| IpHdr.check := c |>)) = 0.
Proof.
  intros Hi H0 Hc Hm.
  assert (Hi' : IpHdr_fit (i <| IpHdr.check := c |>)).
  { revert Hi. unfold IpHdr_fit. cbn -[Z.pow]. intuition lia. }
  assert (E : i <| IpHdr.check := 0 |> = i) by (destruct i; cbn in *; by subst).
  pose proof (IpHdr_check_sum i c ltac:(lia)) as Hs. rewrite E in Hs.
  destruct (le_word_total_pos (IpHdr.encode i) (put_fields_ok _ _)) as [Hp _].
  apply checksum_verified; [apply put_fields_ok|rewrite length_IpHdr_encode by done; lia|lia|].
  by rewrite Hs.
Qed.

Lemma tcp_checksum_verifies t c pre rest :
  TcpHdr_fit t -> TcpHdr.check t = 0 -> 0 < c <= 65535 ->
  bytes_ok pre -> bytes_ok rest -> Nat.Even (length pre) ->
  Z.of_nat (length pre + 20 + length rest) <= 65536 ->
  (le_word_total pre + le_word_total (TcpHdr.encode t ++ rest) + c) mod 65535 = 0 ->
  checksum (pre ++ TcpHdr.encode (t <| TcpHdr.check := c |>) ++ rest) = 0.
Proof.
  intros Ht H0 Hc Hpre Hrest Hev Hlen Hm.
  assert (Ht' : TcpHdr_fit (t <| TcpHdr.check := c |>)).
  { revert Ht. unfold TcpHdr_fit. cbn -[Z.pow]. intuition lia. }
  assert (E : t <| TcpHdr.check := 0 |> = t) by (destruct t; cbn in *; by subst).
  pose proof (TcpHdr_check_sum t c rest ltac:(lia)) as Hs. rewrite E in Hs.
  assert (Hb : forall h, bytes_ok (TcpHdr.encode h ++ rest)).
  { intros. apply bytes_ok_app. split; [apply put_fields_ok|done]. }
  destruct (le_word_total_pos _ (Hb t)) as [Hp _]. destruct (le_word_total_pos pre Hpre) as [Hq _].
  apply checksum_verified.
  - apply bytes_ok_app. by split.
  - rewrite !length_app, length_TcpHdr_encode by done. lia.
  - rewrite le_word_total_app by done. lia.
  - rewrite le_word_total_app, Hs by done. rewrite <- Hm. f_equal. lia.
Qed.

(** ** The helper's sums *)
Section HelperSums.
Context {KN : Kernel} {KL : KernelLaws}.

(** The bytes of the pseudo header: both addresses, 0, protocol, 0, length. *)
Definition pseudo_bytes (saddr daddr len : Z) : list Z :=
  le_bytes 4 saddr ++ le_bytes 4 daddr ++ [0; IPPROTO_TCP; 0; len].

Lemma csum_diff_bytes bs seed :
  bytes_ok bs -> (4 | length bs)%nat -> (length bs <= 512)%nat -> 0 <= seed < 2 ^ 32 ->
  0 <= bpf_csum_diff bs seed < 2 ^ 32 /\
  exists k, bpf_csum_diff bs seed + k * 65535 = seed + le_word_total bs.
Proof.
  intros. destruct (csum_diff_spec bs seed) as (H3&H4&_); [done..|]. split; [done|].
  exists ((seed + le_word_total bs) / 65535 - bpf_csum_diff bs seed / 65535).
  pose proof (Z.div_mod (bpf_csum_diff bs seed) 65535). pose proof (Z.div_mod (seed + le_word_total bs) 65535).
  lia.
Qed.

Lemma pseudo_sum_spec saddr daddr len :
  0 <= len < 256 ->
  exists s k, pseudo_sum saddr daddr len = Some s /\ 0 <= s < 2 ^ 32 /\
    s + k * 65535 = le_word_total (pseudo_bytes saddr daddr len).
Proof.
  intros Hlen. unfold pseudo_sum, csum_word. cbv zeta.
  assert (Hok : forall w seed, 0 <= seed < 2 ^ 32 ->
    0 <= bpf_csum_diff (le_bytes 4 w) seed < 2 ^ 32 /\
    exists k, bpf_csum_diff (le_bytes 4 w) seed + k * 65535 = seed + le_word_total (le_bytes 4 w)).
  { intros w seed Hs. apply csum_diff_bytes; [apply le_bytes_ok|by exists 1%nat|cbn; lia|done]. }
  destruct (Hok saddr 0 ltac:(lia)) as [H1 [k1 E1]].
  set (s1 := bpf_csum_diff (le_bytes 4 saddr) 0) in *.
  destruct (Z.ltb_spec s1 0); [lia|]. rewrite (wrap_small 32 s1) by lia.
  destruct (Hok daddr s1 H1) as [H2 [k2 E2]]. set (s2 := bpf_csum_diff (le_bytes 4 daddr) s1) in *.
  destruct (Z.ltb_spec s2 0); [lia|]. rewrite (wrap_small 32 s2) by lia.
  set (word := Z.lor _ _). destruct (Hok word s2 H2) as [H3 [k3 E3]].
  set (s3 := bpf_csum_diff (le_bytes 4 word) s2) in *.
  destruct (Z.ltb_spec s3 0); [lia|]. exists s3, (k1 + k2 + k3). split; [done|]. split; [done|].
  assert (Hw : le_bytes 4 word = [0; IPPROTO_TCP; 0; len]).
  { unfold word. rewrite (wrap_small 32 (Z.shiftl len 24)) by (rewrite Z.shiftl_mul_pow2; lia).
    change (wrap 32 (Z.shiftl IPPROTO_TCP 8)) with 1536.
    rewrite lor_low_shiftl by lia. cbn [le_bytes].
    rewrite !Z.div_div by lia. unfold IPPROTO_TCP.
    repeat (f_equal; try (Z.div_mod_to_equations; lia)). }
  unfold pseudo_bytes. rewrite !le_word_total_app by (by exists 2%nat). rewrite <- Hw. lia.
Qed.
End HelperSums.
