(* ===== verification/Footprint.v ===== *)
(** * Footprint: which maps an operation writes

    [modifies fs m]: running [m] leaves every component of [KState] outside
    [fs] unchanged.  The primitives are proved once; [footprint] then walks
    over the body of an operation. *)
From stdpp Require Import sets.
From S2P Require Import Prelude Words Common Parser Maps.
#[local] Open Scope Z_scope.

Inductive Field :=
  | F_TABLES                (* tries, ACL, L7, project and configuration tables *)
  | F_BLACKLIST | F_GLOBAL_STATS | F_TOP_ATTACKERS | F_EVENTS | F_PACKET_SAMPLES
  | F_RATE_MAP | F_RATE_MAP_PORT | F_PORT_RATE_MAP | F_SYN_PROXY_CONN | F_CONN_TRACK
  | F_TRUST_MAP | F_packet | F_ktime | F_prandom.

#[export] Instance Field_eq_dec : EqDecision Field.
Proof. solve_decision. Defined.

Section Footprint.
Context {KN : Kernel}.

(** The tables only the control plane writes. *)
Definition tables (s : KState) :=
  (WHITELIST_V4 s, WHITELIST_V6 s, GEOIP_BLOCKED_V4 s, GEOIP_BLOCKED_V6 s,
   GEOIP_ALLOWED_V4 s, GEOIP_ALLOWED_V6 s, CONFIG s, RATE_LIMIT_CFG s,
   PORT_RATE_LIMIT_CFG s, COOKIE_SECRETS s, L7_PATTERNS s, PORT_ACL s,
   PROJECT_POLICY s).

Definition field_eq (f : Field) (s s' : KState) : Prop :=
  match f with
  | F_TABLES => tables s' = tables s
  | F_BLACKLIST => BLACKLIST s' = BLACKLIST s
  | F_GLOBAL_STATS => GLOBAL_STATS s' = GLOBAL_STATS s
  | F_TOP_ATTACKERS => TOP_ATTACKERS s' = TOP_ATTACKERS s
  | F_EVENTS => EVENTS s' = EVENTS s
  | F_PACKET_SAMPLES => PACKET_SAMPLES s' = PACKET_SAMPLES s
  | F_RATE_MAP => RATE_MAP s' = RATE_MAP s
  | F_RATE_MAP_PORT => RATE_MAP_PORT s' = RATE_MAP_PORT s
  | F_PORT_RATE_MAP => PORT_RATE_MAP s' = PORT_RATE_MAP s
  | F_SYN_PROXY_CONN => SYN_PROXY_CONN s' = SYN_PROXY_CONN s
  | F_CONN_TRACK => CONN_TRACK s' = CONN_TRACK s
  | F_TRUST_MAP => TRUST_MAP s' = TRUST_MAP s
  | F_packet => packet s' = packet s
  | F_ktime => ktime_calls s' = ktime_calls s
  | F_prandom => prandom_calls s' = prandom_calls s
  end.

Definition same_except (fs : list Field) (s s' : KState) : Prop :=
  forall f, f ∉ fs -> field_eq f s s'.

Definition modifies {A} (fs : list Field) (m : BPF A) : Prop := stable (same_except fs) m.

#[export] Instance same_except_preorder fs : PreOrder (same_except fs).
Proof.
  split.
  - intros s f _. by destruct f.
  - intros s1 s2 s3 H1 H2 f Hf. specialize (H1 f Hf). specialize (H2 f Hf).
    destruct f; cbn in *; congruence.
Qed.

Lemma same_except_weaken fs gs s s' : fs ⊆ gs -> same_except fs s s' -> same_except gs s s'.
Proof. intros Hsub H f Hf. apply H. set_solver. Qed.

Lemma modifies_weaken {A} fs gs (m : BPF A) : modifies fs m -> fs ⊆ gs -> modifies gs m.
Proof. intros H Hsub s. eapply same_except_weaken; [done|apply H]. Qed.

Lemma modifies_field {A} fs (m : BPF A) f s :
  modifies fs m -> f ∉ fs -> field_eq f s (snd (m s)).
Proof. intros H Hf. by apply H. Qed.

Lemma modifies_ret {A} fs (a : A) : modifies fs (ret a).
Proof. apply stable_ret, _. Qed.

Lemma modifies_gets {A} fs (f : KState -> A) : modifies fs (gets f).
Proof. apply stable_gets, _. Qed.

Lemma modifies_bind {A B} fs (m : BPF A) (k : A -> BPF B) :
  modifies fs m -> (forall a, modifies fs (k a)) -> modifies fs (bind m k).
Proof. apply stable_bind, _. Qed.

Ltac solve_primitive := intros Hin s f Hf; destruct f; try reflexivity; exfalso; set_solver.

Lemma modifies_ktime fs : F_ktime ∈ fs -> modifies fs get_ktime_ns.
Proof. solve_primitive. Qed.
Lemma modifies_prandom fs : F_prandom ∈ fs -> modifies fs get_prandom_u32.
Proof. solve_primitive. Qed.
Lemma modifies_with_stats fs g : F_GLOBAL_STATS ∈ fs -> modifies fs (with_stats g).
Proof. solve_primitive. Qed.
Lemma modifies_with_stats_ret {A} fs (d : A) g :
  F_GLOBAL_STATS ∈ fs -> modifies fs (with_stats_ret d g).
Proof.
  intros Hin s f Hf. unfold with_stats_ret. destruct (GLOBAL_STATS s) as [|x l].
  - by destruct f.
  - destruct (g x) as [a g']. destruct f; try reflexivity. exfalso; set_solver.
Qed.
Lemma modifies_BLACKLIST_insert fs k v : F_BLACKLIST ∈ fs -> modifies fs (BLACKLIST_insert k v).
Proof. solve_primitive. Qed.
Lemma modifies_BLACKLIST_remove fs k : F_BLACKLIST ∈ fs -> modifies fs (BLACKLIST_remove k).
Proof. solve_primitive. Qed.
Lemma modifies_TOP_ATTACKERS_insert fs k v :
  F_TOP_ATTACKERS ∈ fs -> modifies fs (TOP_ATTACKERS_insert k v).
Proof. solve_primitive. Qed.
Lemma modifies_RATE_MAP_insert fs k v : F_RATE_MAP ∈ fs -> modifies fs (RATE_MAP_insert k v).
Proof. solve_primitive. Qed.
Lemma modifies_RATE_MAP_PORT_insert fs k v :
  F_RATE_MAP_PORT ∈ fs -> modifies fs (RATE_MAP_PORT_insert k v).
Proof. solve_primitive. Qed.
Lemma modifies_PORT_RATE_MAP_insert fs k v :
  F_PORT_RATE_MAP ∈ fs -> modifies fs (PORT_RATE_MAP_insert k v).
Proof. solve_primitive. Qed.
Lemma modifies_SYN_PROXY_CONN_insert fs k v :
  F_SYN_PROXY_CONN ∈ fs -> modifies fs (SYN_PROXY_CONN_insert k v).
Proof. solve_primitive. Qed.
Lemma modifies_SYN_PROXY_CONN_remove fs k :
  F_SYN_PROXY_CONN ∈ fs -> modifies fs (SYN_PROXY_CONN_remove k).
Proof. solve_primitive. Qed.
Lemma modifies_CONN_TRACK_insert fs k v : F_CONN_TRACK ∈ fs -> modifies fs (CONN_TRACK_insert k v).
Proof. solve_primitive. Qed.
Lemma modifies_CONN_TRACK_remove fs k : F_CONN_TRACK ∈ fs -> modifies fs (CONN_TRACK_remove k).
Proof. solve_primitive. Qed.
Lemma modifies_TRUST_MAP_insert fs k v : F_TRUST_MAP ∈ fs -> modifies fs (TRUST_MAP_insert k v).
Proof. solve_primitive. Qed.
Lemma modifies_packet fs g : F_packet ∈ fs -> modifies fs (packet_modify g).
Proof. solve_primitive. Qed.
Lemma modifies_EVENTS fs g : F_EVENTS ∈ fs -> modifies fs (modify (fun s => s <| EVENTS ::= g |>)).
Proof. solve_primitive. Qed.
Lemma modifies_PACKET_SAMPLES fs g :
  F_PACKET_SAMPLES ∈ fs -> modifies fs (modify (fun s => s <| PACKET_SAMPLES ::= g |>)).
Proof. solve_primitive. Qed.
Lemma modifies_adjust_tail fs d : F_packet ∈ fs -> modifies fs (adjust_tail d).
Proof.
  intros Hin s f Hf. unfold adjust_tail. destruct (bpf_xdp_adjust_tail (packet s) d).
  destruct f; try reflexivity. exfalso; set_solver.
Qed.
End Footprint.

Create HintDb footprint discriminated.
#[export] Hint Resolve modifies_ret modifies_gets modifies_ktime modifies_prandom
  modifies_with_stats modifies_with_stats_ret modifies_BLACKLIST_insert
  modifies_BLACKLIST_remove modifies_TOP_ATTACKERS_insert modifies_RATE_MAP_insert
  modifies_RATE_MAP_PORT_insert modifies_PORT_RATE_MAP_insert
  modifies_SYN_PROXY_CONN_insert modifies_SYN_PROXY_CONN_remove
  modifies_CONN_TRACK_insert modifies_CONN_TRACK_remove modifies_TRUST_MAP_insert
  modifies_packet modifies_EVENTS modifies_PACKET_SAMPLES modifies_adjust_tail : footprint.

(** Membership and inclusion of concrete field lists. *)
Ltac solve_fields :=
  lazymatch goal with
  | |- _ ∈ _ => repeat (apply list_elem_of_here || apply list_elem_of_further)
  | |- _ ⊆ _ => apply (bool_decide_eq_true_1 _); vm_compute; reflexivity
  | |- _ ∉ _ => apply (bool_decide_eq_true_1 _); vm_compute; reflexivity
  end.
#[export] Hint Extern 1 (_ ∈ _) => solve_fields : footprint.

Ltac footprint_step :=
  lazymatch goal with
  | |- modifies _ (bind _ _) => apply modifies_bind; [|intros ?]
  | |- modifies _ (match ?x with _ => _ end) => destruct x
  | |- modifies _ (let _ := _ in _) => cbv zeta
  | |- modifies _ ((fun _ => _) _) => cbv beta
  end.
Ltac footprint := repeat (solve [eauto 3 with footprint nocore] || footprint_step).
