(* ===== verification/Trust.v ===== *)
(** * Trust: the two-way reputation score

    [eshield-ebpf/src/trust.rs]: a pass raises the score slowly, a drop lowers
    it quickly, and the score modulates the rate thresholds. *)
From S2P Require Import Prelude Words Common Parser Maps Footprint.
#[local] Open Scope Z_scope.

Section Trust.
Context {KN : Kernel}.

Definition trust_level (score : Z) : Z :=
  if score >=? 700 then 1
  else if score >=? 300 then 2
  else if score >=? 100 then 3
  else 4.

(** The entry of an address, or the neutral default. *)
Definition trust_entry (m : lru IpKey.t TrustEntry.t) (src : IpKey.t) : TrustEntry.t :=
  match lru_get m src with
  | Some e => e
  | None => TrustEntry_default <| TrustEntry.trust_score := TRUST_DEFAULT |>
  end.

Definition trust_pass (src : IpKey.t) (now_ns add_divisor weight : Z) : BPF unit :=
  let weight := Z.max weight 1 in
  let* entry := gets (fun s => trust_entry (TRUST_MAP s) src) in
  let entry := entry <| TrustEntry.pass_count ::= fun c => saturating_add 32 c weight |> in
  let divisor := if add_divisor =? 0 then TRUST_ADD_DIVISOR else add_divisor in
  let delta := saturating_sub TRUST_MAX (TrustEntry.trust_score entry) / divisor in
  let score := Z.min (wrapping_add 32 (TrustEntry.trust_score entry)
                        (saturating_mul 32 delta weight)) TRUST_MAX in
  let entry := entry <| TrustEntry.trust_score := score |>
                     <| TrustEntry.last_update_ns := now_ns |>
                     <| TrustEntry.level := trust_level score |> in
  TRUST_MAP_insert src entry.

Definition trust_drop (src : IpKey.t) (now_ns sub_divisor : Z) : BPF unit :=
  let* entry := gets (fun s => trust_entry (TRUST_MAP s) src) in
  let entry := entry <| TrustEntry.drop_count ::= fun c => saturating_add 32 c 1 |> in
  let divisor := if sub_divisor =? 0 then TRUST_SUB_DIVISOR else sub_divisor in
  let score := saturating_sub (TrustEntry.trust_score entry)
                 (TrustEntry.trust_score entry / divisor) in
  let entry := entry <| TrustEntry.trust_score := score |>
                     <| TrustEntry.last_update_ns := now_ns |>
                     <| TrustEntry.level := trust_level score |> in
  if TrustEntry.trust_score entry =? TRUST_MIN then
    let* due := with_stats_ret true (fun g =>
      let sample := wrapping_add 32 (GlobalStats.trust_drop_sample g) 1 in
      (Z.land sample 0xf =? 0, g <| GlobalStats.trust_drop_sample := sample |>)) in
    if negb due then ret tt
    else
      let entry := entry <| TrustEntry.drop_count ::= fun c => saturating_add 32 c 15 |> in
      TRUST_MAP_insert src entry
  else TRUST_MAP_insert src entry.

Definition trust_factor (m : lru IpKey.t TrustEntry.t) (src : IpKey.t) : Z :=
  let trust := match lru_get m src with
               | Some e => TrustEntry.trust_score e
               | None => TRUST_DEFAULT
               end in
  wrapping_mul 64 (500 + trust) 1000 / 1500.

Definition danger_factor (danger_level : Z) : Z :=
  if danger_level =? 2 then 500 else if danger_level =? 1 then 750 else 1000.

(** ** The invariant of TRUST_MAP *)

(** A score in range; the level is the cached class of the score, or 0 where
    the entry was written by a block or its expiry. *)
Definition trust_ok (e : TrustEntry.t) : Prop :=
  TRUST_MIN <= TrustEntry.trust_score e <= TRUST_MAX /\
  (TrustEntry.level e = 0 \/ TrustEntry.level e = trust_level (TrustEntry.trust_score e)).

Definition trust_inv (s : KState) : Prop := lru_forall (fun _ e => trust_ok e) (TRUST_MAP s).

(** What an observer of the map sees as the score of an address. *)
Definition score_of (m : lru IpKey.t TrustEntry.t) (src : IpKey.t) : Z :=
  TrustEntry.trust_score (trust_entry m src).

(** ** Lemmas *)
Lemma modifies_trust_pass src now d w : modifies [F_TRUST_MAP] (trust_pass src now d w).
Proof. unfold trust_pass. footprint. Qed.

Lemma modifies_trust_drop src now d :
  modifies [F_TRUST_MAP; F_GLOBAL_STATS] (trust_drop src now d).
Proof. unfold trust_drop. footprint. Qed.

Context {KL : KernelLaws}.

Lemma trust_entry_ok m src : lru_forall (fun _ e => trust_ok e) m -> trust_ok (trust_entry m src).
Proof.
  intros H. unfold trust_entry. destruct (lru_get m src) as [e|] eqn:E; [by apply (H src)|].
  unfold trust_ok. cbn. unfold TRUST_DEFAULT, TRUST_MIN, TRUST_MAX. lia.
Qed.

(** The score arithmetic of [trust_pass] and [trust_drop]. *)
Lemma pass_score_range score d w :
  0 <= score <= 1000 -> 0 <= d < 2 ^ 32 -> 1 <= w -> w * 1000 < 2 ^ 31 ->
  let delta := saturating_sub 1000 score / (if d =? 0 then 100 else d) in
  score <= Z.min (wrapping_add 32 score (saturating_mul 32 delta w)) 1000 <= 1000.
Proof.
  intros Hs Hd Hw Hw'. cbv zeta. unfold saturating_sub. rewrite Z.max_l by lia.
  set (dv := if d =? 0 then 100 else d).
  assert (1 <= dv) by (subst dv; case_match; bool_to_prop; lia).
  assert (0 <= (1000 - score) / dv <= 1000).
  { split; [apply Z.div_pos; lia|]. apply Z.div_le_upper_bound; nia. }
  assert (0 <= (1000 - score) / dv * w <= 1000 * w) by nia.
  unfold saturating_mul, wrapping_add. rewrite (Z.min_l (_ * w)) by lia.
  rewrite wrap_small by lia. lia.
Qed.

Lemma drop_score_range score d :
  0 <= score <= 1000 -> 0 <= d ->
  0 <= saturating_sub score (score / (if d =? 0 then 3 else d)) <= score.
Proof.
  intros Hs Hd. set (dv := if d =? 0 then 3 else d).
  assert (1 <= dv) by (subst dv; case_match; bool_to_prop; lia).
  assert (0 <= score / dv <= score).
  { split; [apply Z.div_pos; lia|]. apply Z.div_le_upper_bound; nia. }
  unfold saturating_sub. lia.
Qed.

Lemma trust_pass_inv src now d w :
  0 <= d < 2 ^ 32 -> w * 1000 < 2 ^ 31 ->
  triple trust_inv (trust_pass src now d w) (fun _ => trust_inv).
Proof.
  intros Hd Hw s Hs. unfold trust_pass, bind, gets, TRUST_MAP_insert, modify. cbn.
  apply lru_forall_insert; [done|].
  destruct (trust_entry_ok _ src Hs) as [Hr _]. unfold TRUST_MIN, TRUST_MAX in Hr.
  unfold trust_ok. cbn. split; [|by right].
  pose proof (pass_score_range _ d (Z.max w 1) Hr Hd ltac:(lia) ltac:(lia)) as Hp. cbv zeta in Hp.
  unfold TRUST_MIN, TRUST_MAX, TRUST_ADD_DIVISOR in *. lia.
Qed.

Lemma trust_drop_inv src now d :
  0 <= d -> triple trust_inv (trust_drop src now d) (fun _ => trust_inv).
Proof.
  intros Hd s Hs. unfold trust_drop, bind, gets. cbn.
  destruct (trust_entry_ok _ src Hs) as [Hr _]. unfold TRUST_MIN, TRUST_MAX in Hr.
  pose proof (drop_score_range _ d Hr Hd) as Hp.
  unfold TRUST_SUB_DIVISOR.
  set (sc := saturating_sub _ _) in *.
  assert (Hok : forall c t p, trust_ok (TrustEntry.mk t sc p c (trust_level sc))).
  { intros c t p. split; cbn; [|by right]. unfold TRUST_MIN, TRUST_MAX. lia. }
  clearbody sc. destruct (sc =? TRUST_MIN).
  - unfold with_stats_ret. destruct (GLOBAL_STATS s) as [|g l]; cbn.
    + apply lru_forall_insert; [done|]. apply Hok.
    + destruct (negb _); cbn; [done|]. apply lru_forall_insert; [done|]. apply Hok.
  - apply lru_forall_insert; [done|]. apply Hok.
Qed.

Lemma trust_factor_range_ok m src :
  lru_forall (fun _ e => trust_ok e) m -> 333 <= trust_factor m src <= 1000.
Proof.
  intros H. unfold trust_factor.
  assert (Hs : 0 <= match lru_get m src with
                    | Some e => TrustEntry.trust_score e
                    | None => TRUST_DEFAULT end <= 1000).
  { destruct (lru_get m src) as [e|] eqn:E; [|done].
    destruct (H _ _ E) as [Hr _]. exact Hr. }
  revert Hs. generalize (match lru_get m src with
                    | Some e => TrustEntry.trust_score e
                    | None => TRUST_DEFAULT end). intros t Ht.
  unfold wrapping_mul. rewrite wrap_small by lia. split.
  - apply Z.div_le_lower_bound; lia.
  - apply Z.div_le_upper_bound; lia.
Qed.
End Trust.

#[export] Hint Resolve modifies_trust_pass modifies_trust_drop : footprint.

(** ** Properties *)
Section TrustProperties.
Context {KN : Kernel} {KL : KernelLaws}.

(** trust moves in the right direction and stays in range.  A pass never
    lowers a source's score, a drop never raises it, both keep it between 0
    and 1000, and the level stored with the new score is the class of the
    score. *)
Theorem trust_monotone src now d w s :
  trust_inv s -> 0 <= d < 2 ^ 32 -> w * 1000 < 2 ^ 31 ->
  let before := score_of (TRUST_MAP s) src in
  let passed := TRUST_MAP (snd (trust_pass src now d w s)) in
  let dropped := TRUST_MAP (snd (trust_drop src now d s)) in
  before <= score_of passed src <= TRUST_MAX /\
  TRUST_MIN <= score_of dropped src <= before /\
  TrustEntry.level (trust_entry passed src) = trust_level (score_of passed src).
Proof.
  intros Hs Hd Hw. cbv zeta. destruct (trust_entry_ok _ src Hs) as [Hr _].
  unfold TRUST_MIN, TRUST_MAX in Hr.
  pose proof (pass_score_range _ d (Z.max w 1) Hr Hd ltac:(lia) ltac:(lia)) as Hp. cbv zeta in Hp.
  pose proof (drop_score_range _ d Hr ltac:(lia)) as Hq.
  set (e := trust_entry (TRUST_MAP s) src) in *.
  assert (Hpass : exists e', trust_entry (TRUST_MAP (snd (trust_pass src now d w s))) src = e' /\
    TrustEntry.trust_score e <= TrustEntry.trust_score e' <= 1000 /\
    TrustEntry.level e' = trust_level (TrustEntry.trust_score e')).
  { eexists. split.
    - unfold trust_pass, bind, gets, TRUST_MAP_insert, modify. cbn [snd TRUST_MAP setter].
      unfold trust_entry at 1. by rewrite lru_get_insert_eq.
    - fold e. split; [|done]. cbn. unfold TRUST_MAX, TRUST_ADD_DIVISOR in *. lia. }
  destruct Hpass as (e'&Ee&Hle&Hlevel). unfold score_of. rewrite Ee. fold e. unfold TRUST_MAX.
  split_and!; [lia|lia| | |done].
  - unfold trust_drop, bind, gets. cbn. destruct (_ =? TRUST_MIN).
    + unfold with_stats_ret. destruct (GLOBAL_STATS s) as [|g l]; cbn.
      * unfold trust_entry at 1. rewrite lru_get_insert_eq. cbn.
        fold e. unfold TRUST_MIN, TRUST_SUB_DIVISOR in *. lia.
      * destruct (negb _); cbn; [fold e; unfold TRUST_MIN; lia|].
        unfold trust_entry at 1. rewrite lru_get_insert_eq. cbn.
        fold e. unfold TRUST_MIN, TRUST_SUB_DIVISOR in *. lia.
    + cbn. unfold trust_entry at 1. rewrite lru_get_insert_eq. cbn.
        fold e. unfold TRUST_MIN, TRUST_SUB_DIVISOR in *. lia.
  - unfold trust_drop, bind, gets. cbn. destruct (_ =? TRUST_MIN).
    + unfold with_stats_ret. destruct (GLOBAL_STATS s) as [|g l]; cbn.
      * unfold trust_entry at 1. rewrite lru_get_insert_eq. cbn.
        fold e. unfold TRUST_SUB_DIVISOR in *. lia.
      * destruct (negb _); cbn; [fold e; lia|].
        unfold trust_entry at 1. rewrite lru_get_insert_eq. cbn.
        fold e. unfold TRUST_SUB_DIVISOR in *. lia.
    + cbn. unfold trust_entry at 1. rewrite lru_get_insert_eq. cbn.
        fold e. unfold TRUST_SUB_DIVISOR in *. lia.
Qed.

(** drops alone never take a positive score to zero unless the divisor is
    one: the last step of the geometric decrease subtracts nothing, so that
    the branch for sources whose score has reached zero is reached only after
    a block has set the score to zero. *)
Theorem trust_drop_never_zero src now d s :
  trust_inv s -> 2 <= d -> 0 < score_of (TRUST_MAP s) src ->
  0 < score_of (TRUST_MAP (snd (trust_drop src now d s))) src.
Proof.
  intros Hs Hd Hpos. destruct (trust_entry_ok _ src Hs) as [Hr _]. unfold TRUST_MIN, TRUST_MAX in Hr.
  unfold score_of in *. set (sc := TrustEntry.trust_score (trust_entry (TRUST_MAP s) src)) in *.
  assert (Hq : 0 < saturating_sub sc (sc / (if d =? 0 then TRUST_SUB_DIVISOR else d))).
  { destruct (Z.eqb_spec d 0); [lia|]. assert (sc / d < sc) by (apply Z.div_lt; lia).
    unfold saturating_sub. lia. }
  unfold trust_drop, bind, gets. cbn. fold sc. destruct (Z.eqb_spec (saturating_sub sc (sc / (if d =? 0 then TRUST_SUB_DIVISOR else d))) TRUST_MIN) as [E|E].
  - unfold TRUST_MIN in E. lia.
  - cbn. unfold trust_entry at 1. rewrite lru_get_insert_eq. cbn. exact Hq.
Qed.
End TrustProperties.

Module TrustWitness.
Import Samples.

Lemma state_trust_inv p : trust_inv (state p).
Proof. intros k v [=]. Qed.

Lemma trust_monotone_witness :
  500 <= score_of (TRUST_MAP (snd (@trust_pass kernel alice 1 100 1 (state [])))) alice <= 1000.
Proof.
  destruct (trust_monotone (KL := kernel_laws) alice 1 100 1 (state []) (state_trust_inv [])) as [H _];
    [lia|lia|exact H].
Defined.

Lemma trust_drop_never_zero_witness :
  0 < score_of (TRUST_MAP (snd (@trust_drop kernel alice 1 3 (state [])))) alice.
Proof.
  apply (trust_drop_never_zero (KL := kernel_laws) alice 1 3 (state []) (state_trust_inv []));
    [lia|vm_compute; reflexivity].
Defined.
End TrustWitness.
