(* ===== verification/Blacklist.v ===== *)
(** * Blacklist: blocking a source and checking it

    [eshield-ebpf/src/blacklist.rs]. *)
From S2P Require Import Prelude Words Common Pure Parser Maps Footprint Trust.
#[local] Open Scope Z_scope.

Section Blacklist.
Context {KN : Kernel}.

Definition bump_blacklist_gen : BPF unit :=
  with_stats (fun g => g <| GlobalStats.blacklist_gen ::= fun n => wrapping_add 64 n 1 |>).

Definition bump_blacklist_hit_gen : BPF unit :=
  with_stats (fun g => g <| GlobalStats.blacklist_hit_gen ::= fun n => wrapping_add 64 n 1 |>).

(** After a block has expired the score starts again from neutral. *)
Definition reset_trust (src : IpKey.t) : BPF unit :=
  TRUST_MAP_insert src (TrustEntry_default <| TrustEntry.trust_score := TRUST_DEFAULT |>).

Definition is_blacklisted (src : IpKey.t) (now_ns : Z) : BPF bool :=
  let* found := gets (fun s => lru_get (BLACKLIST s) src) in
  match found with
  | None => ret false
  | Some entry =>
      if (BlockEntry.blocked_until_ns entry =? BLOCK_PERMANENT)
         || (BlockEntry.blocked_until_ns entry >? now_ns) then
        (* [(due, sampled)]; without a statistics slot every hit is due *)
        let* '(due, sampled) := with_stats_ret (true, false) (fun g =>
          let sample := wrapping_add 32 (GlobalStats.blacklist_hit_sample g) 1 in
          ((Z.land sample 0xf =? 0, true),
           g <| GlobalStats.blacklist_hit_sample := sample |>)) in
        if (due : bool) then
          let updated := entry <| BlockEntry.hit_count ::=
            fun c => saturating_add 32 c (if (sampled : bool) then 16 else 1) |> in
          let* _ := BLACKLIST_insert src updated in
          let* _ := bump_blacklist_hit_gen in
          ret true
        else ret true
      else
        let* _ := BLACKLIST_remove src in
        let* _ := reset_trust src in
        ret false
  end.

(** The deadline of a block of [block_duration_s] seconds, 0 being permanent. *)
Definition block_deadline (now_ns block_duration_s : Z) : Z :=
  if block_duration_s =? 0 then BLOCK_PERMANENT
  else
    let block_ns :=
      if block_duration_s >? u64_MAX / 1000000000 then u64_MAX
      else wrapping_mul 64 block_duration_s 1000000000 in
    saturating_add 64 now_ns block_ns.

Definition add_to_blacklist (src : IpKey.t) (now_ns block_duration_s reason : Z) : BPF unit :=
  let new_until_ns := block_deadline now_ns block_duration_s in
  let* prev := gets (fun s => lru_get (BLACKLIST s) src) in
  let entry := merge_block_entry prev now_ns new_until_ns reason false in
  let* _ := BLACKLIST_insert src entry in
  let* _ := bump_blacklist_gen in
  let trust_entry := TrustEntry_default <| TrustEntry.trust_score := TRUST_MIN |>
                                        <| TrustEntry.last_update_ns := now_ns |> in
  TRUST_MAP_insert src trust_entry.

(** ** Views *)

(** The address is under a block that is in force at time [t]. *)
Definition blocked_at (s : KState) (src : IpKey.t) (t : Z) : bool :=
  match lru_get (BLACKLIST s) src with
  | Some e => block_live e t
  | None => false
  end.

(** ** Lemmas *)
Lemma modifies_bump_blacklist_gen : modifies [F_GLOBAL_STATS] bump_blacklist_gen.
Proof. unfold bump_blacklist_gen. footprint. Qed.

Lemma modifies_is_blacklisted src now :
  modifies [F_BLACKLIST; F_GLOBAL_STATS; F_TRUST_MAP] (is_blacklisted src now).
Proof. unfold is_blacklisted, bump_blacklist_hit_gen, reset_trust. footprint. Qed.

Lemma modifies_add_to_blacklist src now d r :
  modifies [F_BLACKLIST; F_GLOBAL_STATS; F_TRUST_MAP] (add_to_blacklist src now d r).
Proof. unfold add_to_blacklist, bump_blacklist_gen. footprint. Qed.

(** The answer of [is_blacklisted] is the state of the block, on every branch. *)
Lemma is_blacklisted_result src now s :
  fst (is_blacklisted src now s) = blocked_at s src now.
Proof.
  unfold is_blacklisted, blocked_at, bind, gets.
  destruct (lru_get (BLACKLIST s) src) as [e|]; [|done].
  unfold block_live. rewrite Z.gtb_ltb.
  destruct (_ || _); [|done].
  unfold with_stats_ret. destruct (GLOBAL_STATS s) as [|g l]; cbn; [done|].
    by destruct (Z.land _ _ =? 0).
Qed.

Context {KL : KernelLaws}.

(** A blocked source stays blocked, until the same deadline. *)
Lemma is_blacklisted_keeps src now s t :
  blocked_at s src now = true ->
  blocked_at (snd (is_blacklisted src now s)) src t = blocked_at s src t.
Proof.
  unfold is_blacklisted, blocked_at, bind, gets.
  destruct (lru_get (BLACKLIST s) src) as [e|] eqn:E; [|done].
  unfold block_live at 1. rewrite Z.gtb_ltb. intros ->.
  unfold with_stats_ret. destruct (GLOBAL_STATS s) as [|g l]; cbn.
  - by rewrite lru_get_insert_eq.
  - destruct (Z.land _ _ =? 0); cbn; [by rewrite lru_get_insert_eq | by rewrite E].
Qed.

(** An expired entry is removed and the score reset. *)
Lemma is_blacklisted_expired src now s e :
  lru_get (BLACKLIST s) src = Some e -> block_live e now = false ->
  let s' := snd (is_blacklisted src now s) in
  lru_get (BLACKLIST s') src = None /\ score_of (TRUST_MAP s') src = TRUST_DEFAULT.
Proof.
  intros E Hl. unfold block_live in Hl. rewrite <- Z.gtb_ltb in Hl.
  unfold is_blacklisted, bind, gets. rewrite E, Hl. cbn.
  rewrite lru_get_remove_eq. split; [done|].
  unfold score_of, trust_entry. by rewrite lru_get_insert_eq.
Qed.

(** After [add_to_blacklist] the source is blocked exactly at the times the old
    block, if it was in force, or the new one covers; its score is zero. *)
Lemma add_to_blacklist_spec src now d r s t :
  let s' := snd (add_to_blacklist src now d r s) in
  blocked_at s' src t =
    (blocked_at s src now && blocked_at s src t) || live_until (block_deadline now d) t
  /\ score_of (TRUST_MAP s') src = TRUST_MIN.
Proof.
  unfold add_to_blacklist, bind, gets. cbn. split.
  - unfold blocked_at. cbn. rewrite lru_get_insert_eq, merge_block_entry_live_eq.
    by destruct (lru_get (BLACKLIST s) src).
  - unfold score_of, trust_entry. by rewrite lru_get_insert_eq.
Qed.

Lemma block_deadline_later now d :
  0 <= now -> 0 <= d -> now < u64_MAX -> live_until (block_deadline now d) now = true.
Proof.
  intros Hn Hd Hm. unfold block_deadline, live_until, BLOCK_PERMANENT.
  destruct (d =? 0) eqn:E; bool_to_prop; [done|].
  apply orb_true_iff. right. apply Z.ltb_lt. unfold saturating_add.
  assert (1 <= (if d >? u64_MAX / 1000000000 then u64_MAX else wrapping_mul 64 d 1000000000)).
  { case_match eqn:E'; bool_to_prop; [done|]. unfold wrapping_mul.
    unfold u64_MAX in E'. change (18446744073709551615 / 1000000000) with 18446744073 in E'.
    rewrite wrap_small by lia. lia. }
  unfold u64_MAX in *. lia.
Qed.

Lemma is_blacklisted_trust_inv src now :
  triple trust_inv (is_blacklisted src now) (fun _ => trust_inv).
Proof.
  intros s Hs. unfold is_blacklisted, bind, gets.
  destruct (lru_get (BLACKLIST s) src) as [e|]; [|done].
  destruct (_ || _).
  - unfold with_stats_ret. destruct (GLOBAL_STATS s) as [|g l]; cbn; [done|].
    by destruct (Z.land _ _ =? 0).
  - cbn. apply lru_forall_insert; [done|]. split; cbn; [done|by left].
Qed.

Lemma add_to_blacklist_trust_inv src now d r :
  triple trust_inv (add_to_blacklist src now d r) (fun _ => trust_inv).
Proof.
  intros s Hs. unfold add_to_blacklist, bind, gets. cbn.
  apply lru_forall_insert; [done|]. split; cbn; [done|by left].
Qed.
End Blacklist.

#[export] Hint Resolve modifies_is_blacklisted modifies_add_to_blacklist : footprint.
#[global] Arguments is_blacklisted : simpl never.
#[global] Arguments add_to_blacklist : simpl never.

(** ** Properties *)
Section BlacklistProperties.
Context {KN : Kernel} {KL : KernelLaws}.

(** the life of a block.  A source that is not on the list, blocked for [d] seconds, answers "blocked"
    until the deadline and keeps the deadline while it is being hit; from the
    deadline on the first check lifts the block, removes the entry and puts the
    trust score, which the block had set to 0, back to the default.  A block
    of duration 0 never ends. *)
Theorem block_lifecycle src now d reason s t :
  0 <= now -> 0 <= d -> now + d * 1000000000 < u64_MAX ->
  lru_get (BLACKLIST s) src = None ->
  let s1 := snd (add_to_blacklist src now d reason s) in
  let answer := fst (is_blacklisted src t s1) in
  let s2 := snd (is_blacklisted src t s1) in
  score_of (TRUST_MAP s1) src = TRUST_MIN /\
  (d = 0 \/ t < now + d * 1000000000 ->
     answer = true /\ forall u, blocked_at s2 src u = blocked_at s1 src u) /\
  (0 < d -> now + d * 1000000000 <= t ->
     answer = false /\ lru_get (BLACKLIST s2) src = None /\
     score_of (TRUST_MAP s2) src = TRUST_DEFAULT).
Proof.
  intros Hn Hd Hmax Hnone. cbv zeta.
  set (s1 := snd (add_to_blacklist src now d reason s)).
  assert (Hspec : forall u, blocked_at s1 src u = live_until (block_deadline now d) u).
  { intros u. destruct (add_to_blacklist_spec src now d reason s u) as [H _]. fold s1 in H. rewrite H.
    unfold blocked_at. by rewrite Hnone. }
  destruct (add_to_blacklist_spec src now d reason s 0) as [_ Hscore]. fold s1 in Hscore.
  split; [done|]. rewrite is_blacklisted_result, Hspec.
  assert (Hdl : 0 < d -> block_deadline now d = now + d * 1000000000).
  { intros Hpos. unfold block_deadline, u64_MAX in *. destruct (Z.eqb_spec d 0); [lia|].
    rewrite Z.gtb_ltb. change (18446744073709551615 / 1000000000) with 18446744073.
    destruct (Z.ltb_spec 18446744073 d); [lia|]. unfold wrapping_mul, saturating_add.
    rewrite wrap_small by lia. lia. }
  split.
  - intros H. assert (Hlive : live_until (block_deadline now d) t = true).
    { destruct (decide (d = 0)) as [->|Hne]; [done|]. rewrite Hdl by lia. unfold live_until.
      apply orb_true_iff. right. apply Z.ltb_lt. lia. }
    split; [done|]. intros u. apply is_blacklisted_keeps. by rewrite Hspec.
  - intros Hpos Ht. assert (Hdead : live_until (block_deadline now d) t = false).
    { rewrite Hdl by lia. unfold live_until, BLOCK_PERMANENT.
      destruct (Z.eqb_spec (now + d * 1000000000) 0); [lia|]. cbn [orb]. apply Z.ltb_ge. lia. }
    split; [done|].
    destruct (lru_get (BLACKLIST s1) src) as [e|] eqn:E.
    + apply (is_blacklisted_expired src t s1 e E). specialize (Hspec t).
      unfold blocked_at in Hspec. rewrite E in Hspec. by rewrite Hspec.
    + specialize (Hspec now). unfold blocked_at in Hspec. rewrite E in Hspec.
      rewrite block_deadline_later in Hspec by lia. done.
Qed.

(** a second block.  Blocking a source again never shortens a block in
    force: afterwards the source is blocked exactly when the old block or the
    new one covers the time; a block that has run out plays no part. *)
Theorem block_again src now d reason s t :
  blocked_at (snd (add_to_blacklist src now d reason s)) src t =
    (blocked_at s src now && blocked_at s src t) || live_until (block_deadline now d) t.
Proof. apply (add_to_blacklist_spec src now d reason s t). Qed.
End BlacklistProperties.

Module BlacklistWitness.
Import Samples.

Lemma block_lifecycle_witness :
  fst (@is_blacklisted kernel alice 10999999999
         (snd (@add_to_blacklist kernel alice 1000000000 10 6 (state [])))) = true.
Proof.
  destruct (block_lifecycle (KL := kernel_laws) alice 1000000000 10 6 (state []) 10999999999)
    as (_&H&_); [lia|lia|unfold u64_MAX; lia|reflexivity|].
  apply H. right. lia.
Defined.

(** Nothing is known about the source: the block alone decides. *)
Lemma block_again_witness :
  blocked_at (snd (@add_to_blacklist kernel alice 1000000000 10 6 (state []))) alice 10999999999 =
    true.
Proof. exact (block_again (KL := kernel_laws) alice 1000000000 10 6 (state []) 10999999999). Defined.
End BlacklistWitness.
