(* ===== verification/RateCounter.v ===== *)
(** * RateCounter: the decaying per-source packet counters

    [eshield-ebpf/src/rate_counter.rs]: each packet adds one to the counter of
    its source; every whole tick that has passed multiplies the counter by
    [decay_num / decay_den].  The threshold the counter is compared with is
    modulated by the source's trust score and the host's danger level. *)
From S2P Require Import Prelude Words Common Pure Parser Maps Footprint Trust.
#[local] Open Scope Z_scope.

Module RateUpdate.
Record t := mk {
  counter : Z;
  threshold : Z;
  block_duration_s : Z;
}.
End RateUpdate.

(** Milliseconds to nanoseconds, clamped so that the product fits 64 bits. *)
Definition ms_to_ns (ms : Z) : Z :=
  if ms >? u64_MAX / 1000000 then u64_MAX else wrapping_mul 64 ms 1000000.

(** The entry after a packet at [now_ns], from the stored one. *)
Definition next_rate_counter (prev : option RateCounter.t)
    (now_ns tick_ns decay_num decay_den : Z) : RateCounter.t :=
  match prev with
  | None => RateCounter.mk 1 now_ns
  | Some entry =>
      let elapsed_ns := saturating_sub now_ns (RateCounter.last_decay_ns entry) in
      let decayed := decay_counter (RateCounter.counter entry) elapsed_ns tick_ns
                       decay_num decay_den in
      let counter := saturating_add 64 decayed 1 in
      let ticks := elapsed_ns / tick_ns in
      let last_decay_ns :=
        Z.min (wrapping_add 64 (RateCounter.last_decay_ns entry) (wrapping_mul 64 ticks tick_ns))
              now_ns in
      RateCounter.mk counter last_decay_ns
  end.

Definition modulate_threshold (base trust_f danger_f : Z) : Z :=
  let SAFE_MAX := u64_MAX / 1000 in
  let step1 :=
    if base >? SAFE_MAX then wrapping_mul 64 (base / 1000) trust_f
    else wrapping_mul 64 base trust_f / 1000 in
  if step1 >? SAFE_MAX then wrapping_mul 64 (step1 / 1000) danger_f
  else wrapping_mul 64 step1 danger_f / 1000.

Section RateCounter.
Context {KN : Kernel}.

Definition effective_threshold (runtime : RuntimeConfig.t) (cfg : RateLimitConfig.t)
    (trust : lru IpKey.t TrustEntry.t) (src : IpKey.t) : Z :=
  if nz (RuntimeConfig.trust_enabled runtime) then
    modulate_threshold (RateLimitConfig.threshold cfg) (trust_factor trust src)
      (danger_factor (RuntimeConfig.danger_level runtime))
  else RateLimitConfig.threshold cfg.

(** [None] where the Rust function returns [false]. *)
Definition update_rate_counter (src : IpKey.t) (now_ns : Z) : BPF (option RateUpdate.t) :=
  let* cfg := gets (fun s => array_get (RATE_LIMIT_CFG s) 0) in
  match cfg with
  | None => ret None
  | Some cfg =>
      let tick_ns := ms_to_ns (RateLimitConfig.tick_ms cfg) in
      if tick_ns =? 0 then ret None
      else
        let* prev := gets (fun s => lru_get (RATE_MAP s) src) in
        let updated := next_rate_counter prev now_ns tick_ns (RateLimitConfig.decay_num cfg)
                         (RateLimitConfig.decay_den cfg) in
        let* _ := RATE_MAP_insert src updated in
        let* runtime := gets (fun s => array_get (CONFIG s) 0) in
        match runtime with
        | None => ret None
        | Some runtime =>
            let* trust := gets TRUST_MAP in
            ret (Some (RateUpdate.mk (RateCounter.counter updated)
                         (effective_threshold runtime cfg trust src)
                         (RateLimitConfig.block_duration_s cfg)))
        end
  end.

Definition update_rate_counter_port (src : IpKey.t) (dport now_ns : Z)
    : BPF (option RateUpdate.t) :=
  let* cfg := gets (fun s => array_get (RATE_LIMIT_CFG s) 0) in
  match cfg with
  | None => ret None
  | Some cfg =>
      let tick_ns := ms_to_ns (RateLimitConfig.tick_ms cfg) in
      if tick_ns =? 0 then ret None
      else
        let key := RateLimitPortKey.mk src (bswap 2 dport) in
        let* prev := gets (fun s => lru_get (RATE_MAP_PORT s) key) in
        let updated := next_rate_counter prev now_ns tick_ns (RateLimitConfig.decay_num cfg)
                         (RateLimitConfig.decay_den cfg) in
        let* _ := RATE_MAP_PORT_insert key updated in
        let* runtime := gets (fun s => array_get (CONFIG s) 0) in
        match runtime with
        | None => ret None
        | Some runtime =>
            let* trust := gets TRUST_MAP in
            ret (Some (RateUpdate.mk (RateCounter.counter updated)
                         (effective_threshold runtime cfg trust src)
                         (RateLimitConfig.block_duration_s cfg)))
        end
  end.

(** ** Runs of packets *)

(** The updates a sequence of packets causes, in arrival order. *)
Fixpoint run_updates (pkts : list (IpKey.t * Z)) : BPF (list (IpKey.t * option RateUpdate.t)) :=
  match pkts with
  | [] => ret []
  | (src, now_ns) :: pkts =>
      let* r := update_rate_counter src now_ns in
      let* rs := run_updates pkts in
      ret ((src, r) :: rs)
  end.

(** Arrival times of one source. *)
Definition times_of (src : IpKey.t) (pkts : list (IpKey.t * Z)) : list Z :=
  map snd (filter (fun p => fst p = src) pkts).

(** No [n + 1] consecutive packets lie within one tick. *)
Definition paced (n : nat) (tick : Z) (times : list Z) : Prop :=
  forall i t u, times !! i = Some t -> times !! (i + n)%nat = Some u -> t + tick <= u.

Lemma modifies_update_rate_counter src now :
  modifies [F_RATE_MAP] (update_rate_counter src now).
Proof. unfold update_rate_counter. footprint. Qed.

Lemma modifies_update_rate_counter_port src dport now :
  modifies [F_RATE_MAP_PORT] (update_rate_counter_port src dport now).
Proof. unfold update_rate_counter_port. footprint. Qed.
End RateCounter.

#[export] Hint Resolve modifies_update_rate_counter modifies_update_rate_counter_port : footprint.

#[global] Arguments update_rate_counter : simpl never.
#[global] Arguments update_rate_counter_port : simpl never.

(** ** Arithmetic of one update *)

(** The entry is at most one tick behind the packet that wrote it. *)
Definition fresh_at (tick now : Z) (e : RateCounter.t) : Prop :=
  0 <= RateCounter.last_decay_ns e <= now /\ now < RateCounter.last_decay_ns e + tick.

Lemma ms_to_ns_range ms : 0 <= ms -> 0 <= ms_to_ns ms < 2 ^ 64.
Proof.
  intros. unfold ms_to_ns, wrapping_mul, u64_MAX. case_match; [lia|]. by apply wrap_range.
Qed.

Section Step.
Context (tick num den : Z).
Hypothesis tick_pos : 0 < tick.
Hypothesis den_pos : 0 < den.
Hypothesis num_range : 0 <= num <= den.

Let step prev now := next_rate_counter prev now tick num den.

(** The last-decay time moves in whole ticks and stays within one tick of the
    packet. *)
Lemma step_fresh prev now :
  0 <= now < 2 ^ 64 ->
  (forall e, prev = Some e -> 0 <= RateCounter.last_decay_ns e <= now) ->
  fresh_at tick now (step prev now).
Proof.
  clear den_pos num_range. intros Hn Hp. unfold step, fresh_at, next_rate_counter.
  destruct prev as [[c last]|]; [|cbn; lia]. specialize (Hp _ eq_refl). cbn in Hp |- *.
  unfold saturating_sub. rewrite Z.max_l by lia.
  pose proof (Z.div_mod (now - last) tick ltac:(lia)) as Hd.
  pose proof (Z.mod_pos_bound (now - last) tick ltac:(lia)) as Hm.
  assert (0 <= (now - last) / tick) by (apply Z.div_pos; lia).
  unfold wrapping_add, wrapping_mul. rewrite !wrap_small by (rewrite ?wrap_small; nia). nia.
Qed.

(** Within the same tick nothing decays. *)
Lemma step_same_tick e now :
  RateCounter.last_decay_ns e <= now < RateCounter.last_decay_ns e + tick ->
  0 <= RateCounter.last_decay_ns e < 2 ^ 64 -> 0 <= RateCounter.counter e < u64_MAX ->
  step (Some e) now = RateCounter.mk (RateCounter.counter e + 1) (RateCounter.last_decay_ns e).
Proof.
  clear den_pos num_range. intros Hn Hl Hc. unfold step, next_rate_counter, saturating_sub, decay_counter. cbv zeta.
  rewrite Z.max_l, Z.div_small by lia. change (Z.to_nat (0 `min` 64)) with 0%nat.
  cbn [Nat.iter nat_rect]. unfold wrapping_mul. rewrite Z.mul_0_l. change (wrap 64 0) with 0.
  unfold wrapping_add, saturating_add, u64_MAX in *. rewrite wrap_small by lia.
  case_match; f_equal; lia.
Qed.

(** After a whole tick the old count has lost the decay factor. *)
Lemma step_decays e now :
  0 <= RateCounter.last_decay_ns e -> RateCounter.last_decay_ns e + tick <= now ->
  0 <= RateCounter.counter e -> RateCounter.counter e * num < 2 ^ 64 ->
  1 <= RateCounter.counter (step (Some e) now) <= RateCounter.counter e * num / den + 1.
Proof.
  intros Hl Hn Hc Ho. unfold step, next_rate_counter, saturating_sub. cbn [RateCounter.counter].
  rewrite Z.max_l by lia.
  pose proof (decay_counter_once (RateCounter.counter e) (now - RateCounter.last_decay_ns e)
                tick num den ltac:(lia) ltac:(lia) ltac:(lia) ltac:(lia) ltac:(lia)) as Hd.
  unfold saturating_add. lia.
Qed.
End Step.

(** ** The counter of a paced source (invariant)

    One packet of the source advances the following invariant: [i] of its
    packets, arriving at [times], have been counted; the entry's current tick
    started with packet [j], and the count is what was left then plus the
    packets since. *)
Section Paced.
Context {KN : Kernel} {KL : KernelLaws}.
Context (tick num den X : Z) (n : nat) (times : list Z).
Hypothesis tick_pos : 0 < tick.
Hypothesis den_pos : 0 < den.
Hypothesis num_range : 0 <= num <= den.
Hypothesis n_pos : (0 < n)%nat.
Hypothesis budget : Z.of_nat n <= X.
Hypothesis recovers : X * num / den + Z.of_nat n <= X.
Hypothesis X_small : X * den < 2 ^ 64.
Hypothesis times_range : Forall (fun t => 0 <= t < 2 ^ 64) times.
Hypothesis times_monotone : forall i j t u,
  (i <= j)%nat -> times !! i = Some t -> times !! j = Some u -> t <= u.
Hypothesis times_paced : paced n tick times.

Definition counted (i : nat) (prev : option RateCounter.t) : Prop :=
  forall e, prev = Some e ->
  exists j tj tl, (j < i <= j + n)%nat /\ times !! j = Some tj /\ times !! (i - 1)%nat = Some tl /\
    RateCounter.last_decay_ns e <= tj /\ fresh_at tick tl e /\
    1 <= RateCounter.counter e <= X - Z.of_nat n + Z.of_nat (i - j).

Lemma counted_step i prev now :
  counted i prev -> times !! i = Some now ->
  let e' := next_rate_counter prev now tick num den in
  counted (S i) (Some e') /\ RateCounter.counter e' <= X.
Proof.
  intros Hinv Hi. cbv zeta.
  assert (0 <= now < 2 ^ 64) as Hnow by (by eapply (Forall_lookup_1 _ _ _ _ times_range)).
  assert (Hlast : forall e, prev = Some e -> 0 <= RateCounter.last_decay_ns e <= now).
  { intros e He. destruct (Hinv e He) as (j&tj&tl&?&Hj&?&?&[Hf _]&_).
    pose proof (times_monotone j i tj now ltac:(lia) Hj Hi). lia. }
  pose proof (step_fresh tick num den tick_pos prev now Hnow Hlast) as Hfresh.
  assert (Hd : forall c, c <= X -> 1 <= c -> c * num < 2 ^ 64 /\ c * num / den <= X - Z.of_nat n).
  { intros c Hc1 Hc2. split; [nia|].
    assert (c * num / den <= X * num / den) by (apply Z.div_le_mono; nia). lia. }
  destruct prev as [e|].
  - destruct (Hinv e eq_refl) as (j&tj&tl&Hij&Hj&Htl&Hle&Hf&Hc).
    destruct (Z_lt_le_dec now (RateCounter.last_decay_ns e + tick)) as [Hlt|Hge].
    + specialize (Hlast e eq_refl).
      assert ((i < j + n)%nat).
      { destruct (decide (i < j + n)%nat) as [|Hnot]; [done|].
        assert (i = j + n)%nat as -> by lia.
        pose proof (times_paced j tj now Hj Hi). lia. }
      rewrite (step_same_tick tick num den tick_pos e now) in Hfresh |- * by (unfold u64_MAX; nia).
      cbn [RateCounter.counter RateCounter.last_decay_ns] in *.
      split; [|lia]. intros e' He%(inj Some). subst e'. exists j, tj, now.
      replace (S i - 1)%nat with i by lia. cbn [RateCounter.counter RateCounter.last_decay_ns].
      split_and!; try done; try lia; apply Hfresh.
    + destruct (Hd (RateCounter.counter e)) as [Ho Hb]; [lia..|].
      destruct Hf as [Hf1 Hf2].
      pose proof (step_decays tick num den tick_pos den_pos num_range e now) as Hs.
      specialize (Hs ltac:(lia) Hge ltac:(lia) Ho). cbv beta zeta in Hs.
      split; [|lia]. intros e' He%(inj Some). subst e'. exists i, now, now.
      replace (S i - 1)%nat with i by lia. split_and!; try done; try lia; apply Hfresh.
  - split; [|cbn [next_rate_counter RateCounter.counter]; lia].
    intros e' He%(inj Some). subst e'. exists i, now, now. replace (S i - 1)%nat with i by lia.
    split_and!; try done; cbn; lia.
Qed.
End Paced.

Section Runs.
Context {KN : Kernel}.

(** One update in full. *)
Lemma update_rate_counter_run src now s cfg runtime :
  array_get (RATE_LIMIT_CFG s) 0 = Some cfg -> array_get (CONFIG s) 0 = Some runtime ->
  ms_to_ns (RateLimitConfig.tick_ms cfg) <> 0 ->
  let e' := next_rate_counter (lru_get (RATE_MAP s) src) now
              (ms_to_ns (RateLimitConfig.tick_ms cfg))
              (RateLimitConfig.decay_num cfg) (RateLimitConfig.decay_den cfg) in
  update_rate_counter src now s =
    (Some (RateUpdate.mk (RateCounter.counter e')
             (effective_threshold runtime cfg (TRUST_MAP s) src)
             (RateLimitConfig.block_duration_s cfg)),
     s <| RATE_MAP ::= fun m => lru_insert m src e' |>).
Proof.
  intros Hc Hr Ht. unfold update_rate_counter, bind, gets. rewrite Hc.
  apply Z.eqb_neq in Ht. cbv zeta. rewrite Ht. cbn. rewrite Hr. done.
Qed.
End Runs.

Section Properties.
Context {KN : Kernel} {KL : KernelLaws}.

(** What one packet of any source does to the invariant of [src]. *)
Lemma run_updates_counted cfg runtime src X n times pkts i s :
  let tick := ms_to_ns (RateLimitConfig.tick_ms cfg) in
  let num := RateLimitConfig.decay_num cfg in
  let den := RateLimitConfig.decay_den cfg in
  array_get (RATE_LIMIT_CFG s) 0 = Some cfg -> array_get (CONFIG s) 0 = Some runtime ->
  (forall i prev now, counted tick X n times i prev -> times !! i = Some now ->
     let e' := next_rate_counter prev now tick num den in
     counted tick X n times (S i) (Some e') /\ RateCounter.counter e' <= X) ->
  tick <> 0 -> drop i times = times_of src pkts ->
  counted tick X n times i (lru_get (RATE_MAP s) src) ->
  Forall (fun kr => fst kr = src ->
            exists u, snd kr = Some u /\ RateUpdate.counter u <= X)
    (fst (run_updates pkts s)).
Proof.
  intros tick num den Hcfg Hrt Hstep Htick. revert i s Hcfg Hrt.
  induction pkts as [|[k now] pkts IH]; intros i s Hcfg Hrt Hdrop Hinv; [constructor|].
  cbn [run_updates]. unfold bind at 1.
  rewrite (update_rate_counter_run k now s cfg runtime Hcfg Hrt Htick).
  fold tick num den. set (e' := next_rate_counter _ _ _ _ _).
  set (s' := s <| RATE_MAP ::= _ |>). unfold times_of in Hdrop. rewrite filter_cons in Hdrop.
  cbn [fst] in Hdrop. unfold bind.
  destruct (decide (k = src)) as [->|Hne].
  - cbn [map snd] in Hdrop.
    assert (Hi : times !! i = Some now).
    { rewrite <- (Nat.add_0_r i), <- lookup_drop, Hdrop. done. }
    destruct (Hstep i _ now Hinv Hi) as [Hinv' Hle]. fold e' in Hinv', Hle.
    specialize (IH (S i) s' Hcfg Hrt).
    destruct (run_updates pkts s') as [rs s''] eqn:E. cbn [fst] in IH |- *.
    constructor; [intros _; eexists; split; [done|done]|].
    apply IH.
    + rewrite (drop_S _ now) in Hdrop by done. injection Hdrop as Hdrop.
      rewrite Hdrop. done.
    + unfold s'. cbn. rewrite lru_get_insert_eq. done.
  - specialize (IH i s' Hcfg Hrt Hdrop).
    destruct (run_updates pkts s') as [rs s''] eqn:E. cbn [fst] in IH |- *.
    constructor; [done|]. apply IH. unfold s'. cbn.
    destruct (lru_get_insert_ne (RATE_MAP s) k src e' Hne) as [G|G]; rewrite G; [done|].
    intros ? [=].
Qed.

(** C15: no false positives.  Take any interleaving of packets of any sources,
    in which a source never sends more than [n] packets within one tick, and a
    count [X] that absorbs [n] packets per tick ([X * num / den + n <= X]).
    Then every update of that source succeeds and reports a count of at most
    [X], whatever the kernel evicts in between. *)
Theorem paced_source_below cfg runtime src X n pkts s :
  array_get (RATE_LIMIT_CFG s) 0 = Some cfg -> array_get (CONFIG s) 0 = Some runtime ->
  let tick := ms_to_ns (RateLimitConfig.tick_ms cfg) in
  let num := RateLimitConfig.decay_num cfg in
  let den := RateLimitConfig.decay_den cfg in
  0 < tick -> 0 < den -> 0 <= num <= den -> (0 < n)%nat ->
  Z.of_nat n <= X -> X * num / den + Z.of_nat n <= X -> X * den < 2 ^ 64 ->
  let times := times_of src pkts in
  Forall (fun t => 0 <= t < 2 ^ 64) times ->
  (forall i j t u, (i <= j)%nat -> times !! i = Some t -> times !! j = Some u -> t <= u) ->
  paced n tick times ->
  lru_get (RATE_MAP s) src = None ->
  Forall (fun kr => fst kr = src ->
            exists u, snd kr = Some u /\ RateUpdate.counter u <= X)
    (fst (run_updates pkts s)).
Proof.
  intros Hcfg Hrt tick num den Ht Hd Hn Hn0 Hb Hr HX times Hrange Hmono Hpaced Hnone.
  apply (run_updates_counted cfg runtime src X n times pkts 0 s); try done; fold tick; [|lia|].
  - intros i prev now Hinv Hi. by eapply counted_step.
  - rewrite Hnone. intros ? [=].
Qed.

(** Packets within the tick the entry belongs to are all counted. *)
Lemma run_updates_same_tick cfg runtime src e ts s :
  let tick := ms_to_ns (RateLimitConfig.tick_ms cfg) in
  array_get (RATE_LIMIT_CFG s) 0 = Some cfg -> array_get (CONFIG s) 0 = Some runtime ->
  0 < tick -> 0 <= RateCounter.last_decay_ns e < 2 ^ 64 -> 0 <= RateCounter.counter e ->
  RateCounter.counter e + Z.of_nat (length ts) <= u64_MAX ->
  Forall (fun t => RateCounter.last_decay_ns e <= t < RateCounter.last_decay_ns e + tick) ts ->
  lru_get (RATE_MAP s) src = Some e ->
  map (fun kr => RateUpdate.counter <$> snd kr) (fst (run_updates (map (pair src) ts) s))
  = map (fun i => Some (RateCounter.counter e + 1 + Z.of_nat i)) (seq 0 (length ts)).
Proof.
  intros tick Hcfg Hrt Ht Hl. revert e s Hcfg Hrt Hl.
  induction ts as [|t ts IH]; intros e s Hcfg Hrt Hl Hc Hlen Hts He; [done|].
  apply Forall_cons_iff in Hts as [Ht0 Hts]. cbn [length] in Hlen.
  cbn [map run_updates]. unfold bind at 1.
  rewrite (update_rate_counter_run src t s cfg runtime Hcfg Hrt) by (fold tick; lia).
  fold tick. rewrite He, step_same_tick by (unfold u64_MAX in *; lia).
  set (e' := RateCounter.mk _ _). set (s' := s <| RATE_MAP ::= _ |>).
  specialize (IH e' s' Hcfg Hrt Hl). cbn [e' RateCounter.counter RateCounter.last_decay_ns] in IH.
  unfold bind. destruct (run_updates (map (pair src) ts) s') as [rs s''] eqn:E.
  cbn [fst] in IH |- *. unfold ret. cbn [fst length seq map snd fmap option_fmap option_map
    RateUpdate.counter RateCounter.counter].
  rewrite <- seq_shift, map_map. f_equal; [cbn; f_equal; lia|].
  rewrite IH; [|lia|lia|done|unfold s'; cbn; by rewrite lru_get_insert_eq].
  apply map_ext. intros i. f_equal. lia.
Qed.

(** no false negatives within a tick.  The [k] packets of a burst of a new
    source within one tick are counted 1, 2, ..., [k]. *)
Theorem burst_counted cfg runtime src t ts s :
  let tick := ms_to_ns (RateLimitConfig.tick_ms cfg) in
  array_get (RATE_LIMIT_CFG s) 0 = Some cfg -> array_get (CONFIG s) 0 = Some runtime ->
  0 < tick -> 0 <= t < 2 ^ 64 -> 1 + Z.of_nat (length ts) <= u64_MAX ->
  Forall (fun u => t <= u < t + tick) ts ->
  lru_get (RATE_MAP s) src = None ->
  map (fun kr => RateUpdate.counter <$> snd kr) (fst (run_updates (map (pair src) (t :: ts)) s))
  = map (fun i => Some (1 + Z.of_nat i)) (seq 0 (length (t :: ts))).
Proof.
  intros tick Hcfg Hrt Ht Hr Hlen Hts Hnone. cbn [map run_updates]. unfold bind at 1.
  rewrite (update_rate_counter_run src t s cfg runtime Hcfg Hrt) by (fold tick; lia).
  fold tick. rewrite Hnone. cbn [next_rate_counter].
  set (e' := RateCounter.mk _ _). set (s' := s <| RATE_MAP ::= _ |>).
  pose proof (run_updates_same_tick cfg runtime src e' ts s' Hcfg Hrt Ht Hr) as IH.
  cbn [e' RateCounter.counter RateCounter.last_decay_ns] in IH.
  unfold bind. destruct (run_updates (map (pair src) ts) s') as [rs s''] eqn:E.
  cbn [fst] in IH |- *. unfold ret. cbn [fst length seq map snd fmap option_fmap option_map
    RateUpdate.counter RateCounter.counter].
  rewrite <- seq_shift, map_map. f_equal.
  rewrite IH; [|lia|lia|done|unfold s'; cbn; by rewrite lru_get_insert_eq].
  apply map_ext. intros i. f_equal. lia.
Qed.

Lemma modulate_step base f :
  0 <= base < 2 ^ 64 -> 0 <= f <= 1000 ->
  0 <= (if base >? u64_MAX / 1000 then wrapping_mul 64 (base / 1000) f
        else wrapping_mul 64 base f / 1000) <= base.
Proof.
  intros Hb Hf. change (u64_MAX / 1000) with 18446744073709551.
  pose proof (Z.div_mod base 1000). pose proof (Z.mod_pos_bound base 1000).
  case_match; bool_to_prop; unfold wrapping_mul; rewrite wrap_small by nia.
  - nia.
  - split; [apply Z.div_pos; nia|]. apply Z.div_le_upper_bound; nia.
Qed.

(** the modulation by trust and danger can only lower a threshold, never
    wraps around, and is exact to rounding for thresholds that do not need the
    overflow path. *)
Theorem modulate_threshold_range base trust_f danger_f :
  0 <= base < 2 ^ 64 -> 0 <= trust_f <= 1000 -> 0 <= danger_f <= 1000 ->
  0 <= modulate_threshold base trust_f danger_f <= base /\
  (base <= u64_MAX / 1000 ->
   modulate_threshold base trust_f danger_f = (base * trust_f / 1000) * danger_f / 1000).
Proof.
  intros Hb Ht Hd. unfold modulate_threshold. cbv zeta.
  pose proof (modulate_step base trust_f Hb Ht) as H1.
  set (step1 := if base >? _ then _ else _) in *.
  pose proof (modulate_step step1 danger_f ltac:(lia) Hd) as H2.
  split; [lia|]. intros Hsmall.
  assert (step1 = base * trust_f / 1000) as <-.
  { unfold step1. clear H2. rewrite Z.gtb_ltb. case_match; bool_to_prop; [lia|].
    unfold wrapping_mul. change (u64_MAX / 1000) with 18446744073709551 in Hsmall.
    assert (0 <= base * trust_f <= base * 1000) by nia. by rewrite wrap_small by lia. }
  clearbody step1. clear H2. rewrite Z.gtb_ltb. case_match; bool_to_prop; [lia|].
  unfold wrapping_mul. change (u64_MAX / 1000) with 18446744073709551 in Hsmall.
  assert (0 <= step1 * danger_f <= step1 * 1000) by nia. by rewrite wrap_small by lia.
Qed.
End Properties.

(** ** Evaluated instances *)
Module Witness.
Import Samples.

(** One packet of [alice] per tick against a budget of 8, with [bob] in between. *)
Lemma paced_source_below_witness :
  Forall (fun kr => fst kr = alice -> exists u, snd kr = Some u /\ RateUpdate.counter u <= 8)
    (fst (@run_updates kernel
            [(alice, 0); (bob, 1); (alice, 100000000); (bob, 100000001); (alice, 250000000)]
            (state []))).
Proof.
  apply (paced_source_below (KL := kernel_laws) limits config alice 8 1); try done.
  - lia.
  - change (times_of alice _) with [0; 100000000; 250000000]. repeat constructor; lia.
  - change (times_of alice _) with [0; 100000000; 250000000].
    intros [|[|[|i]]] [|[|[|j]]] t u ? H1 H2; cbn in H1, H2; simplify_eq; lia.
  - change (times_of alice _) with [0; 100000000; 250000000].
    change (ms_to_ns _) with 100000000.
    intros [|[|[|i]]] t u H1 H2; cbn in H1, H2; simplify_eq; lia.
Defined.

Lemma burst_counted_witness :
  map (fun kr => RateUpdate.counter <$> snd kr)
    (fst (@run_updates kernel [(alice, 7); (alice, 8); (alice, 50000000)] (state [])))
  = [Some 1; Some 2; Some 3].
Proof.
  apply (burst_counted (KL := kernel_laws) limits config alice 7 [8; 50000000] (state [])); try done.
  change (ms_to_ns _) with 100000000. repeat constructor; lia.
Defined.

Lemma modulate_threshold_range_witness :
  0 <= modulate_threshold 200 666 750 <= 200 /\
  (200 <= u64_MAX / 1000 -> modulate_threshold 200 666 750 = (200 * 666 / 1000) * 750 / 1000).
Proof. apply modulate_threshold_range; lia. Defined.
End Witness.
