(* ===== verification/Limits.v ===== *)
(** * Limits: the rate limiter, the flood detectors and the port rate

    [eshield-ebpf/src/rate_limit.rs], [udp_flood.rs], [icmp_flood.rs],
    [syn_flood.rs] and [port_rate.rs].  Each handler returns whether the packet
    is to be dropped. *)
From S2P Require Import Prelude Words Common Pure Parser Maps Footprint Trust Blacklist RateCounter.
#[local] Open Scope Z_scope.

Section Limits.
Context {KN : Kernel}.

(** The comparison with the threshold that the limiter, the UDP and the ICMP
    detector share: over it the packet is dropped and, unless the block mode is
    soft, the source is blocked. *)
Definition enforce (runtime : RuntimeConfig.t) (src : IpKey.t) (now_ns reason : Z)
    (update : RateUpdate.t) : BPF bool :=
  if RateUpdate.counter update >? RateUpdate.threshold update then
    let* _ := if RuntimeConfig.rate_limit_soft runtime =? 0
              then add_to_blacklist src now_ns (RateUpdate.block_duration_s update) reason
              else ret tt in
    ret true
  else ret false.

Definition check_rate_limit (src : IpKey.t) (dport now_ns : Z) : BPF bool :=
  let* runtime := gets (fun s => array_get (CONFIG s) 0) in
  match runtime with
  | None => ret false
  | Some runtime =>
      if RuntimeConfig.rate_limit_enabled runtime =? 0 then ret false
      else
        let* updated := if nz (RuntimeConfig.rate_limit_dport_grouping runtime)
                        then update_rate_counter_port src dport now_ns
                        else update_rate_counter src now_ns in
        match updated with
        | None => ret false
        | Some update => enforce runtime src now_ns rules.RATE_LIMIT update
        end
  end.

Definition handle_udp_flood (src : IpKey.t) (now_ns : Z) : BPF bool :=
  let* runtime := gets (fun s => array_get (CONFIG s) 0) in
  match runtime with
  | None => ret false
  | Some runtime =>
      if RuntimeConfig.udp_flood_enabled runtime =? 0 then ret false
      else
        let* updated := update_rate_counter src now_ns in
        match updated with
        | None => ret false
        | Some update => enforce runtime src now_ns rules.UDP_FLOOD update
        end
  end.

Definition handle_icmp_flood (src : IpKey.t) (now_ns : Z) : BPF bool :=
  let* runtime := gets (fun s => array_get (CONFIG s) 0) in
  match runtime with
  | None => ret false
  | Some runtime =>
      if RuntimeConfig.icmp_flood_enabled runtime =? 0 then ret false
      else
        let* updated := update_rate_counter src now_ns in
        match updated with
        | None => ret false
        | Some update => enforce runtime src now_ns rules.ICMP_FLOOD update
        end
  end.

(** The SYN detector has no soft mode. *)
Definition handle_syn_flood (src : IpKey.t) (tcp_flags now_ns : Z) : BPF bool :=
  if negb (is_syn_flags tcp_flags) then ret false
  else
    let* updated := update_rate_counter src now_ns in
    match updated with
    | None => ret false
    | Some update =>
        if RateUpdate.counter update >? RateUpdate.threshold update then
          let* _ := add_to_blacklist src now_ns (RateUpdate.block_duration_s update)
                      rules.SYN_FLOOD in
          ret true
        else ret false
    end.

(** The window's entry after a packet at [now_ns]. *)
Definition next_window (prev : option RateCounter.t) (now_ns window_ns : Z) : RateCounter.t :=
  match prev with
  | None => RateCounter.mk 1 now_ns
  | Some entry =>
      if saturating_sub now_ns (RateCounter.last_decay_ns entry) <? window_ns then
        RateCounter.mk (saturating_add 64 (RateCounter.counter entry) 1)
          (RateCounter.last_decay_ns entry)
      else RateCounter.mk 1 now_ns
  end.

Definition check_port_rate (key : PortRateKey.t) (now_ns : Z) : BPF bool :=
  let* cfg := gets (fun s => array_get (PORT_RATE_LIMIT_CFG s) 0) in
  match cfg with
  | None => ret false
  | Some cfg =>
      let window_ns := ms_to_ns (RateLimitConfig.tick_ms cfg) in
      if window_ns =? 0 then ret false
      else
        let* prev := gets (fun s => lru_get (PORT_RATE_MAP s) key) in
        let updated := next_window prev now_ns window_ns in
        let* _ := PORT_RATE_MAP_insert key updated in
        ret (RateCounter.counter updated >? RateLimitConfig.threshold cfg)
  end.

(** A run of packets to one port. *)
Fixpoint port_run (key : PortRateKey.t) (times : list Z) : BPF (list bool) :=
  match times with
  | [] => ret []
  | t :: times =>
      let* b := check_port_rate key t in
      let* bs := port_run key times in
      ret (b :: bs)
  end.

(** ** Lemmas *)
Lemma modifies_enforce runtime src now reason update :
  modifies [F_BLACKLIST; F_GLOBAL_STATS; F_TRUST_MAP] (enforce runtime src now reason update).
Proof. unfold enforce. footprint. Qed.

Definition limiter_fields : list Field :=
  [F_BLACKLIST; F_GLOBAL_STATS; F_TRUST_MAP; F_RATE_MAP; F_RATE_MAP_PORT].

Lemma modifies_update_fields src now : modifies limiter_fields (update_rate_counter src now).
Proof. eapply modifies_weaken; [apply modifies_update_rate_counter|solve_fields]. Qed.

Lemma modifies_update_port_fields src dport now :
  modifies limiter_fields (update_rate_counter_port src dport now).
Proof. eapply modifies_weaken; [apply modifies_update_rate_counter_port|solve_fields]. Qed.

Lemma modifies_enforce_fields runtime src now reason update :
  modifies limiter_fields (enforce runtime src now reason update).
Proof. eapply modifies_weaken; [apply modifies_enforce|solve_fields]. Qed.

Lemma modifies_add_to_blacklist_fields src now d r :
  modifies limiter_fields (add_to_blacklist src now d r).
Proof. eapply modifies_weaken; [apply modifies_add_to_blacklist|solve_fields]. Qed.

#[local] Hint Resolve modifies_update_fields modifies_update_port_fields
  modifies_enforce_fields modifies_add_to_blacklist_fields : footprint.

Lemma modifies_check_rate_limit src dport now :
  modifies limiter_fields (check_rate_limit src dport now).
Proof. unfold check_rate_limit. footprint. Qed.

Lemma modifies_handle_udp_flood src now : modifies limiter_fields (handle_udp_flood src now).
Proof. unfold handle_udp_flood. footprint. Qed.

Lemma modifies_handle_icmp_flood src now : modifies limiter_fields (handle_icmp_flood src now).
Proof. unfold handle_icmp_flood. footprint. Qed.

Lemma modifies_handle_syn_flood src flags now :
  modifies limiter_fields (handle_syn_flood src flags now).
Proof. unfold handle_syn_flood. footprint. Qed.

Lemma modifies_check_port_rate key now : modifies [F_PORT_RATE_MAP] (check_port_rate key now).
Proof. unfold check_port_rate. footprint. Qed.
End Limits.

#[export] Hint Resolve modifies_check_rate_limit modifies_handle_udp_flood
  modifies_handle_icmp_flood modifies_handle_syn_flood modifies_check_port_rate : footprint.

(** ** Soft and hard block mode *)
Section Modes.
Context {KN : Kernel}.

(** The three handlers that honour the block mode. *)
Inductive Limiter := RateLimit (dport : Z) | UdpFlood | IcmpFlood.

Definition run_limiter (l : Limiter) (src : IpKey.t) (now_ns : Z) : BPF bool :=
  match l with
  | RateLimit dport => check_rate_limit src dport now_ns
  | UdpFlood => handle_udp_flood src now_ns
  | IcmpFlood => handle_icmp_flood src now_ns
  end.

(** Every limiter is: count the packet (or not), then compare. *)
Definition limiter_rule (l : Limiter) : Z :=
  match l with
  | RateLimit _ => rules.RATE_LIMIT
  | UdpFlood => rules.UDP_FLOOD
  | IcmpFlood => rules.ICMP_FLOOD
  end.

Definition limiter_count (l : Limiter) (runtime : RuntimeConfig.t) (src : IpKey.t) (now_ns : Z)
    : BPF (option RateUpdate.t) :=
  match l with
  | RateLimit dport =>
      if RuntimeConfig.rate_limit_enabled runtime =? 0 then ret None
      else if nz (RuntimeConfig.rate_limit_dport_grouping runtime)
           then update_rate_counter_port src dport now_ns
           else update_rate_counter src now_ns
  | UdpFlood =>
      if RuntimeConfig.udp_flood_enabled runtime =? 0 then ret None
      else update_rate_counter src now_ns
  | IcmpFlood =>
      if RuntimeConfig.icmp_flood_enabled runtime =? 0 then ret None
      else update_rate_counter src now_ns
  end.

Lemma run_limiter_eq l src now s :
  run_limiter l src now s =
  match array_get (CONFIG s) 0 with
  | None => (false, s)
  | Some runtime =>
      let '(u, s1) := limiter_count l runtime src now s in
      match u with
      | None => (false, s1)
      | Some u => enforce runtime src now (limiter_rule l) u s1
      end
  end.
Proof.
  destruct l; cbn [run_limiter limiter_count limiter_rule];
    unfold check_rate_limit, handle_udp_flood, handle_icmp_flood, bind, gets;
    (destruct (array_get (CONFIG s) 0) as [rt|]; [|done]);
    (destruct (_ =? 0); [done|]); try destruct (nz _);
    by match goal with |- context [let '(_, _) := ?m s in _] => destruct (m s) as [[u|] s1] end.
Qed.

Lemma enforce_under runtime src now reason u s :
  RateUpdate.counter u <= RateUpdate.threshold u -> enforce runtime src now reason u s = (false, s).
Proof. intros H. unfold enforce. rewrite Z.gtb_ltb. by destruct (Z.ltb_spec (RateUpdate.threshold u) (RateUpdate.counter u)); [lia|]. Qed.

Lemma enforce_over runtime src now reason u s :
  RateUpdate.threshold u < RateUpdate.counter u ->
  enforce runtime src now reason u s =
  (true, if RuntimeConfig.rate_limit_soft runtime =? 0
         then snd (add_to_blacklist src now (RateUpdate.block_duration_s u) reason s) else s).
Proof.
  intros H. unfold enforce. rewrite Z.gtb_ltb.
  destruct (Z.ltb_spec (RateUpdate.threshold u) (RateUpdate.counter u)); [|lia].
  unfold bind. destruct (_ =? 0); [|done]. by destruct (add_to_blacklist _ _ _ _ s).
Qed.

(** Counting does not touch the maps a block writes, and reports the
    configured block duration. *)
Lemma limiter_count_keeps l runtime src now s :
  let s1 := snd (limiter_count l runtime src now s) in
  BLACKLIST s1 = BLACKLIST s /\ TRUST_MAP s1 = TRUST_MAP s.
Proof.
  assert (modifies [F_RATE_MAP; F_RATE_MAP_PORT] (limiter_count l runtime src now)) as Hm.
  { assert (Hu : modifies [F_RATE_MAP; F_RATE_MAP_PORT] (update_rate_counter src now))
      by (eapply modifies_weaken; [apply modifies_update_rate_counter|solve_fields]).
    assert (Hp : forall d, modifies [F_RATE_MAP; F_RATE_MAP_PORT] (update_rate_counter_port src d now))
      by (intros; eapply modifies_weaken; [apply modifies_update_rate_counter_port|solve_fields]).
    unfold limiter_count. footprint. }
  split; [apply (modifies_field _ _ F_BLACKLIST s Hm)|apply (modifies_field _ _ F_TRUST_MAP s Hm)];
    solve_fields.
Qed.

Lemma update_duration src now s u :
  fst (update_rate_counter src now s) = Some u ->
  exists cfg, array_get (RATE_LIMIT_CFG s) 0 = Some cfg /\
    RateUpdate.block_duration_s u = RateLimitConfig.block_duration_s cfg.
Proof.
  unfold update_rate_counter, bind, gets.
  destruct (array_get (RATE_LIMIT_CFG s) 0) as [cfg|]; [|done].
  destruct (_ =? 0); [done|]. cbn. destruct (array_get (CONFIG s) 0); [|done].
  cbn. intros [= <-]. by exists cfg.
Qed.

Lemma update_port_duration src dport now s u :
  fst (update_rate_counter_port src dport now s) = Some u ->
  exists cfg, array_get (RATE_LIMIT_CFG s) 0 = Some cfg /\
    RateUpdate.block_duration_s u = RateLimitConfig.block_duration_s cfg.
Proof.
  unfold update_rate_counter_port, bind, gets.
  destruct (array_get (RATE_LIMIT_CFG s) 0) as [cfg|]; [|done].
  destruct (_ =? 0); [done|]. cbn. destruct (array_get (CONFIG s) 0); [|done].
  cbn. intros [= <-]. by exists cfg.
Qed.

Lemma limiter_duration l runtime src now s u :
  fst (limiter_count l runtime src now s) = Some u ->
  exists cfg, array_get (RATE_LIMIT_CFG s) 0 = Some cfg /\
    RateUpdate.block_duration_s u = RateLimitConfig.block_duration_s cfg.
Proof.
  destruct l; cbn [limiter_count]; repeat case_match; try done;
    eauto using update_duration, update_port_duration.
Qed.
End Modes.

Section ModeProperties.
Context {KN : Kernel} {KL : KernelLaws}.

(** block mode.  In soft mode the limiter and the UDP and ICMP detectors
    never write the blacklist or the trust map, whatever they answer.  In hard
    mode an answer "drop" leaves the source blocked with score 0 until the
    configured duration has passed, and an answer "pass" writes neither map. *)
Theorem limiter_block_mode l src now s runtime cfg :
  array_get (CONFIG s) 0 = Some runtime -> array_get (RATE_LIMIT_CFG s) 0 = Some cfg ->
  let s' := snd (run_limiter l src now s) in
  let dropped := fst (run_limiter l src now s) in
  (dropped = false \/ RuntimeConfig.rate_limit_soft runtime <> 0 ->
     BLACKLIST s' = BLACKLIST s /\ TRUST_MAP s' = TRUST_MAP s) /\
  (dropped = true -> RuntimeConfig.rate_limit_soft runtime = 0 ->
     (forall t, blocked_at s' src t =
        (blocked_at s src now && blocked_at s src t)
        || live_until (block_deadline now (RateLimitConfig.block_duration_s cfg)) t) /\
     score_of (TRUST_MAP s') src = TRUST_MIN).
Proof.
  intros Hrt Hcfg. cbv zeta. rewrite run_limiter_eq, Hrt.
  destruct (limiter_count_keeps l runtime src now s) as [Hb Ht].
  pose proof (limiter_duration l runtime src now s) as Hd.
  destruct (limiter_count l runtime src now s) as [[u|] s1]; cbn in Hb, Ht, Hd |- *;
    [|split; [by rewrite Hb, Ht|done]].
  destruct (Hd u eq_refl) as (cfg'&Hcfg'&Hdur). simplify_eq.
  destruct (Z.le_gt_cases (RateUpdate.counter u) (RateUpdate.threshold u)) as [Hle|Hgt].
  - rewrite enforce_under by done. cbn [fst snd]. split; [by rewrite Hb, Ht|done].
  - rewrite enforce_over by done. cbn [fst snd]. destruct (Z.eqb_spec (RuntimeConfig.rate_limit_soft runtime) 0).
    + split; [by intros [?|?]|]. intros _ _. split.
      * intros t. destruct (add_to_blacklist_spec src now (RateUpdate.block_duration_s u)
          (limiter_rule l) s1 t) as [H _]. rewrite H. unfold blocked_at. by rewrite Hb, Hdur.
      * apply (add_to_blacklist_spec src now _ _ s1 0).
    + split; [by rewrite Hb, Ht|done].
Qed.

(** the SYN detector counts only SYN segments, ignores the soft mode, and
    blocks the source of the segment it drops. *)
Theorem handle_syn_flood_spec src flags now s cfg :
  array_get (RATE_LIMIT_CFG s) 0 = Some cfg ->
  let s' := snd (handle_syn_flood src flags now s) in
  let dropped := fst (handle_syn_flood src flags now s) in
  (is_syn_flags flags = false -> dropped = false /\ s' = s) /\
  (dropped = false -> BLACKLIST s' = BLACKLIST s /\ TRUST_MAP s' = TRUST_MAP s) /\
  (dropped = true ->
     (forall t, live_until (block_deadline now (RateLimitConfig.block_duration_s cfg)) t = true ->
                blocked_at s' src t = true) /\
     score_of (TRUST_MAP s') src = TRUST_MIN).
Proof.
  intros Hcfg. cbv zeta. unfold handle_syn_flood.
  destruct (is_syn_flags flags); cbn [negb]; [|done]. split; [done|].
  pose proof (modifies_field _ _ F_BLACKLIST s (modifies_update_rate_counter src now) ltac:(solve_fields)) as Hb.
  pose proof (modifies_field _ _ F_TRUST_MAP s (modifies_update_rate_counter src now) ltac:(solve_fields)) as Ht.
  pose proof (update_duration src now s) as Hd. unfold bind, field_eq in *.
  destruct (update_rate_counter src now s) as [[u|] s1]; cbn [fst snd] in *; [|done].
  destruct (Hd u eq_refl) as (cfg'&Hcfg'&Hdur). simplify_eq.
  destruct (_ >? _); [|done].
  pose proof (fun t => add_to_blacklist_spec src now (RateUpdate.block_duration_s u) rules.SYN_FLOOD s1 t) as Ha.
  destruct (add_to_blacklist src now _ _ s1) as [[] s2]. cbn in Ha |- *. split; [done|]. intros _.
  split; [|apply (Ha 0)]. intros t Hl. destruct (Ha t) as [-> _]. rewrite Hdur, Hl. apply orb_true_r.
Qed.

(** ** The port window *)
Lemma port_run_in_window key cfg ts e s :
  let window := ms_to_ns (RateLimitConfig.tick_ms cfg) in
  array_get (PORT_RATE_LIMIT_CFG s) 0 = Some cfg -> 0 < window ->
  lru_get (PORT_RATE_MAP s) key = Some e -> 0 <= RateCounter.counter e ->
  RateCounter.counter e + Z.of_nat (length ts) <= u64_MAX ->
  Forall (fun t => t - RateCounter.last_decay_ns e < window) ts ->
  fst (port_run key ts s) =
    map (fun i => RateCounter.counter e + 1 + Z.of_nat i >? RateLimitConfig.threshold cfg)
        (seq 0 (length ts)) /\
  array_get (PORT_RATE_LIMIT_CFG (snd (port_run key ts s))) 0 = Some cfg /\
  lru_get (PORT_RATE_MAP (snd (port_run key ts s))) key =
    Some (RateCounter.mk (RateCounter.counter e + Z.of_nat (length ts)) (RateCounter.last_decay_ns e)).
Proof.
  intros window Hcfg Hw. revert e s Hcfg.
  induction ts as [|t ts IH]; intros e s Hcfg He Hc Hlen Hts.
  { cbn. split_and!; [done|done|]. rewrite He, Z.add_0_r. by destruct e. }
  apply Forall_cons_iff in Hts as [Ht Hts]. cbn [length] in Hlen. cbn [port_run].
  set (e' := RateCounter.mk (RateCounter.counter e + 1) (RateCounter.last_decay_ns e)).
  assert (Hstep : check_port_rate key t s =
    (RateCounter.counter e + 1 >? RateLimitConfig.threshold cfg,
     s <| PORT_RATE_MAP ::= fun m => lru_insert m key e' |>)).
  { unfold check_port_rate, bind, gets. rewrite Hcfg. fold window. cbv zeta.
    destruct (Z.eqb_spec window 0); [lia|]. rewrite He. unfold next_window, saturating_sub.
    destruct (Z.ltb_spec (t - RateCounter.last_decay_ns e `max` 0) window); [|lia].
    destruct (Z.ltb_spec ((t - RateCounter.last_decay_ns e) `max` 0) window); [|lia].
    unfold saturating_add. rewrite Z.min_l by (unfold u64_MAX in *; lia). done. }
  unfold bind. rewrite Hstep. set (s' := s <| PORT_RATE_MAP ::= _ |>).
  specialize (IH e' s' Hcfg). destruct (port_run key ts s') as [bs s''].
  cbn [fst snd] in IH |- *. cbn [e' RateCounter.counter RateCounter.last_decay_ns] in IH.
  destruct IH as (H1&H2&H3); [unfold s'; cbn; by rewrite lru_get_insert_eq|lia|lia|done|].
  unfold ret. cbn [fst snd length seq map]. rewrite H1, H3. split_and!; [|done|].
  - rewrite <- seq_shift, map_map. f_equal; [f_equal; lia|].
    apply map_ext. intros i. f_equal. lia.
  - do 2 f_equal. lia.
Qed.

Lemma check_port_rate_new key cfg t s :
  let window := ms_to_ns (RateLimitConfig.tick_ms cfg) in
  array_get (PORT_RATE_LIMIT_CFG s) 0 = Some cfg -> 0 < window ->
  (forall e, lru_get (PORT_RATE_MAP s) key = Some e -> window <= t - RateCounter.last_decay_ns e) ->
  check_port_rate key t s =
    (1 >? RateLimitConfig.threshold cfg,
     s <| PORT_RATE_MAP ::= fun m => lru_insert m key (RateCounter.mk 1 t) |>).
Proof.
  intros window Hcfg Hw Hold. unfold check_port_rate, bind, gets. rewrite Hcfg. fold window.
  cbv zeta. destruct (Z.eqb_spec window 0); [lia|].
  destruct (lru_get (PORT_RATE_MAP s) key) as [e|]; [|done]. specialize (Hold e eq_refl).
  unfold next_window, saturating_sub. destruct (Z.ltb_spec ((t - RateCounter.last_decay_ns e) `max` 0) window); [lia|done].
Qed.

(** the port limit is a fixed window.  From the packet that opens a window
    on, packet number [i] of the window is dropped exactly when [i] exceeds the
    threshold, whoever sent it; the first packet after the window's end opens
    a new one and is counted as number 1 again. *)
Theorem port_rate_window key cfg t ts u s :
  let window := ms_to_ns (RateLimitConfig.tick_ms cfg) in
  let threshold := RateLimitConfig.threshold cfg in
  array_get (PORT_RATE_LIMIT_CFG s) 0 = Some cfg -> 0 < window ->
  (forall e, lru_get (PORT_RATE_MAP s) key = Some e -> window <= t - RateCounter.last_decay_ns e) ->
  Forall (fun t' => t <= t' < t + window) ts -> 1 + Z.of_nat (length ts) <= u64_MAX ->
  t + window <= u ->
  fst (port_run key (t :: ts) s) =
    map (fun i => Z.of_nat i >? threshold) (seq 1 (length (t :: ts))) /\
  fst (check_port_rate key u (snd (port_run key (t :: ts) s))) = (1 >? threshold).
Proof.
  intros window threshold Hcfg Hw Hold Hts Hlen Hu. cbn [port_run]. unfold bind.
  rewrite (check_port_rate_new key cfg t s Hcfg Hw Hold).
  set (s' := s <| PORT_RATE_MAP ::= _ |>).
  assert (Hget : lru_get (PORT_RATE_MAP s') key = Some (RateCounter.mk 1 t))
    by (unfold s'; cbn; by rewrite lru_get_insert_eq).
  destruct (port_run_in_window key cfg ts (RateCounter.mk 1 t) s') as (H1&H2&H3);
    cbn [RateCounter.counter RateCounter.last_decay_ns]; try done.
  { revert Hts. apply Forall_impl. fold window. lia. }
  cbn [RateCounter.counter RateCounter.last_decay_ns] in *.
  destruct (port_run key ts s') as [bs s'']. cbn [fst snd ret] in *. split.
  - rewrite H1. cbn [length seq map]. f_equal.
    rewrite <- (seq_shift (length ts) 1), <- (seq_shift (length ts) 0), !map_map.
    apply map_ext. intros i. f_equal. lia.
  - rewrite (check_port_rate_new key cfg u s'' H2 Hw); [done|].
    intros e. rewrite H3. intros [= <-]. cbn. fold window. lia.
Qed.
End ModeProperties.

(** ** Evaluated instances *)
Module LimitsWitness.
Import Samples.

(** Every packet is over a threshold of 0; port windows hold 2 packets. *)
Definition strict_limits : RateLimitConfig.t := RateLimitConfig.mk 0 100 7 8 300.
Definition window_limits : RateLimitConfig.t := RateLimitConfig.mk 2 100 0 0 0.
Definition strict : @KState kernel :=
  state [] <| RATE_LIMIT_CFG := [strict_limits] |> <| PORT_RATE_LIMIT_CFG := [window_limits] |>.

Lemma limiter_block_mode_witness :
  let s1 := snd (@run_limiter kernel UdpFlood alice 1000 strict) in
  fst (@run_limiter kernel UdpFlood alice 1000 strict) = true /\
  blocked_at s1 alice 300000000999 = true /\ blocked_at s1 alice 300000001000 = false.
Proof.
  cbv zeta. split; [vm_compute; reflexivity|].
  destruct (limiter_block_mode (KL := kernel_laws) UdpFlood alice 1000 strict config strict_limits eq_refl eq_refl) as [_ H].
  destruct (H ltac:(vm_compute; reflexivity) eq_refl) as [Hb _].
  split; (etransitivity; [exact (Hb _)|vm_compute; reflexivity]).
Defined.

Lemma handle_syn_flood_spec_witness :
  fst (@handle_syn_flood kernel alice 2 1000 strict) = true /\
  blocked_at (snd (@handle_syn_flood kernel alice 2 1000 strict)) alice 1001 = true.
Proof.
  cbv zeta. split; [vm_compute; reflexivity|].
  destruct (handle_syn_flood_spec (KL := kernel_laws) alice 2 1000 strict strict_limits eq_refl) as (_&_&H).
  apply H; vm_compute; reflexivity.
Defined.

Lemma port_rate_window_witness :
  let key := PortRateKey.mk 80 17 in
  fst (@port_run kernel key [5; 6; 7; 8] strict) = [false; false; true; true].
Proof.
  cbv zeta.
  destruct (port_rate_window (KL := kernel_laws) (PortRateKey.mk 80 17)
              window_limits 5 [6; 7; 8] 100000005 strict) as [H _]; try done.
  - change (ms_to_ns _) with 100000000. repeat constructor; lia.
Defined.
End LimitsWitness.
