(* ===== verification/Filters.v ===== *)
(** * Filters: port ACL, payload signatures and connection tracking

    [eshield-ebpf/src/port_acl.rs], [l7_scan.rs] and [conn_track.rs]. *)
From Stdlib Require Import Sorted.
From S2P Require Import Prelude Words Common Pure Parser Maps Footprint RateCounter.
#[local] Open Scope Z_scope.

Section Filters.
Context {KN : Kernel}.

(** ** Port ACL *)

(** The loop from index [i], [n] iterations before [count]. *)
Fixpoint check_port_acl_loop (acl : list PortAclEntry.t) (protocol dport i : Z) (n : nat) : bool :=
  match n with
  | O => false
  | S n =>
      match array_get acl i with
      | None => check_port_acl_loop acl protocol dport (i + 1) n
      | Some entry =>
          let dport_low := bswap 2 (PortAclEntry.dport_low entry) in
          let dport_high := bswap 2 (PortAclEntry.dport_high entry) in
          match match_port_acl_entry protocol dport (PortAclEntry.protocol entry)
                  dport_low dport_high (PortAclEntry.action entry) with
          | Some Drop => true
          | Some Allow => false
          | None => check_port_acl_loop acl protocol dport (i + 1) n
          end
      end
  end.

Definition check_port_acl (protocol dport count : Z) : BPF bool :=
  let* acl := gets PORT_ACL in
  ret (check_port_acl_loop acl protocol dport 0 (Z.to_nat count)).

(** ** Payload signatures *)
Definition SIGNATURE_BYTES : nat := 8.

Fixpoint scan_loop (patterns : list L7Pattern.t) (chunk i : Z) (n : nat) : bool :=
  match n with
  | O => false
  | S n =>
      match array_get patterns i with
      | None => scan_loop patterns chunk (i + 1) n
      | Some pat =>
          if L7Pattern.length pat =? 0 then scan_loop patterns chunk (i + 1) n
          else if Z.land chunk (L7Pattern.mask pat) =?
                  Z.land (L7Pattern.signature pat) (L7Pattern.mask pat) then true
          else scan_loop patterns chunk (i + 1) n
      end
  end.

(** The first eight payload bytes, read as a little-endian word. *)
Definition payload_chunk (p : frame) (ip_hdr_len : nat) : option Z :=
  match ptr_at TcpHdr.size p (ETH_HDR_LEN + ip_hdr_len) with
  | None => None
  | Some tcp_hdr =>
      let tcp_hdr_len := (Z.to_nat (TcpHdr.doff (load_TcpHdr p tcp_hdr)) * 4)%nat in
      let payload_off := (ETH_HDR_LEN + ip_hdr_len + tcp_hdr_len)%nat in
      if (length p <? payload_off + SIGNATURE_BYTES)%nat then None
      else Some (le_val (slice payload_off SIGNATURE_BYTES p))
  end.

Definition scan (ip_hdr_len : nat) (protocol pattern_count : Z) : BPF bool :=
  let* runtime := gets (fun s => array_get (CONFIG s) 0) in
  match runtime with
  | None => ret false
  | Some runtime =>
      if RuntimeConfig.l7_scan_enabled runtime =? 0 then ret false
      else if negb (protocol =? 6) then ret false
      else
        let* p := gets packet in
        match payload_chunk p ip_hdr_len with
        | None => ret false
        | Some chunk =>
            let* patterns := gets L7_PATTERNS in
            ret (scan_loop patterns chunk 0 (Z.to_nat pattern_count))
        end
  end.

(** ** Connection tracking *)
Definition check_conn_track (src : IpKey.t) (tcp_flags now_ns threshold window_ms : Z) : BPF bool :=
  let is_syn := is_syn_flags tcp_flags in
  let is_ack_or_rst := is_ack_or_rst_flags tcp_flags in
  if negb is_syn && negb is_ack_or_rst then ret false
  else
    let window_ns := ms_to_ns window_ms in
    let* entry := gets (fun s => lru_get (CONN_TRACK s) src) in
    let '(half_open, last_seen_ns) :=
      match entry with
      | Some entry => (ConnTrackEntry.half_open entry, ConnTrackEntry.last_seen_ns entry)
      | None => (0, 0)
      end in
    let step := conn_track_step half_open last_seen_ns now_ns is_syn is_ack_or_rst
                  threshold window_ns in
    let* _ :=
      if ConnTrackStep.half_open step =? 0 then CONN_TRACK_remove src
      else CONN_TRACK_insert src
             (ConnTrackEntry.mk (ConnTrackStep.last_seen_ns step) (ConnTrackStep.half_open step)) in
    ret (ConnTrackStep.drop step).

(** A run of segments of one source: their flags and arrival times. *)
Fixpoint conn_track_run (src : IpKey.t) (threshold window_ms : Z) (segs : list (Z * Z))
    : BPF (list bool) :=
  match segs with
  | [] => ret []
  | (flags, now) :: segs =>
      let* b := check_conn_track src flags now threshold window_ms in
      let* bs := conn_track_run src threshold window_ms segs in
      ret (b :: bs)
  end.

Lemma modifies_check_port_acl protocol dport count : modifies [] (check_port_acl protocol dport count).
Proof. unfold check_port_acl. footprint. Qed.

Lemma modifies_scan ip_hdr_len protocol count : modifies [] (scan ip_hdr_len protocol count).
Proof. unfold scan. footprint. Qed.

Lemma modifies_check_conn_track src flags now threshold window_ms :
  modifies [F_CONN_TRACK] (check_conn_track src flags now threshold window_ms).
Proof.
  unfold check_conn_track. destruct (_ && _); [footprint|]. cbv zeta.
  apply modifies_bind; [footprint|]. intros [e|]; footprint.
Qed.
End Filters.

#[export] Hint Resolve modifies_check_port_acl modifies_scan modifies_check_conn_track : footprint.

(** ** Port ACL and signatures: properties *)
Section FilterProperties.
Context {KN : Kernel}.

(** What one rule of the table says about a packet. *)
Definition acl_decision (protocol dport : Z) (e : PortAclEntry.t) : option AclMatch :=
  match_port_acl_entry protocol dport (PortAclEntry.protocol e) (bswap 2 (PortAclEntry.dport_low e))
    (bswap 2 (PortAclEntry.dport_high e)) (PortAclEntry.action e).

(** The rule at [i] is the first of the rules from [from] on that decides. *)
Definition first_decides (acl : list PortAclEntry.t) protocol dport (from i : nat) r : Prop :=
  (exists e, acl !! i = Some e /\ acl_decision protocol dport e = Some r) /\
  forall j e, (from <= j < i)%nat -> acl !! j = Some e -> acl_decision protocol dport e = None.

Lemma check_port_acl_loop_spec acl protocol dport n (i : nat) :
  check_port_acl_loop acl protocol dport (Z.of_nat i) n = true <->
  exists k, (i <= k < i + n)%nat /\ first_decides acl protocol dport i k Drop.
Proof.
  revert i. induction n as [|n IH]; intros i; cbn [check_port_acl_loop].
  { split; [done|]. intros (k&?&_). lia. }
  unfold array_get. rewrite Nat2Z.id. replace (Z.of_nat i + 1) with (Z.of_nat (S i)) by lia.
  destruct (acl !! i) as [e|] eqn:He.
  - fold (acl_decision protocol dport e).
    destruct (acl_decision protocol dport e) as [[|]|] eqn:Hd.
    + split; [done|]. intros (k&Hk&(e'&He'&Hd')&Hfirst).
      destruct (decide (k = i)) as [->|]; [congruence|].
      rewrite (Hfirst i e) in Hd by (done || lia). done.
    + split; [|done]. intros _. exists i. split; [lia|]. split; [by eexists|]. intros; lia.
    + rewrite IH. split; intros (k&Hk&(e'&He'&Hd')&Hfirst).
      * exists k. split; [lia|]. split; [by eexists|]. intros j e0 Hj He0.
        destruct (decide (j = i)) as [->|]; [congruence|]. apply (Hfirst j); [lia|done].
      * assert (k <> i) by congruence. exists k. split; [lia|]. split; [by eexists|].
        intros j e0 Hj. apply Hfirst. lia.
  - rewrite IH. split; intros (k&Hk&(e'&He'&Hd')&Hfirst).
    + exists k. split; [lia|]. split; [by eexists|]. intros j e0 Hj He0.
      destruct (decide (j = i)) as [->|]; [congruence|]. apply (Hfirst j); [lia|done].
    + assert (k <> i) by congruence. exists k. split; [lia|]. split; [by eexists|].
      intros j e0 Hj. apply Hfirst. lia.
Qed.

(** the ACL is first-match.  A packet is dropped exactly when some rule
    among the first [count] says drop and no earlier rule decides anything, so
    an allow rule in front shields what follows; the state is not written. *)
Theorem check_port_acl_first_match protocol dport count s :
  (fst (check_port_acl protocol dport count s) = true <->
   exists i, (i < Z.to_nat count)%nat /\ first_decides (PORT_ACL s) protocol dport 0 i Drop) /\
  snd (check_port_acl protocol dport count s) = s.
Proof.
  split; [|done]. unfold check_port_acl, bind, gets, ret. cbn [fst].
  rewrite (check_port_acl_loop_spec _ _ _ _ 0). split; intros (k&Hk&H); exists k; split; (lia || done).
Qed.

Definition signature_matches (pat : L7Pattern.t) (chunk : Z) : Prop :=
  L7Pattern.length pat <> 0 /\
  Z.land chunk (L7Pattern.mask pat) = Z.land (L7Pattern.signature pat) (L7Pattern.mask pat).

Lemma scan_loop_spec patterns chunk n (i : nat) :
  scan_loop patterns chunk (Z.of_nat i) n = true <->
  exists k pat, (i <= k < i + n)%nat /\ patterns !! k = Some pat /\ signature_matches pat chunk.
Proof.
  revert i. induction n as [|n IH]; intros i; cbn [scan_loop].
  { split; [done|]. intros (k&pat&?&_). lia. }
  unfold array_get. rewrite Nat2Z.id. replace (Z.of_nat i + 1) with (Z.of_nat (S i)) by lia.
  assert (Hnext : (forall pat, patterns !! i = Some pat -> ~ signature_matches pat chunk) ->
    scan_loop patterns chunk (Z.of_nat (S i)) n = true <->
    exists k pat, (i <= k < i + S n)%nat /\ patterns !! k = Some pat /\ signature_matches pat chunk).
  { intros Hno. rewrite IH. split; intros (k&pat&Hk&Hp&Hm).
    - exists k, pat. split; [lia|done].
    - exists k, pat. split; [|done]. destruct (decide (k = i)) as [->|]; [|lia].
      by destruct (Hno pat Hp). }
  destruct (patterns !! i) as [pat|] eqn:Hp; [|by apply Hnext].
  destruct (Z.eqb_spec (L7Pattern.length pat) 0) as [Hz|Hz].
  { apply Hnext. intros ? [= <-] [? _]. done. }
  destruct (Z.eqb_spec (Z.land chunk (L7Pattern.mask pat))
              (Z.land (L7Pattern.signature pat) (L7Pattern.mask pat))) as [Hm|Hm].
  - split; [|done]. intros _. exists i, pat. split; [lia|]. done.
  - apply Hnext. intros ? [= <-] [_ ?]. done.
Qed.

(** the payload scan drops a packet exactly when the scan is on, the packet
    is TCP, eight payload bytes lie inside the frame, and one of the first
    [pattern_count] non-empty signatures matches them under its mask; the state
    is not written. *)
Theorem scan_spec ip_hdr_len protocol count s runtime :
  array_get (CONFIG s) 0 = Some runtime ->
  (fst (scan ip_hdr_len protocol count s) = true <->
   RuntimeConfig.l7_scan_enabled runtime <> 0 /\ protocol = IPPROTO_TCP /\
   exists chunk, payload_chunk (packet s) ip_hdr_len = Some chunk /\
   exists k pat, (k < Z.to_nat count)%nat /\ L7_PATTERNS s !! k = Some pat /\
                 signature_matches pat chunk) /\
  snd (scan ip_hdr_len protocol count s) = s.
Proof.
  intros Hrt. unfold scan, bind, gets. rewrite Hrt.
  destruct (Z.eqb_spec (RuntimeConfig.l7_scan_enabled runtime) 0) as [Hz|Hz].
  { split; [|done]. cbn. split; [done|]. intros [? _]. done. }
  destruct (Z.eqb_spec protocol 6) as [Hp|Hp]; cbn [negb].
  2: { split; [|done]. cbn. split; [done|]. intros (_&?&_). done. }
  destruct (payload_chunk (packet s) ip_hdr_len) as [chunk|].
  2: { split; [|done]. cbn. split; [done|]. intros (_&_&?&?&_). done. }
  split; [|done]. cbn [fst ret]. rewrite (scan_loop_spec _ _ _ 0). split.
  - intros (k&pat&Hk&H). split_and!; [done|done|]. exists chunk. split; [done|].
    exists k, pat. split; [lia|done].
  - intros (_&_&c&[= <-]&k&pat&Hk&H). exists k, pat. split; [lia|done].
Qed.
End FilterProperties.

(** ** Connection tracking: refinement

    The abstract tracker keeps, for one source, the number of half-open
    connections and the time of the last counted segment; it never forgets the
    time.  The code removes the entry when the number reaches 0. *)
Section ConnTrack.
Context {KN : Kernel} {KL : KernelLaws}.
Context (threshold window_ns : Z).

Fixpoint half_open_run (h last : Z) (segs : list (Z * Z)) : list bool :=
  match segs with
  | [] => []
  | (flags, now) :: segs =>
      let h0 := if now - last >? window_ns then 0 else h in
      if is_syn_flags flags then (h0 + 1 >? threshold) :: half_open_run (h0 + 1) now segs
      else if is_ack_or_rst_flags flags then
        (Z.max (h0 - 1) 0 >? threshold) :: half_open_run (Z.max (h0 - 1) 0) now segs
      else false :: half_open_run h last segs
  end.

(** The stored entry represents the abstract count. *)
Definition tracks (e : option ConnTrackEntry.t) (h last : Z) : Prop :=
  match e with
  | None => h = 0
  | Some e => 0 < h /\ ConnTrackEntry.half_open e = h /\ ConnTrackEntry.last_seen_ns e = last
  end.

Lemma check_conn_track_run src flags now window_ms s e :
  ms_to_ns window_ms = window_ns -> lru_get (CONN_TRACK s) src = e ->
  (is_syn_flags flags = true \/ is_ack_or_rst_flags flags = true) ->
  let st := conn_track_step (from_option ConnTrackEntry.half_open 0 e)
              (from_option ConnTrackEntry.last_seen_ns 0 e) now
              (is_syn_flags flags) (is_ack_or_rst_flags flags) threshold window_ns in
  fst (check_conn_track src flags now threshold window_ms s) = ConnTrackStep.drop st /\
  lru_get (CONN_TRACK (snd (check_conn_track src flags now threshold window_ms s))) src =
    (if ConnTrackStep.half_open st =? 0 then None
     else Some (ConnTrackEntry.mk (ConnTrackStep.last_seen_ns st) (ConnTrackStep.half_open st))).
Proof.
  intros Hw He Hf st. unfold check_conn_track.
  destruct (negb _ && negb _) eqn:Hn.
  { bool_to_prop. by destruct Hf; congruence. }
  unfold bind, gets. rewrite He, Hw.
  assert (Hst : (let '(h, l) := match e with
                 | Some entry => (ConnTrackEntry.half_open entry, ConnTrackEntry.last_seen_ns entry)
                 | None => (0, 0) end in
            conn_track_step h l now (is_syn_flags flags) (is_ack_or_rst_flags flags) threshold window_ns)
            = st) by (by destruct e).
  destruct e as [e|]; cbv zeta; cbv zeta in Hst; rewrite Hst;
    (destruct (ConnTrackStep.half_open st =? 0); cbn;
     [by rewrite lru_get_remove_eq | by rewrite lru_get_insert_eq]).
Qed.

(** The step of the code computes the abstract count. *)
Lemma conn_track_step_tracks e h last now syn ack :
  tracks e h last -> 0 <= h < u32_MAX -> 0 <= now -> 0 < window_ns -> 0 <= last -> last <= now ->
  (syn || ack = true) ->
  let h0 := if now - last >? window_ns then 0 else h in
  let h' := if syn then h0 + 1 else Z.max (h0 - 1) 0 in
  conn_track_step (from_option ConnTrackEntry.half_open 0 e)
    (from_option ConnTrackEntry.last_seen_ns 0 e) now syn ack threshold window_ns
  = ConnTrackStep.mk h' now (h' >? threshold).
Proof.
  intros Ht Hh Hn Hw Hl Hln Hsa. cbv zeta. unfold conn_track_step.
  assert (Hcount : (if negb (window_ns =? 0) &&
                       (saturating_sub now (from_option ConnTrackEntry.last_seen_ns 0 e) >? window_ns)
                    then 0 else from_option ConnTrackEntry.half_open 0 e)
                   = if now - last >? window_ns then 0 else h).
  { destruct (Z.eqb_spec window_ns 0); [lia|]. cbn [negb andb].
    destruct e as [e|]; cbn in Ht |- *.
    - destruct Ht as (?&->&->). unfold saturating_sub. by rewrite Z.max_l by lia.
    - subst. by do 2 case_match. }
  rewrite Hcount. clear Hcount. set (h0 := if now - last >? window_ns then 0 else h).
  assert (0 <= h0 < u32_MAX) by (unfold h0; destruct (now - last >? window_ns); lia). clearbody h0.
  unfold saturating_add, saturating_sub, u32_MAX in *.
  destruct syn; [f_equal; [lia|f_equal; lia]|]. cbn in Hsa. subst ack. done.
Qed.
End ConnTrack.

Section ConnTrackProperties.
Context {KN : Kernel} {KL : KernelLaws}.

Lemma conn_track_run_refines threshold window_ms src segs h last s :
  let window_ns := ms_to_ns window_ms in
  tracks (lru_get (CONN_TRACK s) src) h last ->
  0 <= h -> h + Z.of_nat (length segs) <= u32_MAX -> 0 < window_ns -> 0 <= last ->
  Sorted Z.le (last :: map snd segs) ->
  fst (conn_track_run src threshold window_ms segs s) = half_open_run threshold window_ns h last segs.
Proof.
  intros window_ns. revert h last s.
  induction segs as [|[flags now] segs IH]; intros h last s Ht Hh Hlen Hw Hl Hsort; [done|].
  cbn [map snd length] in Hsort, Hlen. cbn [conn_track_run half_open_run].
  apply Sorted_inv in Hsort as [Hsort Hln%HdRel_inv]. unfold bind.
  destruct (is_syn_flags flags || is_ack_or_rst_flags flags) eqn:Hf.
  - assert (Hf' := Hf). apply orb_true_iff in Hf'.
    destruct (check_conn_track_run threshold window_ns src flags now window_ms s _ eq_refl eq_refl Hf')
      as [H1 H2].
    rewrite (conn_track_step_tracks threshold window_ns _ h last now) in H1, H2 by (done || lia).
    cbn [ConnTrackStep.drop ConnTrackStep.half_open ConnTrackStep.last_seen_ns] in H1, H2.
    set (h0 := if now - last >? window_ns then 0 else h) in *.
    assert (0 <= h0 <= h) by (unfold h0; destruct (now - last >? window_ns); lia). clearbody h0.
    set (h' := if is_syn_flags flags then h0 + 1 else (h0 - 1) `max` 0) in *.
    assert (0 <= h' <= h + 1) by (unfold h'; destruct (is_syn_flags flags); lia).
    specialize (IH h' now (snd (check_conn_track src flags now threshold window_ms s))).
    destruct (check_conn_track src flags now threshold window_ms s) as [b s1].
    cbn [fst snd] in *. destruct (conn_track_run src threshold window_ms segs s1) as [bs s2].
    cbn [fst ret] in *. subst b. rewrite IH; try (done || lia).
    + unfold h' in *. destruct (is_syn_flags flags); [done|].
      cbn [orb] in Hf. by rewrite Hf.
    + rewrite H2. unfold tracks. destruct (Z.eqb_spec h' 0); [done|]. cbn. lia.
  - apply orb_false_iff in Hf as [Hf1 Hf2]. unfold check_conn_track. rewrite Hf1, Hf2. cbn [negb andb ret].
    specialize (IH h last s). destruct (conn_track_run src threshold window_ms segs s) as [bs s2].
    cbn [fst ret] in *. rewrite IH; try (done || lia).
    apply Sorted_inv in Hsort as [Hsort Hhd]. constructor; [done|].
    destruct (map snd segs); constructor. apply HdRel_inv in Hhd. lia.
Qed.

(** C30: the connection tracker refines the half-open counter.  For any sequence
    of TCP segments of a source not yet tracked, in time order, the code drops
    exactly the segments at which the counter is above the threshold, where a
    SYN adds one, an ACK or RST takes one away (never below 0), other segments
    are ignored, and a gap longer than the window starts again from 0. *)
Theorem conn_track_refines threshold window_ms src segs s :
  lru_get (CONN_TRACK s) src = None -> 0 < ms_to_ns window_ms ->
  Z.of_nat (length segs) <= u32_MAX -> Sorted Z.le (0 :: map snd segs) ->
  fst (conn_track_run src threshold window_ms segs s)
  = half_open_run threshold (ms_to_ns window_ms) 0 0 segs.
Proof.
  intros Hnone Hw Hlen Hsort. apply conn_track_run_refines; try (done || lia). by rewrite Hnone.
Qed.
End ConnTrackProperties.

(** ** Evaluated instances *)
Module FiltersWitness.
Import Samples.

Lemma scan_spec_witness :
  fst (@scan kernel 20 6 1 (state [])) = false.
Proof.
  destruct (scan_spec 20 6 1 (state []) config eq_refl) as [H _].
  apply not_true_is_false. rewrite H. intros (_&_&c&Hc&_). discriminate Hc.
Defined.

Lemma conn_track_refines_witness :
  fst (@conn_track_run kernel alice 1 1000 [(2, 5); (2, 6); (16, 7); (2, 8)] (state []))
  = [false; true; false; true].
Proof.
  etransitivity.
  - apply (conn_track_refines (KL := kernel_laws)); try (done || (cbn; unfold u32_MAX; lia)).
    cbn [map snd]. repeat first [apply Sorted_nil | apply HdRel_nil | apply Sorted_cons | apply HdRel_cons]; lia.
  - vm_compute. reflexivity.
Defined.
End FiltersWitness.
