(* ===== verification/TcpReset.v ===== *)
(** * TcpReset: answering a dropped segment with a reset

    [eshield-ebpf/src/tcp_reset.rs]: the frame of the dropped segment is cut to
    54 bytes, turned round, made a RST|ACK, and sent back with [XDP_TX]. *)
From S2P Require Import Prelude Words Common Pure Parser Maps Wire Footprint.
#[local] Open Scope Z_scope.

Definition XDP_DROP : Z := 1.
Definition XDP_PASS : Z := 2.
Definition XDP_TX : Z := 3.

Definition IPV4_HDR_LEN : nat := 20.
Definition RST_PKT_LEN : Z := 40.

(** The three swaps, [mem::swap] on the fields of a header. *)
Definition swap_eth (h : EthHdr.t) : EthHdr.t :=
  h <| EthHdr.src := EthHdr.dst h |> <| EthHdr.dst := EthHdr.src h |>.
Definition swap_ip (h : IpHdr.t) : IpHdr.t :=
  h <| IpHdr.saddr := IpHdr.daddr h |> <| IpHdr.daddr := IpHdr.saddr h |>.
Definition swap_tcp (h : TcpHdr.t) : TcpHdr.t :=
  h <| TcpHdr.source := TcpHdr.dest h |> <| TcpHdr.dest := TcpHdr.source h |>.

Section TcpReset.
Context {KN : Kernel}.

Definition inc_rst_sent : BPF unit :=
  with_stats (fun g => g <| GlobalStats.tcp_rst_sent ::= fun n => wrapping_add 64 n 1 |>).

Definition inc_rst_fail : BPF unit :=
  with_stats (fun g => g <| GlobalStats.tcp_rst_fail ::= fun n => wrapping_add 64 n 1 |>).

(** Every failing exit of the function. *)
Definition rst_fail : BPF Z :=
  let* _ := inc_rst_fail in
  ret XDP_DROP.

(** The fields of the answer, before the checksums. *)
Definition rst_fields (tcp : TcpHdr.t) : TcpHdr.t :=
  let incoming_seq := bswap 4 (TcpHdr.seq tcp) in
  let flags := Z.lor TCP_FLAG_RST TCP_FLAG_ACK in
  let doff := 5 in
  tcp <| TcpHdr.seq := 0 |>
      <| TcpHdr.ack_seq := bswap 4 (wrapping_add 32 incoming_seq 1) |>
      <| TcpHdr.doff_flags := bswap 2 (Z.lor (wrap 16 (Z.shiftl doff 12)) flags) |>
      <| TcpHdr.window := 0 |>
      <| TcpHdr.urg_ptr := 0 |>.

(** From the zeroed checksums on: IPv4 checksum, pseudo header, TCP checksum. *)
Definition rst_checksums (ip tcp : nat) : BPF Z :=
  let* ip_check := gets (fun s => csum (packet s) ETH_HDR_LEN IPV4_HDR_LEN 0) in
  if ip_check <? 0 then rst_fail
  else
    let* _ := packet_modify (update_IpHdr (fun h => h <| IpHdr.check := finalize_csum ip_check |>) ip) in
    let* h := gets (fun s => load_IpHdr (packet s) ip) in
    match pseudo_sum (IpHdr.saddr h) (IpHdr.daddr h) (Z.of_nat TCP_HDR_LEN) with
    | None => rst_fail
    | Some pseudo_sum =>
        let* tcp_check := gets (fun s =>
          csum (packet s) (ETH_HDR_LEN + IPV4_HDR_LEN) TCP_HDR_LEN (wrap 32 pseudo_sum)) in
        if tcp_check <? 0 then rst_fail
        else
          let* _ := packet_modify
            (update_TcpHdr (fun h => h <| TcpHdr.check := finalize_csum tcp_check |>) tcp) in
          let* _ := inc_rst_sent in
          ret XDP_TX
    end.

Definition reply_tcp_rst_v4 : BPF Z :=
  let* cur_len := gets (fun s => Z.of_nat (length (packet s))) in
  let target_len := Z.of_nat ETH_HDR_LEN + RST_PKT_LEN in
  let delta := target_len - cur_len in
  let* rc := adjust_tail delta in
  if negb (rc =? 0) then rst_fail
  else
    let* p := gets packet in
    match ptr_at_mut EthHdr.size p 0 with
    | None => rst_fail
    | Some eth =>
        match ptr_at_mut IpHdr.size p ETH_HDR_LEN with
        | None => rst_fail
        | Some ip =>
            match ptr_at_mut TcpHdr.size p (ETH_HDR_LEN + IPV4_HDR_LEN) with
            | None => rst_fail
            | Some tcp =>
                if negb (IpHdr.proto (load_IpHdr p ip) =? IPPROTO_TCP) then rst_fail
                else
                  let* _ := packet_modify (update_EthHdr swap_eth eth) in
                  let* _ := packet_modify (update_IpHdr swap_ip ip) in
                  let* _ := packet_modify (update_TcpHdr swap_tcp tcp) in
                  let* _ := packet_modify (update_TcpHdr rst_fields tcp) in
                  let* _ := packet_modify (update_IpHdr (fun h => h <| IpHdr.check := 0 |>) ip) in
                  let* _ := packet_modify (update_TcpHdr (fun h => h <| TcpHdr.check := 0 |>) tcp) in
                  let* _ := packet_modify
                    (update_IpHdr (fun h => h <| IpHdr.tot_len := bswap 2 RST_PKT_LEN |>) ip) in
                  rst_checksums ip tcp
            end
        end
    end.

Definition reply_tcp_rst (ip_hdr_len : nat) : BPF Z :=
  if (ip_hdr_len =? IPV4_HDR_LEN)%nat then reply_tcp_rst_v4 else rst_fail.

Lemma modifies_rst_fail : modifies [F_GLOBAL_STATS; F_packet] rst_fail.
Proof. unfold rst_fail, inc_rst_fail. footprint. Qed.

#[local] Hint Resolve modifies_rst_fail : footprint.

Lemma modifies_reply_tcp_rst n : modifies [F_GLOBAL_STATS; F_packet] (reply_tcp_rst n).
Proof. unfold reply_tcp_rst, reply_tcp_rst_v4, rst_checksums, inc_rst_sent. footprint. Qed.

Context {KL : KernelLaws}.

(** The checksum stage on a frame of headers. *)
Lemma rst_checksums_run s e i t :
  EthHdr_fit e -> IpHdr_fit i -> TcpHdr_fit t ->
  packet s = hdrs e i t [] -> IpHdr.check i = 0 -> TcpHdr.check t = 0 ->
  exists ci ct, 0 < ci <= 65535 /\ 0 < ct <= 65535 /\
    (le_word_total (IpHdr.encode i) + ci) mod 65535 = 0 /\
    (le_word_total (pseudo_bytes (IpHdr.saddr i) (IpHdr.daddr i) 20)
       + le_word_total (TcpHdr.encode t) + ct) mod 65535 = 0 /\
    fst (rst_checksums 14 34 s) = XDP_TX /\
    packet (snd (rst_checksums 14 34 s)) =
      hdrs e (i <| IpHdr.check := ci |>) (t <| TcpHdr.check := ct |>) [].
Proof.
  intros He Hi Ht Hp Hci Hct. unfold rst_checksums, bind, gets, packet_modify, modify.
  assert (Hlen : length (packet s) = 54%nat) by (rewrite Hp, length_hdrs by done; done).
  change ETH_HDR_LEN with 14%nat. change IPV4_HDR_LEN with 20%nat. change TCP_HDR_LEN with 20%nat.
  assert (Hc1 : csum (packet s) 14 20 0 = bpf_csum_diff (IpHdr.encode i) 0).
  { rewrite csum_in by lia. by rewrite Hp, ip_bytes_hdrs. }
  rewrite Hc1.
  destruct (csum_diff_bytes (IpHdr.encode i) 0) as [Hs1 [k1 E1]];
    [apply put_fields_ok|by exists 5%nat; rewrite length_IpHdr_encode
    |rewrite length_IpHdr_encode by done; lia|lia|].
  set (s1 := bpf_csum_diff (IpHdr.encode i) 0) in *. destruct (Z.ltb_spec s1 0); [lia|].
  destruct (finalize_csum_spec s1 Hs1) as [Hf1 Hm1].
  set (ci := finalize_csum s1) in *. cbn [packet].
  assert (Hi' : IpHdr_fit (i <| IpHdr.check := ci |>)).
  { revert Hi. unfold IpHdr_fit. cbn -[Z.pow]. intuition lia. }
  set (s2 := s <| packet ::= _ |>).
  assert (Hp2 : packet s2 = hdrs e (i <| IpHdr.check := ci |>) t []).
  { unfold s2. cbn [packet setter]. rewrite Hp. by apply update_Ip_hdrs. }
  rewrite Hp2, load_Ip_hdrs by done. cbn [IpHdr.saddr IpHdr.daddr setter].
  destruct (pseudo_sum_spec (IpHdr.saddr i) (IpHdr.daddr i) 20 ltac:(lia)) as (ps&kp&Eps&Hps&Ep).
  change (Z.of_nat 20) with 20. rewrite Eps. cbv beta iota.
  change (14 + 20)%nat with 34%nat. rewrite ?Hp2, csum_in by (rewrite length_hdrs by done; cbn; lia).
  rewrite tcp_bytes_hdrs, wrap_small by done.
  destruct (csum_diff_bytes (TcpHdr.encode t) ps) as [Hs3 [k3 E3]];
    [apply put_fields_ok|by exists 5%nat; rewrite length_TcpHdr_encode
    |rewrite length_TcpHdr_encode by done; lia|lia|].
  set (s3 := bpf_csum_diff (TcpHdr.encode t) ps) in *. destruct (Z.ltb_spec s3 0); [lia|].
  destruct (finalize_csum_spec s3 Hs3) as [Hf3 Hm3]. set (ct := finalize_csum s3) in *.
  exists ci, ct. split; [lia|]. split; [lia|]. split_and!.
  - rewrite <- Hm1. rewrite <- (Z.mod_add (s1 + ci) k1) by lia. f_equal. lia.
  - rewrite <- Hm3. rewrite <- (Z.mod_add (s3 + ct) (kp + k3)) by lia. f_equal. lia.
  - done.
  - unfold inc_rst_sent, with_stats, modify, ret. cbn [snd fst packet setter]. fold s2.
    replace (packet s2) with (hdrs e (i <| IpHdr.check := ci |>) t []).
    apply update_Tcp_hdrs; try done. revert Ht. unfold TcpHdr_fit. cbn -[Z.pow]. intuition lia.
Qed.

(** The frame after a successful cut. *)
Lemma adjust_tail_cut p delta p' n :
  bpf_xdp_adjust_tail p delta = (0, p') -> bytes_ok p -> (n <= length p)%nat ->
  Z.of_nat (length p) + delta = Z.of_nat n -> p' = take n p /\ bytes_ok p'.
Proof.
  intros Ha Hb Hn Hd. destruct (adjust_tail_spec _ _ _ _ Ha) as [(_&Hl&Hok&Ht)|[? _]]; [|lia].
  assert (length p' = n) by lia. cbv zeta in Ht. rewrite Nat.min_r in Ht by lia.
  split; [|by apply Hok]. rewrite (take_ge p') in Ht by lia. by rewrite Ht, H.
Qed.

(** The header the answer carries, by field. *)
Definition rst_answers (ip ip' : IpHdr.t) (tcp tcp' : TcpHdr.t) : Prop :=
  IpHdr.saddr ip' = IpHdr.daddr ip /\ IpHdr.daddr ip' = IpHdr.saddr ip /\
  bswap 2 (IpHdr.tot_len ip') = 40 /\ IpHdr.proto ip' = IPPROTO_TCP /\
  TcpHdr.source tcp' = TcpHdr.dest tcp /\ TcpHdr.dest tcp' = TcpHdr.source tcp /\
  TcpHdr.seq tcp' = 0 /\
  bswap 4 (TcpHdr.ack_seq tcp') = wrapping_add 32 (bswap 4 (TcpHdr.seq tcp)) 1 /\
  TcpHdr.flags tcp' = Z.lor TCP_FLAG_RST TCP_FLAG_ACK /\ TcpHdr.doff tcp' = 5.

Lemma reply_tcp_rst_v4_run s p' :
  bytes_ok (packet s) -> (54 <= length (packet s))%nat ->
  IpHdr.proto (load_IpHdr (packet s) 14) = IPPROTO_TCP ->
  bpf_xdp_adjust_tail (packet s) (54 - Z.of_nat (length (packet s))) = (0, p') ->
  let e := load_EthHdr (packet s) 0 in
  let i := load_IpHdr (packet s) 14 in
  let t := load_TcpHdr (packet s) 34 in
  let i1 := swap_ip i <| IpHdr.check := 0 |> <| IpHdr.tot_len := bswap 2 RST_PKT_LEN |> in
  let t1 := rst_fields (swap_tcp t) <| TcpHdr.check := 0 |> in
  (EthHdr_fit (swap_eth e) /\ IpHdr_fit i1 /\ TcpHdr_fit t1) /\
  reply_tcp_rst_v4 s = rst_checksums 14 34 (s <| packet := hdrs (swap_eth e) i1 t1 [] |>).
Proof.
  intros Hb Hl Hproto Ha e i t i1 t1.
  destruct (adjust_tail_cut _ _ _ 54 Ha Hb Hl ltac:(lia)) as [Hp' Hb'].
  assert (Hl' : length p' = 54%nat) by (rewrite Hp', length_take; lia).
  destruct (frame_hdrs p' Hb' ltac:(lia)) as (Hf&He&Hi&Ht).
  assert (Ee : load_EthHdr p' 0 = e) by (unfold e, load_EthHdr; by rewrite Hp', slice_take by (unfold EthHdr.size, IpHdr.size, TcpHdr.size; lia)).
  assert (Ei : load_IpHdr p' 14 = i) by (unfold i, load_IpHdr; by rewrite Hp', slice_take by (unfold EthHdr.size, IpHdr.size, TcpHdr.size; lia)).
  assert (Et : load_TcpHdr p' 34 = t) by (unfold t, load_TcpHdr; by rewrite Hp', slice_take by (unfold EthHdr.size, IpHdr.size, TcpHdr.size; lia)).
  rewrite Ee, Ei, Et, (skipn_all2 (n := 54)) in Hf by lia. rewrite Ee in He. rewrite Ei in Hi. rewrite Et in Ht.
  assert (He1 : EthHdr_fit (swap_eth e)) by (revert He; unfold EthHdr_fit; cbn; tauto).
  assert (Hi0 : IpHdr_fit (swap_ip i)) by (revert Hi; unfold IpHdr_fit; cbn -[Z.pow]; tauto).
  assert (Hi0' : IpHdr_fit (swap_ip i <| IpHdr.check := 0 |>))
    by (revert Hi; unfold IpHdr_fit; cbn -[Z.pow]; intuition lia).
  pose proof (bswap_range 2 RST_PKT_LEN) as Hr.
  assert (Hi1 : IpHdr_fit i1) by (revert Hi Hr; unfold IpHdr_fit; cbn -[Z.pow bswap]; intuition lia).
  assert (Ht0 : TcpHdr_fit (swap_tcp t)) by (revert Ht; unfold TcpHdr_fit; cbn -[Z.pow]; tauto).
  pose proof (bswap_range 4 (wrapping_add 32 (bswap 4 (TcpHdr.seq (swap_tcp t))) 1)) as Hr1.
  pose proof (bswap_range 2 (Z.lor (wrap 16 (Z.shiftl 5 12)) (Z.lor TCP_FLAG_RST TCP_FLAG_ACK))) as Hr2.
  assert (Ht0' : TcpHdr_fit (rst_fields (swap_tcp t))).
  { revert Ht Hr1 Hr2. unfold TcpHdr_fit. cbn -[Z.pow bswap wrap Z.lor]. intuition lia. }
  assert (Ht1 : TcpHdr_fit t1).
  { revert Ht Hr1 Hr2. unfold TcpHdr_fit. cbn -[Z.pow bswap wrap Z.lor]. intuition lia. }
  split; [done|].
  unfold reply_tcp_rst_v4, bind, gets. cbn [fst snd].
  change (Z.of_nat ETH_HDR_LEN + RST_PKT_LEN) with 54. unfold adjust_tail. rewrite Ha. cbn [negb Z.eqb packet setter].
  change ETH_HDR_LEN with 14%nat. change IPV4_HDR_LEN with 20%nat.
  unfold ptr_at_mut. rewrite Hl'. cbn [Nat.ltb Nat.leb Nat.add EthHdr.size IpHdr.size TcpHdr.size].
  rewrite Ei. fold i in Hproto. rewrite Hproto. cbn [negb Z.eqb IPPROTO_TCP Pos.eqb].
  unfold packet_modify, modify. cbn [packet setter].
  assert (Hc : forall p f, s <| packet := p |> <| packet ::= f |> = s <| packet := f p |>) by done.
  rewrite !Hc, Hf.
  rewrite update_Eth_hdrs, update_Ip_hdrs, update_Tcp_hdrs, update_Tcp_hdrs, update_Ip_hdrs,
    update_Tcp_hdrs, update_Ip_hdrs by done. done.
Qed.

(** C37: the reset.  For an IPv4/TCP frame with a 20-byte IPv4 header, if the
    frame can be cut to 54 bytes the answer is sent ([XDP_TX]) and is a
    well-formed RST|ACK: addresses and ports swapped, sequence number 0,
    acknowledging the sequence number plus one, total length 40, data offset 5,
    and both checksums verify (the TCP one over its pseudo header).  If the cut
    fails, the packet is dropped and the frame untouched. *)
Theorem reply_tcp_rst_wellformed s rc p' :
  bytes_ok (packet s) -> (54 <= length (packet s))%nat ->
  IpHdr.proto (load_IpHdr (packet s) 14) = IPPROTO_TCP ->
  bpf_xdp_adjust_tail (packet s) (54 - Z.of_nat (length (packet s))) = (rc, p') ->
  let action := fst (reply_tcp_rst 20 s) in
  let q := packet (snd (reply_tcp_rst 20 s)) in
  let ip' := load_IpHdr q 14 in
  (rc = 0 -> action = XDP_TX /\ length q = 54%nat /\
     EthHdr.dst (load_EthHdr q 0) = EthHdr.src (load_EthHdr (packet s) 0) /\
     EthHdr.src (load_EthHdr q 0) = EthHdr.dst (load_EthHdr (packet s) 0) /\
     rst_answers (load_IpHdr (packet s) 14) ip'
       (load_TcpHdr (packet s) 34) (load_TcpHdr q 34) /\
     checksum (slice 14 20 q) = 0 /\
     checksum (pseudo_bytes (IpHdr.saddr ip') (IpHdr.daddr ip') 20 ++ slice 34 20 q) = 0) /\
  (rc <> 0 -> action = XDP_DROP /\ q = packet s).
Proof.
  intros Hb Hl Hproto Ha. cbv zeta.
  change (reply_tcp_rst 20 s) with (reply_tcp_rst_v4 s). split.
  - intros ->. destruct (reply_tcp_rst_v4_run s p' Hb Hl Hproto Ha) as [(He&Hi&Ht) ->].
    set (e := swap_eth _) in *. set (i := _ <| IpHdr.tot_len := _ |>) in *.
    set (t := _ <| TcpHdr.check := _ |>) in *.
    set (s1 := s <| packet := _ |>).
    destruct (rst_checksums_run s1 e i t He Hi Ht eq_refl eq_refl eq_refl)
      as (ci&ct&Hci&Hct&Hsi&Hst&Htx&Hq).
    rewrite Htx, Hq. clear Htx Hq.
    assert (Hi' : IpHdr_fit (i <| IpHdr.check := ci |>))
      by (revert Hi; unfold IpHdr_fit; cbn -[Z.pow bswap]; intuition lia).
    assert (Ht' : TcpHdr_fit (t <| TcpHdr.check := ct |>))
      by (revert Ht; unfold TcpHdr_fit; cbn -[Z.pow bswap wrap Z.lor]; intuition lia).
    rewrite load_Eth_hdrs, load_Ip_hdrs, load_Tcp_hdrs, ip_bytes_hdrs, tcp_bytes_hdrs by done.
    split_and!; [done|by rewrite length_hdrs|done|done| | |].
    + unfold rst_answers. split_and!; try done.
      cbn -[bswap]. rewrite bswap_involutive; [done|].
      unfold wrapping_add. change (256 ^ Z.of_nat 4) with (2 ^ 32). by apply wrap_range.
    + by apply ip_checksum_verifies.
    + rewrite <- (app_nil_r (TcpHdr.encode _)). apply tcp_checksum_verifies; try done.
      * unfold pseudo_bytes. rewrite !bytes_ok_app. split_and!; [apply le_bytes_ok..|].
        repeat constructor; unfold is_byte, IPPROTO_TCP; lia.
      * constructor.
      * by exists 6%nat.
  - intros Hrc. unfold reply_tcp_rst_v4, bind, gets.
    change (Z.of_nat ETH_HDR_LEN + RST_PKT_LEN) with 54. unfold adjust_tail. rewrite Ha.
    destruct (Z.eqb_spec rc 0); [done|]. cbn [negb]. split; [done|].
    destruct (adjust_tail_spec _ _ _ _ Ha) as [[? _]|[_ ->]]; [done|]. done.
Qed.
End TcpReset.

#[export] Hint Resolve modifies_reply_tcp_rst : footprint.
#[global] Arguments reply_tcp_rst : simpl never.

(** ** Evaluated instance *)
Module TcpResetWitness.
Import Samples.

(** A TCP segment from 10.0.0.1:1234 to 10.0.0.9:80 with four payload bytes. *)
Definition segment : frame :=
  [2;0;0;0;0;1; 2;0;0;0;0;2; 8;0;
   69;0;0;44;0;1;0;0;64;6;0;0;10;0;0;1;10;0;0;9;
   4;210;0;80;0;0;0;7;0;0;0;0;80;24;4;0;0;0;0;0; 1;2;3;4].

Lemma reply_tcp_rst_wellformed_witness :
  fst (@reply_tcp_rst kernel 20 (state segment)) = XDP_TX /\
  checksum (slice 14 20 (packet (snd (@reply_tcp_rst kernel 20 (state segment))))) = 0.
Proof.
  destruct (reply_tcp_rst_wellformed (KL := kernel_laws) (state segment) 0 (take 54 segment))
    as [H _].
  - repeat constructor; unfold is_byte; lia.
  - vm_compute. lia.
  - vm_compute. reflexivity.
  - vm_compute. reflexivity.
  - destruct (H eq_refl) as (Ha&_&_&_&_&Hc&_). split; [exact Ha|exact Hc].
Defined.
End TcpResetWitness.
