(* ===== verification/SynCookie.v ===== *)
(** * SynCookie: challenging SYN floods with cookies

    [eshield-ebpf/src/syn_cookie.rs] and the rotation of the secrets in
    [eshield/src/main.rs].  A source over its rate enters challenge mode: its
    SYN is answered by a SYN-ACK whose sequence number is a cookie, and an ACK
    that returns the cookie ends the challenge. *)
From S2P Require Import Prelude Words Common Pure Parser Maps Wire Footprint Trust RateCounter TcpReset.
#[local] Open Scope Z_scope.

Definition NO_ACTION : Z := u32_MAX.
Definition TCP_OPT_MSS : Z := 2.
Definition BUCKET_DURATION_S : Z := 60.
Definition VALID_BUCKETS : nat := 2.
Definition CHALLENGE_TIMEOUT_NS : Z := 30000000000.
Definition MSS_TABLE : list (Z * Z) := [(0, 536); (1, 1300); (2, 1460)].

(** [PacketCtxRef]; the frame is [packet] of the state. *)
Module PacketCtxRef.
Record t := mk {
  ip_hdr_len : nat;
  now_ns : Z;
}.
End PacketCtxRef.

(** The time bucket of a moment. *)
Definition bucket_of (now_ns : Z) : Z := now_ns / 1000000000 / BUCKET_DURATION_S.

(** The secret a bucket is signed with, if the table still knows it. *)
Definition secret_for (secret : CookieSecret.t) (bucket : Z) : option (list Z) :=
  if bucket =? CookieSecret.bucket_index secret then Some (CookieSecret.current secret)
  else if bucket =? saturating_sub (CookieSecret.bucket_index secret) 1
       then Some (CookieSecret.previous secret)
  else None.

(** The cookie of a connection, from the header fields as the code reads them. *)
Definition connection_cookie (saddr daddr sport dport bucket : Z) (secret_bytes : list Z)
    (mss_idx : Z) : Z :=
  build_cookie_runtime (Z.lor saddr (Z.shiftl daddr 32))
    (Z.lor (Z.lor sport (Z.shiftl dport 16)) (wrap 64 (Z.shiftl bucket 32))) secret_bytes mss_idx.

Section SynCookie.
Context {KN : Kernel}.

Definition is_challenged_or_trigger (saddr now_ns : Z) : BPF bool :=
  let src_key := from_ipv4 (le_bytes 4 saddr) in
  let trigger :=
    let* update := update_rate_counter src_key now_ns in
    match update with
    | Some update =>
        if RateUpdate.counter update >? RateUpdate.threshold update then
          let* _ := SYN_PROXY_CONN_insert src_key now_ns in
          ret true
        else ret false
    | None => ret false
    end in
  let* ts := gets (fun s => lru_get (SYN_PROXY_CONN s) src_key) in
  match ts with
  | Some ts =>
      if saturating_sub now_ns ts <? CHALLENGE_TIMEOUT_NS then ret true
      else
        let* _ := SYN_PROXY_CONN_remove src_key in
        trigger
  | None => trigger
  end.

Definition parse_mss (p : frame) (tcp_offset tcp_hdr_len : nat) : option Z :=
  if negb (tcp_hdr_len =? 24)%nat then None
  else
    let opts_offset := (tcp_offset + 20)%nat in
    kind ← ptr_at 1 p opts_offset;
    len ← ptr_at 1 p (opts_offset + 1);
    if negb (load_u8 p kind =? TCP_OPT_MSS) || negb (load_u8 p len =? 4) then None
    else
      b0 ← ptr_at 1 p (opts_offset + 2);
      b1 ← ptr_at 1 p (opts_offset + 3);
      Some (Z.lor (Z.shiftl (load_u8 p b0) 8) (load_u8 p b1)).

(** [false] is [Err(())]. *)
Definition compute_checksums (ip_mut tcp_mut ip_hdr_len tcp_hdr_len : nat) : BPF bool :=
  let* ip_sum := gets (fun s => bpf_csum_diff (slice ip_mut ip_hdr_len (packet s)) 0) in
  if ip_sum <? 0 then ret false
  else
    let* _ := packet_modify
      (update_IpHdr (fun h => h <| IpHdr.check := finalize_csum ip_sum |>) ip_mut) in
    let* h := gets (fun s => load_IpHdr (packet s) ip_mut) in
    match pseudo_sum (IpHdr.saddr h) (IpHdr.daddr h) (Z.of_nat tcp_hdr_len) with
    | None => ret false
    | Some pseudo_sum =>
        let* tcp_sum := gets (fun s =>
          bpf_csum_diff (slice tcp_mut tcp_hdr_len (packet s)) (wrap 32 pseudo_sum)) in
        if tcp_sum <? 0 then ret false
        else
          let* _ := packet_modify
            (update_TcpHdr (fun h => h <| TcpHdr.check := finalize_csum tcp_sum |>) tcp_mut) in
          ret true
    end.

(** The header fields of the SYN-ACK, in the order they are written. *)
Definition synack_ip (ip_hdr_len new_tcp_hdr_len : nat) (h : IpHdr.t) : IpHdr.t :=
  swap_ip h <| IpHdr.ttl := 64 |> <| IpHdr.check := 0 |>
    <| IpHdr.tot_len := bswap 2 (wrap 16 (Z.of_nat (ip_hdr_len + new_tcp_hdr_len))) |>.

Definition synack_tcp (new_tcp_hdr_len : nat) (cookie original_seq : Z) (h : TcpHdr.t) : TcpHdr.t :=
  let doff := wrap 16 (Z.shiftl (Z.of_nat new_tcp_hdr_len / 4) 12) in
  let flags := be_val [0x00; Z.lor TCP_FLAG_SYN TCP_FLAG_ACK] in
  swap_tcp h
    <| TcpHdr.seq := bswap 4 cookie |>
    <| TcpHdr.ack_seq := bswap 4 (wrapping_add 32 original_seq 1) |>
    <| TcpHdr.doff_flags := Z.lor doff flags |>
    <| TcpHdr.window := bswap 2 65535 |>
    <| TcpHdr.check := 0 |>.

(** The four bytes of the MSS option. *)
Definition mss_option (mss_idx : Z) : list Z :=
  let mss_val := from_option snd 0 (MSS_TABLE !! Z.to_nat mss_idx) in
  [TCP_OPT_MSS; 4; Z.shiftr mss_val 8; Z.land mss_val 0xff].

Definition send_synack (pc : PacketCtxRef.t) (original_tcp_hdr_len : nat)
    (mss_idx cookie original_seq : Z) : BPF bool :=
  let ip_hdr_len := PacketCtxRef.ip_hdr_len pc in
  let new_tcp_hdr_len := if (24 <=? original_tcp_hdr_len)%nat then 24%nat else 20%nat in
  let* shrunk :=
    if (new_tcp_hdr_len <? original_tcp_hdr_len)%nat then
      let shrink := Z.of_nat (original_tcp_hdr_len - new_tcp_hdr_len) in
      let* rc := adjust_tail (- shrink) in
      ret (negb (rc <? 0))
    else ret true in
  if negb shrunk then ret false
  else
    let* p := gets packet in
    match ptr_at_mut EthHdr.size p 0, ptr_at_mut IpHdr.size p ETH_HDR_LEN,
          ptr_at_mut TcpHdr.size p (ETH_HDR_LEN + ip_hdr_len) with
    | Some eth, Some ip_mut, Some tcp_mut =>
        let* _ := packet_modify (update_EthHdr swap_eth eth) in
        let* _ := packet_modify (update_IpHdr (synack_ip ip_hdr_len new_tcp_hdr_len) ip_mut) in
        let* _ := packet_modify (update_TcpHdr (synack_tcp new_tcp_hdr_len cookie original_seq) tcp_mut) in
        let* ok :=
          if (new_tcp_hdr_len =? 24)%nat then
            let* p := gets packet in
            match ptr_at_mut 24 p (ETH_HDR_LEN + ip_hdr_len) with
            | None => ret false
            | Some base =>
                let* _ := packet_modify (splice (base + 20) (mss_option mss_idx)) in
                ret true
            end
          else ret true in
        if negb ok then ret false
        else compute_checksums ip_mut tcp_mut ip_hdr_len new_tcp_hdr_len
    | _, _, _ => ret false
    end.

Definition syn_challenge (pc : PacketCtxRef.t) (ip tcp tcp_hdr_len : nat) : BPF Z :=
  let off := (ETH_HDR_LEN + PacketCtxRef.ip_hdr_len pc)%nat in
  let* p := gets packet in
  match ptr_at_mut EthHdr.size p 0, ptr_at_mut IpHdr.size p ETH_HDR_LEN,
        ptr_at_mut TcpHdr.size p off with
  | Some _, Some _, Some _ =>
      if (tcp_hdr_len =? 24)%nat && bool_decide (ptr_at_mut 24 p off = None) then ret NO_ACTION
      else
        let saddr := IpHdr.saddr (load_IpHdr p ip) in
        let daddr := IpHdr.daddr (load_IpHdr p ip) in
        let sport := bswap 2 (TcpHdr.source (load_TcpHdr p tcp)) in
        let dport := bswap 2 (TcpHdr.dest (load_TcpHdr p tcp)) in
        let original_seq := bswap 4 (TcpHdr.seq (load_TcpHdr p tcp)) in
        let mss_idx := from_option mss_to_idx 0 (parse_mss p off tcp_hdr_len) in
        let* secret := gets (fun s => array_get (COOKIE_SECRETS s) 0) in
        match secret with
        | None => ret XDP_PASS
        | Some secret =>
            let bucket := bucket_of (PacketCtxRef.now_ns pc) in
            let secret_bytes :=
              if bucket =? CookieSecret.bucket_index secret then CookieSecret.current secret
              else if bucket =? saturating_sub (CookieSecret.bucket_index secret) 1
                   then CookieSecret.previous secret
              else CookieSecret.current secret in
            let cookie := connection_cookie saddr daddr sport dport bucket secret_bytes mss_idx in
            let* ok := send_synack pc tcp_hdr_len mss_idx cookie original_seq in
            ret (if (ok : bool) then XDP_TX else XDP_DROP)
        end
  | _, _, _ => ret NO_ACTION
  end.

Definition handle_syn (pc : PacketCtxRef.t) (ip tcp : nat) : BPF Z :=
  let* p := gets packet in
  if negb (is_syn_flags (TcpHdr.flags (load_TcpHdr p tcp))) then ret NO_ACTION
  else
    let saddr := IpHdr.saddr (load_IpHdr p ip) in
    let* challenged := is_challenged_or_trigger saddr (PacketCtxRef.now_ns pc) in
    if negb challenged then ret NO_ACTION
    else if negb (PacketCtxRef.ip_hdr_len pc =? 20)%nat then ret XDP_DROP
    else
      let tcp_hdr_len := (Z.to_nat (TcpHdr.doff (load_TcpHdr p tcp)) * 4)%nat in
      if negb ((20 <=? tcp_hdr_len)%nat && (tcp_hdr_len <=? 60)%nat) then ret XDP_DROP
      else
        let ip_tot_len := Z.to_nat (bswap 2 (IpHdr.tot_len (load_IpHdr p ip))) in
        if negb (ip_tot_len =? PacketCtxRef.ip_hdr_len pc + tcp_hdr_len)%nat then ret XDP_DROP
        else syn_challenge pc ip tcp tcp_hdr_len.

(** The loop over the valid buckets, from [i] on: does some secret reproduce
    the cookie? *)
Fixpoint cookie_valid (secret : CookieSecret.t) (saddr daddr sport dport current_bucket expected
    mss_idx i : Z) (n : nat) : bool :=
  match n with
  | O => false
  | S n =>
      let bucket := saturating_sub current_bucket i in
      match secret_for secret bucket with
      | None => cookie_valid secret saddr daddr sport dport current_bucket expected mss_idx (i + 1) n
      | Some secret_bytes =>
          if connection_cookie saddr daddr sport dport bucket secret_bytes mss_idx =? expected
          then true
          else cookie_valid secret saddr daddr sport dport current_bucket expected mss_idx (i + 1) n
      end
  end.

Definition handle_ack (pc : PacketCtxRef.t) (ip tcp : nat) : BPF Z :=
  let* p := gets packet in
  let flags := TcpHdr.flags (load_TcpHdr p tcp) in
  if (Z.land flags TCP_FLAG_ACK =? 0) || negb (Z.land flags TCP_FLAG_SYN =? 0) then ret NO_ACTION
  else
    let saddr := IpHdr.saddr (load_IpHdr p ip) in
    let src_key := from_ipv4 (le_bytes 4 saddr) in
    let now_ns := PacketCtxRef.now_ns pc in
    let* ts := gets (fun s => lru_get (SYN_PROXY_CONN s) src_key) in
    match ts with
    | None => ret NO_ACTION
    | Some ts =>
        if negb (saturating_sub now_ns ts <? CHALLENGE_TIMEOUT_NS) then
          let* _ := SYN_PROXY_CONN_remove src_key in
          ret NO_ACTION
        else
          let ack_seq := bswap 4 (TcpHdr.ack_seq (load_TcpHdr p tcp)) in
          let expected := wrapping_sub 32 ack_seq 1 in
          let mss_idx := wrap 8 (Z.shiftr expected 30) in
          let* secret := gets (fun s => array_get (COOKIE_SECRETS s) 0) in
          match secret with
          | None => ret NO_ACTION
          | Some secret =>
              let daddr := IpHdr.daddr (load_IpHdr p ip) in
              let sport := bswap 2 (TcpHdr.source (load_TcpHdr p tcp)) in
              let dport := bswap 2 (TcpHdr.dest (load_TcpHdr p tcp)) in
              if cookie_valid secret saddr daddr sport dport (bucket_of now_ns) expected mss_idx 0
                   VALID_BUCKETS then
                let* _ := SYN_PROXY_CONN_remove src_key in
                ret XDP_PASS
              else ret NO_ACTION
          end
    end.

(** ** The secrets *)

(** [init_cookie_secrets] at monotonic second [now], with two random keys. *)
Definition init_cookie_secrets (now : Z) (key1 key2 : list Z) : CookieSecret.t :=
  CookieSecret.mk key1 key2 (now / 60).

(** One tick of [rotate_cookie_secrets]. *)
Definition rotate_cookie_secrets_inner (now : Z) (key : list Z) (secret : option CookieSecret.t)
    : option CookieSecret.t :=
  let bucket := now / 60 in
  let current := match secret with
                 | Some c => c
                 | None => CookieSecret.mk (replicate 16 0) (replicate 16 0) bucket
                 end in
  if bucket <=? CookieSecret.bucket_index current then secret
  else Some (CookieSecret.mk key (CookieSecret.current current) bucket).

(** ** Footprints *)
Lemma modifies_is_challenged saddr now :
  modifies [F_RATE_MAP; F_SYN_PROXY_CONN] (is_challenged_or_trigger saddr now).
Proof.
  assert (Hu : forall k n, modifies [F_RATE_MAP; F_SYN_PROXY_CONN] (update_rate_counter k n))
    by (intros; eapply modifies_weaken; [apply modifies_update_rate_counter|solve_fields]).
  unfold is_challenged_or_trigger. footprint.
Qed.

Lemma modifies_compute_checksums a b c d : modifies [F_packet] (compute_checksums a b c d).
Proof. unfold compute_checksums. footprint. Qed.

#[local] Hint Resolve modifies_compute_checksums : footprint.

Lemma modifies_send_synack pc a b c d : modifies [F_packet] (send_synack pc a b c d).
Proof. unfold send_synack. footprint. Qed.

#[local] Hint Resolve modifies_send_synack : footprint.

Lemma modifies_syn_challenge pc a b c : modifies [F_packet] (syn_challenge pc a b c).
Proof. unfold syn_challenge. footprint. Qed.

Lemma modifies_handle_syn pc ip tcp :
  modifies [F_RATE_MAP; F_SYN_PROXY_CONN; F_packet] (handle_syn pc ip tcp).
Proof.
  assert (Hc : forall a n, modifies [F_RATE_MAP; F_SYN_PROXY_CONN; F_packet] (is_challenged_or_trigger a n))
    by (intros; eapply modifies_weaken; [apply modifies_is_challenged|solve_fields]).
  assert (Hs : forall p a b c, modifies [F_RATE_MAP; F_SYN_PROXY_CONN; F_packet] (syn_challenge p a b c))
    by (intros; eapply modifies_weaken; [apply modifies_syn_challenge|solve_fields]).
  unfold handle_syn. footprint.
Qed.

Lemma modifies_handle_ack pc ip tcp : modifies [F_SYN_PROXY_CONN] (handle_ack pc ip tcp).
Proof. unfold handle_ack. footprint. Qed.
End SynCookie.

#[export] Hint Resolve modifies_handle_syn modifies_handle_ack : footprint.
#[global] Arguments handle_syn : simpl never.
#[global] Arguments handle_ack : simpl never.

(** ** Checksums of the SYN-ACK *)
Section SynAck.
Context {KN : Kernel} {KL : KernelLaws}.

Lemma compute_checksums_run s e i t rest n :
  EthHdr_fit e -> IpHdr_fit i -> TcpHdr_fit t -> bytes_ok rest ->
  (n <= length rest)%nat -> n = 0%nat \/ n = 4%nat ->
  packet s = hdrs e i t rest -> IpHdr.check i = 0 -> TcpHdr.check t = 0 ->
  exists ci ct, 0 < ci <= 65535 /\ 0 < ct <= 65535 /\
    checksum (IpHdr.encode (i <| IpHdr.check := ci |>)) = 0 /\
    checksum (pseudo_bytes (IpHdr.saddr i) (IpHdr.daddr i) (20 + Z.of_nat n)
              ++ TcpHdr.encode (t <| TcpHdr.check := ct |>) ++ take n rest) = 0 /\
    fst (compute_checksums 14 34 20 (20 + n) s) = true /\
    packet (snd (compute_checksums 14 34 20 (20 + n) s)) =
      hdrs e (i <| IpHdr.check := ci |>) (t <| TcpHdr.check := ct |>) rest.
Proof.
  intros He Hi Ht Hrest Hn Hn4 Hp Hci Hct. unfold compute_checksums, bind, gets, packet_modify, modify.
  assert (Hb : bytes_ok (TcpHdr.encode t ++ take n rest))
    by (apply bytes_ok_app; split; [apply put_fields_ok|by apply Forall_take]).
  assert (Hlb : length (TcpHdr.encode t ++ take n rest) = (20 + n)%nat)
    by (rewrite length_app, length_TcpHdr_encode, length_take by done; lia).
  rewrite Hp, ip_bytes_hdrs by done.
  destruct (csum_diff_bytes (IpHdr.encode i) 0) as [Hs1 [k1 E1]];
    [apply put_fields_ok|by exists 5%nat; rewrite length_IpHdr_encode
    |rewrite length_IpHdr_encode by done; lia|lia|].
  set (s1 := bpf_csum_diff (IpHdr.encode i) 0) in *. destruct (Z.ltb_spec s1 0); [lia|].
  destruct (finalize_csum_spec s1 Hs1) as [Hf1 Hm1]. set (ci := finalize_csum s1) in *. cbn [packet].
  assert (Hi' : IpHdr_fit (i <| IpHdr.check := ci |>))
    by (revert Hi; unfold IpHdr_fit; cbn -[Z.pow]; intuition lia).
  set (s2 := s <| packet ::= _ |>).
  assert (Hp2 : packet s2 = hdrs e (i <| IpHdr.check := ci |>) t rest).
  { unfold s2. cbn [packet setter]. rewrite Hp. by apply update_Ip_hdrs. }
  rewrite Hp2, load_Ip_hdrs by done. cbn [IpHdr.saddr IpHdr.daddr setter].
  destruct (pseudo_sum_spec (IpHdr.saddr i) (IpHdr.daddr i) (Z.of_nat (20 + n)) ltac:(lia))
    as (ps&kp&Eps&Hps&Ep).
  rewrite Eps. cbv beta iota. rewrite ?Hp2, tcp_opt_bytes_hdrs, wrap_small by done.
  destruct (csum_diff_bytes (TcpHdr.encode t ++ take n rest) ps) as [Hs3 [k3 E3]];
    [done|rewrite Hlb; destruct Hn4 as [-> | ->]; [by exists 5%nat|by exists 6%nat]|lia|lia|].
  set (s3 := bpf_csum_diff (TcpHdr.encode t ++ take n rest) ps) in *. destruct (Z.ltb_spec s3 0); [lia|].
  destruct (finalize_csum_spec s3 Hs3) as [Hf3 Hm3]. set (ct := finalize_csum s3) in *.
  exists ci, ct. split; [lia|]. split; [lia|]. split_and!.
  - apply ip_checksum_verifies; try done. rewrite <- Hm1, <- (Z.mod_add (s1 + ci) k1) by lia. f_equal. lia.
  - replace (Z.of_nat (20 + n)) with (20 + Z.of_nat n) in Ep by lia.
    apply tcp_checksum_verifies; try done.
    + unfold pseudo_bytes. rewrite !bytes_ok_app. split_and!; [apply le_bytes_ok..|].
      repeat constructor; unfold is_byte, IPPROTO_TCP; lia.
    + by apply Forall_take.
    + by exists 6%nat.
    + rewrite length_take. unfold pseudo_bytes. rewrite !length_app, !length_le_bytes. cbn [length]. lia.
    + rewrite <- Hm3, <- (Z.mod_add (s3 + ct) (kp + k3)) by lia. f_equal. lia.
  - done.
  - unfold ret. cbn [snd fst packet setter]. fold s2.
    replace (packet s2) with (hdrs e (i <| IpHdr.check := ci |>) t rest).
    apply update_Tcp_hdrs; try done. revert Ht. unfold TcpHdr_fit. cbn -[Z.pow]. intuition lia.
Qed.

Lemma mss_option_ok idx : 0 <= idx < 3 -> length (mss_option idx) = 4%nat /\ bytes_ok (mss_option idx).
Proof.
  intros Hi. assert (idx = 0 \/ idx = 1 \/ idx = 2) as [-> |[-> | ->]] by lia;
    (split; [done|]; repeat constructor; vm_compute; (done || congruence)).
Qed.

Lemma parse_mss_idx p off len : 0 <= from_option mss_to_idx 0 (parse_mss p off len) < 3.
Proof.
  destruct (parse_mss p off len) as [m|]; cbn; [|lia]. unfold mss_to_idx. repeat case_match; lia.
Qed.

Lemma synack_ip_fit n m i : IpHdr_fit i -> IpHdr_fit (synack_ip n m i).
Proof.
  intros Hi. pose proof (bswap_range 2 (wrap 16 (Z.of_nat (n + m)))) as Hr.
  revert Hi Hr. unfold IpHdr_fit. cbn -[Z.pow bswap wrap Nat.add Z.of_nat]. intuition lia.
Qed.

Lemma synack_tcp_fit n cookie seq t :
  n = 20%nat \/ n = 24%nat -> TcpHdr_fit t -> TcpHdr_fit (synack_tcp n cookie seq t).
Proof.
  intros Hn Ht. pose proof (bswap_range 4 cookie) as Hr1.
  pose proof (bswap_range 4 (wrapping_add 32 seq 1)) as Hr2. pose proof (bswap_range 2 65535) as Hr3.
  assert (Hr4 : 0 <= Z.lor (wrap 16 (Z.shiftl (Z.of_nat n / 4) 12)) (be_val [0x00; Z.lor TCP_FLAG_SYN TCP_FLAG_ACK]) < 65536)
    by (destruct Hn as [-> | ->]; vm_compute; split; congruence).
  revert Ht Hr1 Hr2 Hr3 Hr4. unfold TcpHdr_fit, synack_tcp.
  cbn -[Z.pow bswap wrap Z.lor be_val wrapping_add Z.of_nat Z.div]. intuition lia.
Qed.

(** A successful shrink leaves a prefix of the frame. *)
Lemma adjust_tail_prefix p delta rc p' :
  bpf_xdp_adjust_tail p delta = (rc, p') -> delta <= 0 -> bytes_ok p ->
  p' = take (length p') p /\ bytes_ok p'.
Proof.
  intros Ha Hd Hb. destruct (adjust_tail_spec _ _ _ _ Ha) as [(_&Hl&Hok&Ht)|[_ ->]].
  - cbv zeta in Ht. rewrite Nat.min_r in Ht by lia. rewrite (take_ge p') in Ht by lia. auto.
  - by rewrite firstn_all.
Qed.

(** What [send_synack] leaves in the frame when it succeeds. *)
Definition synack_frame (p : frame) (new : nat) (idx cookie seq : Z) (q : frame) : Prop :=
  let i := synack_ip 20 new (load_IpHdr p 14) in
  let t := synack_tcp new cookie seq (load_TcpHdr p 34) in
  exists rest ci ct,
    0 < ci <= 65535 /\ 0 < ct <= 65535 /\
    q = hdrs (swap_eth (load_EthHdr p 0)) (i <| IpHdr.check := ci |>) (t <| TcpHdr.check := ct |>) rest /\
    EthHdr_fit (swap_eth (load_EthHdr p 0)) /\ IpHdr_fit (i <| IpHdr.check := ci |>) /\
    TcpHdr_fit (t <| TcpHdr.check := ct |>) /\ (new - 20 <= length rest)%nat /\
    (new = 24%nat -> take 4 rest = mss_option idx) /\
    checksum (IpHdr.encode (i <| IpHdr.check := ci |>)) = 0 /\
    checksum (pseudo_bytes (IpHdr.saddr i) (IpHdr.daddr i) (Z.of_nat new)
              ++ TcpHdr.encode (t <| TcpHdr.check := ct |>) ++ take (new - 20) rest) = 0.

(** The stage after the shrink, on the frame [p1]. *)
Lemma send_synack_headers s p p1 new idx cookie seq :
  let m2 :=
    let* ok :=
      if (new =? 24)%nat then
        let* p := gets packet in
        match ptr_at_mut 24 p 34 with
        | None => ret false
        | Some base =>
            let* _ := packet_modify (splice (base + 20) (mss_option idx)) in
            ret true
        end
      else ret true in
    if negb ok then ret false else compute_checksums 14 34 20 new in
  let m :=
    let* _ := packet_modify (update_EthHdr swap_eth 0) in
    let* _ := packet_modify (update_IpHdr (synack_ip 20 new) 14) in
    let* _ := packet_modify (update_TcpHdr (synack_tcp new cookie seq) 34) in
    m2 in
  bytes_ok p -> packet s = p1 -> p1 = take (length p1) p -> bytes_ok p1 -> (54 <= length p1)%nat ->
  new = 20%nat \/ new = 24%nat -> 0 <= idx < 3 ->
  fst (m s) = true -> synack_frame p new idx cookie seq (packet (snd (m s))).
Proof.
  intros m2 m Hb Hp1 Hpre Hb1 Hl1 Hnew Hidx.
  destruct (frame_hdrs p1 Hb1 Hl1) as (Hf&He&Hi&Ht).
  assert (Ee : load_EthHdr p1 0 = load_EthHdr p 0)
    by (unfold load_EthHdr; by rewrite Hpre, slice_take by (unfold EthHdr.size; lia)).
  assert (Ei : load_IpHdr p1 14 = load_IpHdr p 14)
    by (unfold load_IpHdr; by rewrite Hpre, slice_take by (unfold IpHdr.size; lia)).
  assert (Et : load_TcpHdr p1 34 = load_TcpHdr p 34)
    by (unfold load_TcpHdr; by rewrite Hpre, slice_take by (unfold TcpHdr.size; lia)).
  rewrite Ee in He. rewrite Ei in Hi. rewrite Et in Ht. rewrite Ee, Ei, Et in Hf.
  assert (Hrest : bytes_ok (drop 54 p1)) by (by apply Forall_drop).
  set (rest := drop 54 p1) in *. clearbody rest.
  set (e := swap_eth (load_EthHdr p 0)). set (i := synack_ip 20 new (load_IpHdr p 14)).
  set (t := synack_tcp new cookie seq (load_TcpHdr p 34)).
  assert (He1 : EthHdr_fit e) by (revert He; unfold EthHdr_fit; cbn; tauto).
  assert (Hi1 : IpHdr_fit i) by (by apply synack_ip_fit).
  assert (Ht1 : TcpHdr_fit t) by (by apply synack_tcp_fit).
  unfold m. unfold bind, packet_modify, modify.
  set (s1 := s <| packet ::= _ |> <| packet ::= _ |> <| packet ::= _ |>).
  assert (Hs1 : packet s1 = hdrs e i t rest).
  { unfold s1. cbn [packet setter]. rewrite Hp1, Hf.
    by rewrite update_Eth_hdrs, update_Ip_hdrs, update_Tcp_hdrs by done. }
  clearbody s1.
  assert (Hfin : forall s2 rest2, packet s2 = hdrs e i t rest2 -> bytes_ok rest2 ->
    (new - 20 <= length rest2)%nat -> (new = 24%nat -> take 4 rest2 = mss_option idx) ->
    synack_frame p new idx cookie seq (packet (snd (compute_checksums 14 34 20 new s2)))).
  { intros s2 rest2 Hs2 Hr2 Hlr Hopt.
    destruct (compute_checksums_run s2 e i t rest2 (new - 20)) as (ci&ct&Hci&Hct&Hki&Hkt&_&Hq);
      try done; [lia|].
    replace (20 + (new - 20))%nat with new in Hq by lia.
    replace (20 + Z.of_nat (new - 20)) with (Z.of_nat new) in Hkt by lia.
    exists rest2, ci, ct. fold e i t. split_and!; try done; try lia.
    - revert Hi1. unfold IpHdr_fit. cbn -[Z.pow bswap wrap Nat.add Z.of_nat]. intuition lia.
    - revert Ht1. unfold TcpHdr_fit. generalize t. intros t0. cbn -[Z.pow]. intuition lia. }
  destruct Hnew as [-> | ->]; cbn [Nat.eqb].
  - unfold m2, bind, ret. cbn [negb Nat.eqb]. intros _. apply (Hfin s1 rest); try done. lia.
  - unfold m2, bind, gets. cbn [Nat.eqb]. rewrite Hs1. destruct (ptr_at_mut 24 (hdrs e i t rest) 34) as [base|] eqn:Eb; [|done].
    unfold ptr_at_mut in Eb. rewrite length_hdrs in Eb by done.
    destruct (Nat.ltb_spec (54 + length rest) (34 + 24)); [done|]. injection Eb as <-.
    unfold packet_modify, modify, ret. cbn [negb]. intros _.
    destruct (mss_option_ok idx Hidx) as [Ho1 Ho2].
    apply (Hfin _ (mss_option idx ++ drop 4 rest)).
    + cbn [packet setter]. rewrite Hs1. change (34 + 20)%nat with 54%nat.
      rewrite splice_rest_hdrs by (done || lia). by rewrite Ho1.
    + apply bytes_ok_app. split; [done|by apply Forall_drop].
    + rewrite length_app, Ho1. lia.
    + intros _. rewrite <- Ho1 at 1. apply take_app_length.
Qed.

Lemma send_synack_run pc L idx cookie seq s :
  PacketCtxRef.ip_hdr_len pc = 20%nat -> bytes_ok (packet s) -> 0 <= idx < 3 ->
  fst (send_synack pc L idx cookie seq s) = true ->
  synack_frame (packet s) (if (24 <=? L)%nat then 24%nat else 20%nat) idx cookie seq
    (packet (snd (send_synack pc L idx cookie seq s))).
Proof.
  intros Hpc Hb Hidx. unfold send_synack. rewrite Hpc.
  set (new := if (24 <=? L)%nat then 24%nat else 20%nat).
  assert (Hnew : new = 20%nat \/ new = 24%nat) by (unfold new; case_match; auto).
  assert (Hshrink : exists b s1,
    (if (new <? L)%nat then
       let* rc := adjust_tail (- Z.of_nat (L - new)) in ret (negb (rc <? 0)) else ret true) s = (b, s1)
    /\ packet s1 = take (length (packet s1)) (packet s) /\ bytes_ok (packet s1)).
  { destruct (new <? L)%nat.
    - unfold bind, adjust_tail. destruct (bpf_xdp_adjust_tail (packet s) _) as [rc p'] eqn:Ha.
      destruct (adjust_tail_prefix _ _ _ _ Ha ltac:(lia) Hb). by eexists _, _.
    - exists true, s. by rewrite firstn_all. }
  destruct Hshrink as (b&s1&Es&Hpre&Hb1). cbv zeta. rewrite (bind_run _ _ _ _ _ Es). clear Es.
  destruct b; cbn [negb]; [|done]. rewrite bind_gets.
  change ETH_HDR_LEN with 14%nat. change (14 + 20)%nat with 34%nat.
  destruct (ptr_at_mut EthHdr.size (packet s1) 0) as [eth|] eqn:E1; [|done].
  destruct (ptr_at_mut IpHdr.size (packet s1) 14) as [ip|] eqn:E2; [|done].
  destruct (ptr_at_mut TcpHdr.size (packet s1) 34) as [tcp|] eqn:E3; [|done].
  apply ptr_at_Some in E1 as [-> _], E2 as [-> _], E3 as [-> Hl1].
  by apply (send_synack_headers s1 (packet s) (packet s1) new idx cookie seq).
Qed.

(** The cookie a challenge of the segment in [p] carries. *)
Definition challenge_key (secret : CookieSecret.t) (bucket : Z) : list Z :=
  match secret_for secret bucket with
  | Some key => key
  | None => CookieSecret.current secret
  end.

Definition challenge_cookie (p : frame) (secret : CookieSecret.t) (bucket : Z) (idx : Z) : Z :=
  let i := load_IpHdr p 14 in
  let t := load_TcpHdr p 34 in
  connection_cookie (IpHdr.saddr i) (IpHdr.daddr i) (bswap 2 (TcpHdr.source t))
    (bswap 2 (TcpHdr.dest t)) bucket (challenge_key secret bucket) idx.

Lemma syn_challenge_run pc L s :
  PacketCtxRef.ip_hdr_len pc = 20%nat -> bytes_ok (packet s) ->
  fst (syn_challenge pc 14 34 L s) = XDP_TX ->
  let p := packet s in
  let idx := from_option mss_to_idx 0 (parse_mss p 34 L) in
  exists secret, array_get (COOKIE_SECRETS s) 0 = Some secret /\
  synack_frame p (if (24 <=? L)%nat then 24%nat else 20%nat) idx
    (challenge_cookie p secret (bucket_of (PacketCtxRef.now_ns pc)) idx)
    (bswap 4 (TcpHdr.seq (load_TcpHdr p 34))) (packet (snd (syn_challenge pc 14 34 L s))).
Proof.
  intros Hpc Hb. cbv zeta. unfold syn_challenge. rewrite Hpc. cbv zeta. rewrite bind_gets.
  change ETH_HDR_LEN with 14%nat. change (14 + 20)%nat with 34%nat.
  destruct (ptr_at_mut EthHdr.size (packet s) 0); [|done].
  destruct (ptr_at_mut IpHdr.size (packet s) 14); [|done].
  destruct (ptr_at_mut TcpHdr.size (packet s) 34); [|done].
  destruct (_ && _); [done|]. rewrite bind_gets.
  destruct (array_get (COOKIE_SECRETS s) 0) as [secret|]; [|done].
  set (idx := from_option mss_to_idx 0 _).
  assert (Hidx : 0 <= idx < 3) by apply parse_mss_idx.
  change (connection_cookie _ _ _ _ _ _ idx) with
    (connection_cookie (IpHdr.saddr (load_IpHdr (packet s) 14)) (IpHdr.daddr (load_IpHdr (packet s) 14))
       (bswap 2 (TcpHdr.source (load_TcpHdr (packet s) 34)))
       (bswap 2 (TcpHdr.dest (load_TcpHdr (packet s) 34))) (bucket_of (PacketCtxRef.now_ns pc))
       (if bucket_of (PacketCtxRef.now_ns pc) =? CookieSecret.bucket_index secret
        then CookieSecret.current secret
        else if bucket_of (PacketCtxRef.now_ns pc) =? saturating_sub (CookieSecret.bucket_index secret) 1
             then CookieSecret.previous secret else CookieSecret.current secret) idx).
  assert (Hkey : (if bucket_of (PacketCtxRef.now_ns pc) =? CookieSecret.bucket_index secret
        then CookieSecret.current secret
        else if bucket_of (PacketCtxRef.now_ns pc) =? saturating_sub (CookieSecret.bucket_index secret) 1
             then CookieSecret.previous secret else CookieSecret.current secret)
        = challenge_key secret (bucket_of (PacketCtxRef.now_ns pc)))
    by (unfold challenge_key, secret_for; by repeat case_match).
  rewrite Hkey. fold (challenge_cookie (packet s) secret (bucket_of (PacketCtxRef.now_ns pc)) idx).
  set (cookie := challenge_cookie _ _ _ _). set (seq := bswap 4 _).
  pose proof (send_synack_run pc L idx cookie seq s Hpc Hb Hidx) as Hrun. unfold bind.
  destruct (send_synack pc L idx cookie seq s) as [b s1]. cbn [fst snd ret] in *.
  destruct b; [|done]. intros _. exists secret. split; [done|]. by apply Hrun.
Qed.

(** the challenge frame.  When a SYN is answered by a challenge, the frame
    goes back to its sender: MAC addresses, IP addresses and ports are swapped,
    the TTL is 64, the total length covers a 20-byte IPv4 header and the new
    TCP header (24 bytes with an MSS option when the client sent options, 20
    otherwise), the sequence number is the cookie of the connection and the
    acknowledgement number the client's sequence number plus one, and both
    checksums verify. *)
Theorem syn_challenge_frame pc L s :
  PacketCtxRef.ip_hdr_len pc = 20%nat -> bytes_ok (packet s) ->
  fst (syn_challenge pc 14 34 L s) = XDP_TX ->
  let p := packet s in
  let q := packet (snd (syn_challenge pc 14 34 L s)) in
  let new := if (24 <=? L)%nat then 24%nat else 20%nat in
  let idx := from_option mss_to_idx 0 (parse_mss p 34 L) in
  exists secret, array_get (COOKIE_SECRETS s) 0 = Some secret /\
  EthHdr.dst (load_EthHdr q 0) = EthHdr.src (load_EthHdr p 0) /\
  EthHdr.src (load_EthHdr q 0) = EthHdr.dst (load_EthHdr p 0) /\
  IpHdr.saddr (load_IpHdr q 14) = IpHdr.daddr (load_IpHdr p 14) /\
  IpHdr.daddr (load_IpHdr q 14) = IpHdr.saddr (load_IpHdr p 14) /\
  IpHdr.ttl (load_IpHdr q 14) = 64 /\
  bswap 2 (IpHdr.tot_len (load_IpHdr q 14)) = 20 + Z.of_nat new /\
  TcpHdr.source (load_TcpHdr q 34) = TcpHdr.dest (load_TcpHdr p 34) /\
  TcpHdr.dest (load_TcpHdr q 34) = TcpHdr.source (load_TcpHdr p 34) /\
  bswap 4 (TcpHdr.seq (load_TcpHdr q 34)) =
    challenge_cookie p secret (bucket_of (PacketCtxRef.now_ns pc)) idx /\
  bswap 4 (TcpHdr.ack_seq (load_TcpHdr q 34)) =
    wrapping_add 32 (bswap 4 (TcpHdr.seq (load_TcpHdr p 34))) 1 /\
  (new = 24%nat -> slice 54 4 q = mss_option idx) /\
  checksum (slice 14 20 q) = 0 /\
  checksum (pseudo_bytes (IpHdr.saddr (load_IpHdr q 14)) (IpHdr.daddr (load_IpHdr q 14)) (Z.of_nat new)
            ++ slice 34 new q) = 0.
Proof.
  intros Hpc Hb Htx. cbv zeta.
  destruct (syn_challenge_run pc L s Hpc Hb Htx) as (secret&Hsec&rest&ci&ct&Hci&Hct&Hq&He&Hi&Ht&Hl&Hopt&Hki&Hkt).
  exists secret. split; [done|]. rewrite Hq. clear Hq.
  set (new := if (24 <=? L)%nat then 24%nat else 20%nat) in *.
  assert (Hnew : new = 20%nat \/ new = 24%nat) by (unfold new; case_match; auto). clearbody new.
  replace (slice 34 new _) with
    (TcpHdr.encode (synack_tcp new (challenge_cookie (packet s) secret (bucket_of (PacketCtxRef.now_ns pc))
        (from_option mss_to_idx 0 (parse_mss (packet s) 34 L)))
        (bswap 4 (TcpHdr.seq (load_TcpHdr (packet s) 34))) (load_TcpHdr (packet s) 34)
      <| TcpHdr.check := ct |>) ++ take (new - 20) rest).
  2: { rewrite <- (tcp_opt_bytes_hdrs _ _ _ rest He Hi Ht) by done. f_equal. lia. }
  rewrite load_Eth_hdrs, load_Ip_hdrs, load_Tcp_hdrs, ip_bytes_hdrs by done.
  split_and!; try done.
  - cbn -[bswap wrap Z.of_nat Nat.add]. rewrite bswap_involutive; [destruct Hnew as [-> | ->]; done|].
    by apply wrap_range.
  - cbn -[bswap]. apply bswap_involutive. apply build_cookie_words_range.
  - cbn -[bswap wrapping_add]. apply bswap_involutive. by apply wrap_range.
  - intros Hn. rewrite <- Hopt by done. unfold hdrs.
    replace (EthHdr.encode _ ++ _ ++ _ ++ rest) with
      ((EthHdr.encode (swap_eth (load_EthHdr (packet s) 0)) ++
        IpHdr.encode (synack_ip 20 new (load_IpHdr (packet s) 14) <| IpHdr.check := ci |>) ++
        TcpHdr.encode (synack_tcp new (challenge_cookie (packet s) secret
          (bucket_of (PacketCtxRef.now_ns pc)) (from_option mss_to_idx 0 (parse_mss (packet s) 34 L)))
          (bswap 4 (TcpHdr.seq (load_TcpHdr (packet s) 34))) (load_TcpHdr (packet s) 34)
          <| TcpHdr.check := ct |>)) ++ take 4 rest ++ drop 4 rest)
      by (by rewrite take_drop, <- !app_assoc).
    apply slice_app_at.
    + by rewrite !length_app, length_EthHdr_encode, length_IpHdr_encode, length_TcpHdr_encode.
    + rewrite length_take. lia.
Qed.
End SynAck.
