(* ===== verification/CookieProtocol.v ===== *)
(** * CookieProtocol: the challenge and its answer

    The two halves of [SynCookie] put together: which ACKs end a challenge,
    that the cookie of a challenge is accepted while its secret is known, what
    a rotation of the secrets keeps, and what a challenged source can get past
    the gate. *)
From S2P Require Import Prelude Words Common Pure Parser Maps Wire Footprint Trust RateCounter TcpReset SynCookie.
#[local] Open Scope Z_scope.

Section Protocol.
Context {KN : Kernel} {KL : KernelLaws}.

Lemma secret_for_key secret bucket key :
  secret_for secret bucket = Some key -> challenge_key secret bucket = key.
Proof. unfold challenge_key. by intros ->. Qed.

(** ** Accepting an ACK *)
Lemma cookie_valid_spec secret saddr daddr sport dport current expected idx n i :
  cookie_valid secret saddr daddr sport dport current expected idx i n = true <->
  exists j key, i <= j < i + Z.of_nat n /\
    secret_for secret (saturating_sub current j) = Some key /\
    connection_cookie saddr daddr sport dport (saturating_sub current j) key idx = expected.
Proof.
  revert i. induction n as [|n IH]; intros i; cbn [cookie_valid].
  { split; [done|]. intros (j&key&?&_). lia. }
  assert (Hstep : (forall key, secret_for secret (saturating_sub current i) = Some key ->
      connection_cookie saddr daddr sport dport (saturating_sub current i) key idx <> expected) ->
    cookie_valid secret saddr daddr sport dport current expected idx (i + 1) n = true <->
    exists j key, i <= j < i + Z.of_nat (S n) /\
      secret_for secret (saturating_sub current j) = Some key /\
      connection_cookie saddr daddr sport dport (saturating_sub current j) key idx = expected).
  { intros Hno. rewrite IH. split; intros (j&key&Hj&Hk&Hc); exists j, key.
    - split; [lia|done].
    - split; [|done]. destruct (decide (j = i)) as [->|]; [by destruct (Hno key Hk)|lia]. }
  destruct (secret_for secret (saturating_sub current i)) as [key|] eqn:Hk; [|by apply Hstep].
  destruct (Z.eqb_spec (connection_cookie saddr daddr sport dport (saturating_sub current i) key idx) expected)
    as [Hc|Hc].
  - split; [|done]. intros _. exists i, key. split; [lia|done].
  - apply Hstep. by intros ? [= <-].
Qed.

(** The segment at [packet] is an ACK without SYN. *)
Definition is_ack (s : KState) (tcp : nat) : Prop :=
  let flags := TcpHdr.flags (load_TcpHdr (packet s) tcp) in
  Z.land flags TCP_FLAG_ACK <> 0 /\ Z.land flags TCP_FLAG_SYN = 0.

(** The source of the packet, as the maps have it. *)
Definition source_key (s : KState) (ip : nat) : IpKey.t :=
  from_ipv4 (le_bytes 4 (IpHdr.saddr (load_IpHdr (packet s) ip))).

(** It is an ACK of a source that has been in challenge mode for less than the
    timeout. *)
Definition challenged_ack (s : KState) (pc : PacketCtxRef.t) (ip tcp : nat) : Prop :=
  let flags := TcpHdr.flags (load_TcpHdr (packet s) tcp) in
  Z.land flags TCP_FLAG_ACK <> 0 /\ Z.land flags TCP_FLAG_SYN = 0 /\
  exists ts, lru_get (SYN_PROXY_CONN s) (source_key s ip) = Some ts /\
    saturating_sub (PacketCtxRef.now_ns pc) ts < CHALLENGE_TIMEOUT_NS.

(** The acknowledgement returns the cookie of a bucket still valid. *)
Definition returns_cookie (s : KState) (secret : CookieSecret.t) (pc : PacketCtxRef.t) (ip tcp : nat)
    : Prop :=
  let i := load_IpHdr (packet s) ip in
  let t := load_TcpHdr (packet s) tcp in
  let expected := wrapping_sub 32 (bswap 4 (TcpHdr.ack_seq t)) 1 in
  exists j key, 0 <= j < 2 /\
    let bucket := saturating_sub (bucket_of (PacketCtxRef.now_ns pc)) j in
    secret_for secret bucket = Some key /\
    connection_cookie (IpHdr.saddr i) (IpHdr.daddr i) (bswap 2 (TcpHdr.source t))
      (bswap 2 (TcpHdr.dest t)) bucket key (wrap 8 (Z.shiftr expected 30)) = expected.

Lemma handle_ack_run s pc ip tcp secret :
  challenged_ack s pc ip tcp -> array_get (COOKIE_SECRETS s) 0 = Some secret ->
  let src := from_ipv4 (le_bytes 4 (IpHdr.saddr (load_IpHdr (packet s) ip))) in
  (returns_cookie s secret pc ip tcp ->
     handle_ack pc ip tcp s = (XDP_PASS, s <| SYN_PROXY_CONN ::= fun m => lru_remove m src |>)) /\
  (~ returns_cookie s secret pc ip tcp -> handle_ack pc ip tcp s = (NO_ACTION, s)).
Proof.
  intros (Hack&Hsyn&ts&Hts&Hfresh) Hsec. unfold source_key in Hts. cbv zeta. unfold handle_ack.
  rewrite bind_gets. cbv zeta. apply Z.eqb_neq in Hack. apply Z.eqb_eq in Hsyn.
  rewrite Hack, Hsyn. cbn [orb negb]. rewrite bind_gets, Hts. apply Z.ltb_lt in Hfresh. rewrite Hfresh.
  cbn [negb]. rewrite bind_gets, Hsec.
  set (i := load_IpHdr (packet s) ip). set (t := load_TcpHdr (packet s) tcp).
  set (expected := wrapping_sub 32 (bswap 4 (TcpHdr.ack_seq t)) 1).
  pose proof (cookie_valid_spec secret (IpHdr.saddr i) (IpHdr.daddr i) (bswap 2 (TcpHdr.source t))
    (bswap 2 (TcpHdr.dest t)) (bucket_of (PacketCtxRef.now_ns pc)) expected (wrap 8 (Z.shiftr expected 30))
    VALID_BUCKETS 0) as Hv.
  change (0 + Z.of_nat VALID_BUCKETS) with 2 in Hv.
  destruct (cookie_valid _ _ _ _ _ _ _ _ _ _) eqn:E.
  - split; [done|]. intros Hn. destruct Hn. by apply Hv.
  - split; [|done]. intros H. by apply Hv in H.
Qed.

Lemma handle_ack_late s pc ip tcp since :
  is_ack s tcp -> lru_get (SYN_PROXY_CONN s) (source_key s ip) = Some since ->
  (saturating_sub (PacketCtxRef.now_ns pc) since <? CHALLENGE_TIMEOUT_NS) = false ->
  handle_ack pc ip tcp s = (NO_ACTION, s <| SYN_PROXY_CONN ::= fun m => lru_remove m (source_key s ip) |>).
Proof.
  intros [Hack%Z.eqb_neq Hsyn%Z.eqb_eq] Hin Hlate. unfold handle_ack. rewrite bind_gets. cbv zeta.
  rewrite Hack, Hsyn. cbn [orb negb]. rewrite bind_gets. unfold source_key in Hin. by rewrite Hin, Hlate.
Qed.

(** which ACKs end a challenge.  For an ACK of a source in challenge mode
    the answer is "pass" and the source leaves challenge mode exactly when the
    acknowledgement number minus one is the cookie of the current or the
    previous time bucket under a secret still in the table; otherwise nothing
    changes and later modules decide. *)
Theorem handle_ack_spec s pc ip tcp secret :
  challenged_ack s pc ip tcp -> array_get (COOKIE_SECRETS s) 0 = Some secret ->
  let src := from_ipv4 (le_bytes 4 (IpHdr.saddr (load_IpHdr (packet s) ip))) in
  (returns_cookie s secret pc ip tcp /\ fst (handle_ack pc ip tcp s) = XDP_PASS /\
     lru_get (SYN_PROXY_CONN (snd (handle_ack pc ip tcp s))) src = None) \/
  (~ returns_cookie s secret pc ip tcp /\ handle_ack pc ip tcp s = (NO_ACTION, s)).
Proof.
  intros Hc Hsec. destruct (handle_ack_run s pc ip tcp secret Hc Hsec) as [H1 H2].
  assert (Hdec : returns_cookie s secret pc ip tcp \/ ~ returns_cookie s secret pc ip tcp).
  { unfold returns_cookie. set (i := load_IpHdr (packet s) ip). set (t := load_TcpHdr (packet s) tcp).
    cbv zeta. set (expected := wrapping_sub 32 _ 1).
    pose proof (cookie_valid_spec secret (IpHdr.saddr i) (IpHdr.daddr i) (bswap 2 (TcpHdr.source t))
      (bswap 2 (TcpHdr.dest t)) (bucket_of (PacketCtxRef.now_ns pc)) expected (wrap 8 (Z.shiftr expected 30))
      VALID_BUCKETS 0) as Hv.
    change (0 + Z.of_nat VALID_BUCKETS) with 2 in Hv. rewrite <- Hv. by destruct (cookie_valid _ _ _ _ _ _ _ _ _ _); auto. }
  destruct Hdec as [Hr|Hr]; [left|right; auto]. rewrite (H1 Hr). split_and!; try done.
  cbn. apply lru_get_remove_eq.
Qed.

(** ** Round trip *)
Lemma connection_cookie_idx saddr daddr sport dport bucket key idx :
  0 <= idx < 4 ->
  0 <= connection_cookie saddr daddr sport dport bucket key idx < 2 ^ 32 /\
  wrap 8 (Z.shiftr (connection_cookie saddr daddr sport dport bucket key idx) 30) = idx.
Proof.
  intros Hi. unfold connection_cookie, build_cookie_runtime. cbv zeta. split; [apply build_cookie_words_range|].
  rewrite build_cookie_words_layout by done. by apply wrap_small; lia.
Qed.

(** C9: round trip of the challenge.  If a SYN was answered by a challenge, and
    within the same or the next time bucket its sender, which is recorded as
    challenged since [since], returns the challenge's sequence number plus one from
    the same addresses and ports while the bucket's secret is still in the table,
    then the ACK passes if the sender was recorded less than 30 seconds ago, and is
    left to the later modules, its cookie unread, if it was recorded earlier; either
    way the source leaves challenge mode. *)
Theorem cookie_roundtrip pc0 L s0 secret0 pc1 s1 secret1 key since :
  (* the challenge *)
  PacketCtxRef.ip_hdr_len pc0 = 20%nat -> bytes_ok (packet s0) ->
  fst (syn_challenge pc0 14 34 L s0) = XDP_TX ->
  array_get (COOKIE_SECRETS s0) 0 = Some secret0 ->
  let b := bucket_of (PacketCtxRef.now_ns pc0) in
  let synack := packet (snd (syn_challenge pc0 14 34 L s0)) in
  secret_for secret0 b = Some key ->
  (* the answer *)
  is_ack s1 34 -> lru_get (SYN_PROXY_CONN s1) (source_key s1 14) = Some since ->
  array_get (COOKIE_SECRETS s1) 0 = Some secret1 -> secret_for secret1 b = Some key ->
  0 <= b -> (bucket_of (PacketCtxRef.now_ns pc1) = b \/ bucket_of (PacketCtxRef.now_ns pc1) = b + 1) ->
  let i := load_IpHdr (packet s1) 14 in
  let t := load_TcpHdr (packet s1) 34 in
  IpHdr.saddr i = IpHdr.daddr (load_IpHdr synack 14) -> IpHdr.daddr i = IpHdr.saddr (load_IpHdr synack 14) ->
  TcpHdr.source t = TcpHdr.dest (load_TcpHdr synack 34) -> TcpHdr.dest t = TcpHdr.source (load_TcpHdr synack 34) ->
  bswap 4 (TcpHdr.ack_seq t) = wrapping_add 32 (bswap 4 (TcpHdr.seq (load_TcpHdr synack 34))) 1 ->
  fst (handle_ack pc1 14 34 s1) =
    (if saturating_sub (PacketCtxRef.now_ns pc1) since <? CHALLENGE_TIMEOUT_NS then XDP_PASS else NO_ACTION) /\
  lru_get (SYN_PROXY_CONN (snd (handle_ack pc1 14 34 s1))) (source_key s1 14) = None.
Proof.
  intros Hpc Hb Htx Hsec0 b synack Hkey Hack Hin Hsec1 Hkey1 Hb0 Hbucket i t H1 H2 H3 H4 H5.
  destruct (syn_challenge_run pc0 L s0 Hpc Hb Htx) as (sec&Hsec&rest&ci&ct&Hci&Hct&Hq&He&Hi&Ht&_).
  rewrite Hsec0 in Hsec. injection Hsec as <-. fold synack b in Hq.
  rewrite Hq in H1, H2, H3, H4, H5.
  rewrite load_Ip_hdrs in H1, H2 by done. rewrite load_Tcp_hdrs in H3, H4, H5 by done.
  set (idx := from_option mss_to_idx 0 (parse_mss (packet s0) 34 L)) in *.
  set (cookie := challenge_cookie (packet s0) secret0 b idx) in *.
  assert (Hidx : 0 <= idx < 4) by (pose proof (parse_mss_idx (packet s0) 34 L); unfold idx; lia).
  destruct (connection_cookie_idx (IpHdr.saddr (load_IpHdr (packet s0) 14)) (IpHdr.daddr (load_IpHdr (packet s0) 14))
    (bswap 2 (TcpHdr.source (load_TcpHdr (packet s0) 34))) (bswap 2 (TcpHdr.dest (load_TcpHdr (packet s0) 34)))
    b (challenge_key secret0 b) idx Hidx) as [Hr Hl].
  fold (challenge_cookie (packet s0) secret0 b idx) in Hr, Hl. fold cookie in Hr, Hl.
  assert (Hexp : wrapping_sub 32 (bswap 4 (TcpHdr.ack_seq t)) 1 = cookie).
  { rewrite H5. cbn -[bswap wrapping_add wrapping_sub]. rewrite bswap_involutive by done.
    unfold wrapping_sub, wrapping_add, wrap. rewrite Zminus_mod_idemp_l.
    replace (cookie + 1 - 1) with cookie by lia. by apply Z.mod_small. }
  assert (Hret : returns_cookie s1 secret1 pc1 14 34).
  { unfold returns_cookie. cbv zeta. fold i t. rewrite Hexp, Hl.
    exists (bucket_of (PacketCtxRef.now_ns pc1) - b), key. split; [lia|].
    replace (saturating_sub _ _) with b by (unfold saturating_sub; lia).
    split; [done|]. rewrite H1, H2, H3, H4. unfold cookie, challenge_cookie.
    by rewrite (secret_for_key _ _ _ Hkey). }
  destruct (_ <? _) eqn:Hfresh.
  - assert (Hch : challenged_ack s1 pc1 14 34) by (destruct Hack; split_and!; [done..|]; exists since; by rewrite <- Z.ltb_lt).
    destruct (handle_ack_run s1 pc1 14 34 secret1 Hch Hsec1) as [Hpass _].
    rewrite (Hpass Hret). split; [done|]. cbn. apply lru_get_remove_eq.
  - rewrite (handle_ack_late s1 pc1 14 34 since Hack Hin Hfresh). split; [done|]. cbn. apply lru_get_remove_eq.
Qed.

(** ** Rotation *)

(** a rotation in time keeps the challenges of the last minute answerable.
    If the secrets are those of the bucket just ended, then after the rotation
    the secret of that bucket is still found, the new bucket has the new key,
    and a second rotation within the same minute changes nothing. *)
Theorem rotation_keeps_previous now key key' secret :
  now / 60 = CookieSecret.bucket_index secret + 1 -> 0 <= CookieSecret.bucket_index secret ->
  exists rotated,
    rotate_cookie_secrets_inner now key (Some secret) = Some rotated /\
    secret_for rotated (CookieSecret.bucket_index secret) =
      secret_for secret (CookieSecret.bucket_index secret) /\
    secret_for rotated (now / 60) = Some key /\
    rotate_cookie_secrets_inner now key' (Some rotated) = Some rotated.
Proof.
  intros Hnow Hb. unfold rotate_cookie_secrets_inner. rewrite Hnow. cbv zeta.
  destruct (Z.leb_spec (CookieSecret.bucket_index secret + 1) (CookieSecret.bucket_index secret)); [lia|].
  eexists. split; [done|]. unfold secret_for. cbn [CookieSecret.bucket_index CookieSecret.current CookieSecret.previous].
  rewrite !Z.eqb_refl, Z.leb_refl. split; [|done].
  destruct (Z.eqb_spec (CookieSecret.bucket_index secret) (CookieSecret.bucket_index secret + 1)); [lia|].
  unfold saturating_sub. rewrite Z.max_l by lia. by rewrite Z.add_simpl_r, Z.eqb_refl.
Qed.

(** ** The gate *)

(** what the SYN gate lets through.  Segments without SYN, and SYNs of a
    source that is not challenged and not over its rate, go on with the frame
    untouched.  A SYN of a source in challenge mode is never let through while
    the secrets are in place: it is answered by a challenge or dropped. *)
Theorem handle_syn_gate pc s secret :
  PacketCtxRef.ip_hdr_len pc = 20%nat -> (54 <= length (packet s))%nat ->
  array_get (COOKIE_SECRETS s) 0 = Some secret ->
  let saddr := IpHdr.saddr (load_IpHdr (packet s) 14) in
  let syn := is_syn_flags (TcpHdr.flags (load_TcpHdr (packet s) 34)) in
  let challenged := fst (is_challenged_or_trigger saddr (PacketCtxRef.now_ns pc) s) in
  let action := fst (handle_syn pc 14 34 s) in
  (syn && challenged = false ->
     action = NO_ACTION /\ packet (snd (handle_syn pc 14 34 s)) = packet s) /\
  (syn && challenged = true -> (58 <= length (packet s))%nat \/ TcpHdr.doff (load_TcpHdr (packet s) 34) <> 6 ->
     action = XDP_TX \/ action = XDP_DROP).
Proof.
  intros Hpc Hl Hsec. cbv zeta. unfold handle_syn. rewrite bind_gets.
  destruct (is_syn_flags _); cbn [negb andb]; [|done].
  pose proof (modifies_is_challenged (IpHdr.saddr (load_IpHdr (packet s) 14)) (PacketCtxRef.now_ns pc)) as Hm.
  pose proof (modifies_field _ _ F_packet s Hm ltac:(solve_fields)) as Hp.
  pose proof (modifies_field _ _ F_TABLES s Hm ltac:(solve_fields)) as Htab. unfold field_eq in Hp, Htab.
  unfold bind. destruct (is_challenged_or_trigger _ _ s) as [c s1]. cbn [fst snd] in *.
  destruct c; cbn [negb]; [|by split; [rewrite <- Hp|]]. split; [done|]. intros _ Hfit. rewrite Hpc. cbn [Nat.eqb negb].
  destruct (_ && _); cbn [negb]; [|by right]. destruct (_ =? _)%nat; cbn [negb]; [|by right].
  assert (Hsec1 : COOKIE_SECRETS s1 = COOKIE_SECRETS s) by (unfold tables in Htab; congruence).
  unfold syn_challenge. rewrite Hpc. cbv zeta. rewrite bind_gets, Hp.
  change ETH_HDR_LEN with 14%nat. change (14 + 20)%nat with 34%nat.
  unfold EthHdr.size, IpHdr.size, TcpHdr.size, ptr_at_mut.
  destruct (Nat.ltb_spec (length (packet s)) (0 + 14)); [lia|].
  destruct (Nat.ltb_spec (length (packet s)) (14 + 20)); [lia|].
  destruct (Nat.ltb_spec (length (packet s)) (34 + 20)); [lia|].
  set (len := (Z.to_nat (TcpHdr.doff (load_TcpHdr (packet s) 34)) * 4)%nat).
  assert (Hno : (len =? 24)%nat && bool_decide ((if (length (packet s) <? 34 + 24)%nat then None else Some 34%nat) = None) = false).
  { destruct (Nat.eqb_spec len 24); [|done]. destruct (Nat.ltb_spec (length (packet s)) (34 + 24)); [|done].
    unfold len in *. lia. }
  rewrite Hno, bind_gets, Hsec1, Hsec. unfold bind.
  destruct (send_synack _ _ _ _ _ s1) as [[] s2]; [by left|by right].
Qed.

(** ** Two defects *)

(** the flags of the challenge.  [doff | flags] is stored without
    conversion to network order, so that on the wire the data offset of every
    challenge is 1 and the flags are ACK alone (20-byte header) or URG alone
    (24-byte header), never SYN|ACK. *)
Theorem synack_flags_swapped pc L s :
  PacketCtxRef.ip_hdr_len pc = 20%nat -> bytes_ok (packet s) ->
  fst (syn_challenge pc 14 34 L s) = XDP_TX ->
  let t := load_TcpHdr (packet (snd (syn_challenge pc 14 34 L s))) 34 in
  TcpHdr.doff t = 1 /\
  TcpHdr.flags t = (if (24 <=? L)%nat then 0x20 else TCP_FLAG_ACK) /\
  TcpHdr.flags t <> Z.lor TCP_FLAG_SYN TCP_FLAG_ACK.
Proof.
  intros Hpc Hb Htx. cbv zeta.
  destruct (syn_challenge_run pc L s Hpc Hb Htx) as (sec&_&rest&ci&ct&_&_&Hq&He&Hi&Ht&_).
  rewrite Hq, load_Tcp_hdrs by done. unfold TcpHdr.doff, TcpHdr.flags.
  destruct (24 <=? L)%nat; (split_and!; vm_compute; [done|done|discriminate]).
Qed.
End Protocol.

(** ** Evaluated instances *)
Module CookieWitness.
Import Samples.

(** A SYN without options from 10.0.0.1:1234 to 10.0.0.9:80. *)
Definition syn : frame :=
  [2;0;0;0;0;1; 2;0;0;0;0;2; 8;0;
   69;0;0;40;0;1;0;0;64;6;0;0;10;0;0;1;10;0;0;9;
   4;210;0;80;0;0;0;7;0;0;0;0;80;2;4;0;0;0;0;0].
Definition secrets : CookieSecret.t := CookieSecret.mk (replicate 16 17) (replicate 16 34) 0.
Definition before : @KState kernel := state syn <| COOKIE_SECRETS := [secrets] |>.
Definition pc : PacketCtxRef.t := PacketCtxRef.mk 20 5000000000.
Definition challenge : frame := packet (snd (@syn_challenge kernel pc 14 34 20 before)).

(** The client's answer to a frame: addresses and ports turned round, ACK of
    the sequence number. *)
Definition client_ack (q : frame) : frame :=
  update_TcpHdr (fun h => swap_tcp h
      <| TcpHdr.ack_seq := bswap 4 (wrapping_add 32 (bswap 4 (TcpHdr.seq h)) 1) |>
      <| TcpHdr.doff_flags := bswap 2 0x5010 |>) 34 (update_IpHdr swap_ip 14 q).
Definition challenge_mode (since : Z) (s : @KState kernel) : @KState kernel :=
  s <| SYN_PROXY_CONN := ([(from_ipv4 [10; 0; 0; 1], since)] : @lru kernel IpKey.t Z) |>.
Definition answering (since : Z) (secret : CookieSecret.t) (q : frame) : @KState kernel :=
  challenge_mode since (state (client_ack q) <| COOKIE_SECRETS := [secret] |>).
Definition answer : @KState kernel := answering 5000000000 secrets challenge.

Lemma before_ok : bytes_ok (packet before).
Proof. repeat constructor; unfold is_byte; lia. Qed.

Lemma syn_challenge_frame_witness :
  fst (@syn_challenge kernel pc 14 34 20 before) = XDP_TX /\
  checksum (slice 14 20 challenge) = 0.
Proof.
  assert (Htx : fst (@syn_challenge kernel pc 14 34 20 before) = XDP_TX) by (vm_compute; reflexivity).
  split; [exact Htx|].
  destruct (syn_challenge_frame (KL := kernel_laws) pc 20 before eq_refl before_ok Htx)
    as (sec&_&_&_&_&_&_&_&_&_&_&_&_&Hc&_). exact Hc.
Defined.

Lemma synack_flags_swapped_witness :
  TcpHdr.doff (load_TcpHdr challenge 34) = 1.
Proof.
  destruct (synack_flags_swapped (KL := kernel_laws) pc 20 before eq_refl before_ok) as [H _];
    [vm_compute; reflexivity|exact H].
Defined.

Lemma handle_ack_spec_witness :
  fst (@handle_ack kernel pc 14 34 (challenge_mode 5000000000 before)) = NO_ACTION /\
  fst (@handle_ack kernel pc 14 34 answer) = XDP_PASS.
Proof.
  split; [vm_compute; reflexivity|].
  assert (Hc : challenged_ack answer pc 14 34).
  { split; [vm_compute; discriminate|]. split; [vm_compute; reflexivity|].
    exists 5000000000. split; vm_compute; reflexivity. }
  destruct (handle_ack_spec (KL := kernel_laws) answer pc 14 34 secrets Hc eq_refl) as [(_&H&_)|[_ H]];
    [exact H|]. apply (f_equal fst) in H. vm_compute in H. discriminate H.
Defined.

(** The correct answer, at once and forty-five seconds after the challenge. *)
Lemma cookie_roundtrip_witness :
  fst (@handle_ack kernel pc 14 34 answer) = XDP_PASS /\
  fst (@handle_ack kernel (PacketCtxRef.mk 20 50000000000) 14 34 answer) = NO_ACTION.
Proof.
  assert (Hack : is_ack answer 34) by (split; [vm_compute; discriminate|vm_compute; reflexivity]).
  split.
  - pose proof (cookie_roundtrip (KL := kernel_laws) pc 20 before secrets pc answer secrets
                  (replicate 16 17) 5000000000 eq_refl before_ok) as H.
    cbv zeta in H. destruct H as [H _]; try exact Hack; try (vm_compute; reflexivity).
    + vm_compute. discriminate.
    + left. vm_compute. reflexivity.
  - pose proof (cookie_roundtrip (KL := kernel_laws) pc 20 before secrets (PacketCtxRef.mk 20 50000000000) answer secrets
                  (replicate 16 17) 5000000000 eq_refl before_ok) as H.
    cbv zeta in H. destruct H as [H _]; try exact Hack; try (vm_compute; reflexivity).
    + vm_compute. discriminate.
    + left. vm_compute. reflexivity.
Defined.

Lemma rotation_keeps_previous_witness :
  exists rotated,
    rotate_cookie_secrets_inner 60 (replicate 16 99) (Some secrets) = Some rotated /\
    secret_for rotated 0 = Some (replicate 16 17).
Proof.
  destruct (rotation_keeps_previous 60 (replicate 16 99) (replicate 16 98) secrets) as (r&H1&H2&_);
    [reflexivity|vm_compute; discriminate|].
  exists r. split; [exact H1|]. etransitivity; [exact H2|reflexivity].
Defined.

Lemma handle_syn_gate_witness :
  fst (@handle_syn kernel pc 14 34 (challenge_mode 4000000000 before))
  = XDP_TX.
Proof.
  destruct (handle_syn_gate pc (challenge_mode 4000000000 before)
              secrets eq_refl) as [_ H]; [vm_compute; lia|reflexivity|].
  destruct H as [H|H]; [vm_compute; reflexivity|right; vm_compute; discriminate|exact H|].
  vm_compute in H. discriminate H.
Defined.

(** a challenge sent while the rotation of the secrets is late can not be
    answered.  In the first moments of a minute, before the control plane has
    rotated, the cookie is made with the new bucket number and the old key;
    the client's correct answer is then refused both before and after the
    rotation, although each time within the accepted two buckets. *)
Example late_rotation_cookie_refused :
  let pc1 := PacketCtxRef.mk 20 60500000000 in
  let challenge1 := packet (snd (@syn_challenge kernel pc1 14 34 20 before)) in
  let rotated := CookieSecret.mk (replicate 16 99) (replicate 16 17) 1 in
  let answer1 s := answering 60500000000 s challenge1 in
  rotate_cookie_secrets_inner 61 (replicate 16 99) (Some secrets) = Some rotated /\
  fst (@syn_challenge kernel pc1 14 34 20 before) = XDP_TX /\
  fst (@handle_ack kernel pc1 14 34 (answer1 secrets)) = NO_ACTION /\
  fst (@handle_ack kernel pc1 14 34 (answer1 rotated)) = NO_ACTION.
Proof. vm_compute. repeat split. Qed.
End CookieWitness.
