(* ===== verification/DataPlane.v ===== *)
(** * DataPlane: the packet program

    [eshield-ebpf/src/main.rs]: parsing, the chain of checks, dropping,
    sampling and the statistics.  [try_eshield] is one run on one frame. *)
From S2P Require Import Prelude Words Common Pure Parser Maps Wire Footprint Trust Blacklist RateCounter Limits Filters TcpReset SynCookie.
#[local] Open Scope Z_scope.

Module PacketCtx.
Record t := mk {
  src : IpKey.t;
  protocol : Z;
  sport : Z;
  dport : Z;
  ip_hdr_len : nat;
  tcp_reset_on_drop : Z;
  trust_add_divisor : Z;
  trust_sub_divisor : Z;
  now_ns : Z;
  rule_id : Z;
  rate_counted : bool;
  fragment : bool;
  project_flags : Z;
}.
#[global] Instance eta_t : Eta t := fun r =>
  mk (src r) (protocol r) (sport r) (dport r) (ip_hdr_len r) (tcp_reset_on_drop r)
     (trust_add_divisor r) (trust_sub_divisor r) (now_ns r) (rule_id r) (rate_counted r)
     (fragment r) (project_flags r).
End PacketCtx.

(** What parsing yields: the fields the parsers write through their references. *)
Module Parsed.
Record t := mk {
  src : IpKey.t;
  protocol : Z;
  ip_hdr_len : nat;
  sport : Z;
  dport : Z;
  fragment : bool;
}.
End Parsed.

(** [x += 1] on a statistics counter. *)
Definition inc (n : Z) : Z := wrapping_add 64 n 1.

Definition inc_protocol_dropped (protocol : Z) (g : GlobalStats.t) : GlobalStats.t :=
  if protocol =? IPPROTO_TCP then g <| GlobalStats.tcp_dropped ::= inc |>
  else if protocol =? IPPROTO_UDP then g <| GlobalStats.udp_dropped ::= inc |>
  else if (protocol =? IPPROTO_ICMP) || (protocol =? IPPROTO_ICMPV6) then
    g <| GlobalStats.icmp_dropped ::= inc |>
  else g <| GlobalStats.other_dropped ::= inc |>.

(** ** Parsing *)

(** [None] is the return value [false]. *)
Definition read_ports (p : frame) (transport_offset : nat) (protocol : Z) : option (Z * Z) :=
  if protocol =? IPPROTO_TCP then
    tcp ← ptr_at TcpHdr.size p transport_offset;
    Some (bswap 2 (TcpHdr.source (load_TcpHdr p tcp)), bswap 2 (TcpHdr.dest (load_TcpHdr p tcp)))
  else if protocol =? IPPROTO_UDP then
    udp ← ptr_at UdpHdr.size p transport_offset;
    Some (bswap 2 (UdpHdr.source (load_UdpHdr p udp)), bswap 2 (UdpHdr.dest (load_UdpHdr p udp)))
  else Some (0, 0).

Definition parse_ipv4 (p : frame) : option Parsed.t :=
  ip ← ptr_at IpHdr.size p ETH_HDR_LEN;
  let h := load_IpHdr p ip in
  let len := (Z.to_nat (Z.land (IpHdr.ver_ihl h) 0x0f) * 4)%nat in
  if (len <? IP_HDR_LEN)%nat then None
  else
    let src := from_ipv4 (le_bytes 4 (IpHdr.saddr h)) in
    let frag_off := bswap 2 (IpHdr.frag_off h) in
    let fragment := negb (Z.land frag_off 0x1fff =? 0) in
    if fragment then Some (Parsed.mk src (IpHdr.proto h) len 0 0 true)
    else
      ports ← read_ports p (ETH_HDR_LEN + len) (IpHdr.proto h);
      Some (Parsed.mk src (IpHdr.proto h) len (fst ports) (snd ports) false).

Definition parse_ipv6 (p : frame) : option Parsed.t :=
  ip ← ptr_at Ipv6Hdr.size p ETH_HDR_LEN;
  let h := load_Ipv6Hdr p ip in
  ports ← read_ports p (ETH_HDR_LEN + IPV6_HDR_LEN) (Ipv6Hdr.next_header h);
  Some (Parsed.mk (from_ipv6 (Ipv6Hdr.saddr h)) (Ipv6Hdr.next_header h) IPV6_HDR_LEN
          (fst ports) (snd ports) false).

(** The two protocol arms of [try_eshield]; everything else passes. *)
Definition parse_frame (p : frame) : option Parsed.t :=
  eth ← ptr_at EthHdr.size p 0;
  let proto := EthHdr.proto (load_EthHdr p eth) in
  if proto =? ETH_P_IP then parse_ipv4 p
  else if proto =? ETH_P_IPV6 then parse_ipv6 p
  else None.

Section DataPlane.
Context {KN : Kernel}.

(** ** Address tables *)
Definition lpm_member (v4 v6 : list LpmEntry.t) (src : IpKey.t) : bool :=
  match IpKey_family src with
  | Some Ipv4 => bool_decide (is_Some (lpm_get v4 32 (WhitelistKeyV4 (bswap 4 (ipv4 src)))))
  | Some Ipv6 => bool_decide (is_Some (lpm_get v6 128 (WhitelistKeyV6 (IpKey.addr src))))
  | None => false
  end.

Definition is_whitelisted (src : IpKey.t) : BPF bool :=
  gets (fun s => lpm_member (WHITELIST_V4 s) (WHITELIST_V6 s) src).
Definition is_geoip_blocked (src : IpKey.t) : BPF bool :=
  gets (fun s => lpm_member (GEOIP_BLOCKED_V4 s) (GEOIP_BLOCKED_V6 s) src).
Definition is_geoip_allowed (src : IpKey.t) : BPF bool :=
  gets (fun s => lpm_member (GEOIP_ALLOWED_V4 s) (GEOIP_ALLOWED_V6 s) src).

(** ** Dropping and sampling *)
Definition emit_drop_event (pc : PacketCtx.t) : BPF unit :=
  let* room := gets (fun s => ringbuf_reserve (EVENTS s)) in
  if (room : bool) then
    let* timestamp_ns := get_ktime_ns in
    let event := DropEvent.mk timestamp_ns (IpKey.addr (PacketCtx.src pc))
      (IpKey.family (PacketCtx.src pc)) (PacketCtx.protocol pc) (PacketCtx.rule_id pc)
      (PacketCtx.dport pc) in
    modify (fun s => s <| EVENTS ::= fun l => l ++ [event] |>)
  else ret tt.

Definition drop_packet (pc : PacketCtx.t) : BPF Z :=
  (* [(due, sampled)]; without a statistics slot every drop is due *)
  let* ' (due, sampled) := with_stats_ret (true, false) (fun g =>
    let g := if PacketCtx.protocol pc =? IPPROTO_TCP
             then g <| GlobalStats.tcp_rst_attempt ::= inc |> else g in
    let sample := wrapping_add 32 (GlobalStats.top_attacker_sample g) 1 in
    ((Z.land sample 0xf =? 0, true), g <| GlobalStats.top_attacker_sample := sample |>)) in
  let* _ := trust_drop (PacketCtx.src pc) (PacketCtx.now_ns pc) (PacketCtx.trust_sub_divisor pc) in
  let* _ :=
    if (due : bool) then
      let* prev := gets (fun s => lru_get (TOP_ATTACKERS s) (PacketCtx.src pc)) in
      let next := saturating_add 64 (default 0 prev) (if (sampled : bool) then 16 else 1) in
      TOP_ATTACKERS_insert (PacketCtx.src pc) next
    else ret tt in
  let* _ :=
    if negb (PacketCtx.rule_id pc =? rules.BLACKLIST) then emit_drop_event pc else ret tt in
  if nz (PacketCtx.tcp_reset_on_drop pc) && (PacketCtx.protocol pc =? IPPROTO_TCP) then
    reply_tcp_rst (PacketCtx.ip_hdr_len pc)
  else ret XDP_DROP.

Definition trust_pass_sampled (src : IpKey.t) (now_ns add_divisor : Z) : BPF unit :=
  let* due := with_stats_ret false (fun g =>
    let sample := wrapping_add 32 (GlobalStats.trust_pass_sample g) 1 in
    (Z.land sample 0x3f =? 0, g <| GlobalStats.trust_pass_sample := sample |>)) in
  if (due : bool) then trust_pass src now_ns add_divisor 64 else ret tt.

(** The length of the transport header; [None] is the early return. *)
Definition l4_hdr_len (p : frame) (pc : PacketCtx.t) : option nat :=
  let protocol := PacketCtx.protocol pc in
  if protocol =? IPPROTO_TCP then
    t ← ptr_at TcpHdr.size p (ETH_HDR_LEN + PacketCtx.ip_hdr_len pc);
    Some (Z.to_nat (TcpHdr.doff (load_TcpHdr p t)) * 4)%nat
  else if (protocol =? IPPROTO_UDP) || (protocol =? IPPROTO_ICMP) || (protocol =? IPPROTO_ICMPV6)
       then Some 8%nat
  else Some 0%nat.

(** The destination address, read again from the frame. *)
Definition sample_dst_ip (p : frame) (pc : PacketCtx.t) : list Z :=
  match IpKey_family (PacketCtx.src pc) with
  | Some Ipv4 =>
      match ptr_at IpHdr.size p ETH_HDR_LEN with
      | Some ip => replicate 12 0 ++ le_bytes 4 (IpHdr.daddr (load_IpHdr p ip))
      | None => replicate 16 0
      end
  | Some Ipv6 =>
      match ptr_at Ipv6Hdr.size p ETH_HDR_LEN with
      | Some ip => Ipv6Hdr.daddr (load_Ipv6Hdr p ip)
      | None => replicate 16 0
      end
  | None => replicate 16 0
  end.

Definition log_packet_sample (pc : PacketCtx.t) (action : Z) : BPF unit :=
  let* runtime := gets (fun s => array_get (CONFIG s) 0) in
  match runtime with
  | None => ret tt
  | Some runtime =>
      if (RuntimeConfig.packet_log_enabled runtime =? 0)
         || (RuntimeConfig.packet_log_sample_rate runtime =? 0) then ret tt
      else
        let* r := get_prandom_u32 in
        if negb (r mod RuntimeConfig.packet_log_sample_rate runtime =? 0) then ret tt
        else
          let* p := gets packet in
          let packet_len := wrap 16 (Z.of_nat (length p)) in
          match l4_hdr_len p pc with
          | None => ret tt
          | Some l4 =>
              let payload_off := (ETH_HDR_LEN + PacketCtx.ip_hdr_len pc + l4)%nat in
              let has_full_payload := (payload_off + 64 <=? length p)%nat in
              let copy_len := if has_full_payload then 64 else 0 in
              let* room := gets (fun s => ringbuf_reserve (PACKET_SAMPLES s)) in
              if negb room then ret tt
              else
                let event := PacketSample.mk (PacketCtx.now_ns pc) (IpKey.addr (PacketCtx.src pc))
                  (sample_dst_ip p pc) (IpKey.family (PacketCtx.src pc)) (PacketCtx.protocol pc)
                  (PacketCtx.sport pc) (PacketCtx.dport pc)
                  (if action =? XDP_PASS then 1 else 0) (PacketCtx.rule_id pc) packet_len copy_len
                  (if has_full_payload then slice payload_off 64 p else replicate 64 0) in
                modify (fun s => s <| PACKET_SAMPLES ::= fun l => l ++ [event] |>)
          end
  end.

(** ** The checks

    A check returns the action and the packet context, some of whose fields it
    may have set. *)
Definition Check : Type := PacketCtx.t -> BPF (Z * PacketCtx.t).

Definition no_action : Check := fun pc => ret (NO_ACTION, pc).

(** The common end of a check that drops: name the rule, count, drop. *)
Definition drop_as (rule : Z) (count : GlobalStats.t -> GlobalStats.t) (protocol : Z) : Check :=
  fun pc =>
    let pc := pc <| PacketCtx.rule_id := rule |> in
    let* _ := with_stats (fun g =>
      inc_protocol_dropped protocol (count (g <| GlobalStats.total_dropped ::= inc |>))) in
    let* action := drop_packet pc in
    ret (action, pc).

Definition flag_off (pc : PacketCtx.t) (module : Z) : bool :=
  Z.land (PacketCtx.project_flags pc) module =? 0.

Definition check_fragment_drop (policy port_rate_enabled : Z) : Check := fun pc =>
  let count := setter GlobalStats.fragment_blocked inc in
  if negb (PacketCtx.fragment pc) || (policy =? 0) then no_action pc
  else if policy =? 2 then drop_as rules.FRAGMENT count (PacketCtx.protocol pc) pc
  else if nz port_rate_enabled then
    let key := PortRateKey.mk 0 (PacketCtx.protocol pc) in
    let* over := check_port_rate key (PacketCtx.now_ns pc) in
    if (over : bool) then drop_as rules.FRAGMENT count (PacketCtx.protocol pc) pc
    else no_action pc
  else no_action pc.

Definition check_port_acl_drop (acl_count : Z) : Check := fun pc =>
  if (acl_count =? 0) || PacketCtx.fragment pc then no_action pc
  else
    let* hit := check_port_acl (PacketCtx.protocol pc) (PacketCtx.dport pc) acl_count in
    if (hit : bool) then drop_as rules.PORT_ACL (fun g => g) (PacketCtx.protocol pc) pc
    else no_action pc.

(** The keys tried in turn: exact, any protocol, any port, any of both. *)
Definition project_keys (addr dport protocol : Z) : list ProjectPolicyKey.t :=
  [ProjectPolicyKey.mk addr dport protocol; ProjectPolicyKey.mk addr dport 0;
   ProjectPolicyKey.mk addr 0 protocol; ProjectPolicyKey.mk addr 0 0].

Fixpoint first_policy (m : lru ProjectPolicyKey.t ProjectPolicy.t) (keys : list ProjectPolicyKey.t)
    : option ProjectPolicy.t :=
  match keys with
  | [] => None
  | k :: keys =>
      match lru_get m k with
      | Some policy => Some policy
      | None => first_policy m keys
      end
  end.

Definition check_project_policy : Check := fun pc =>
  let* runtime := gets (fun s => array_get (CONFIG s) 0) in
  match runtime with
  | None => no_action pc
  | Some runtime =>
      if (RuntimeConfig.project_enabled runtime =? 0) || PacketCtx.fragment pc then no_action pc
      else if negb (bool_decide (IpKey_family (PacketCtx.src pc) = Some Ipv4)) then no_action pc
      else
        let* p := gets packet in
        match ptr_at IpHdr.size p ETH_HDR_LEN with
        | None => no_action pc
        | Some ip =>
            let addr := IpHdr.daddr (load_IpHdr p ip) in
            let dport := bswap 2 (PacketCtx.dport pc) in
            let* policy := gets (fun s =>
              first_policy (PROJECT_POLICY s) (project_keys addr dport (PacketCtx.protocol pc))) in
            match policy with
            | None => no_action pc
            | Some policy =>
                if ProjectPolicy.action policy =? project_action.PASS then
                  let pc := pc <| PacketCtx.rule_id := rules.PROJECT_POLICY |> in
                  let* _ := with_stats (setter GlobalStats.total_passed inc) in
                  let* _ := trust_pass_sampled (PacketCtx.src pc) (PacketCtx.now_ns pc)
                              (PacketCtx.trust_add_divisor pc) in
                  ret (XDP_PASS, pc)
                else if ProjectPolicy.action policy =? project_action.DROP then
                  drop_as rules.PROJECT_POLICY (fun g => g) (PacketCtx.protocol pc) pc
                else if ProjectPolicy.action policy =? project_action.DEFEND then
                  no_action (pc <| PacketCtx.project_flags :=
                    if ProjectPolicy.flags policy =? 0 then PROJECT_FLAGS_ALL
                    else ProjectPolicy.flags policy |>)
                else no_action pc
            end
        end
  end.

Definition check_geoip_drop (geoip_enabled geoip_default_action : Z) : Check := fun pc =>
  if (geoip_enabled =? 0) || flag_off pc project_modules.GEOIP then no_action pc
  else
    let* blocked := is_geoip_blocked (PacketCtx.src pc) in
    let* allowed := is_geoip_allowed (PacketCtx.src pc) in
    let should_drop := blocked || ((geoip_default_action =? 1) && negb allowed) in
    if should_drop then
      drop_as rules.GEOIP (setter GlobalStats.geoip_blocked inc) (PacketCtx.protocol pc) pc
    else no_action pc.

Definition check_conn_track_drop (enabled threshold window_ms : Z) : Check := fun pc =>
  if (enabled =? 0) || PacketCtx.fragment pc || negb (PacketCtx.protocol pc =? IPPROTO_TCP)
     || flag_off pc project_modules.CONN_TRACK then no_action pc
  else
    let* p := gets packet in
    match ptr_at TcpHdr.size p (ETH_HDR_LEN + PacketCtx.ip_hdr_len pc) with
    | None => no_action pc
    | Some tcp =>
        let* over := check_conn_track (PacketCtx.src pc) (TcpHdr.flags (load_TcpHdr p tcp))
                       (PacketCtx.now_ns pc) (Z.max threshold 1) (Z.max window_ms 1) in
        if (over : bool) then
          drop_as rules.CONN_TRACK (setter GlobalStats.conn_track_blocked inc) IPPROTO_TCP pc
        else no_action pc
    end.

(** The port-rate tail the TCP, UDP and ICMP checks share. *)
Definition check_port_rate_drop (dport count_as : Z) : Check := fun pc =>
  let key := PortRateKey.mk dport (PacketCtx.protocol pc) in
  let* over := check_port_rate key (PacketCtx.now_ns pc) in
  if (over : bool) then
    drop_as rules.PORT_RATE (setter GlobalStats.port_rate_blocked inc) count_as pc
  else no_action pc.

(** The SYN-proxy branch: [ip] and [tcp] are checked pointers. *)
Definition check_syn_proxy (ip tcp : nat) : Check := fun pc =>
  let* p := gets packet in
  let pc := if TcpHdr.is_syn (load_TcpHdr p tcp) then pc <| PacketCtx.rate_counted := true |> else pc in
  let pcr := PacketCtxRef.mk (PacketCtx.ip_hdr_len pc) (PacketCtx.now_ns pc) in
  let* action := handle_syn pcr ip tcp in
  if negb (action =? NO_ACTION) then
    let pc := pc <| PacketCtx.rule_id := rules.SYN_FLOOD |> in
    let* _ := with_stats (fun g =>
      let g := g <| GlobalStats.syn_flood_blocked ::= inc |> in
      if negb (action =? XDP_TX) then
        inc_protocol_dropped IPPROTO_TCP (g <| GlobalStats.total_dropped ::= inc |>)
      else g) in
    ret (action, pc)
  else
    let* action := handle_ack pcr ip tcp in
    if negb (action =? NO_ACTION) then
      let* _ := with_stats (setter GlobalStats.total_passed inc) in
      let* _ := trust_pass_sampled (PacketCtx.src pc) (PacketCtx.now_ns pc)
                  (PacketCtx.trust_add_divisor pc) in
      ret (action, pc)
    else no_action pc.

Definition check_tcp_drop (syn_proxy_enabled port_rate_enabled : Z) : Check := fun pc =>
  if flag_off pc project_modules.SYN_FLOOD || PacketCtx.fragment pc then no_action pc
  else
    let* p := gets packet in
    if (IpKey.family (PacketCtx.src pc) =? IpFamily_as_u8 Ipv4) && nz syn_proxy_enabled then
      match ptr_at IpHdr.size p ETH_HDR_LEN with
      | None => ret (XDP_PASS, pc)
      | Some ip_ptr =>
          match ptr_at TcpHdr.size p (ETH_HDR_LEN + PacketCtx.ip_hdr_len pc) with
          | None => no_action pc
          | Some tcp_ptr => check_syn_proxy ip_ptr tcp_ptr pc
          end
      end
    else
      let tail := fun pc : PacketCtx.t =>
        if nz port_rate_enabled && negb (flag_off pc project_modules.SYN_FLOOD) then
          check_port_rate_drop (bswap 2 (PacketCtx.dport pc)) IPPROTO_TCP pc
        else no_action pc in
      match ptr_at TcpHdr.size p (ETH_HDR_LEN + PacketCtx.ip_hdr_len pc) with
      | None => tail pc
      | Some tcp =>
          let pc := if TcpHdr.is_syn (load_TcpHdr p tcp)
                    then pc <| PacketCtx.rate_counted := true |> else pc in
          let* over := handle_syn_flood (PacketCtx.src pc) (TcpHdr.flags (load_TcpHdr p tcp))
                         (PacketCtx.now_ns pc) in
          if (over : bool) then
            drop_as rules.SYN_FLOOD (setter GlobalStats.syn_flood_blocked inc) IPPROTO_TCP pc
          else tail pc
      end.

Definition check_udp_drop (udp_flood_enabled port_rate_enabled : Z) : Check := fun pc =>
  if negb (PacketCtx.protocol pc =? IPPROTO_UDP) || PacketCtx.fragment pc then no_action pc
  else
    let tail := fun pc : PacketCtx.t =>
      if nz port_rate_enabled && negb (flag_off pc project_modules.UDP_FLOOD) then
        check_port_rate_drop (bswap 2 (PacketCtx.dport pc)) (PacketCtx.protocol pc) pc
      else no_action pc in
    if nz udp_flood_enabled && negb (flag_off pc project_modules.UDP_FLOOD) then
      let pc := pc <| PacketCtx.rate_counted := true |> in
      let* over := handle_udp_flood (PacketCtx.src pc) (PacketCtx.now_ns pc) in
      if (over : bool) then
        drop_as rules.UDP_FLOOD (setter GlobalStats.udp_flood_blocked inc) (PacketCtx.protocol pc) pc
      else tail pc
    else tail pc.

Definition check_icmp_drop (icmp_flood_enabled port_rate_enabled : Z) : Check := fun pc =>
  if (negb (PacketCtx.protocol pc =? IPPROTO_ICMP) && negb (PacketCtx.protocol pc =? IPPROTO_ICMPV6))
     || PacketCtx.fragment pc then no_action pc
  else
    let tail := fun pc : PacketCtx.t =>
      if nz port_rate_enabled && negb (flag_off pc project_modules.ICMP_FLOOD) then
        check_port_rate_drop 0 (PacketCtx.protocol pc) pc
      else no_action pc in
    if nz icmp_flood_enabled && negb (flag_off pc project_modules.ICMP_FLOOD) then
      let pc := pc <| PacketCtx.rate_counted := true |> in
      let* over := handle_icmp_flood (PacketCtx.src pc) (PacketCtx.now_ns pc) in
      if (over : bool) then
        drop_as rules.ICMP_FLOOD (setter GlobalStats.icmp_flood_blocked inc) (PacketCtx.protocol pc) pc
      else tail pc
    else tail pc.

Definition check_l7_drop (pattern_count : Z) : Check := fun pc =>
  if (pattern_count =? 0) || flag_off pc project_modules.L7_SCAN || PacketCtx.fragment pc then
    no_action pc
  else
    let* hit := scan (PacketCtx.ip_hdr_len pc) (PacketCtx.protocol pc) pattern_count in
    if (hit : bool) then
      drop_as rules.L7_PATTERN (setter GlobalStats.l7_blocked inc) (PacketCtx.protocol pc) pc
    else no_action pc.

Definition check_rate_limit_drop : Check := fun pc =>
  if flag_off pc project_modules.RATE_LIMIT then no_action pc
  else if PacketCtx.rate_counted pc then no_action pc
  else
    let* over := check_rate_limit (PacketCtx.src pc) (PacketCtx.dport pc) (PacketCtx.now_ns pc) in
    if (over : bool) then
      drop_as rules.RATE_LIMIT (setter GlobalStats.rate_limited inc) (PacketCtx.protocol pc) pc
    else no_action pc.

Definition check_blacklist_drop : Check := fun pc =>
  let* hit := is_blacklisted (PacketCtx.src pc) (PacketCtx.now_ns pc) in
  if (hit : bool) then
    drop_as rules.BLACKLIST (setter GlobalStats.blacklist_blocked inc) (PacketCtx.protocol pc) pc
  else no_action pc.

(** ** The pipeline *)

(** Run a check; its decision is final, otherwise the next stage goes on. *)
Definition stage (check : BPF (Z * PacketCtx.t)) (next : PacketCtx.t -> BPF Z) : BPF Z :=
  let* ' (action, pc) := check in
  if negb (action =? NO_ACTION) then
    let* _ := log_packet_sample pc action in
    ret action
  else next pc.

Definition pass (src : IpKey.t) (now_ns add_divisor : Z) : BPF Z :=
  let* _ := with_stats (setter GlobalStats.total_passed inc) in
  let* _ := trust_pass_sampled src now_ns add_divisor in
  ret XDP_PASS.

(** The checks in the order of [try_eshield]. *)
Definition pipeline (runtime : RuntimeConfig.t) (pc : PacketCtx.t) : BPF Z :=
  stage (check_port_acl_drop (Z.min (RuntimeConfig.port_acl_count runtime) MAX_PORT_ACL) pc) (fun pc =>
  stage (check_blacklist_drop pc) (fun pc =>
  stage (check_fragment_drop (RuntimeConfig.fragment_policy runtime)
           (RuntimeConfig.port_rate_limit_enabled runtime) pc) (fun pc =>
  stage (check_project_policy pc) (fun pc =>
  stage (check_geoip_drop (RuntimeConfig.geoip_enabled runtime)
           (RuntimeConfig.geoip_default_action runtime) pc) (fun pc =>
  stage (check_conn_track_drop (RuntimeConfig.conn_track_enabled runtime)
           (RuntimeConfig.conn_track_threshold runtime)
           (RuntimeConfig.conn_track_window_ms runtime) pc) (fun pc =>
  stage (if PacketCtx.protocol pc =? IPPROTO_TCP then
           check_tcp_drop (RuntimeConfig.syn_proxy_enabled runtime)
             (RuntimeConfig.port_rate_limit_enabled runtime) pc
         else no_action pc) (fun pc =>
  stage (check_udp_drop (RuntimeConfig.udp_flood_enabled runtime)
           (RuntimeConfig.port_rate_limit_enabled runtime) pc) (fun pc =>
  stage (check_icmp_drop (RuntimeConfig.icmp_flood_enabled runtime)
           (RuntimeConfig.port_rate_limit_enabled runtime) pc) (fun pc =>
  stage (if nz (RuntimeConfig.l7_scan_enabled runtime) then
           check_l7_drop (Z.min (RuntimeConfig.l7_pattern_count runtime) MAX_L7_PATTERNS) pc
         else no_action pc) (fun pc =>
  stage (check_rate_limit_drop pc) (fun pc =>
  pass (PacketCtx.src pc) (PacketCtx.now_ns pc) (PacketCtx.trust_add_divisor pc)))))))))))).

(** The context of a parsed packet under a configuration. *)
Definition packet_ctx (r : Parsed.t) (now_ns : Z) (runtime : RuntimeConfig.t) : PacketCtx.t :=
  PacketCtx.mk (Parsed.src r) (Parsed.protocol r) (Parsed.sport r) (Parsed.dport r)
    (Parsed.ip_hdr_len r) (RuntimeConfig.tcp_reset_on_drop runtime)
    (Z.max (RuntimeConfig.trust_add_divisor runtime) 1)
    (Z.max (RuntimeConfig.trust_sub_divisor runtime) 1)
    now_ns rules.UNKNOWN false (Parsed.fragment r) PROJECT_FLAGS_ALL.

Definition try_eshield : BPF Z :=
  let* p := gets packet in
  match parse_frame p with
  | None => ret XDP_PASS
  | Some r =>
      let* now_ns := get_ktime_ns in
      let* _ := with_stats (setter GlobalStats.total_packets inc) in
      let* runtime := gets (fun s => array_get (CONFIG s) 0) in
      match runtime with
      | None => ret XDP_PASS
      | Some runtime =>
          let pc := packet_ctx r now_ns runtime in
          let* white := is_whitelisted (PacketCtx.src pc) in
          if (white : bool) then
            pass (PacketCtx.src pc) (PacketCtx.now_ns pc) (PacketCtx.trust_add_divisor pc)
          else pipeline runtime pc
      end
  end.
End DataPlane.
