(* ===== verification/Accounting.v ===== *)
(** * Accounting: what every part of the packet program preserves

    The counters of passed, dropped and received packets, the tables of the
    control plane and the invariant of the trust map form one relation [keeps]
    between the state before and after; every part of the program but the
    places that count a decision is shown to keep it. *)
From S2P Require Import Prelude Words Common Pure Parser Maps Wire Footprint Trust Blacklist RateCounter Limits Filters TcpReset SynCookie DataPlane.
#[local] Open Scope Z_scope.

(** The counted decisions of this CPU: packets, passed, dropped, and the sum of
    the dropped packets by protocol. *)
Module View.
Record t := mk {
  total : Z;
  passed : Z;
  dropped : Z;
  by_protocol : Z;
}.
End View.

Definition view_of (g : GlobalStats.t) : View.t :=
  View.mk (GlobalStats.total_packets g) (GlobalStats.total_passed g) (GlobalStats.total_dropped g)
    (wrap 64 (GlobalStats.tcp_dropped g + GlobalStats.udp_dropped g
              + GlobalStats.icmp_dropped g + GlobalStats.other_dropped g)).

Section Accounting.
Context {KN : Kernel}.

Definition view (s : KState) : option View.t :=
  match GLOBAL_STATS s with
  | [] => None
  | g :: _ => Some (view_of g)
  end.

Definition keeps (s s' : KState) : Prop :=
  view s' = view s /\ tables s' = tables s /\ (trust_inv s -> trust_inv s').

#[export] Instance keeps_preorder : PreOrder keeps.
Proof.
  split.
  - intros s. split_and!; done.
  - intros s1 s2 s3 (H1&H2&H3) (H4&H5&H6). split_and!; [congruence..|auto].
Qed.

(** Operations that do not touch what [keeps] looks at. *)
Lemma keeps_footprint {A} fs (m : BPF A) :
  modifies fs m -> F_GLOBAL_STATS ∉ fs -> F_TABLES ∉ fs -> F_TRUST_MAP ∉ fs -> stable keeps m.
Proof.
  intros Hm H1 H2 H3 s.
  pose proof (modifies_field _ _ _ s Hm H1) as E1. pose proof (modifies_field _ _ _ s Hm H2) as E2.
  pose proof (modifies_field _ _ _ s Hm H3) as E3. unfold field_eq in *.
  unfold keeps, view, trust_inv. rewrite E1, E3. split_and!; done.
Qed.

(** Operations that update the trust map by an invariant-preserving step. *)
Lemma keeps_intro {A} fs (m : BPF A) :
  modifies fs m -> F_TABLES ∉ fs -> (forall s, view (snd (m s)) = view s) ->
  triple trust_inv m (fun _ => trust_inv) -> stable keeps m.
Proof.
  intros Hm H1 H2 H3 s. split_and!; [apply H2|apply (modifies_field _ _ F_TABLES s Hm H1)|apply H3].
Qed.

Lemma view_with_stats f s :
  (forall g, view_of (f g) = view_of g) -> view (snd (with_stats f s)) = view s.
Proof. intros Hf. unfold view. cbn. destruct (GLOBAL_STATS s); [done|]. by rewrite Hf. Qed.

Lemma keeps_with_stats f : (forall g, view_of (f g) = view_of g) -> stable keeps (with_stats f).
Proof.
  intros Hf. eapply (keeps_intro [F_GLOBAL_STATS]); [footprint|solve_fields| |].
  - intros s. by apply view_with_stats.
  - intros s Hs. done.
Qed.

Lemma keeps_with_stats_ret {A} (d : A) f :
  (forall g, view_of (snd (f g)) = view_of g) -> stable keeps (with_stats_ret d f).
Proof.
  intros Hf. eapply (keeps_intro [F_GLOBAL_STATS]); [footprint|solve_fields| |].
  - intros s. unfold with_stats_ret, view. destruct (GLOBAL_STATS s) as [|g l] eqn:E; cbn.
    + by rewrite E.
    + specialize (Hf g). destruct (f g). cbn in *. by rewrite Hf.
  - intros s Hs. unfold with_stats_ret. destruct (GLOBAL_STATS s); [done|]. by destruct (f _).
Qed.

Context {KL : KernelLaws}.

Lemma keeps_trust_insert k e : trust_ok e -> stable keeps (TRUST_MAP_insert k e).
Proof. intros He s. split_and!; [done|done|]. intros Hs. by apply lru_forall_insert. Qed.

Lemma keeps_trust_pass src now d w :
  0 <= d < 2 ^ 32 -> w * 1000 < 2 ^ 31 -> stable keeps (trust_pass src now d w).
Proof.
  intros Hd Hw. eapply (keeps_intro [F_TRUST_MAP]); [footprint|solve_fields|done|].
  by apply trust_pass_inv.
Qed.

Lemma keeps_trust_drop src now d : 0 <= d -> stable keeps (trust_drop src now d).
Proof.
  intros Hd. eapply keeps_intro; [apply modifies_trust_drop|solve_fields| |by apply trust_drop_inv].
  intros s. unfold trust_drop, bind, gets. cbv zeta.
  destruct (_ =? TRUST_MIN); [|done].
  unfold with_stats_ret, view. destruct (GLOBAL_STATS s) as [|g l] eqn:E; cbn [negb].
  - cbn. by rewrite E.
  - by destruct (negb _).
Qed.

(** The components [keeps] does not look at. *)
Definition other_fields : list Field :=
  [F_BLACKLIST; F_TOP_ATTACKERS; F_EVENTS; F_PACKET_SAMPLES; F_RATE_MAP; F_RATE_MAP_PORT;
   F_PORT_RATE_MAP; F_SYN_PROXY_CONN; F_CONN_TRACK; F_packet; F_ktime; F_prandom].

#[local] Hint Resolve keeps_with_stats keeps_with_stats_ret keeps_trust_insert : stable.

Ltac keeps_prim :=
  apply (keeps_footprint other_fields);
  [solve [footprint | eapply modifies_weaken; [eauto 2 with footprint nocore|solve_fields]]
  |solve_fields|solve_fields|solve_fields].
Ltac keeps_step :=
  match goal with
  | |- stable keeps (bind _ _) => apply stable_bind; [typeclasses eauto| |intros ?]
  | |- stable keeps (match ?x with _ => _ end) => destruct x
  | |- stable keeps (with_stats _) => apply keeps_with_stats; done
  | |- stable keeps (with_stats_ret _ _) => apply keeps_with_stats_ret; done
  | |- stable keeps (let _ := _ in _) => cbv zeta
  end.
Ltac keeps_tac := repeat (solve [eauto 2 with stable nocore] || solve [keeps_prim] || keeps_step).

Lemma keeps_is_blacklisted src now : stable keeps (is_blacklisted src now).
Proof.
  unfold is_blacklisted, bump_blacklist_hit_gen, reset_trust. keeps_tac.
  apply keeps_trust_insert. split; cbn; [done|by left].
Qed.

Lemma keeps_add_to_blacklist src now d r : stable keeps (add_to_blacklist src now d r).
Proof.
  unfold add_to_blacklist, bump_blacklist_gen. keeps_tac.
  apply keeps_trust_insert. split; cbn; [done|by left].
Qed.

#[local] Hint Resolve keeps_add_to_blacklist : stable.

Lemma keeps_check_rate_limit src dport now : stable keeps (check_rate_limit src dport now).
Proof. unfold check_rate_limit, enforce. keeps_tac. Qed.

Lemma keeps_handle_udp_flood src now : stable keeps (handle_udp_flood src now).
Proof. unfold handle_udp_flood, enforce. keeps_tac. Qed.

Lemma keeps_handle_icmp_flood src now : stable keeps (handle_icmp_flood src now).
Proof. unfold handle_icmp_flood, enforce. keeps_tac. Qed.

Lemma keeps_handle_syn_flood src flags now : stable keeps (handle_syn_flood src flags now).
Proof. unfold handle_syn_flood. keeps_tac. Qed.

Lemma keeps_check_port_rate key now : stable keeps (check_port_rate key now).
Proof. keeps_prim. Qed.

Lemma keeps_check_conn_track src flags now th w : stable keeps (check_conn_track src flags now th w).
Proof. keeps_prim. Qed.

Lemma keeps_handle_syn pc ip tcp : stable keeps (handle_syn pc ip tcp).
Proof. keeps_prim. Qed.

Lemma keeps_handle_ack pc ip tcp : stable keeps (handle_ack pc ip tcp).
Proof. keeps_prim. Qed.

Lemma keeps_reply_tcp_rst n : stable keeps (reply_tcp_rst n).
Proof.
  unfold reply_tcp_rst, reply_tcp_rst_v4, rst_checksums, rst_fail, inc_rst_fail, inc_rst_sent. keeps_tac.
Qed.

Lemma modifies_emit_drop_event pc : modifies [F_EVENTS; F_ktime] (emit_drop_event pc).
Proof. unfold emit_drop_event. footprint. Qed.

Lemma modifies_log_packet_sample pc a : modifies [F_PACKET_SAMPLES; F_prandom] (log_packet_sample pc a).
Proof. unfold log_packet_sample. footprint. Qed.

Lemma keeps_emit_drop_event pc : stable keeps (emit_drop_event pc).
Proof. eapply keeps_footprint; [apply modifies_emit_drop_event|solve_fields..]. Qed.

Lemma keeps_log_packet_sample pc a : stable keeps (log_packet_sample pc a).
Proof. eapply keeps_footprint; [apply modifies_log_packet_sample|solve_fields..]. Qed.

Lemma keeps_trust_pass_sampled src now d :
  0 <= d < 2 ^ 32 -> stable keeps (trust_pass_sampled src now d).
Proof.
  intros Hd. unfold trust_pass_sampled. keeps_tac. apply keeps_trust_pass; lia.
Qed.

Lemma keeps_drop_packet pc : 0 <= PacketCtx.trust_sub_divisor pc -> stable keeps (drop_packet pc).
Proof.
  intros Hd. unfold drop_packet.
  apply stable_bind; [typeclasses eauto| |].
  { apply keeps_with_stats_ret. intros g. cbn. by destruct (_ =? _). }
  intros [due sampled]. apply stable_bind; [typeclasses eauto|by apply keeps_trust_drop|]. intros _.
  apply stable_bind; [typeclasses eauto|keeps_tac|]. intros _.
  apply stable_bind; [typeclasses eauto| |].
  { destruct (negb _); [apply keeps_emit_drop_event|keeps_tac]. }
  intros _. destruct (_ && _); [apply keeps_reply_tcp_rst|keeps_tac].
Qed.

(** Dropping answers with a drop or a reset. *)
Lemma reply_tcp_rst_action n s :
  fst (reply_tcp_rst n s) = XDP_DROP \/ fst (reply_tcp_rst n s) = XDP_TX.
Proof.
  unfold reply_tcp_rst, reply_tcp_rst_v4, rst_checksums, rst_fail, bind, gets, ret.
  destruct (_ =? _)%nat; [|by left]. cbv zeta. destruct (adjust_tail _ s) as [rc s1].
  destruct (negb _); [by left|].
  destruct (ptr_at_mut EthHdr.size (packet s1) 0); [|by left].
  destruct (ptr_at_mut IpHdr.size (packet s1) _); [|by left].
  destruct (ptr_at_mut TcpHdr.size (packet s1) _); [|by left].
  destruct (negb _); [by left|]. unfold packet_modify, modify.
  destruct (_ <? 0); [by left|]. destruct (pseudo_sum _ _ _); [|by left].
  destruct (_ <? 0); [by left|]. by right.
Qed.

Lemma drop_packet_action pc s :
  fst (drop_packet pc s) = XDP_DROP \/ fst (drop_packet pc s) = XDP_TX.
Proof.
  unfold drop_packet, bind.
  repeat match goal with |- context [let '(_, _) := ?x in _] => destruct x end.
  destruct (_ && _); [apply reply_tcp_rst_action|by left].
Qed.
End Accounting.

#[export] Hint Resolve keeps_is_blacklisted keeps_add_to_blacklist keeps_check_rate_limit
  keeps_handle_udp_flood keeps_handle_icmp_flood keeps_handle_syn_flood keeps_check_port_rate
  keeps_check_conn_track keeps_handle_syn keeps_handle_ack keeps_log_packet_sample : stable.
#[global] Arguments drop_packet : simpl never.
#[global] Arguments trust_pass_sampled : simpl never.
#[global] Arguments log_packet_sample : simpl never.
#[global] Arguments check_port_rate : simpl never.
#[global] Arguments check_conn_track : simpl never.
#[global] Arguments scan : simpl never.
#[global] Arguments check_port_acl : simpl never.
