(* ===== verification/Pipeline.v ===== *)
(** * Pipeline: the packet program as a whole

    Every check either leaves the packet to the next one, with the counters and
    the frame untouched, or decides it and is counted exactly once; the
    theorems about [try_eshield] follow by composing the stages. *)
From S2P Require Import Prelude Words Common Pure Parser Maps Wire Footprint Trust Blacklist RateCounter Limits Filters TcpReset SynCookie CookieProtocol DataPlane Accounting.
#[local] Open Scope Z_scope.

(** ** Counting *)
Definition count_drop (v : View.t) : View.t :=
  View.mk (View.total v) (View.passed v) (inc (View.dropped v)) (inc (View.by_protocol v)).
Definition count_pass (v : View.t) : View.t :=
  View.mk (View.total v) (inc (View.passed v)) (View.dropped v) (View.by_protocol v).
Definition count_total (v : View.t) : View.t :=
  View.mk (inc (View.total v)) (View.passed v) (View.dropped v) (View.by_protocol v).

Lemma inc_sum a b : wrap 64 (inc a + b) = inc (wrap 64 (a + b)).
Proof.
  unfold inc, wrapping_add, wrap. rewrite !Zplus_mod_idemp_l. f_equal. lia.
Qed.

Lemma inc_sum_at a b x y : x = inc a + b -> y = a + b -> wrap 64 x = inc (wrap 64 y).
Proof. intros -> ->. apply inc_sum. Qed.

(** The statistics update of a drop: the count of the rule, then the protocol. *)
Lemma view_of_drop protocol count g :
  (forall g, view_of (count g) = view_of g) ->
  view_of (inc_protocol_dropped protocol (count (g <| GlobalStats.total_dropped ::= inc |>)))
  = count_drop (view_of g).
Proof.
  intros Hc.
  assert (Hp : forall h, view_of (inc_protocol_dropped protocol h) =
    View.mk (GlobalStats.total_packets h) (GlobalStats.total_passed h) (GlobalStats.total_dropped h)
      (inc (View.by_protocol (view_of h)))).
  { intros h. unfold inc_protocol_dropped, view_of. repeat case_match; cbn -[wrap inc]; f_equal.
    - apply (inc_sum_at (GlobalStats.tcp_dropped h) (GlobalStats.udp_dropped h + GlobalStats.icmp_dropped h + GlobalStats.other_dropped h)); lia.
    - apply (inc_sum_at (GlobalStats.udp_dropped h) (GlobalStats.tcp_dropped h + GlobalStats.icmp_dropped h + GlobalStats.other_dropped h)); lia.
    - apply (inc_sum_at (GlobalStats.icmp_dropped h) (GlobalStats.tcp_dropped h + GlobalStats.udp_dropped h + GlobalStats.other_dropped h)); lia.
    - apply (inc_sum_at (GlobalStats.other_dropped h) (GlobalStats.tcp_dropped h + GlobalStats.udp_dropped h + GlobalStats.icmp_dropped h)); lia. }
  rewrite Hp. set (g1 := g <| GlobalStats.total_dropped ::= inc |>).
  pose proof (Hc g1) as Hg. unfold view_of in Hg. injection Hg as E1 E2 E3 E4.
  unfold view_of at 1. cbn [View.by_protocol]. rewrite E1, E2, E3, E4. done.
Qed.

Section Pipeline.
Context {KN : Kernel} {KL : KernelLaws}.

Lemma view_with_stats_map f h s :
  (forall g, view_of (f g) = h (view_of g)) -> view (snd (with_stats f s)) = option_map h (view s).
Proof. intros Hf. unfold view. cbn. destruct (GLOBAL_STATS s); [done|]. cbn. by rewrite Hf. Qed.

(** ** The outcome of a check *)

(** A decision that has been counted. *)
Inductive outcome (a : Z) (s s' : KState) : Prop :=
  | out_drop : a = XDP_DROP \/ a = XDP_TX -> view s' = option_map count_drop (view s) -> outcome a s s'
  | out_pass : a = XDP_PASS -> view s' = option_map count_pass (view s) ->
      packet s' = packet s -> outcome a s s'
  | out_challenge : a = XDP_TX -> view s' = view s -> outcome a s s'.

(** The fields of the context a check never changes. *)
Definition same_packet (pc pc' : PacketCtx.t) : Prop :=
  PacketCtx.src pc' = PacketCtx.src pc /\ PacketCtx.protocol pc' = PacketCtx.protocol pc /\
  PacketCtx.sport pc' = PacketCtx.sport pc /\ PacketCtx.dport pc' = PacketCtx.dport pc /\
  PacketCtx.ip_hdr_len pc' = PacketCtx.ip_hdr_len pc /\
  PacketCtx.tcp_reset_on_drop pc' = PacketCtx.tcp_reset_on_drop pc /\
  PacketCtx.trust_add_divisor pc' = PacketCtx.trust_add_divisor pc /\
  PacketCtx.trust_sub_divisor pc' = PacketCtx.trust_sub_divisor pc /\
  PacketCtx.now_ns pc' = PacketCtx.now_ns pc /\ PacketCtx.fragment pc' = PacketCtx.fragment pc.

(** What the checks may rely on. *)
Definition ctx_ok (s : KState) (pc : PacketCtx.t) : Prop :=
  0 <= PacketCtx.trust_add_divisor pc < 2 ^ 32 /\ 0 <= PacketCtx.trust_sub_divisor pc /\
  (IpKey.family (PacketCtx.src pc) = 4 -> (34 <= length (packet s))%nat) /\
  is_Some (array_get (COOKIE_SECRETS s) 0).

(** Control-plane tables and the trust invariant, kept by everything. *)
Definition safe (s s' : KState) : Prop :=
  tables s' = tables s /\ (trust_inv s -> trust_inv s').

Definition check_result (pc : PacketCtx.t) (s : KState) (r : (Z * PacketCtx.t) * KState) : Prop :=
  let '((a, pc'), s') := r in
  safe s s' /\ same_packet pc pc' /\
  ((a = NO_ACTION /\ view s' = view s /\ packet s' = packet s) \/
   (a <> NO_ACTION /\ outcome a s s')).

Definition check_ok (pc : PacketCtx.t) (c : BPF (Z * PacketCtx.t)) : Prop :=
  forall s, ctx_ok s pc -> check_result pc s (c s).

(** An operation with no counted effect that leaves the frame alone. *)
Definition quiet {A} (m : BPF A) : Prop :=
  stable keeps m /\ forall s, packet (snd (m s)) = packet s.

Lemma quiet_intro {A} fs (m : BPF A) :
  stable keeps m -> modifies fs m -> F_packet ∉ fs -> quiet m.
Proof. intros Hk Hm Hf. split; [done|]. intros s. exact (modifies_field _ _ _ s Hm Hf). Qed.

Lemma quiet_gets {A} (f : KState -> A) : quiet (gets f).
Proof. split; [|done]. intros s. reflexivity. Qed.

Lemma same_packet_refl pc : same_packet pc pc.
Proof. by split_and!. Qed.

Lemma same_packet_trans pc1 pc2 pc3 : same_packet pc1 pc2 -> same_packet pc2 pc3 -> same_packet pc1 pc3.
Proof. unfold same_packet. intuition congruence. Qed.

Lemma ctx_ok_same s pc pc' : same_packet pc pc' -> ctx_ok s pc -> ctx_ok s pc'.
Proof. unfold same_packet, ctx_ok. intros (->&_&_&_&_&_&->&->&_) Hc. done. Qed.

Lemma ctx_ok_state s s' pc :
  tables s' = tables s -> packet s' = packet s -> ctx_ok s pc -> ctx_ok s' pc.
Proof.
  unfold ctx_ok, tables. intros Ht Hp Hc.
  assert (COOKIE_SECRETS s' = COOKIE_SECRETS s) as -> by congruence. by rewrite Hp.
Qed.

Lemma check_no_action pc : check_ok pc (no_action pc).
Proof.
  intros s _. split; [split; done|]. split; [apply same_packet_refl|]. left. done.
Qed.

(** A check may start with quiet operations and set the free fields. *)
Lemma check_bind {A} pc (m : BPF A) k :
  quiet m -> (forall a, check_ok pc (k a)) -> check_ok pc (bind m k).
Proof.
  intros [Hk Hp] Hc s Hs. unfold bind. specialize (Hk s). specialize (Hp s).
  destruct (m s) as [a s1]. cbn [snd] in *. destruct Hk as (Hv&Ht&Hi).
  specialize (Hc a s1 (ctx_ok_state _ _ _ Ht Hp Hs)).
  destruct (k a s1) as [[act pc'] s2]. destruct Hc as ([Ht2 Hi2]&Hsame&Hc).
  split; [split; [congruence|auto]|]. split; [done|].
  destruct Hc as [(->&Hv2&Hp2)|[Hna Ho]]; [left; split_and!; congruence|right; split; [done|]].
  destruct Ho as [Ha Hv2|Ha Hv2 Hp2|Ha Hv2].
  - apply out_drop; [done|congruence].
  - apply out_pass; congruence.
  - apply out_challenge; congruence.
Qed.

Lemma check_ctx pc pc' c : same_packet pc pc' -> check_ok pc' c -> check_ok pc c.
Proof.
  intros Hs Hc s Hok. specialize (Hc s (ctx_ok_same _ _ _ Hs Hok)).
  destruct (c s) as [[a pc2] s2]. destruct Hc as (Hsafe&Hs2&Hc). split; [done|].
  split; [by eapply same_packet_trans|done].
Qed.

Lemma NO_ACTION_ne : XDP_DROP <> NO_ACTION /\ XDP_TX <> NO_ACTION /\ XDP_PASS <> NO_ACTION.
Proof. by vm_compute. Qed.

Lemma check_drop_as rule count protocol pc :
  (forall g, view_of (count g) = view_of g) -> check_ok pc (drop_as rule count protocol pc).
Proof.
  intros Hcount s Hs. unfold drop_as, bind.
  set (pc' := pc <| PacketCtx.rule_id := rule |>).
  pose proof (view_with_stats_map _ count_drop s (fun g => view_of_drop protocol count g Hcount)) as Hv.
  assert (H1 : tables (snd (with_stats (fun g => inc_protocol_dropped protocol
      (count (g <| GlobalStats.total_dropped ::= inc |>))) s)) = tables s) by done.
  destruct (with_stats _ s) as [u s1] eqn:E1. assert (Htr : trust_inv s -> trust_inv s1).
  { injection E1 as _ <-. done. }
  cbn [snd] in *. pose proof (keeps_drop_packet pc' ltac:(apply Hs) s1) as (Hv2&Ht2&Hi2).
  pose proof (drop_packet_action pc' s1) as Ha. destruct NO_ACTION_ne as (N1&N2&_).
  destruct (drop_packet pc' s1) as [a s2]. cbn [fst snd] in *. cbn.
  split; [split; [congruence|auto]|]. split; [by split_and!|]. right. split; [by destruct Ha as [-> | ->]|].
  apply out_drop; [done|congruence].
Qed.

(** ** The checks *)
Ltac quiet_prim :=
  first [ apply quiet_gets
        | eapply quiet_intro; [solve [eauto with stable nocore]|solve [eauto with footprint nocore]|solve_fields] ].
Ltac check_step :=
  match goal with
  | |- check_ok _ (no_action _) => apply check_no_action
  | |- check_ok _ (drop_as _ _ _ _) => apply check_drop_as; done
  | |- check_ok _ (bind _ _) => apply check_bind; [quiet_prim|intros ?]
  | |- check_ok _ (let _ := _ in _) => cbv zeta
  | |- check_ok _ (match ?x with _ => _ end) => destruct x
  end.
Ltac check_tac := repeat check_step.

Lemma quiet_check_port_acl a b c : quiet (check_port_acl a b c).
Proof. split; [intros s; reflexivity|done]. Qed.

Lemma quiet_scan a b c : quiet (scan a b c).
Proof.
  assert (Hs : forall s, snd (scan a b c s) = s).
  { intros s. unfold scan, bind, gets. repeat case_match; try done. }
  split; intros s; rewrite Hs; done.
Qed.

Lemma check_port_acl_drop_ok n pc : check_ok pc (check_port_acl_drop n pc).
Proof.
  unfold check_port_acl_drop. destruct (_ || _); [check_tac|].
  apply check_bind; [apply quiet_check_port_acl|]. intros b. check_tac.
Qed.

Lemma check_blacklist_drop_ok pc : check_ok pc (check_blacklist_drop pc).
Proof. unfold check_blacklist_drop. check_tac. Qed.

Lemma check_fragment_drop_ok a b pc : check_ok pc (check_fragment_drop a b pc).
Proof. unfold check_fragment_drop. check_tac. Qed.

Lemma check_geoip_drop_ok a b pc : check_ok pc (check_geoip_drop a b pc).
Proof. unfold check_geoip_drop, is_geoip_blocked, is_geoip_allowed. check_tac. Qed.

Lemma check_conn_track_drop_ok a b c pc : check_ok pc (check_conn_track_drop a b c pc).
Proof. unfold check_conn_track_drop. check_tac. Qed.

Lemma check_port_rate_drop_ok a b pc : check_ok pc (check_port_rate_drop a b pc).
Proof. unfold check_port_rate_drop. check_tac. Qed.

Lemma check_l7_drop_ok n pc : check_ok pc (check_l7_drop n pc).
Proof.
  unfold check_l7_drop. destruct (_ || _); [check_tac|].
  apply check_bind; [apply quiet_scan|]. intros b. check_tac.
Qed.

Lemma quiet_limiter {A} (m : BPF A) : stable keeps m -> modifies limiter_fields m -> quiet m.
Proof. intros. by eapply quiet_intro; [done|done|solve_fields]. Qed.

Lemma check_rate_limit_drop_ok pc : check_ok pc (check_rate_limit_drop pc).
Proof. unfold check_rate_limit_drop. check_tac. Qed.

Lemma counted_ctx pc : same_packet pc (pc <| PacketCtx.rate_counted := true |>).
Proof. by split_and!. Qed.

Lemma check_udp_drop_ok a b pc : check_ok pc (check_udp_drop a b pc).
Proof.
  unfold check_udp_drop. destruct (_ || _); [check_tac|]. cbv zeta.
  assert (Ht : forall pc, check_ok pc (if nz b && negb (flag_off pc project_modules.UDP_FLOOD)
    then check_port_rate_drop (bswap 2 (PacketCtx.dport pc)) (PacketCtx.protocol pc) pc else no_action pc))
    by (intros; destruct (_ && _); [apply check_port_rate_drop_ok|apply check_no_action]).
  destruct (_ && _); [|apply Ht]. apply (check_ctx _ _ _ (counted_ctx pc)).
  apply check_bind; [quiet_prim|intros [|]; [check_tac|apply Ht]].
Qed.

Lemma check_icmp_drop_ok a b pc : check_ok pc (check_icmp_drop a b pc).
Proof.
  unfold check_icmp_drop. destruct (_ || _); [check_tac|]. cbv zeta.
  assert (Ht : forall pc, check_ok pc (if nz b && negb (flag_off pc project_modules.ICMP_FLOOD)
    then check_port_rate_drop 0 (PacketCtx.protocol pc) pc else no_action pc))
    by (intros; destruct (_ && _); [apply check_port_rate_drop_ok|apply check_no_action]).
  destruct (_ && _); [|apply Ht]. apply (check_ctx _ _ _ (counted_ctx pc)).
  apply check_bind; [quiet_prim|intros [|]; [check_tac|apply Ht]].
Qed.

(** ** The SYN proxy *)

(** [handle_syn] either leaves the frame alone or decides with a challenge or
    a drop. *)
Lemma handle_syn_cases pcr ip tcp s :
  is_Some (array_get (COOKIE_SECRETS s) 0) ->
  let r := handle_syn pcr ip tcp s in
  (fst r = NO_ACTION /\ packet (snd r) = packet s) \/ fst r = XDP_TX \/ fst r = XDP_DROP.
Proof.
  intros [secret Hsec]. cbv zeta. unfold handle_syn. rewrite bind_gets.
  destruct (negb (is_syn_flags _)); [by left|]. cbv zeta.
  pose proof (modifies_is_challenged (IpHdr.saddr (load_IpHdr (packet s) ip)) (PacketCtxRef.now_ns pcr)) as Hm.
  pose proof (modifies_field _ _ F_packet s Hm ltac:(solve_fields)) as Hp.
  pose proof (modifies_field _ _ F_TABLES s Hm ltac:(solve_fields)) as Htab. unfold field_eq in Hp, Htab.
  unfold bind at 1 2 3 4. destruct (is_challenged_or_trigger _ _ s) as [c s1]. cbn [fst snd] in *.
  destruct c; cbn [negb]; [|left; split; [done|exact Hp]].
  destruct (negb _); [by right; right|]. destruct (negb _); [by right; right|].
  destruct (negb _); [by right; right|].
  assert (Hsec1 : COOKIE_SECRETS s1 = COOKIE_SECRETS s) by (unfold tables in Htab; congruence).
  unfold syn_challenge. cbv zeta. rewrite bind_gets.
  destruct (ptr_at_mut EthHdr.size _ _); [|left; split; [done|exact Hp]].
  destruct (ptr_at_mut IpHdr.size _ _); [|left; split; [done|exact Hp]].
  destruct (ptr_at_mut TcpHdr.size _ _); [|left; split; [done|exact Hp]].
  destruct (_ && _); [left; split; [done|exact Hp]|].
  rewrite bind_gets, Hsec1, Hsec. right. unfold bind.
  destruct (send_synack _ _ _ _ _ s1) as [[] s2]; [by left|by right].
Qed.

Lemma handle_ack_cases pcr ip tcp s :
  fst (handle_ack pcr ip tcp s) = NO_ACTION \/ fst (handle_ack pcr ip tcp s) = XDP_PASS.
Proof.
  unfold handle_ack. rewrite bind_gets. destruct (_ || _); [by left|]. cbv zeta. rewrite bind_gets.
  destruct (lru_get _ _); [|by left]. destruct (negb _); [by left|]. rewrite bind_gets.
  destruct (array_get _ _); [|by left]. destruct (cookie_valid _ _ _ _ _ _ _ _ _ _); [by right|by left].
Qed.

(** The pass of a check: count it and sample the trust. *)
Lemma pass_effect src now d s :
  0 <= d < 2 ^ 32 ->
  let s1 := snd ((let* _ := with_stats (setter GlobalStats.total_passed inc) in
                  trust_pass_sampled src now d) s) in
  safe s s1 /\ view s1 = option_map count_pass (view s) /\ packet s1 = packet s.
Proof.
  intros Hd. cbv zeta. unfold bind.
  pose proof (view_with_stats_map (setter GlobalStats.total_passed inc) count_pass s ltac:(done)) as Hv.
  destruct (with_stats _ s) as [u s1] eqn:E. injection E as _ <-. cbn [snd] in Hv.
  set (s1 := s <| GLOBAL_STATS ::= _ |>) in *.
  assert (Hk : stable keeps (trust_pass_sampled src now d)) by (by apply keeps_trust_pass_sampled).
  destruct (Hk s1) as (Hv2&Ht2&Hi2).
  assert (Hm : modifies [F_TRUST_MAP; F_GLOBAL_STATS] (trust_pass_sampled src now d)).
  { assert (forall w, modifies [F_TRUST_MAP; F_GLOBAL_STATS] (trust_pass src now d w))
      by (intros; eapply modifies_weaken; [apply modifies_trust_pass|solve_fields]).
    unfold trust_pass_sampled. footprint. }
  pose proof (modifies_field _ _ F_packet s1 Hm ltac:(solve_fields)) as Hp. unfold field_eq in Hp.
  split; [split; [by rewrite Ht2|intros H; by apply Hi2]|]. split; [by rewrite Hv2|done].
Qed.

Lemma with_stats_state f s : snd (with_stats f s) =
  s <| GLOBAL_STATS ::= fun l => match l with [] => [] | g :: l' => f g :: l' end |>.
Proof. done. Qed.

Lemma check_syn_proxy_ok ip tcp pc : check_ok pc (check_syn_proxy ip tcp pc).
Proof.
  unfold check_syn_proxy. apply check_bind; [apply quiet_gets|]. intros p. cbv zeta.
  set (pc1 := if TcpHdr.is_syn _ then _ else pc).
  assert (Hpc1 : same_packet pc pc1) by (unfold pc1; case_match; [apply counted_ctx|apply same_packet_refl]).
  apply (check_ctx _ _ _ Hpc1). clearbody pc1. clear Hpc1 pc p.
  set (pcr := PacketCtxRef.mk _ _). intros s Hs.
  destruct NO_ACTION_ne as (N1&N2&N3).
  destruct (keeps_handle_syn pcr ip tcp s) as (Hv&Ht&Hi).
  pose proof (handle_syn_cases pcr ip tcp s ltac:(apply Hs)) as Hcases. cbv zeta in Hcases.
  unfold bind at 1. destruct (handle_syn pcr ip tcp s) as [a s1]. cbn [fst snd] in *.
  destruct Hcases as [[-> Hp]|Ha].
  - rewrite Z.eqb_refl. cbn [negb].
    pose proof (ctx_ok_state _ _ _ Ht Hp Hs) as Hs1.
    destruct (keeps_handle_ack pcr ip tcp s1) as (Hv1&Ht1&Hi1).
    pose proof (handle_ack_cases pcr ip tcp s1) as Hcases.
    pose proof (modifies_field _ _ F_packet s1 (modifies_handle_ack pcr ip tcp) ltac:(solve_fields)) as Hp1.
    unfold field_eq in Hp1. unfold bind at 1. destruct (handle_ack pcr ip tcp s1) as [b s2]. cbn [fst snd] in *.
    destruct Hcases as [-> | ->].
    + rewrite Z.eqb_refl. cbn [negb no_action ret]. split; [split; [congruence|auto]|].
      split; [apply same_packet_refl|]. left. split_and!; congruence.
    + destruct (Z.eqb_spec XDP_PASS NO_ACTION); [done|]. cbn [negb].
      pose proof (pass_effect (PacketCtx.src pc1) (PacketCtx.now_ns pc1) (PacketCtx.trust_add_divisor pc1) s2
        ltac:(apply Hs)) as Hpass. unfold bind in Hpass |- *. cbv zeta in Hpass.
      destruct (with_stats _ s2) as [u s3]. destruct (trust_pass_sampled _ _ _ s3) as [u' s4].
      cbn [snd fst ret] in *. destruct Hpass as ([Ht3 Hi3]&Hv3&Hp3).
      split; [split; [congruence|auto]|]. split; [apply same_packet_refl|]. right. split; [done|].
      apply out_pass; congruence.
  - assert (Hna : a <> NO_ACTION) by (destruct Ha as [-> | ->]; done).
    destruct (Z.eqb_spec a NO_ACTION); [done|]. cbn [negb]. unfold bind.
    set (f := fun g : GlobalStats.t => _). pose proof (with_stats_state f s1) as Hst.
    destruct (with_stats f s1) as [u s2] eqn:E. cbn [snd] in Hst. cbn [ret].
    assert (Hsafe2 : safe s s2).
    { rewrite Hst. split; [exact Ht|]. intros H. exact (Hi H). }
    split; [done|]. split; [by split_and!|]. right. split; [done|].
    destruct Ha as [-> | ->].
    + apply out_challenge; [done|]. rewrite <- Hv, Hst. apply view_with_stats. intros g. done.
    + apply out_drop; [by left|]. rewrite <- Hv, Hst.
      apply (view_with_stats_map f count_drop s1). intros g. unfold f.
      destruct (Z.eqb_spec XDP_DROP XDP_TX); [done|]. cbn [negb].
      rewrite <- (view_of_drop IPPROTO_TCP (setter GlobalStats.syn_flood_blocked inc) g) by done.
      destruct g; reflexivity.
Qed.

Lemma check_tcp_drop_ok a b pc : check_ok pc (check_tcp_drop a b pc).
Proof.
  unfold check_tcp_drop. destruct (_ || _); [check_tac|].
  assert (Ht : forall pc, check_ok pc (if nz b && negb (flag_off pc project_modules.SYN_FLOOD)
    then check_port_rate_drop (bswap 2 (PacketCtx.dport pc)) IPPROTO_TCP pc else no_action pc))
    by (intros; destruct (_ && _); [apply check_port_rate_drop_ok|apply check_no_action]).
  intros s Hs. rewrite bind_gets. cbv zeta.
  destruct ((IpKey.family (PacketCtx.src pc) =? IpFamily_as_u8 Ipv4) && nz a) eqn:Hf.
  - apply andb_true_iff in Hf as [Hf _]. apply Z.eqb_eq in Hf.
    assert (Hl : (34 <= length (packet s))%nat) by (by apply Hs).
    rewrite (ptr_at_in IpHdr.size (packet s) ETH_HDR_LEN) by exact Hl.
    destruct (ptr_at TcpHdr.size _ _); [by apply check_syn_proxy_ok|by apply check_no_action].
  - destruct (ptr_at TcpHdr.size _ _) as [tcp|]; [|by apply Ht].
    set (pc1 := if TcpHdr.is_syn _ then _ else pc).
    assert (Hpc1 : same_packet pc pc1) by (unfold pc1; case_match; [apply counted_ctx|apply same_packet_refl]).
    apply (check_ctx _ _ _ Hpc1); [|done].
    apply check_bind; [quiet_prim|intros [|]; [check_tac|apply Ht]].
Qed.

Lemma check_project_policy_ok pc : check_ok pc (check_project_policy pc).
Proof.
  unfold check_project_policy. apply check_bind; [apply quiet_gets|]. intros [rt|]; [|check_tac].
  destruct (_ || _); [check_tac|]. destruct (negb _); [check_tac|].
  apply check_bind; [apply quiet_gets|]. intros p. destruct (ptr_at _ _ _); [|check_tac]. cbv zeta.
  apply check_bind; [apply quiet_gets|]. intros [policy|]; [|check_tac].
  destruct (_ =? project_action.PASS).
  - intros s Hs.
    pose proof (pass_effect (PacketCtx.src pc) (PacketCtx.now_ns pc) (PacketCtx.trust_add_divisor pc) s
      ltac:(apply Hs)) as Hpass. unfold bind in Hpass |- *. cbv zeta in Hpass.
    change (PacketCtx.src (pc <| PacketCtx.rule_id := _ |>)) with (PacketCtx.src pc).
    change (PacketCtx.now_ns (pc <| PacketCtx.rule_id := _ |>)) with (PacketCtx.now_ns pc).
    change (PacketCtx.trust_add_divisor (pc <| PacketCtx.rule_id := _ |>)) with (PacketCtx.trust_add_divisor pc).
    destruct (with_stats _ s) as [u s3]. destruct (trust_pass_sampled _ _ _ s3) as [u' s4].
    cbn [snd fst ret] in *. destruct Hpass as (Hsafe&Hv3&Hp3).
    split; [done|]. split; [by split_and!|]. right. split; [apply NO_ACTION_ne|]. by apply out_pass.
  - destruct (_ =? project_action.DROP); [check_tac|].
    destruct (_ =? project_action.DEFEND); [|check_tac].
    eapply check_ctx; [|apply check_no_action]. by split_and!.
Qed.

(** ** Stages *)
Definition final_ok (pc : PacketCtx.t) (m : BPF Z) : Prop :=
  forall s, ctx_ok s pc -> safe s (snd (m s)) /\ outcome (fst (m s)) s (snd (m s)).

Lemma final_ctx pc pc' m : same_packet pc pc' -> final_ok pc' m -> final_ok pc m.
Proof. intros Hs Hm s Hok. apply Hm. by eapply ctx_ok_same. Qed.

Lemma outcome_quiet a s1 s2 s2' :
  view s2' = view s2 -> packet s2' = packet s2 -> outcome a s1 s2 -> outcome a s1 s2'.
Proof.
  intros Hv Hp [Ha H|Ha H H'|Ha H]; [apply out_drop|apply out_pass|apply out_challenge]; congruence || done.
Qed.

Lemma outcome_start a s1 s1' s2 :
  view s1' = view s1 -> packet s1' = packet s1 -> outcome a s1' s2 -> outcome a s1 s2.
Proof.
  intros Hv Hp [Ha H|Ha H H'|Ha H]; [apply out_drop|apply out_pass|apply out_challenge]; congruence || done.
Qed.

Lemma stage_ok pc c next :
  check_ok pc c -> (forall pc', same_packet pc pc' -> final_ok pc' (next pc')) ->
  final_ok pc (stage c next).
Proof.
  intros Hc Hn s Hs. unfold stage, bind. specialize (Hc s Hs).
  destruct (c s) as [[a pc'] s1]. destruct Hc as ([Ht Hi]&Hsame&[(->&Hv&Hp)|[Hna Ho]]).
  - rewrite Z.eqb_refl. cbn [negb].
    destruct (Hn pc' Hsame s1 (ctx_ok_same _ _ _ Hsame (ctx_ok_state _ _ _ Ht Hp Hs))) as ([Ht2 Hi2]&Ho).
    split; [split; [congruence|auto]|]. by eapply outcome_start.
  - destruct (Z.eqb_spec a NO_ACTION); [done|]. cbn [negb].
    destruct (keeps_log_packet_sample pc' a s1) as (Hv2&Ht2&Hi2).
    pose proof (modifies_field _ _ F_packet s1 (modifies_log_packet_sample pc' a) ltac:(solve_fields)) as Hp2.
    unfold field_eq in Hp2. destruct (log_packet_sample pc' a s1) as [u s2]. cbn [fst snd ret] in *.
    split; [split; [congruence|auto]|]. by eapply outcome_quiet.
Qed.

Lemma pass_ok pc :
  final_ok pc (pass (PacketCtx.src pc) (PacketCtx.now_ns pc) (PacketCtx.trust_add_divisor pc)).
Proof.
  intros s Hs. unfold pass.
  pose proof (pass_effect (PacketCtx.src pc) (PacketCtx.now_ns pc) (PacketCtx.trust_add_divisor pc) s
    ltac:(apply Hs)) as Hpass. unfold bind in Hpass |- *. cbv zeta in Hpass.
  destruct (with_stats _ s) as [u s3]. destruct (trust_pass_sampled _ _ _ s3) as [u' s4].
  cbn [snd fst ret] in *. destruct Hpass as (Hsafe&Hv3&Hp3). split; [done|]. by apply out_pass.
Qed.

Lemma pipeline_ok runtime pc : final_ok pc (pipeline runtime pc).
Proof.
  unfold pipeline.
  apply stage_ok; [apply check_port_acl_drop_ok|intros pc1 _].
  apply stage_ok; [apply check_blacklist_drop_ok|intros pc2 _].
  apply stage_ok; [apply check_fragment_drop_ok|intros pc3 _].
  apply stage_ok; [apply check_project_policy_ok|intros pc4 _].
  apply stage_ok; [apply check_geoip_drop_ok|intros pc5 _].
  apply stage_ok; [apply check_conn_track_drop_ok|intros pc6 _].
  apply stage_ok; [destruct (_ =? _); [apply check_tcp_drop_ok|apply check_no_action]|intros pc7 _].
  apply stage_ok; [apply check_udp_drop_ok|intros pc8 _].
  apply stage_ok; [apply check_icmp_drop_ok|intros pc9 _].
  apply stage_ok; [destruct (nz _); [apply check_l7_drop_ok|apply check_no_action]|intros pc10 _].
  apply stage_ok; [apply check_rate_limit_drop_ok|intros pc11 _].
  apply pass_ok.
Qed.
End Pipeline.
