(* ===== verification/DataPlaneProps.v ===== *)
(** * DataPlaneProps: what the packet program guarantees

    The theorems about [try_eshield]: accounting, memory of the control plane,
    precedence of the white and black lists, fragments, and the frames that
    pass by. *)
From stdpp Require Import sets.
From S2P Require Import Prelude Words Common Pure Parser Maps Wire Footprint Trust Blacklist RateCounter Limits Filters TcpReset SynCookie CookieProtocol DataPlane Accounting Pipeline.
#[local] Open Scope Z_scope.

Section Props.
Context {KN : Kernel} {KL : KernelLaws}.

(** The control plane has written a configuration in range and the secrets. *)
Definition configured (s : KState) (runtime : RuntimeConfig.t) : Prop :=
  array_get (CONFIG s) 0 = Some runtime /\
  0 <= RuntimeConfig.trust_add_divisor runtime < 2 ^ 32 /\
  0 <= RuntimeConfig.trust_sub_divisor runtime < 2 ^ 32 /\
  is_Some (array_get (COOKIE_SECRETS s) 0).

(** ** Parsing *)
Lemma parse_frame_family p r :
  parse_frame p = Some r ->
  (IpKey.family (Parsed.src r) = 4 /\ (34 <= length p)%nat /\
   Parsed.src r = from_ipv4 (le_bytes 4 (IpHdr.saddr (load_IpHdr p 14)))) \/
  (IpKey.family (Parsed.src r) = 6 /\
   Parsed.src r = from_ipv6 (Ipv6Hdr.saddr (load_Ipv6Hdr p 14))).
Proof.
  unfold parse_frame. destruct (ptr_at EthHdr.size p 0) as [e|] eqn:Ee; [|done]. cbn [mbind option_bind].
  destruct (_ =? ETH_P_IP).
  - unfold parse_ipv4. destruct (ptr_at IpHdr.size p ETH_HDR_LEN) as [ip|] eqn:Ei; [|done].
    apply ptr_at_Some in Ei as [-> Hl]. cbn [mbind option_bind]. change (ETH_HDR_LEN + IpHdr.size)%nat with 34%nat in Hl.
    destruct (_ <? _)%nat; [done|]. destruct (negb _).
    + intros [= <-]. by left.
    + destruct (read_ports _ _ _); [|done]. cbn [mbind option_bind]. intros [= <-]. by left.
  - destruct (_ =? ETH_P_IPV6); [|done]. unfold parse_ipv6.
    destruct (ptr_at Ipv6Hdr.size p ETH_HDR_LEN) as [ip|] eqn:Ei; [|done].
    apply ptr_at_Some in Ei as [-> Hl]. cbn [mbind option_bind].
    destruct (read_ports _ _ _); [|done]. cbn [mbind option_bind]. intros [= <-]. by right.
Qed.

(** Membership of an address in a pair of prefix tables. *)
Definition covered (v4 v6 : list LpmEntry.t) (src : IpKey.t) : Prop :=
  match IpKey_family src with
  | Some Ipv4 => Exists (fun e => lpm_matches e 32 (slice 12 4 (IpKey.addr src)) = true) v4
  | Some Ipv6 => Exists (fun e => lpm_matches e 128 (IpKey.addr src) = true) v6
  | None => False
  end.

Lemma lpm_member_covered v4 v6 p r :
  parse_frame p = Some r -> (lpm_member v4 v6 (Parsed.src r) = true <-> covered v4 v6 (Parsed.src r)).
Proof.
  intros Hp. unfold lpm_member, covered.
  destruct (parse_frame_family p r Hp) as [(_&_&->)|(_&->)].
  - rewrite from_ipv4_family, bool_decide_eq_true, lpm_get_spec.
    rewrite ipv4_from_ipv4 by apply length_le_bytes. unfold WhitelistKeyV4.
    rewrite le_bytes_bswap. set (a := IpHdr.saddr _).
    replace (be_bytes 4 (be_val (le_bytes 4 a))) with (slice 12 4 (IpKey.addr (from_ipv4 (le_bytes 4 a)))); [done|].
    unfold slice, from_ipv4. cbn [IpKey.addr]. rewrite drop_app_length' by done.
    rewrite take_ge by (rewrite length_le_bytes; lia). unfold be_bytes, be_val.
    rewrite <- (length_le_bytes 4 a) at 2. rewrite <- (length_reverse (le_bytes 4 a)), le_bytes_le_val;
      [by rewrite reverse_involutive|apply bytes_ok_reverse, le_bytes_ok].
  - by rewrite from_ipv6_family, bool_decide_eq_true, lpm_get_spec.
Qed.

(** The state in which the pipeline starts: one clock read, one packet counted. *)
Definition counted (s : KState) : KState :=
  snd (with_stats (setter GlobalStats.total_packets inc) (s <| ktime_calls ::= S |>)).

Lemma try_eshield_run s r runtime :
  parse_frame (packet s) = Some r -> array_get (CONFIG s) 0 = Some runtime ->
  try_eshield s =
    let pc := packet_ctx r (ktime_get_ns (ktime_calls s)) runtime in
    if lpm_member (WHITELIST_V4 s) (WHITELIST_V6 s) (Parsed.src r) then
      pass (PacketCtx.src pc) (PacketCtx.now_ns pc) (PacketCtx.trust_add_divisor pc) (counted s)
    else pipeline runtime pc (counted s).
Proof.
  intros Hp Hc. unfold try_eshield. rewrite bind_gets, Hp. cbv zeta.
  unfold bind, get_ktime_ns, gets, is_whitelisted. cbn. rewrite Hc. cbn.
  by destruct (lpm_member _ _ _).
Qed.

Lemma counted_view s : view (counted s) = option_map count_total (view s).
Proof.
  unfold counted. rewrite (view_with_stats_map _ count_total); [|done].
  by change (view (s <| ktime_calls ::= S |>)) with (view s).
Qed.

Lemma packet_ctx_ok s r now runtime :
  parse_frame (packet s) = Some r -> configured s runtime ->
  ctx_ok (counted s) (packet_ctx r now runtime).
Proof.
  intros Hp (_&H1&H2&H3). unfold ctx_ok. cbn [packet_ctx PacketCtx.trust_add_divisor
    PacketCtx.trust_sub_divisor PacketCtx.src]. split_and!; [lia|lia|lia| |done].
  intros Hf. destruct (parse_frame_family _ _ Hp) as [(_&Hl&_)|(Hf'&_)]; [done|congruence].
Qed.

Lemma try_eshield_outcome s r runtime :
  parse_frame (packet s) = Some r -> configured s runtime ->
  safe (counted s) (snd (try_eshield s)) /\
  outcome (fst (try_eshield s)) (counted s) (snd (try_eshield s)).
Proof.
  intros Hp Hc. pose proof (packet_ctx_ok s r (ktime_get_ns (ktime_calls s)) runtime Hp Hc) as Hok.
  rewrite (try_eshield_run s r runtime Hp (proj1 Hc)). cbv zeta.
  destruct (lpm_member _ _ _); [by apply pass_ok|by apply pipeline_ok].
Qed.

Lemma try_eshield_unparsed s : parse_frame (packet s) = None -> try_eshield s = (XDP_PASS, s).
Proof. intros H. unfold try_eshield. by rewrite bind_gets, H. Qed.

(** C2: every parsed packet is counted once and decided once.  Under a
    configuration in range, the answer is one of
    - pass: one more packet received and one more passed, the frame untouched;
    - drop, or a reset sent back: one more received, one more dropped, and one
      more in the sum of the drops by protocol;
    - a SYN challenge sent back: one more received. *)
Theorem try_eshield_accounting s r runtime :
  parse_frame (packet s) = Some r -> configured s runtime ->
  let action := fst (try_eshield s) in
  let s' := snd (try_eshield s) in
  (action = XDP_PASS /\ view s' = option_map (fun v => count_pass (count_total v)) (view s) /\
     packet s' = packet s) \/
  ((action = XDP_DROP \/ action = XDP_TX) /\
     view s' = option_map (fun v => count_drop (count_total v)) (view s)) \/
  (action = XDP_TX /\ view s' = option_map count_total (view s)).
Proof.
  intros Hp Hc. cbv zeta. destruct (try_eshield_outcome s r runtime Hp Hc) as [_ Ho].
  pose proof (counted_view s) as Hv.
  destruct Ho as [Ha H|Ha H H'|Ha H]; rewrite Hv in H; rewrite H.
  - right. left. split; [done|]. by destruct (view s).
  - left. split; [done|]. split; [by destruct (view s)|]. by rewrite H'.
  - right. right. by destruct (view s).
Qed.

(** Dropped packets are the sum of the dropped packets by protocol. *)
Definition drops_agree (s : KState) : Prop :=
  forall v, view s = Some v -> View.dropped v = View.by_protocol v.

(** the statistics stay consistent: if the number of dropped packets equals
    the sum of the dropped TCP, UDP, ICMP and other packets (as 64-bit
    counters), it does so after any frame. *)
Theorem try_eshield_drops_agree s runtime :
  configured s runtime -> drops_agree s -> drops_agree (snd (try_eshield s)).
Proof.
  intros Hc Hs. destruct (parse_frame (packet s)) as [r|] eqn:Hp; [|by rewrite try_eshield_unparsed].
  destruct (try_eshield_outcome s r runtime Hp Hc) as [_ Ho]. pose proof (counted_view s) as Hv.
  unfold drops_agree in *.
  destruct Ho as [Ha H|Ha H H'|Ha H]; rewrite Hv in H; rewrite H; destruct (view s) as [v|]; cbn;
    intros w [= <-]; cbn; rewrite (Hs v eq_refl); done.
Qed.

(** the packet program never writes what the control plane owns (the
    address tries, the configuration and limit tables, the secrets, patterns,
    ACL and project policies), and keeps every trust score between 0 and 1000
    with its level consistent. *)
Theorem try_eshield_safe s runtime :
  configured s runtime ->
  tables (snd (try_eshield s)) = tables s /\ (trust_inv s -> trust_inv (snd (try_eshield s))).
Proof.
  intros Hc. destruct (parse_frame (packet s)) as [r|] eqn:Hp; [|by rewrite try_eshield_unparsed].
  destruct (try_eshield_outcome s r runtime Hp Hc) as [[Ht Hi] _].
  split; [by rewrite Ht|]. intros H. by apply Hi.
Qed.

(** ** Precedence *)
Lemma modifies_pass src now d : modifies [F_GLOBAL_STATS; F_TRUST_MAP] (pass src now d).
Proof.
  assert (forall w, modifies [F_GLOBAL_STATS; F_TRUST_MAP] (trust_pass src now d w))
    by (intros; eapply modifies_weaken; [apply modifies_trust_pass|solve_fields]).
  unfold pass, trust_pass_sampled. footprint.
Qed.

(** the white list comes first.  A packet whose source lies in a
    white-listed prefix passes whatever the other tables say, even if the
    source is blocked, and only the statistics and the trust map are written:
    neither the black list, nor a counter, nor the frame. *)
Theorem whitelist_passes s r runtime :
  parse_frame (packet s) = Some r -> array_get (CONFIG s) 0 = Some runtime ->
  covered (WHITELIST_V4 s) (WHITELIST_V6 s) (Parsed.src r) ->
  fst (try_eshield s) = XDP_PASS /\
  same_except [F_GLOBAL_STATS; F_TRUST_MAP; F_ktime] s (snd (try_eshield s)).
Proof.
  intros Hp Hc Hw. rewrite (try_eshield_run s r runtime Hp Hc). cbv zeta.
  apply (lpm_member_covered _ _ _ _ Hp) in Hw. rewrite Hw. split.
  - unfold pass, bind. destruct (with_stats _ _). by destruct (trust_pass_sampled _ _ _ _).
  - set (pc := packet_ctx _ _ _).
    pose proof (modifies_pass (PacketCtx.src pc) (PacketCtx.now_ns pc) (PacketCtx.trust_add_divisor pc)
      (counted s)) as Hm.
    transitivity (counted s).
    + intros f Hf. destruct f; try done; exfalso; set_solver.
    + eapply same_except_weaken; [|exact Hm]. solve_fields.
Qed.

Lemma drop_as_action rule count protocol pc s :
  (fst (fst (drop_as rule count protocol pc s)) = XDP_DROP \/
   fst (fst (drop_as rule count protocol pc s)) = XDP_TX).
Proof.
  unfold drop_as, bind. destruct (with_stats _ s) as [u s1].
  pose proof (drop_packet_action (pc <| PacketCtx.rule_id := rule |>) s1) as Ha.
  by destruct (drop_packet _ s1).
Qed.

(** A stage that decides to drop decides the packet. *)
Lemma stage_decides c next s a pc' s1 :
  c s = ((a, pc'), s1) -> a <> NO_ACTION -> fst (stage c next s) = a.
Proof.
  intros Hc Ha. unfold stage, bind. rewrite Hc. destruct (Z.eqb_spec a NO_ACTION); [done|]. cbn [negb].
  by destruct (log_packet_sample pc' a s1).
Qed.

(** A check of the form "if hit then drop": a hit drops. *)
Lemma stage_drop_as rule count protocol pc next s :
  fst (stage (drop_as rule count protocol pc) next s) = XDP_DROP \/
  fst (stage (drop_as rule count protocol pc) next s) = XDP_TX.
Proof.
  pose proof (drop_as_action rule count protocol pc s) as Ha. destruct NO_ACTION_ne as (N1&N2&_).
  destruct (drop_as rule count protocol pc s) as [[a pc'] s1] eqn:E. cbn [fst] in Ha.
  rewrite (stage_decides _ _ _ _ _ _ E) by (by destruct Ha as [-> | ->]). done.
Qed.

Lemma stage_skip pc next s : stage (no_action pc) next s = next pc s.
Proof. unfold stage. unfold no_action. rewrite bind_ret. by rewrite Z.eqb_refl. Qed.

Lemma stage_bind {A} (m : BPF A) k next s a s1 :
  m s = (a, s1) -> stage (bind m k) next s = stage (k a) next s1.
Proof. intros Hm. unfold stage. unfold bind at 1 2 3. by rewrite Hm. Qed.

(** The ACL stage either drops or leaves everything as it is. *)
Lemma port_acl_stage n pc next s :
  (fst (stage (check_port_acl_drop n pc) next s) = XDP_DROP \/
   fst (stage (check_port_acl_drop n pc) next s) = XDP_TX) \/
  stage (check_port_acl_drop n pc) next s = next pc s.
Proof.
  unfold check_port_acl_drop. destruct (_ || _); [right; apply stage_skip|].
  assert (E : exists b, check_port_acl (PacketCtx.protocol pc) (PacketCtx.dport pc) n s = (b, s))
    by (eexists; unfold check_port_acl, bind, gets; done).
  destruct E as [b E]. rewrite (stage_bind _ _ _ _ _ _ E).
  destruct b; [left; apply stage_drop_as|right; apply stage_skip].
Qed.

(** C1: a blocked source gets nothing through.  If a packet's source is under a
    block in force and not white-listed, the packet is dropped or answered with
    a reset; no project policy, no other module can let it pass. *)
Theorem blocked_source_dropped s r runtime :
  parse_frame (packet s) = Some r -> array_get (CONFIG s) 0 = Some runtime ->
  ~ covered (WHITELIST_V4 s) (WHITELIST_V6 s) (Parsed.src r) ->
  blocked_at s (Parsed.src r) (ktime_get_ns (ktime_calls s)) = true ->
  fst (try_eshield s) = XDP_DROP \/ fst (try_eshield s) = XDP_TX.
Proof.
  intros Hp Hc Hw Hb. rewrite (try_eshield_run s r runtime Hp Hc). cbv zeta.
  rewrite <- (lpm_member_covered _ _ _ _ Hp) in Hw. apply not_true_is_false in Hw. rewrite Hw.
  unfold pipeline. set (pc := packet_ctx _ _ _).
  match goal with |- fst (stage ?c ?n ?s0) = _ \/ _ => destruct (port_acl_stage
    (Z.min (RuntimeConfig.port_acl_count runtime) MAX_PORT_ACL) pc n s0) as [H|H]; [exact H|rewrite H] end.
  cbv beta. unfold check_blacklist_drop.
  pose proof (is_blacklisted_result (PacketCtx.src pc) (PacketCtx.now_ns pc) (counted s)) as Hr.
  change (blocked_at (counted s) (PacketCtx.src pc) (PacketCtx.now_ns pc))
    with (blocked_at s (Parsed.src r) (ktime_get_ns (ktime_calls s))) in Hr. rewrite Hb in Hr.
  destruct (is_blacklisted _ _ (counted s)) as [b s1] eqn:E. cbn [fst] in Hr. subst b.
  rewrite (stage_bind _ _ _ _ _ _ E). apply stage_drop_as.
Qed.

(** fragments.  With the fragment policy "drop", a later fragment of an IPv4
    datagram, for which no ports can be read, never reaches the host unless its
    source is white-listed: it is dropped or answered with a reset. *)
Theorem fragment_dropped s r runtime :
  parse_frame (packet s) = Some r -> array_get (CONFIG s) 0 = Some runtime ->
  ~ covered (WHITELIST_V4 s) (WHITELIST_V6 s) (Parsed.src r) ->
  Parsed.fragment r = true -> RuntimeConfig.fragment_policy runtime = 2 ->
  fst (try_eshield s) = XDP_DROP \/ fst (try_eshield s) = XDP_TX.
Proof.
  intros Hp Hc Hw Hf Hpol. rewrite (try_eshield_run s r runtime Hp Hc). cbv zeta.
  rewrite <- (lpm_member_covered _ _ _ _ Hp) in Hw. apply not_true_is_false in Hw. rewrite Hw.
  unfold pipeline. set (pc := packet_ctx _ _ _).
  unfold check_port_acl_drop. change (PacketCtx.fragment pc) with (Parsed.fragment r).
  rewrite Hf, orb_true_r, stage_skip. unfold check_blacklist_drop.
  destruct (is_blacklisted (PacketCtx.src pc) (PacketCtx.now_ns pc) (counted s)) as [b s1] eqn:E.
  rewrite (stage_bind _ _ _ _ _ _ E). destruct b; [apply stage_drop_as|]. rewrite stage_skip.
  unfold check_fragment_drop. change (PacketCtx.fragment pc) with (Parsed.fragment r).
  rewrite Hf, Hpol. cbn [negb orb Z.eqb Pos.eqb]. apply stage_drop_as.
Qed.

(** frames that are not for this program.  A frame without a full Ethernet
    header, of another protocol than IPv4 and IPv6, with an incomplete IP
    header, or an IPv4 header length below 20, passes, and nothing at all is
    changed or counted. *)
Theorem foreign_frame_passes s :
  let p := packet s in
  let proto := EthHdr.proto (load_EthHdr p 0) in
  (length p < 14)%nat \/ (proto <> ETH_P_IP /\ proto <> ETH_P_IPV6) \/
  (proto = ETH_P_IP /\ (length p < 34)%nat) \/ (proto = ETH_P_IPV6 /\ (length p < 54)%nat) \/
  (proto = ETH_P_IP /\ Z.land (IpHdr.ver_ihl (load_IpHdr p 14)) 0x0f < 5) ->
  try_eshield s = (XDP_PASS, s).
Proof.
  intros p proto H. apply try_eshield_unparsed. fold p. unfold parse_frame.
  destruct (ptr_at EthHdr.size p 0) as [e|] eqn:Ee; [|done]. cbn [mbind option_bind].
  apply ptr_at_Some in Ee as [-> Hl]. change (0 + EthHdr.size)%nat with 14%nat in Hl. fold proto.
  destruct (Z.eqb_spec proto ETH_P_IP) as [E4|E4].
  - unfold parse_ipv4. destruct (ptr_at IpHdr.size p ETH_HDR_LEN) as [ip|] eqn:Ei; [|done].
    apply ptr_at_Some in Ei as [-> Hl4]. change (ETH_HDR_LEN + IpHdr.size)%nat with 34%nat in Hl4.
    cbn [mbind option_bind]. change ETH_HDR_LEN with 14%nat. change IP_HDR_LEN with 20%nat.
    destruct H as [H|[H|[H|[H|[_ H]]]]]; [lia|tauto|lia| |].
    + destruct H as [H _]. exfalso. assert (ETH_P_IP = ETH_P_IPV6) by congruence. by vm_compute in H0.
    + destruct (Nat.ltb_spec (Z.to_nat (Z.land (IpHdr.ver_ihl (load_IpHdr p 14)) 15) * 4) 20); [done|lia].
  - destruct (Z.eqb_spec proto ETH_P_IPV6) as [E6|E6]; [|done]. unfold parse_ipv6.
    destruct (ptr_at Ipv6Hdr.size p ETH_HDR_LEN) as [ip|] eqn:Ei; [|done].
    apply ptr_at_Some in Ei as [-> Hl6]. change (ETH_HDR_LEN + Ipv6Hdr.size)%nat with 54%nat in Hl6.
    destruct H as [H|[H|[H|[H|[H _]]]]]; [lia|tauto|tauto|lia|tauto].
Qed.
End Props.

(** ** Evaluated instances *)
Module DataPlaneWitness.
Import Samples TcpResetWitness.

Definition s0 : @KState kernel := state segment.
Definition parsed : Parsed.t := Parsed.mk alice 6 20 1234 80 false.

Lemma s0_parsed : parse_frame (packet s0) = Some parsed.
Proof. vm_compute. reflexivity. Qed.

Lemma s0_configured : configured s0 config.
Proof. split_and!; [reflexivity|vm_compute; congruence|vm_compute; congruence|vm_compute; congruence|vm_compute; congruence|by eexists]. Qed.

Lemma try_eshield_accounting_witness :
  fst (@try_eshield kernel s0) = XDP_PASS /\ packet (snd (@try_eshield kernel s0)) = segment.
Proof.
  assert (Ha : fst (@try_eshield kernel s0) = XDP_PASS) by (vm_compute; reflexivity).
  split; [exact Ha|].
  destruct (try_eshield_accounting (KL := kernel_laws) s0 parsed config s0_parsed s0_configured)
    as [(_&_&Hp)|[([H|H]&_)|(H&_)]]; [exact Hp|..]; rewrite Ha in H; discriminate H.
Defined.

Lemma try_eshield_drops_agree_witness : drops_agree (snd (@try_eshield kernel s0)).
Proof.
  apply (try_eshield_drops_agree (KL := kernel_laws) s0 config s0_configured).
  intros v [= <-]. reflexivity.
Defined.

Lemma try_eshield_safe_witness : trust_inv (snd (@try_eshield kernel s0)).
Proof.
  apply (try_eshield_safe (KL := kernel_laws) s0 config s0_configured). intros k v [=].
Defined.

(** 10.0.0.0/8 is white-listed, and 10.0.0.1 is blocked for good. *)
Definition ten : LpmEntry.t := LpmEntry.mk 8 [10; 0; 0; 0] 1.
Definition blocked_only : @KState kernel := snd (@add_to_blacklist kernel alice 0 0 rules.API_BLOCK s0).
Definition blocked_white : @KState kernel := blocked_only <| WHITELIST_V4 := [ten] |>.

Lemma whitelist_passes_witness : fst (@try_eshield kernel blocked_white) = XDP_PASS.
Proof.
  apply (whitelist_passes (KL := kernel_laws) blocked_white parsed config s0_parsed eq_refl).
  apply Exists_cons_hd. vm_compute. reflexivity.
Defined.

Lemma blocked_source_dropped_witness :
  fst (@try_eshield kernel blocked_only) = XDP_DROP \/ fst (@try_eshield kernel blocked_only) = XDP_TX.
Proof.
  apply (blocked_source_dropped (KL := kernel_laws) blocked_only parsed config s0_parsed eq_refl).
  - intros H. inversion H.
  - vm_compute. reflexivity.
Defined.

(** A later fragment (offset 8) of a TCP datagram of 10.0.0.1, and a
    configuration that drops fragments and answers drops with resets. *)
Definition fragment : frame :=
  [2;0;0;0;0;1; 2;0;0;0;0;2; 8;0;
   69;0;0;44;0;1;0;1;64;6;0;0;10;0;0;1;10;0;0;9;
   222;173;190;239;1;2;3;4;5;6;7;8;9;10;11;12;13;14;15;16;17;18;19;20].
Definition strict_config : RuntimeConfig.t :=
  config <| RuntimeConfig.fragment_policy := 2 |> <| RuntimeConfig.tcp_reset_on_drop := 1 |>
    <| RuntimeConfig.packet_log_enabled := 1 |> <| RuntimeConfig.packet_log_sample_rate := 1 |>.
Definition with_fragment : @KState kernel := state fragment <| CONFIG := [strict_config] |>.

Lemma fragment_dropped_witness :
  fst (@try_eshield kernel with_fragment) = XDP_DROP \/ fst (@try_eshield kernel with_fragment) = XDP_TX.
Proof.
  apply (fragment_dropped (KL := kernel_laws) with_fragment (Parsed.mk alice 6 20 0 0 true) strict_config).
  - vm_compute. reflexivity.
  - reflexivity.
  - intros H. inversion H.
  - reflexivity.
  - reflexivity.
Defined.

Lemma foreign_frame_passes_witness :
  @try_eshield kernel (state (replicate 60 0)) = (XDP_PASS, state (replicate 60 0)).
Proof.
  apply (foreign_frame_passes (state (replicate 60 0))). right. left. split; vm_compute; discriminate.
Defined.

(** a dropped fragment is answered with a reset made of payload.  With
    resets on, dropping a later fragment of a TCP datagram takes its payload
    for a TCP header: the reset sent back carries payload bytes as ports
    (here 222, 173, 190, 239) and still the fragment offset of the original. *)
Example fragment_reset_from_payload :
  fst (@try_eshield kernel with_fragment) = XDP_TX /\
  slice 34 4 (packet (snd (@try_eshield kernel with_fragment))) = [190; 239; 222; 173] /\
  IpHdr.frag_off (load_IpHdr (packet (snd (@try_eshield kernel with_fragment))) 14) = bswap 2 1.
Proof. vm_compute. repeat split. Qed.

(** A TCP segment dropped by its block, with resets and the packet log on. *)
Definition logged : @KState kernel := blocked_only <| CONFIG := [strict_config] |>.

(** the packet log of a reset packet shows the answer, not the packet.  The
    sample is taken after the frame has been turned into the reset, so that the
    destination it reports for the dropped packet from 10.0.0.1 to 10.0.0.9 is
    10.0.0.1 itself, and its length is the reset's 54 bytes. *)
Example packet_log_after_reset :
  length (packet logged) = 58%nat /\
  map (fun e => (drop 12 (PacketSample.src_ip e), drop 12 (PacketSample.dst_ip e), PacketSample.packet_len e))
    (PACKET_SAMPLES (snd (@try_eshield kernel logged))) = [([10; 0; 0; 1], [10; 0; 0; 1], 54)].
Proof. vm_compute. repeat split. Qed.
End DataPlaneWitness.
