(* ===== verification/Typing.v ===== *)
(** * Typing: every field stays in the range of its Rust type

    The models compute with integers of any size and write out the wrap-around
    and the saturation of the code.  Here is the proof that this is enough: from
    a state whose fields are in the ranges of [eshield-common/src/lib.rs], a run
    of the packet program on a frame of bytes leaves such a state, so that a
    [Z] of the model is the machine word of the program at every step.

    [preserves m]: [m] keeps the state well typed.  The lemma of [bind] gives the
    continuation the value [m] returns from a well typed state; [typing] walks
    over the body of an operation with it. *)
From S2P Require Import Prelude Words Common Pure Parser Maps Wire Footprint Trust Blacklist RateCounter Limits Filters TcpReset SynCookie DataPlane.
#[local] Open Scope Z_scope.

(** An unsigned integer of [w] bits. *)
Definition fits (w x : Z) : Prop := 0 <= x < 2 ^ w.

Lemma fits_wrap w x : 0 <= w -> fits w (wrap w x).
Proof. apply wrap_range. Qed.

Lemma fits_saturating_add w a b : 0 <= w -> 0 <= a -> 0 <= b -> fits w (saturating_add w a b).
Proof. intros Hw Ha Hb. unfold fits, saturating_add. pose proof (Z.pow_pos_nonneg 2 w). lia. Qed.

Lemma fits_saturating_sub w a b : fits w a -> 0 <= b -> fits w (saturating_sub a b).
Proof. unfold fits, saturating_sub. lia. Qed.

Lemma fits_bswap2 x : fits 16 (bswap 2 x).
Proof. exact (bswap_range 2 x). Qed.

Lemma fits_byte bs : bytes_ok bs -> (length bs <= 1)%nat -> fits 8 (le_val bs).
Proof.
  intros Hb Hl. pose proof (le_val_range bs Hb) as H. unfold fits.
  assert (256 ^ Z.of_nat (length bs) <= 256 ^ 1) by (apply Z.pow_le_mono_r; lia).
  change (2 ^ 8) with (256 ^ 1). lia.
Qed.

Lemma slice_bytes n len bs : bytes_ok bs -> bytes_ok (slice n len bs).
Proof. intros H. by apply Forall_take, Forall_drop. Qed.

Lemma splice_bytes n k bs : bytes_ok k -> bytes_ok bs -> bytes_ok (splice n k bs).
Proof.
  intros Hk Hb. unfold splice. rewrite !bytes_ok_app. split_and!; [by apply Forall_take|done|by apply Forall_drop].
Qed.

(** ** The types *)
Definition addr_typed (k : IpKey.t) : Prop :=
  fits 8 (IpKey.family k) /\ bytes_ok (IpKey.addr k) /\ length (IpKey.addr k) = 16%nat.

Definition block_typed (e : BlockEntry.t) : Prop :=
  fits 64 (BlockEntry.blocked_until_ns e) /\ fits 64 (BlockEntry.first_seen_ns e) /\
  fits 32 (BlockEntry.hit_count e) /\ fits 8 (BlockEntry.block_reason e) /\ fits 8 (BlockEntry.last_reason e).

Definition trust_typed (e : TrustEntry.t) : Prop :=
  fits 64 (TrustEntry.last_update_ns e) /\ 0 <= TrustEntry.trust_score e <= TRUST_MAX /\
  fits 32 (TrustEntry.pass_count e) /\ fits 32 (TrustEntry.drop_count e) /\ fits 8 (TrustEntry.level e).

Definition counter_typed (e : RateCounter.t) : Prop :=
  fits 64 (RateCounter.counter e) /\ fits 64 (RateCounter.last_decay_ns e).

Definition track_typed (e : ConnTrackEntry.t) : Prop :=
  fits 64 (ConnTrackEntry.last_seen_ns e) /\ fits 32 (ConnTrackEntry.half_open e).

Definition stats_u64 (g : GlobalStats.t) : list Z :=
  [GlobalStats.total_packets g; GlobalStats.total_dropped g; GlobalStats.total_passed g;
   GlobalStats.syn_flood_blocked g; GlobalStats.rate_limited g; GlobalStats.l7_blocked g;
   GlobalStats.udp_flood_blocked g; GlobalStats.icmp_flood_blocked g; GlobalStats.geoip_blocked g;
   GlobalStats.blacklist_blocked g; GlobalStats.tcp_rst_sent g; GlobalStats.tcp_rst_fail g;
   GlobalStats.tcp_rst_attempt g; GlobalStats.tcp_dropped g; GlobalStats.udp_dropped g;
   GlobalStats.icmp_dropped g; GlobalStats.other_dropped g; GlobalStats.blacklist_gen g;
   GlobalStats.blacklist_hit_gen g; GlobalStats.fragment_blocked g; GlobalStats.port_rate_blocked g;
   GlobalStats.conn_track_blocked g].
Definition stats_u32 (g : GlobalStats.t) : list Z :=
  [GlobalStats.trust_pass_sample g; GlobalStats.trust_drop_sample g; GlobalStats.blacklist_hit_sample g;
   GlobalStats.top_attacker_sample g].
Definition stats_typed (g : GlobalStats.t) : Prop := Forall (fits 64) (stats_u64 g) /\ Forall (fits 32) (stats_u32 g).

Definition event_typed (e : DropEvent.t) : Prop :=
  fits 64 (DropEvent.timestamp_ns e) /\ (bytes_ok (DropEvent.src_ip e) /\ length (DropEvent.src_ip e) = 16%nat) /\
  fits 8 (DropEvent.family e) /\ fits 8 (DropEvent.protocol e) /\ fits 16 (DropEvent.rule_id e) /\
  fits 16 (DropEvent.dst_port e).

Definition sample_typed (e : PacketSample.t) : Prop :=
  fits 64 (PacketSample.timestamp_ns e) /\
  (bytes_ok (PacketSample.src_ip e) /\ length (PacketSample.src_ip e) = 16%nat) /\
  (bytes_ok (PacketSample.dst_ip e) /\ length (PacketSample.dst_ip e) = 16%nat) /\
  fits 8 (PacketSample.family e) /\ fits 8 (PacketSample.protocol e) /\ fits 16 (PacketSample.src_port e) /\
  fits 16 (PacketSample.dst_port e) /\ fits 8 (PacketSample.action e) /\ fits 16 (PacketSample.rule_id e) /\
  fits 16 (PacketSample.packet_len e) /\ fits 8 (PacketSample.payload_bytes e) /\
  (bytes_ok (PacketSample.payload_sample e) /\ length (PacketSample.payload_sample e) = 64%nat).

(** The fields of the two limiters that the counters are computed with. *)
Definition limit_typed (c : RateLimitConfig.t) : Prop :=
  fits 64 (RateLimitConfig.threshold c) /\ fits 64 (RateLimitConfig.tick_ms c) /\
  fits 64 (RateLimitConfig.decay_num c) /\ fits 64 (RateLimitConfig.decay_den c) /\
  fits 64 (RateLimitConfig.block_duration_s c).

Definition divisors_typed (c : RuntimeConfig.t) : Prop :=
  fits 32 (RuntimeConfig.trust_add_divisor c) /\ fits 32 (RuntimeConfig.trust_sub_divisor c).

(** A packet context. *)
Definition ctx_typed (pc : PacketCtx.t) : Prop :=
  addr_typed (PacketCtx.src pc) /\ fits 8 (PacketCtx.protocol pc) /\ fits 16 (PacketCtx.sport pc) /\
  fits 16 (PacketCtx.dport pc) /\ fits 16 (PacketCtx.rule_id pc) /\ fits 64 (PacketCtx.now_ns pc) /\
  fits 32 (PacketCtx.trust_add_divisor pc) /\ fits 32 (PacketCtx.trust_sub_divisor pc).

Section Typing.
Context {KN : Kernel}.

Record typed (s : KState) : Prop := mkTyped {
  typed_blacklist : lru_forall (fun k e => addr_typed k /\ block_typed e) (BLACKLIST s);
  typed_stats : Forall stats_typed (GLOBAL_STATS s);
  typed_attackers : lru_forall (fun k n => addr_typed k /\ fits 64 n) (TOP_ATTACKERS s);
  typed_events : Forall event_typed (EVENTS s);
  typed_samples : Forall sample_typed (PACKET_SAMPLES s);
  typed_rate : lru_forall (fun k e => addr_typed k /\ counter_typed e) (RATE_MAP s);
  typed_rate_port : lru_forall (fun k e => (addr_typed (RateLimitPortKey.ip k) /\ fits 16 (RateLimitPortKey.dport k)) /\
                                           counter_typed e) (RATE_MAP_PORT s);
  typed_port_rate : lru_forall (fun k e => (fits 16 (PortRateKey.dport k) /\ fits 8 (PortRateKey.protocol k)) /\
                                           counter_typed e) (PORT_RATE_MAP s);
  typed_proxy : lru_forall (fun k t => addr_typed k /\ fits 64 t) (SYN_PROXY_CONN s);
  typed_track : lru_forall (fun k e => addr_typed k /\ track_typed e) (CONN_TRACK s);
  typed_trust : lru_forall (fun k e => addr_typed k /\ trust_typed e) (TRUST_MAP s);
  typed_limits : Forall limit_typed (RATE_LIMIT_CFG s) /\ Forall limit_typed (PORT_RATE_LIMIT_CFG s);
  typed_config : Forall divisors_typed (CONFIG s);
  typed_packet : bytes_ok (packet s);
}.

Definition preserves {A} (m : BPF A) : Prop := forall s, typed s -> typed (snd (m s)).

Context {KL : KernelLaws}.

(** The clock of the kernel is a 64-bit word. *)
Hypothesis ktime_u64 : forall i, fits 64 (ktime_get_ns i).

Lemma preserves_ret {A} (a : A) : preserves (ret a).
Proof. by intros s Hs. Qed.

Lemma preserves_gets {A} (f : KState -> A) : preserves (gets f).
Proof. by intros s Hs. Qed.

Lemma preserves_bind {A B} (m : BPF A) (k : A -> BPF B) :
  preserves m -> (forall a, preserves (k a)) -> preserves (bind m k).
Proof. intros Hm Hk s Hs. unfold bind. specialize (Hm s Hs). destruct (m s) as [a s1]. by apply Hk. Qed.

(** What is read from a well typed state. *)
Lemma preserves_bind_gets {A B} (f : KState -> A) (k : A -> BPF B) :
  (forall s, typed s -> preserves (k (f s))) -> preserves (bind (gets f) k).
Proof. intros Hk s Hs. unfold bind, gets. by apply Hk. Qed.

Lemma preserves_bind_ktime {B} (k : Z -> BPF B) :
  (forall t, fits 64 t -> preserves (k t)) -> preserves (bind get_ktime_ns k).
Proof. intros Hk s Hs. unfold bind, get_ktime_ns. apply Hk; [apply ktime_u64|]. by destruct Hs. Qed.

Lemma preserves_prandom : preserves get_prandom_u32.
Proof. intros s Hs. by destruct Hs. Qed.

Lemma preserves_with_stats g : (forall x, stats_typed x -> stats_typed (g x)) -> preserves (with_stats g).
Proof.
  intros Hg s []. unfold with_stats, modify. split; try done. cbn.
  destruct (GLOBAL_STATS s) as [|x l]; [done|]. inversion typed_stats0; subst. constructor; auto.
Qed.

Lemma preserves_with_stats_ret {A} (d : A) g :
  (forall x, stats_typed x -> stats_typed (snd (g x))) -> preserves (with_stats_ret d g).
Proof.
  intros Hg s Hs. unfold with_stats_ret. destruct (GLOBAL_STATS s) as [|x l] eqn:E; [done|].
  pose proof (typed_stats s Hs) as Ht. rewrite E in Ht. inversion Ht as [|? ? Hx Hl]; subst. specialize (Hg x Hx).
  destruct (g x) as [a g']. destruct Hs. split; try done. by constructor.
Qed.

Ltac solve_insert := intros; intros s []; split; try done; by apply lru_forall_insert || by apply lru_forall_remove.

Lemma preserves_BLACKLIST_insert k v : addr_typed k -> block_typed v -> preserves (BLACKLIST_insert k v).
Proof. solve_insert. Qed.
Lemma preserves_BLACKLIST_remove k : preserves (BLACKLIST_remove k).
Proof. solve_insert. Qed.
Lemma preserves_TOP_ATTACKERS_insert k v : addr_typed k -> fits 64 v -> preserves (TOP_ATTACKERS_insert k v).
Proof. solve_insert. Qed.
Lemma preserves_RATE_MAP_insert k v : addr_typed k -> counter_typed v -> preserves (RATE_MAP_insert k v).
Proof. solve_insert. Qed.
Lemma preserves_RATE_MAP_PORT_insert k v :
  addr_typed (RateLimitPortKey.ip k) -> fits 16 (RateLimitPortKey.dport k) -> counter_typed v ->
  preserves (RATE_MAP_PORT_insert k v).
Proof. solve_insert. Qed.
Lemma preserves_PORT_RATE_MAP_insert k v :
  fits 16 (PortRateKey.dport k) -> fits 8 (PortRateKey.protocol k) -> counter_typed v ->
  preserves (PORT_RATE_MAP_insert k v).
Proof. solve_insert. Qed.
Lemma preserves_SYN_PROXY_CONN_insert k v : addr_typed k -> fits 64 v -> preserves (SYN_PROXY_CONN_insert k v).
Proof. solve_insert. Qed.
Lemma preserves_SYN_PROXY_CONN_remove k : preserves (SYN_PROXY_CONN_remove k).
Proof. solve_insert. Qed.
Lemma preserves_CONN_TRACK_insert k v : addr_typed k -> track_typed v -> preserves (CONN_TRACK_insert k v).
Proof. solve_insert. Qed.
Lemma preserves_CONN_TRACK_remove k : preserves (CONN_TRACK_remove k).
Proof. solve_insert. Qed.
Lemma preserves_TRUST_MAP_insert k v : addr_typed k -> trust_typed v -> preserves (TRUST_MAP_insert k v).
Proof. solve_insert. Qed.

Lemma preserves_EVENTS e : event_typed e -> preserves (modify (fun s => s <| EVENTS ::= fun l => l ++ [e] |>)).
Proof. intros He s []. split; try done. cbn. apply Forall_app_2; [done|by constructor]. Qed.
Lemma preserves_PACKET_SAMPLES e :
  sample_typed e -> preserves (modify (fun s => s <| PACKET_SAMPLES ::= fun l => l ++ [e] |>)).
Proof. intros He s []. split; try done. cbn. apply Forall_app_2; [done|by constructor]. Qed.

(** *** The frame *)
Lemma preserves_packet f : (forall p, bytes_ok p -> bytes_ok (f p)) -> preserves (packet_modify f).
Proof. intros Hf s []. split; try done. cbn. auto. Qed.

Lemma preserves_adjust_tail d : preserves (adjust_tail d).
Proof.
  intros s Hs. unfold adjust_tail. destruct (bpf_xdp_adjust_tail (packet s) d) as [rc p'] eqn:E. cbn.
  destruct Hs. split; try done. cbn. destruct (adjust_tail_spec _ _ _ _ E) as [(_ & _ & H & _)|[_ ->]]; auto.
Qed.

Lemma preserves_update_IpHdr f ptr : preserves (packet_modify (update_IpHdr f ptr)).
Proof. apply preserves_packet. intros p Hp. apply splice_bytes; [apply put_fields_ok|done]. Qed.
Lemma preserves_update_TcpHdr f ptr : preserves (packet_modify (update_TcpHdr f ptr)).
Proof. apply preserves_packet. intros p Hp. apply splice_bytes; [apply put_fields_ok|done]. Qed.
Lemma preserves_swap_eth ptr : preserves (packet_modify (update_EthHdr swap_eth ptr)).
Proof.
  apply preserves_packet. intros p Hp. apply splice_bytes; [|done].
  unfold EthHdr.encode. rewrite !bytes_ok_app. split_and!; [by apply slice_bytes, slice_bytes..|apply le_bytes_ok].
Qed.
Lemma preserves_mss_option ptr idx : preserves (packet_modify (splice ptr (mss_option idx))).
Proof.
  apply preserves_packet. intros p Hp. apply splice_bytes; [|done]. unfold mss_option, MSS_TABLE.
  destruct (Z.to_nat idx) as [|[|[|n]]];
    repeat (apply List.Forall_cons; [split; [by apply Z.leb_le|by apply Z.ltb_lt]|]); apply List.Forall_nil.
Qed.

(** *** The values the operations write *)
Lemma stored_addr (P : IpKey.t -> Prop) {V} (Q : V -> Prop) (m : lru IpKey.t V) k v :
  lru_forall (fun k v => P k /\ Q v) m -> lru_get m k = Some v -> Q v.
Proof. intros H E. by destruct (H k v E). Qed.

Lemma default_trust_typed score : 0 <= score <= TRUST_MAX ->
  trust_typed (TrustEntry_default <| TrustEntry.trust_score := score |>).
Proof. intros H. unfold trust_typed, fits. cbn. lia. Qed.

Lemma trust_entry_typed s src : typed s -> trust_typed (trust_entry (TRUST_MAP s) src).
Proof.
  intros Hs. unfold trust_entry. destruct (lru_get (TRUST_MAP s) src) as [e|] eqn:E.
  - by destruct (typed_trust s Hs src e E).
  - by apply default_trust_typed.
Qed.

Lemma trust_level_fits score : fits 8 (trust_level score).
Proof. unfold trust_level, fits. repeat case_match; lia. Qed.

Lemma block_deadline_fits now d : fits 64 now -> fits 64 (block_deadline now d).
Proof.
  intros Hn. unfold block_deadline. destruct (_ =? _); [unfold BLOCK_PERMANENT, fits; lia|].
  apply fits_saturating_add; [lia|apply Hn|]. destruct (_ >? _); [unfold u64_MAX; lia|]. by apply wrap_range.
Qed.

Lemma merge_block_typed prev now until reason explicit :
  (forall e, prev = Some e -> block_typed e) -> fits 64 now -> fits 64 until -> fits 8 reason ->
  block_typed (merge_block_entry prev now until reason explicit).
Proof.
  intros Hp Hn Hu Hr. assert (Hf : block_typed (BlockEntry.mk until now 0 reason 0)).
  { unfold block_typed, fits in *. cbn. lia. }
  unfold merge_block_entry. destruct prev as [e|]; [|done]. destruct (Hp e eq_refl) as (H1 & H2 & H3 & H4 & H5).
  destruct (block_live e now); [|done].
  assert (Hp0 : fits 64 BLOCK_PERMANENT) by (unfold BLOCK_PERMANENT, fits; lia).
  destruct explicit; (split_and!; cbn [BlockEntry.blocked_until_ns BlockEntry.first_seen_ns BlockEntry.hit_count
    BlockEntry.block_reason BlockEntry.last_reason]); try done; by repeat case_match.
Qed.

Lemma decay_counter_fits counter elapsed tick num den :
  fits 64 counter -> 0 <= den -> fits 64 (decay_counter counter elapsed tick num den).
Proof.
  intros Hc Hd. unfold decay_counter. destruct (_ || _) eqn:E; [done|]. apply orb_false_iff in E as [_ E%Z.eqb_neq].
  induction (Z.to_nat _) as [|n IH]; [done|]. cbn [Nat.iter nat_rect]. unfold decay_step, wrapping_mul, fits in *.
  match goal with |- context [wrap 64 ?x] => pose proof (wrap_range 64 x ltac:(lia)) as Hw end.
  split; [apply Z.div_pos; lia|]. apply Z.div_lt_upper_bound; nia.
Qed.

Lemma next_rate_counter_typed prev now tick num den :
  (forall e, prev = Some e -> counter_typed e) -> fits 64 now -> 0 <= den ->
  counter_typed (next_rate_counter prev now tick num den).
Proof.
  intros Hp Hn Hd. unfold next_rate_counter. destruct prev as [e|].
  - destruct (Hp e eq_refl) as [H1 H2]. split; cbn [RateCounter.counter RateCounter.last_decay_ns].
    + apply fits_saturating_add; [lia| |lia]. by apply decay_counter_fits.
    + unfold wrapping_add. match goal with |- context [wrap 64 ?x] => pose proof (wrap_range 64 x ltac:(lia)) end.
      unfold fits in *. lia.
  - split; cbn; [unfold fits; lia|done].
Qed.

Lemma next_window_typed prev now window :
  (forall e, prev = Some e -> counter_typed e) -> fits 64 now -> counter_typed (next_window prev now window).
Proof.
  intros Hp Hn. unfold next_window. assert (Hf : counter_typed (RateCounter.mk 1 now)) by (split; [unfold fits; cbn; lia|done]).
  destruct prev as [e|]; [|done]. destruct (Hp e eq_refl) as [H1 H2]. destruct (_ <? _); [|done].
  split; [|done]. apply fits_saturating_add; [lia|apply H1|lia].
Qed.

Lemma conn_track_step_typed half_open last now is_syn is_ack threshold window :
  fits 32 half_open -> fits 32 (ConnTrackStep.half_open (conn_track_step half_open last now is_syn is_ack threshold window)).
Proof.
  intros Hh. unfold conn_track_step. cbn [ConnTrackStep.half_open].
  set (h := if _ && _ then 0 else half_open). assert (Hh' : fits 32 h) by (subst h; destruct (_ && _); [unfold fits; lia|done]).
  clearbody h. destruct is_syn; [apply fits_saturating_add; [lia|apply Hh'|lia]|].
  destruct is_ack; [|done]. apply fits_saturating_sub; [done|lia].
Qed.

(** *** Statistics *)
Ltac solve_stats :=
  intros [] [H64 H32]; unfold stats_typed, stats_u64, stats_u32, inc in *;
  cbn -[wrapping_add fits] in *;
  repeat match goal with H : Forall _ (_ :: _) |- _ => apply list.Forall_cons in H as [? H] end;
  split; repeat (apply List.Forall_cons; [assumption || (apply fits_wrap; lia)|]); apply List.Forall_nil.

Lemma inc_protocol_typed protocol g : stats_typed g -> stats_typed (inc_protocol_dropped protocol g).
Proof. revert g. unfold inc_protocol_dropped. repeat case_match; solve_stats. Qed.

Lemma preserves_bump_gen : preserves bump_blacklist_gen.
Proof. apply preserves_with_stats. solve_stats. Qed.
Lemma preserves_bump_hit_gen : preserves bump_blacklist_hit_gen.
Proof. apply preserves_with_stats. solve_stats. Qed.
Lemma preserves_rst_sent : preserves inc_rst_sent.
Proof. apply preserves_with_stats. solve_stats. Qed.
Lemma preserves_rst_fail : preserves rst_fail.
Proof. apply preserves_bind; [|intros; apply preserves_ret]. apply preserves_with_stats. solve_stats. Qed.

(** *** Operations *)
Create HintDb typing discriminated.
#[local] Hint Resolve preserves_ret preserves_gets preserves_prandom preserves_BLACKLIST_remove
  preserves_SYN_PROXY_CONN_remove preserves_CONN_TRACK_remove preserves_adjust_tail preserves_update_IpHdr
  preserves_update_TcpHdr preserves_swap_eth preserves_mss_option preserves_bump_gen preserves_bump_hit_gen
  preserves_rst_sent preserves_rst_fail : typing.

Ltac typing_step :=
  lazymatch goal with
  | |- preserves (bind (gets _) _) => apply preserves_bind_gets; intros ? ?; cbv beta
  | |- preserves (bind get_ktime_ns _) => apply preserves_bind_ktime; intros ? ?
  | |- preserves (bind _ _) => apply preserves_bind; [|intros ?]
  | |- preserves (let _ := _ in _) => cbv zeta
  | |- preserves (match ?x with _ => _ end) => destruct x eqn:?
  end.
Ltac read s H := cbv zeta; apply preserves_bind_gets; intros s H; cbv beta zeta.
Ltac typing := repeat (solve [eauto 3 with typing nocore] || typing_step).

Lemma preserves_trust_pass src now d w : addr_typed src -> fits 64 now -> fits 32 d -> 0 <= w < 2 ^ 20 ->
  preserves (trust_pass src now d w).
Proof.
  intros Ha Hn Hd Hw. unfold trust_pass. read s Hst. destruct (trust_entry_typed s src Hst) as (_ & Hs & Hp & Hdc & _).
  set (e := trust_entry _ _) in *. clearbody e.
  apply preserves_TRUST_MAP_insert; [done|]. unfold TRUST_MAX in *.
  pose proof (pass_score_range (TrustEntry.trust_score e) d (Z.max w 1) Hs Hd ltac:(lia) ltac:(lia)) as Hr. cbv zeta in Hr.
  unfold trust_typed. cbn -[wrapping_add saturating_mul saturating_add saturating_sub fits Z.div trust_level].
  split_and!; [done| | |apply fits_saturating_add; [lia|apply Hp|lia]|done|apply trust_level_fits];
    unfold TRUST_MAX, TRUST_ADD_DIVISOR in *; lia.
Qed.

Lemma preserves_trust_drop src now d : addr_typed src -> fits 64 now -> fits 32 d -> preserves (trust_drop src now d).
Proof.
  intros Ha Hn Hd. unfold trust_drop. read s Hst. destruct (trust_entry_typed s src Hst) as (_ & Hs & Hp & Hdc & _).
  set (e := trust_entry _ _) in *. clearbody e.
  pose proof (drop_score_range (TrustEntry.trust_score e) d Hs (proj1 Hd)) as Hr.
  assert (Hsat : forall n, fits 32 n -> forall k, 0 <= k -> fits 32 (saturating_add 32 n k))
    by (intros n Hf k Hk; apply fits_saturating_add; [lia|apply Hf|lia]).
  assert (Hdr : fits 32 (saturating_add 32 (TrustEntry.drop_count e) 1)) by (apply Hsat; [done|lia]).
  cbn -[wrapping_add saturating_add saturating_sub fits Z.div trust_level inc with_stats_ret].
  assert (Hn' : forall n, fits 32 n -> trust_typed (TrustEntry.mk now
      (saturating_sub (TrustEntry.trust_score e) (TrustEntry.trust_score e / (if d =? 0 then TRUST_SUB_DIVISOR else d)))
      (TrustEntry.pass_count e) n
      (trust_level (saturating_sub (TrustEntry.trust_score e) (TrustEntry.trust_score e / (if d =? 0 then TRUST_SUB_DIVISOR else d)))))).
  { intros n Hf. unfold trust_typed. cbn [TrustEntry.last_update_ns TrustEntry.trust_score TrustEntry.pass_count TrustEntry.drop_count TrustEntry.level].
    unfold TRUST_SUB_DIVISOR, TRUST_MAX in *. split_and!; try done; try lia. apply trust_level_fits. }
  destruct (_ =? TRUST_MIN).
  - apply preserves_bind; [apply preserves_with_stats_ret; solve_stats|]. intros []; [|by apply preserves_ret].
    apply preserves_TRUST_MAP_insert; [done|]. apply Hn', Hsat; [done|lia].
  - apply preserves_TRUST_MAP_insert; [done|]. by apply Hn'.
Qed.

Lemma preserves_is_blacklisted src now : addr_typed src -> preserves (is_blacklisted src now).
Proof.
  intros Ha. unfold is_blacklisted. read s Hst. destruct (lru_get (BLACKLIST s) src) as [e|] eqn:E; [|typing].
  destruct (typed_blacklist s Hst src e E) as [_ (H1 & H2 & H3 & H4 & H5)]. typing_step.
  - apply preserves_bind; [apply preserves_with_stats_ret; solve_stats|]. intros [due sampled]. destruct due; [|typing].
    cbv zeta. apply preserves_bind; [|intros; typing]. apply preserves_BLACKLIST_insert; [done|].
    unfold block_typed. cbn -[saturating_add fits]. split_and!; try done.
    apply fits_saturating_add; [lia|apply H3|destruct sampled; lia].
  - unfold reset_trust. repeat typing_step; [typing| |typing].
    apply preserves_TRUST_MAP_insert; [done|]. by apply default_trust_typed.
Qed.

Lemma preserves_add_to_blacklist src now d reason : addr_typed src -> fits 64 now -> fits 8 reason ->
  preserves (add_to_blacklist src now d reason).
Proof.
  intros Ha Hn Hr. unfold add_to_blacklist. read s Hst.
  apply preserves_bind; [|intros; apply preserves_bind; [typing|intros; cbv zeta]].
  - apply preserves_BLACKLIST_insert; [done|]. apply merge_block_typed; [|done|by apply block_deadline_fits|done].
    intros e E. by destruct (typed_blacklist s Hst src e E).
  - apply preserves_TRUST_MAP_insert; [done|]. unfold trust_typed, fits, TRUST_MIN, TRUST_MAX in *. cbn. lia.
Qed.

Lemma rate_step_typed s i cfg prev now : typed s -> array_get (RATE_LIMIT_CFG s) i = Some cfg ->
  (forall e, prev = Some e -> counter_typed e) -> fits 64 now ->
  counter_typed (next_rate_counter prev now (ms_to_ns (RateLimitConfig.tick_ms cfg)) (RateLimitConfig.decay_num cfg)
    (RateLimitConfig.decay_den cfg)).
Proof.
  intros Hs E Hp Hn. apply next_rate_counter_typed; [done..|].
  destruct (Forall_lookup_1 _ _ _ _ (proj1 (typed_limits s Hs)) E) as (_ & _ & _ & Hd & _). apply Hd.
Qed.

Lemma preserves_update_rate_counter src now : addr_typed src -> fits 64 now -> preserves (update_rate_counter src now).
Proof.
  intros Ha Hn. unfold update_rate_counter. read s Hst. destruct (array_get _ _) as [cfg|] eqn:E; [|typing].
  typing_step; [typing|]. read s0 Hst0. apply preserves_bind; [|intros; typing].
  apply preserves_RATE_MAP_insert; [done|]. apply (rate_step_typed s 0); [done..| |done].
  intros e He. by destruct (typed_rate s0 Hst0 src e He).
Qed.

Lemma preserves_update_rate_counter_port src dport now : addr_typed src -> fits 64 now ->
  preserves (update_rate_counter_port src dport now).
Proof.
  intros Ha Hn. unfold update_rate_counter_port. read s Hst. destruct (array_get _ _) as [cfg|] eqn:E; [|typing].
  typing_step; [typing|]. read s0 Hst0. apply preserves_bind; [|intros; typing].
  apply preserves_RATE_MAP_PORT_insert; [done|apply fits_bswap2|]. apply (rate_step_typed s 0); [done..| |done].
  intros e He. by destruct (typed_rate_port s0 Hst0 _ e He).
Qed.

#[local] Hint Resolve preserves_trust_pass preserves_trust_drop preserves_is_blacklisted preserves_add_to_blacklist
  preserves_update_rate_counter preserves_update_rate_counter_port : typing.

(** The rules the detectors record. *)
Lemma rule_fits w r : 8 <= w -> 0 <= r <= 15 -> fits w r.
Proof. intros Hw Hr. unfold fits. pose proof (Z.pow_le_mono_r 2 8 w). lia. Qed.

Lemma preserves_enforce runtime src now reason update : addr_typed src -> fits 64 now -> 0 <= reason <= 15 ->
  preserves (enforce runtime src now reason update).
Proof. intros Ha Hn Hr. assert (fits 8 reason) by (by apply rule_fits). unfold enforce. typing. Qed.

#[local] Hint Resolve preserves_enforce : typing.
#[local] Hint Extern 2 (0 <= _ <= 15) => (split; discriminate) : typing.
#[local] Hint Extern 2 (fits 8 _) => (apply rule_fits; [lia|split; discriminate]) : typing.

Lemma preserves_check_rate_limit src dport now : addr_typed src -> fits 64 now -> preserves (check_rate_limit src dport now).
Proof. intros. unfold check_rate_limit. typing. Qed.
Lemma preserves_handle_udp_flood src now : addr_typed src -> fits 64 now -> preserves (handle_udp_flood src now).
Proof. intros. unfold handle_udp_flood. typing. Qed.
Lemma preserves_handle_icmp_flood src now : addr_typed src -> fits 64 now -> preserves (handle_icmp_flood src now).
Proof. intros. unfold handle_icmp_flood. typing. Qed.
Lemma preserves_handle_syn_flood src flags now : addr_typed src -> fits 64 now -> preserves (handle_syn_flood src flags now).
Proof. intros. unfold handle_syn_flood. typing. Qed.

Lemma preserves_check_port_rate key now : fits 16 (PortRateKey.dport key) -> fits 8 (PortRateKey.protocol key) ->
  fits 64 now -> preserves (check_port_rate key now).
Proof.
  intros Hd Hp Hn. unfold check_port_rate. read s Hst. destruct (array_get _ _) as [cfg|] eqn:E; [|typing].
  typing_step; [typing|]. read s0 Hst0. apply preserves_bind; [|intros; typing].
  apply preserves_PORT_RATE_MAP_insert; [done..|]. apply next_window_typed; [|done].
  intros e He. by destruct (typed_port_rate s0 Hst0 key e He).
Qed.

Lemma preserves_check_conn_track src flags now threshold window : addr_typed src -> fits 64 now ->
  preserves (check_conn_track src flags now threshold window).
Proof.
  intros Ha Hn. unfold check_conn_track. cbv zeta. typing_step; [typing|]. read s Hst.
  assert (He : fits 32 (fst (match lru_get (CONN_TRACK s) src with
      | Some entry => (ConnTrackEntry.half_open entry, ConnTrackEntry.last_seen_ns entry) | None => (0, 0) end))).
  { destruct (lru_get (CONN_TRACK s) src) as [e|] eqn:E; [|unfold fits; cbn; lia].
    by destruct (typed_track s Hst src e E) as [_ [_ Hh]]. }
  destruct (match lru_get _ _ with Some _ => _ | None => _ end) as [half_open last]. cbv zeta. cbn [fst] in He.
  apply preserves_bind; [|intros; typing]. destruct (_ =? 0); [typing|].
  apply preserves_CONN_TRACK_insert; [done|]. split; [done|]. by apply conn_track_step_typed.
Qed.

#[local] Hint Resolve preserves_check_rate_limit preserves_handle_udp_flood preserves_handle_icmp_flood
  preserves_handle_syn_flood preserves_check_port_rate preserves_check_conn_track : typing.

(** *** Answers *)
Lemma preserves_rst_checksums ip tcp : preserves (rst_checksums ip tcp).
Proof. unfold rst_checksums. typing. Qed.

Lemma preserves_reply_tcp_rst n : preserves (reply_tcp_rst n).
Proof. unfold reply_tcp_rst, reply_tcp_rst_v4. pose proof preserves_rst_checksums. typing. Qed.

Lemma proxy_addr_typed saddr : addr_typed (from_ipv4 (le_bytes 4 saddr)).
Proof.
  split; [unfold fits; cbn; lia|]. split; [|done]. apply (bytes_ok_app (replicate 12 0)). split; [|apply le_bytes_ok].
  apply Forall_replicate. unfold is_byte. lia.
Qed.

Lemma preserves_challenged saddr now : fits 64 now -> preserves (is_challenged_or_trigger saddr now).
Proof.
  intros Hn. unfold is_challenged_or_trigger. pose proof (proxy_addr_typed saddr) as Ha. cbv zeta.
  set (src := from_ipv4 _) in *. clearbody src.
  assert (Ht : preserves (
    let* update := update_rate_counter src now in
    match update with
    | Some update =>
        if RateUpdate.counter update >? RateUpdate.threshold update then
          let* _ := SYN_PROXY_CONN_insert src now in ret true
        else ret false
    | None => ret false
    end)).
  { typing_step; [typing|]. typing_step; [|typing]. typing_step; [|typing].
    typing_step; [by apply preserves_SYN_PROXY_CONN_insert|typing]. }
  typing.
Qed.

Lemma preserves_compute_checksums ip tcp n m : preserves (compute_checksums ip tcp n m).
Proof. unfold compute_checksums. typing. Qed.

Lemma preserves_send_synack pc n idx cookie seq : preserves (send_synack pc n idx cookie seq).
Proof. unfold send_synack. pose proof preserves_compute_checksums. typing. Qed.

Lemma preserves_syn_challenge pc ip tcp n : preserves (syn_challenge pc ip tcp n).
Proof. unfold syn_challenge. pose proof preserves_send_synack. typing. Qed.

Lemma preserves_handle_syn pc ip tcp : fits 64 (PacketCtxRef.now_ns pc) -> preserves (handle_syn pc ip tcp).
Proof. intros Hn. unfold handle_syn. pose proof preserves_challenged. pose proof preserves_syn_challenge. typing. Qed.

Lemma preserves_handle_ack pc ip tcp : preserves (handle_ack pc ip tcp).
Proof. unfold handle_ack. typing. Qed.

#[local] Hint Resolve preserves_reply_tcp_rst preserves_handle_syn preserves_handle_ack : typing.

(** *** Dropping and sampling *)
Lemma preserves_emit_drop_event pc : ctx_typed pc -> preserves (emit_drop_event pc).
Proof.
  intros (Ha & Hp & _ & Hd & Hr & _). unfold emit_drop_event. read s Hst. typing_step; [|typing].
  typing_step. apply preserves_EVENTS. destruct Ha as (Hf & Hb & Hl). by split_and!.
Qed.

Lemma preserves_trust_pass_sampled src now d : addr_typed src -> fits 64 now -> fits 32 d ->
  preserves (trust_pass_sampled src now d).
Proof.
  intros Ha Hn Hd. unfold trust_pass_sampled. apply preserves_bind; [apply preserves_with_stats_ret; solve_stats|].
  intros []; [|typing]. apply preserves_trust_pass; [done..|lia].
Qed.

Lemma preserves_drop_packet pc : ctx_typed pc -> preserves (drop_packet pc).
Proof.
  intros Hpc. pose proof Hpc as (Ha & Hp & _ & Hd & Hr & Hn & _ & Hs). unfold drop_packet.
  apply preserves_bind; [apply preserves_with_stats_ret; destruct (_ =? IPPROTO_TCP); solve_stats|].
  intros [due sampled]. apply preserves_bind; [typing|]. intros _. apply preserves_bind.
  - destruct due; [|typing]. read s Hst. apply preserves_TOP_ATTACKERS_insert; [done|].
    apply fits_saturating_add; [lia| |destruct sampled; lia].
    destruct (lru_get (TOP_ATTACKERS s) _) as [n|] eqn:E; [|done]. by destruct (typed_attackers s Hst _ n E) as [_ [? _]].
  - intros _. apply preserves_bind; [|intros; typing]. destruct (negb _); [by apply preserves_emit_drop_event|typing].
Qed.

Lemma sample_dst_typed p pc : bytes_ok p -> bytes_ok (sample_dst_ip p pc) /\ length (sample_dst_ip p pc) = 16%nat.
Proof.
  intros Hb. assert (H0 : bytes_ok (replicate 16 0) /\ length (replicate 16 0) = 16%nat).
  { split; [|done]. apply Forall_replicate. unfold is_byte. lia. }
  unfold sample_dst_ip. destruct (IpKey_family _) as [[]|]; [| |done].
  - destruct (ptr_at _ _ _) as [ip|]; [|done]. split; [|done]. apply (bytes_ok_app (replicate 12 0)).
    split; [apply Forall_replicate; unfold is_byte; lia|apply le_bytes_ok].
  - destruct (ptr_at _ _ _) as [ip|] eqn:E; [|done]. apply ptr_at_Some in E as [-> E]. split; [by apply slice_bytes, slice_bytes|].
    unfold load_Ipv6Hdr, Ipv6Hdr.decode, slice. cbn [Ipv6Hdr.daddr]. rewrite !length_take, !length_drop, length_take, length_drop.
    unfold Ipv6Hdr.size, ETH_HDR_LEN in *. lia.
Qed.

Lemma preserves_log_packet_sample pc action : ctx_typed pc -> preserves (log_packet_sample pc action).
Proof.
  intros (Ha & Hp & Hsp & Hd & Hr & Hn & _). unfold log_packet_sample. read s0 Hs0. typing_step; [|typing].
  typing_step; [typing|]. typing_step; [apply preserves_prandom|]. typing_step; [typing|]. read s Hst.
  destruct (l4_hdr_len _ _) as [l4|]; [|typing]. read s1 Hs1. typing_step; [typing|].
  apply preserves_PACKET_SAMPLES. destruct Ha as (Hf & Hb & Hl). destruct (sample_dst_typed (packet s) pc (typed_packet s Hst)).
  destruct (Nat.leb_spec (ETH_HDR_LEN + PacketCtx.ip_hdr_len pc + l4 + 64) (length (packet s))).
  all: split_and!; cbn -[fits slice wrap ETH_HDR_LEN]; try done; try (by apply fits_wrap); try (unfold fits; lia);
    try (unfold fits; destruct (action =? XDP_PASS); lia).
  - apply slice_bytes, typed_packet, Hst.
  - unfold slice. rewrite length_take, length_drop. lia.
  - apply (Forall_replicate is_byte 64 0). unfold is_byte. lia.
Qed.

#[local] Hint Resolve preserves_drop_packet preserves_trust_pass_sampled preserves_log_packet_sample : typing.

(** *** The checks return a context that is well typed *)
Definition returns_ctx (m : BPF (Z * PacketCtx.t)) : Prop :=
  forall s, typed s -> ctx_typed (snd (fst (m s))) /\ typed (snd (m s)).

Lemma returns_ret a pc : ctx_typed pc -> returns_ctx (ret (a, pc)).
Proof. by intros Hpc s Hs. Qed.

Lemma returns_bind {A} (m : BPF A) k : preserves m -> (forall a, returns_ctx (k a)) -> returns_ctx (bind m k).
Proof. intros Hm Hk s Hs. unfold bind. specialize (Hm s Hs). destruct (m s) as [a s1]. by apply Hk. Qed.

Lemma returns_bind_gets {A} (f : KState -> A) k : (forall s, typed s -> returns_ctx (k (f s))) -> returns_ctx (bind (gets f) k).
Proof. intros Hk s Hs. unfold bind, gets. by apply Hk. Qed.

Lemma ctx_rule pc r : ctx_typed pc -> 0 <= r <= 15 -> ctx_typed (pc <| PacketCtx.rule_id := r |>).
Proof. intros (Ha & Hp & Hs & Hd & _ & H) Hr. split_and!; try done; try apply H. by apply rule_fits. Qed.
Lemma ctx_counted pc b : ctx_typed pc -> ctx_typed (pc <| PacketCtx.rate_counted := b |>).
Proof. done. Qed.
Lemma ctx_flags pc f : ctx_typed pc -> ctx_typed (pc <| PacketCtx.project_flags := f |>).
Proof. done. Qed.

Lemma returns_drop_as rule count protocol pc :
  ctx_typed pc -> 0 <= rule <= 15 -> (forall g, stats_typed g -> stats_typed (count g)) ->
  returns_ctx (drop_as rule count protocol pc).
Proof.
  intros Hpc Hr Hc. unfold drop_as. cbv zeta. assert (ctx_typed (pc <| PacketCtx.rule_id := rule |>)) by by apply ctx_rule.
  apply returns_bind; [|intros _; apply returns_bind; [typing|intros; by apply returns_ret]].
  apply preserves_with_stats. intros g Hg. apply inc_protocol_typed, Hc. revert g Hg. solve_stats.
Qed.

Ltac returns_step :=
  lazymatch goal with
  | |- returns_ctx (bind (gets _) _) => apply returns_bind_gets; intros ? ?; cbv beta
  | |- returns_ctx (bind _ _) => apply returns_bind; [typing|intros ?]
  | |- returns_ctx (let _ := _ in _) => cbv zeta
  | |- returns_ctx (match ?x with _ => _ end) => destruct x eqn:?
  | |- returns_ctx (no_action _) => apply returns_ret
  | |- returns_ctx (ret _) => apply returns_ret
  | |- returns_ctx (drop_as _ _ _ _) => apply returns_drop_as; [|split; discriminate|solve_stats]
  | |- ctx_typed (_ <| PacketCtx.rule_id := _ |>) => apply ctx_rule; [|split; discriminate]
  | |- ctx_typed (_ <| PacketCtx.rate_counted := _ |>) => apply ctx_counted
  | |- ctx_typed (_ <| PacketCtx.project_flags := _ |>) => apply ctx_flags
  end.
Ltac returns := repeat (assumption || returns_step).

Lemma returns_fragment policy pr pc : ctx_typed pc -> returns_ctx (check_fragment_drop policy pr pc).
Proof.
  intros Hpc. pose proof Hpc as (_ & Hp & _ & _ & _ & Hn & _). unfold check_fragment_drop. cbv zeta.
  assert (fits 16 0) by (unfold fits; lia). returns.
Qed.

Lemma returns_port_acl n pc : ctx_typed pc -> returns_ctx (check_port_acl_drop n pc).
Proof. intros Hpc. unfold check_port_acl_drop, check_port_acl. returns. Qed.

Lemma returns_project pc : ctx_typed pc -> returns_ctx (check_project_policy pc).
Proof.
  intros Hpc. pose proof Hpc as (Ha & _ & _ & _ & _ & Hn & Hd & _). unfold check_project_policy.
  assert (preserves (with_stats (setter GlobalStats.total_passed inc))) by (apply preserves_with_stats; solve_stats).
  returns.
Qed.

Lemma returns_geoip a b pc : ctx_typed pc -> returns_ctx (check_geoip_drop a b pc).
Proof. intros Hpc. unfold check_geoip_drop, is_geoip_blocked, is_geoip_allowed. returns. Qed.

Lemma returns_conn_track a b c pc : ctx_typed pc -> returns_ctx (check_conn_track_drop a b c pc).
Proof. intros Hpc. pose proof Hpc as (Ha & _ & _ & _ & _ & Hn & _). unfold check_conn_track_drop. returns. Qed.

Lemma returns_port_rate dport count pc : fits 16 dport -> ctx_typed pc -> returns_ctx (check_port_rate_drop dport count pc).
Proof. intros Hd Hpc. pose proof Hpc as (_ & Hp & _ & _ & _ & Hn & _). unfold check_port_rate_drop. returns. Qed.

Lemma returns_syn_proxy ip tcp pc : ctx_typed pc -> returns_ctx (check_syn_proxy ip tcp pc).
Proof.
  intros Hpc. unfold check_syn_proxy. apply returns_bind_gets. intros s Hs. cbv beta zeta.
  set (pc1 := if TcpHdr.is_syn _ then _ else _). assert (Hpc1 : ctx_typed pc1) by (subst pc1; case_match; [by apply ctx_counted|done]).
  clearbody pc1. pose proof Hpc1 as (Ha & _ & _ & _ & _ & Hn & Hd & _).
  assert (preserves (with_stats (setter GlobalStats.total_passed inc))) by (apply preserves_with_stats; solve_stats).
  assert (forall action, preserves (with_stats (fun g =>
    let g := g <| GlobalStats.syn_flood_blocked ::= inc |> in
    if negb (action =? XDP_TX) then inc_protocol_dropped IPPROTO_TCP (g <| GlobalStats.total_dropped ::= inc |>) else g))).
  { intros action. apply preserves_with_stats. intros g Hg. cbv zeta. destruct (negb _); [apply inc_protocol_typed|]; revert g Hg; solve_stats. }
  returns.
Qed.

Lemma returns_tcp a b pc : ctx_typed pc -> returns_ctx (check_tcp_drop a b pc).
Proof.
  intros Hpc. unfold check_tcp_drop.
  assert (Ht : forall pc, ctx_typed pc -> returns_ctx (
    if nz b && negb (flag_off pc project_modules.SYN_FLOOD)
    then check_port_rate_drop (bswap 2 (PacketCtx.dport pc)) IPPROTO_TCP pc else no_action pc)).
  { intros pc' Hpc'. destruct (_ && _); [|by apply returns_ret]. apply returns_port_rate; [apply fits_bswap2|done]. }
  destruct (_ || _); [by apply returns_ret|]. apply returns_bind_gets. intros s Hs. destruct (_ && _).
  - repeat (case_match; [|returns]). by apply returns_syn_proxy.
  - cbv zeta. destruct (ptr_at _ _ _); [|by apply Ht].
    set (pc1 := if TcpHdr.is_syn _ then _ else _). assert (Hpc1 : ctx_typed pc1) by (subst pc1; case_match; [by apply ctx_counted|done]).
    clearbody pc1. pose proof Hpc1 as (Ha & _ & _ & _ & _ & Hn & _). returns_step. returns_step; [returns|by apply Ht].
Qed.

Lemma returns_port_rate_if (c : bool) dport count pc : fits 16 dport -> ctx_typed pc ->
  returns_ctx (if c then check_port_rate_drop dport count pc else no_action pc).
Proof. intros Hd Hpc. destruct c; [by apply returns_port_rate|by apply returns_ret]. Qed.

Lemma returns_udp a b pc : ctx_typed pc -> returns_ctx (check_udp_drop a b pc).
Proof.
  intros Hpc. pose proof Hpc as (Ha & _ & _ & _ & _ & Hn & _). unfold check_udp_drop. returns_step; [returns|].
  cbv zeta. destruct (nz a && _); [|apply returns_port_rate_if; [apply fits_bswap2|done]].
  returns_step. returns_step; [returns|]. apply returns_port_rate_if; [apply fits_bswap2|returns].
Qed.

Lemma returns_icmp a b pc : ctx_typed pc -> returns_ctx (check_icmp_drop a b pc).
Proof.
  intros Hpc. pose proof Hpc as (Ha & _ & _ & _ & _ & Hn & _). unfold check_icmp_drop. returns_step; [returns|].
  assert (Hz : fits 16 0) by (unfold fits; lia).
  cbv zeta. destruct (nz a && _); [|by apply returns_port_rate_if].
  returns_step. returns_step; [returns|]. apply returns_port_rate_if; [done|returns].
Qed.

Lemma returns_l7 n pc : ctx_typed pc -> returns_ctx (check_l7_drop n pc).
Proof. intros Hpc. unfold check_l7_drop, scan. returns. Qed.

Lemma returns_rate_limit pc : ctx_typed pc -> returns_ctx (check_rate_limit_drop pc).
Proof. intros Hpc. pose proof Hpc as (Ha & _ & _ & _ & _ & Hn & _). unfold check_rate_limit_drop. returns. Qed.

Lemma returns_blacklist pc : ctx_typed pc -> returns_ctx (check_blacklist_drop pc).
Proof. intros Hpc. pose proof Hpc as (Ha & _ & _ & _ & _ & Hn & _). unfold check_blacklist_drop. returns. Qed.

(** *** The pipeline *)
Lemma preserves_stage check next :
  returns_ctx check -> (forall pc, ctx_typed pc -> preserves (next pc)) -> preserves (stage check next).
Proof.
  intros Hc Hn s Hs. unfold stage, bind. destruct (Hc s Hs) as [Hpc Hs1]. destruct (check s) as [[action pc] s1]. cbn in Hpc, Hs1.
  destruct (negb _); [|by apply Hn]. pose proof (preserves_log_packet_sample pc action Hpc s1 Hs1) as H.
  by destruct (log_packet_sample pc action s1).
Qed.

Lemma preserves_pass src now d : addr_typed src -> fits 64 now -> fits 32 d -> preserves (pass src now d).
Proof.
  intros Ha Hn Hd. unfold pass. typing_step; [apply preserves_with_stats; solve_stats|typing].
Qed.

Lemma preserves_pipeline runtime pc : ctx_typed pc -> preserves (pipeline runtime pc).
Proof.
  intros Hpc. unfold pipeline.
  apply preserves_stage; [by apply returns_port_acl|]. clear pc Hpc. intros pc Hpc.
  apply preserves_stage; [by apply returns_blacklist|]. clear pc Hpc. intros pc Hpc.
  apply preserves_stage; [by apply returns_fragment|]. clear pc Hpc. intros pc Hpc.
  apply preserves_stage; [by apply returns_project|]. clear pc Hpc. intros pc Hpc.
  apply preserves_stage; [by apply returns_geoip|]. clear pc Hpc. intros pc Hpc.
  apply preserves_stage; [by apply returns_conn_track|]. clear pc Hpc. intros pc Hpc.
  apply preserves_stage; [case_match; [by apply returns_tcp|by apply returns_ret]|]. clear pc Hpc. intros pc Hpc.
  apply preserves_stage; [by apply returns_udp|]. clear pc Hpc. intros pc Hpc.
  apply preserves_stage; [by apply returns_icmp|]. clear pc Hpc. intros pc Hpc.
  apply preserves_stage; [case_match; [by apply returns_l7|by apply returns_ret]|]. clear pc Hpc. intros pc Hpc.
  apply preserves_stage; [by apply returns_rate_limit|]. clear pc Hpc. intros pc Hpc.
  destruct Hpc as (Ha & _ & _ & _ & _ & Hn & Hd & _). by apply preserves_pass.
Qed.

(** *** Parsing *)
Lemma read_ports_fit p off protocol ports : read_ports p off protocol = Some ports -> fits 16 (fst ports) /\ fits 16 (snd ports).
Proof.
  unfold read_ports. destruct (protocol =? IPPROTO_TCP).
  - destruct (ptr_at _ _ _); [|done]. intros [= <-]. split; apply fits_bswap2.
  - destruct (protocol =? IPPROTO_UDP); [|intros [= <-]; unfold fits; cbn; lia].
    destruct (ptr_at _ _ _); [|done]. intros [= <-]. split; apply fits_bswap2.
Qed.

Lemma slice_length {A} off n (l : list A) : (off + n <= length l)%nat -> length (slice off n l) = n.
Proof. intros H. unfold slice. rewrite length_take, length_drop. lia. Qed.

Lemma parse_frame_typed p r : bytes_ok p -> parse_frame p = Some r ->
  addr_typed (Parsed.src r) /\ fits 8 (Parsed.protocol r) /\ fits 16 (Parsed.sport r) /\ fits 16 (Parsed.dport r).
Proof.
  intros Hb. unfold parse_frame. destruct (ptr_at EthHdr.size _ _); [|done]. cbn [mbind option_bind].
  assert (Hz : fits 16 0) by (unfold fits; lia).
  destruct (_ =? ETH_P_IP); [|destruct (_ =? ETH_P_IPV6); [|done]].
  - unfold parse_ipv4. destruct (ptr_at _ _ _) as [ip|] eqn:E; [|done]. cbn [mbind option_bind].
    apply ptr_at_Some in E as [-> E]. destruct (_ <? _)%nat; [done|].
    assert (Hp : fits 8 (IpHdr.proto (load_IpHdr p ETH_HDR_LEN))).
    { pose proof (IpHdr_decode_fit (slice ETH_HDR_LEN 20 p) (slice_bytes _ _ _ Hb) (slice_length _ _ _ E)) as Hf.
      unfold IpHdr_fit in Hf. cbn -[Z.pow] in Hf. apply Hf. }
    destruct (negb _).
    + intros [= <-]. cbn [Parsed.src Parsed.protocol Parsed.sport Parsed.dport]. split_and!; try done; apply proxy_addr_typed.
    + destruct (read_ports _ _ _) as [ports|] eqn:Er; [|done]. intros [= <-].
      destruct (read_ports_fit _ _ _ _ Er). split; [apply proxy_addr_typed|done].
  - unfold parse_ipv6. destruct (ptr_at _ _ _) as [ip|] eqn:E; [|done]. cbn [mbind option_bind].
    apply ptr_at_Some in E as [-> E]. destruct (read_ports _ _ _) as [ports|] eqn:Er; [|done]. intros [= <-].
    destruct (read_ports_fit _ _ _ _ Er). cbn [Parsed.src Parsed.protocol Parsed.sport Parsed.dport].
    split; [split; [unfold fits; cbn; lia|split; [by apply slice_bytes, slice_bytes|]]|split; [|done]].
    + apply slice_length. rewrite slice_length by done. unfold Ipv6Hdr.size. lia.
    + apply fits_byte; [by apply slice_bytes, slice_bytes|]. unfold slice. rewrite length_take. lia.
Qed.

Lemma preserves_try_eshield : preserves try_eshield.
Proof.
  unfold try_eshield. read s Hs. destruct (parse_frame (packet s)) as [r|] eqn:E; [|typing].
  destruct (parse_frame_typed _ _ (typed_packet s Hs) E) as (Ha & Hp & Hsp & Hd).
  typing_step. typing_step; [apply preserves_with_stats; solve_stats|]. read s1 Hs1.
  destruct (array_get (CONFIG s1) 0) as [runtime|] eqn:Er; [|typing].
  destruct (Forall_lookup_1 _ _ _ _ (typed_config s1 Hs1) Er) as [Hadd Hsub].
  assert (Hpc : ctx_typed (packet_ctx r t runtime)).
  { unfold ctx_typed, packet_ctx, rules.UNKNOWN, fits in *. cbn. split_and!; try done; lia. }
  cbv zeta. typing_step; [unfold is_whitelisted; typing|]. destruct a0; [|by apply preserves_pipeline].
  destruct Hpc as (Ha' & _ & _ & _ & _ & Hn & Hd' & _). by apply preserves_pass.
Qed.

(** Frames that arrive one after the other, on the maps the ones before left. *)
Definition receive (p : frame) : BPF Z := fun s => try_eshield (s <| packet := p |>).
Definition receive_all (frames : list frame) (s : KState) : KState := foldl (fun s p => snd (receive p s)) s frames.

(** C6: no field ever leaves its type.  From a state in which every field of
    every map entry, statistic, event and sample is in the range of its Rust
    type, whatever frames of bytes arrive in whatever number leave such a
    state: counters wrap or saturate in their width, trust scores stay at most
    1000, addresses keep 16 bytes, and the answers written are bytes. *)
Theorem data_plane_typed frames s : typed s -> Forall bytes_ok frames -> typed (receive_all frames s).
Proof.
  intros Hs Hf. unfold receive_all. revert s Hs. induction Hf as [|p frames Hp _ IH]; intros s Hs; cbn [foldl]; [done|].
  apply IH. unfold receive. apply preserves_try_eshield. by destruct Hs.
Qed.
End Typing.

Module TypingWitness.
Import Samples TcpResetWitness.

Lemma clock_u64 i : fits 64 (@ktime_get_ns kernel i).
Proof. split; vm_compute; congruence. Qed.

Lemma state_typed : typed (state segment : @KState kernel).
Proof.
  split; try (by intros k v [=]); try (by constructor).
  - repeat constructor; vm_compute; congruence.
  - split; repeat constructor; vm_compute; congruence.
  - repeat (apply List.Forall_cons; [split; [by apply Z.leb_le|by apply Z.ltb_lt]|]); apply List.Forall_nil.
Qed.

(** The same segment three times, the last one cut short. *)
Lemma data_plane_typed_witness :
  typed (receive_all [segment; segment; take 20 segment] (state segment : @KState kernel)).
Proof.
  apply (data_plane_typed (KL := kernel_laws) clock_u64); [exact state_typed|].
  pose proof (typed_packet _ state_typed) as Hp.
  repeat (apply List.Forall_cons; [first [exact Hp|apply Forall_take; exact Hp]|]). apply List.Forall_nil.
Defined.
End TypingWitness.
