(* ===== verification/RustStd.v ===== *)
(** * RustStd: the parts of the Rust standard library the control plane uses on text

    Strings are byte strings.  [to_lowercase] folds ASCII letters only: the
    sources compare its result with the names of protocols, actions and modes,
    none of which a folded non-ASCII character can be part of.  [trim] removes
    ASCII white space.  [Class] and [Record] arguments of libraries do not occur
    here: every definition is the documented behaviour of [core] and [std]. *)
From Stdlib Require Import Ascii.
From stdpp Require Import strings countable.
From S2P Require Import Prelude Words.
#[local] Open Scope Z_scope.

(** ** Characters *)
Definition code (c : ascii) : Z := Z.of_N (N_of_ascii c).
Definition of_code (n : Z) : ascii := ascii_of_N (Z.to_N n).

Definition to_ascii_lower (c : ascii) : ascii :=
  let n := code c in if (65 <=? n) && (n <=? 90) then of_code (n + 32) else c.

(** [char::is_whitespace] on ASCII *)
Definition is_whitespace (c : ascii) : bool :=
  let n := code c in ((9 <=? n) && (n <=? 13)) || (n =? 32).

(** [char::to_digit] *)
Definition to_digit (radix : Z) (c : ascii) : option Z :=
  let n := code c in
  let d := if (48 <=? n) && (n <=? 57) then n - 48
           else if (97 <=? n) && (n <=? 122) then n - 87
           else if (65 <=? n) && (n <=? 90) then n - 55
           else radix in
  if d <? radix then Some d else None.

(** ** Strings *)
Fixpoint to_lowercase (s : string) : string :=
  match s with
  | EmptyString => EmptyString
  | String c s => String (to_ascii_lower c) (to_lowercase s)
  end.

Definition to_ascii_upper (c : ascii) : ascii :=
  let n := code c in if (97 <=? n) && (n <=? 122) then of_code (n - 32) else c.

Fixpoint to_ascii_uppercase (s : string) : string :=
  match s with
  | EmptyString => EmptyString
  | String c s => String (to_ascii_upper c) (to_ascii_uppercase s)
  end.

Definition eq_ignore_ascii_case (a b : string) : bool :=
  String.eqb (to_lowercase a) (to_lowercase b).

Fixpoint trim_start (s : string) : string :=
  match s with
  | EmptyString => EmptyString
  | String c s' => if is_whitespace c then trim_start s' else s
  end.

Fixpoint trim_end (s : string) : string :=
  match s with
  | EmptyString => EmptyString
  | String c s =>
      match trim_end s with
      | EmptyString => if is_whitespace c then EmptyString else String c EmptyString
      | s => String c s
      end
  end.

Definition trim (s : string) : string := trim_end (trim_start s).

(** [s.split(sep)]: never empty. *)
Fixpoint split (sep : ascii) (s : string) : list string :=
  match s with
  | EmptyString => [EmptyString]
  | String c s =>
      if Ascii.eqb c sep then EmptyString :: split sep s
      else match split sep s with
           | p :: ps => String c p :: ps
           | [] => [String c EmptyString]
           end
  end.

(** [str::strip_prefix] *)
Definition str_strip_prefix (p s : string) : option string :=
  if String.prefix p s
  then Some (String.substring (String.length p) (String.length s - String.length p) s) else None.

Fixpoint split_once (sep : ascii) (s : string) : option (string * string) :=
  match s with
  | EmptyString => None
  | String c s =>
      if Ascii.eqb c sep then Some (EmptyString, s)
      else match split_once sep s with
           | Some (a, b) => Some (String c a, b)
           | None => None
           end
  end.

(** [s.lines()]: a final line feed ends the last line; a carriage return
    before a line feed belongs to it. *)
Fixpoint strip_cr (s : string) : string :=
  match s with
  | EmptyString => EmptyString
  | String c EmptyString => if Ascii.eqb c (of_code 13) then EmptyString else s
  | String c s => String c (strip_cr s)
  end.

Fixpoint terminated_lines (ls : list string) : list string :=
  match ls with
  | [] => []
  | [l] => if String.eqb l "" then [] else [l]
  | l :: ls => strip_cr l :: terminated_lines ls
  end.

Definition lines (s : string) : list string := terminated_lines (split (of_code 10) s).

(** [s.contains(p)] *)
Fixpoint contains (p s : string) : bool :=
  String.prefix p s || match s with EmptyString => false | String _ s => contains p s end.

(** The bytes of a string. *)
Definition as_bytes (s : string) : list Z := map code (String.list_ascii_of_string s).

(** ** Numbers *)

(** The digits of [u16::from_str] and its like, with the overflow check. *)
Fixpoint parse_digits (w : Z) (acc : Z) (s : string) : option Z :=
  match s with
  | EmptyString => Some acc
  | String c s =>
      d ← to_digit 10 c;
      let acc := acc * 10 + d in
      if acc <? 2 ^ w then parse_digits w acc s else None
  end.

(** An unsigned integer of [w] bits: a plus sign and zeros may lead. *)
Definition parse_uint (w : Z) (s : string) : option Z :=
  match s with
  | EmptyString => None
  | String c rest =>
      if Ascii.eqb c "+"%char then (if String.eqb rest ""%string then None else parse_digits w 0 rest)
      else parse_digits w 0 s
  end.

Lemma parse_digits_range w s : forall acc n, 0 <= w -> 0 <= acc < 2 ^ w ->
  parse_digits w acc s = Some n -> 0 <= n < 2 ^ w.
Proof.
  induction s as [|c s IH]; intros acc n Hw Ha; cbn [parse_digits]; [congruence|].
  destruct (to_digit 10 c) as [d|] eqn:Hd; [|done]. cbn [mbind option_bind].
  assert (0 <= d).
  { unfold to_digit in Hd. revert Hd. repeat case_match; bool_to_prop; intros [= <-]; lia. }
  case_match; [|done]. bool_to_prop. by apply IH; [|lia].
Qed.

Lemma parse_uint_range w s n : 0 <= w -> parse_uint w s = Some n -> 0 <= n < 2 ^ w.
Proof.
  intros Hw. unfold parse_uint. destruct s as [|c s]; [done|].
  assert (0 <= 0 < 2 ^ w) by lia.
  destruct (Ascii.eqb c "+"%char); [destruct (String.eqb s ""%string); [done|]|]; by apply parse_digits_range.
Qed.

(** ** Addresses: [core::net::parser] *)
Inductive IpAddr := V4 (octets : list Z) | V6 (octets : list Z).

#[export] Instance IpAddr_eq_dec : EqDecision IpAddr.
Proof. solve_decision. Defined.

#[export, refine] Instance IpAddr_countable : Countable IpAddr :=
  inj_countable' (fun a => match a with V4 o => inl o | V6 o => inr o end)
    (fun x => match x with inl o => V4 o | inr o => V6 o end) _.
Proof. by intros []. Defined.

(** Parsers return what they read and what is left. *)
Abbreviation parser A := (string -> option (A * string)).

Definition read_given_char (target : ascii) : parser unit := fun s =>
  match s with
  | String c s => if Ascii.eqb c target then Some (tt, s) else None
  | EmptyString => None
  end.

(** The digits of [read_number]: value, count and rest. *)
Fixpoint read_digits (radix : Z) (acc : Z) (count : nat) (s : string) : Z * nat * string :=
  match s with
  | EmptyString => (acc, count, s)
  | String c s' =>
      match to_digit radix c with
      | Some d => read_digits radix (acc * radix + d) (S count) s'
      | None => (acc, count, s)
      end
  end.

Definition has_leading_zero (s : string) : bool :=
  match s with String c _ => Ascii.eqb c "0"%char | EmptyString => false end.

Definition read_number (radix : Z) (max_digits : nat) (allow_zero_prefix : bool) (w : Z)
    : parser Z := fun s =>
  let '(result, count, rest) := read_digits radix 0 0 s in
  if (max_digits <? count)%nat then None
  else if (count =? 0)%nat then None
  else if negb allow_zero_prefix && has_leading_zero s && (1 <? count)%nat then None
  else if result <? 2 ^ w then Some (result, rest) else None.

(** [read_separator(sep, index, inner)] *)
Definition read_separator {A} (sep : ascii) (index : nat) (inner : parser A) : parser A := fun s =>
  match index with
  | O => inner s
  | S _ => r ← read_given_char sep s; inner (snd r)
  end.

Fixpoint read_octets (index n : nat) : parser (list Z) := fun s =>
  match n with
  | O => Some ([], s)
  | S n =>
      r ← read_separator "."%char index (read_number 10 3 false 8) s;
      rs ← read_octets (S index) n (snd r);
      Some (fst r :: fst rs, snd rs)
  end.

Definition read_ipv4_addr : parser (list Z) := read_octets 0 4.

Definition read_group (index : nat) : parser Z := read_separator ":"%char index (read_number 16 4 true 16).

(** The groups from [index] on, with [left] still to fill: the groups read,
    whether the last two are an embedded IPv4 address, and the rest. *)
Fixpoint read_groups (index left : nat) (s : string) : list Z * bool * string :=
  match left with
  | O => ([], false, s)
  | S left' =>
      match (if (left =? 1)%nat then None else read_separator ":"%char index read_ipv4_addr s) with
      | Some (o, rest) =>
          ([be_val (take 2 o); be_val (drop 2 o)], true, rest)
      | None =>
          match read_group index s with
          | Some (g, rest) =>
              let '(gs, v4, rest) := read_groups (S index) left' rest in (g :: gs, v4, rest)
          | None => ([], false, s)
          end
      end
  end.

Definition groups_octets (groups : list Z) : list Z := concat (map (be_bytes 2) groups).

Definition read_ipv6_addr : parser (list Z) := fun s =>
  let '(head, head_ipv4, s) := read_groups 0 8 s in
  if (length head =? 8)%nat then Some (groups_octets head, s)
  else if head_ipv4 then None
  else
    r ← read_given_char ":"%char s;
    r ← read_given_char ":"%char (snd r);
    let '(tail, _, s) := read_groups 0 (8 - (length head + 1)) (snd r) in
    Some (groups_octets (head ++ replicate (8 - length tail - length head) 0 ++ tail), s).

Definition read_ip_addr : parser IpAddr := fun s =>
  match read_ipv4_addr s with
  | Some (o, rest) => Some (V4 o, rest)
  | None => r ← read_ipv6_addr s; Some (V6 (fst r), snd r)
  end.

(** [IpAddr::from_str]: the whole string. *)
Definition parse_ip_addr (s : string) : option IpAddr :=
  match read_ip_addr s with
  | Some (a, EmptyString) => Some a
  | _ => None
  end.

(** A number without a limit on its digits. *)
Definition read_any_number (w : Z) : parser Z := fun s => read_number 10 (String.length s) true w s.

Definition read_port : parser Z := fun s => r ← read_given_char ":"%char s; read_any_number 16 (snd r).

(** [%scope] after an IPv6 address is optional. *)
Definition read_scope_id (s : string) : string :=
  match read_given_char "%"%char s with
  | Some (_, rest) => match read_any_number 32 rest with Some (_, rest) => rest | None => s end
  | None => s
  end.

(** [SocketAddr::from_str]: [a.b.c.d:port] or [[v6%scope]:port]. *)
Definition parse_socket_addr (s : string) : option (IpAddr * Z) :=
  let v4 := r ← read_ipv4_addr s; p ← read_port (snd r); Some (V4 (fst r), fst p, snd p) in
  let v6 :=
    r ← read_given_char "["%char s;
    a ← read_ipv6_addr (snd r);
    r ← read_given_char "]"%char (read_scope_id (snd a));
    p ← read_port (snd r);
    Some (V6 (fst a), fst p, snd p) in
  match (match v4 with Some r => Some r | None => v6 end) with
  | Some (a, port, EmptyString) => Some (a, port)
  | _ => None
  end.

(** ** Addresses: [core::net::ip_addr], [Display] *)
Definition digit_char (d : Z) : ascii := of_code (if d <? 10 then 48 + d else 87 + d).

(** The digits of [n] in [radix], at most [fuel] of them after the first. *)
Fixpoint print_digits (fuel : nat) (radix n : Z) (acc : string) : string :=
  let acc := String (digit_char (n mod radix)) acc in
  match fuel with
  | O => acc
  | S fuel => if n <? radix then acc else print_digits fuel radix (n / radix) acc
  end.

(** [u8] in decimal and [u16] in hexadecimal. *)
Definition print_octet (n : Z) : string := print_digits 2 10 n ""%string.
Definition print_group (n : Z) : string := print_digits 3 16 n ""%string.
(** [u64] in decimal. *)
Definition print_u64 (n : Z) : string := print_digits 19 10 n ""%string.

Definition newline_char : ascii := of_code 10.
Definition newline : string := String newline_char EmptyString.

(** The elements with a separator between them ([fmt_subslice]). *)
Fixpoint joined (sep : string) (parts : list string) : string :=
  match parts with
  | [] => ""
  | [p] => p
  | p :: parts => p +:+ sep +:+ joined sep parts
  end%string.

Definition print_ipv4 (octets : list Z) : string := joined "." (map print_octet octets).

Definition to_ipv4_mapped (octets : list Z) : option (list Z) :=
  if decide (take 12 octets = replicate 10 0 ++ [255; 255]) then Some (drop 12 octets) else None.

(** [u128] octets as eight groups. *)
Definition segments (octets : list Z) : list Z := map (fun i => be_val (slice (2 * i) 2 octets)) (seq 0 8).

(** The longest run of zeros: start and length; [current] is the open run. *)
Fixpoint longest_zeroes (i : nat) (current longest : nat * nat) (segs : list Z) : nat * nat :=
  match segs with
  | [] => longest
  | seg :: segs =>
      if seg =? 0 then
        let current := ((if (snd current =? 0)%nat then i else fst current), S (snd current)) in
        longest_zeroes (S i) current
          (if (snd longest <? snd current)%nat then current else longest) segs
      else longest_zeroes (S i) (0, 0)%nat longest segs
  end.

Definition print_ipv6 (octets : list Z) : string :=
  match to_ipv4_mapped octets with
  | Some v4 => "::ffff:" +:+ print_ipv4 v4
  | None =>
      let segs := segments octets in
      let '(start, len) := longest_zeroes 0 (0, 0)%nat (0, 0)%nat segs in
      if (1 <? len)%nat then
        joined ":" (map print_group (take start segs)) +:+ "::" +:+
        joined ":" (map print_group (drop (start + len) segs))
      else joined ":" (map print_group segs)
  end%string.

Definition print_ip_addr (a : IpAddr) : string :=
  match a with V4 o => print_ipv4 o | V6 o => print_ipv6 o end.

(** ** Lemmas on concatenation *)
Lemma append_cons c (a b : string) : String c a +:+ b = String c (a +:+ b).
Proof. reflexivity. Qed.

Lemma append_empty_l (a : string) : ""%string +:+ a = a.
Proof. reflexivity. Qed.

Lemma append_assoc (a b c : string) : (a +:+ b) +:+ c = a +:+ (b +:+ c).
Proof. induction a as [|x a IH]; [done|by rewrite !append_cons, IH]. Qed.

Lemma append_empty_r (a : string) : a +:+ ""%string = a.
Proof. induction a as [|x a IH]; [done|by rewrite append_cons, IH]. Qed.

Lemma length_append (a b : string) : String.length (a +:+ b) = (String.length a + String.length b)%nat.
Proof. induction a as [|x a IH]; [done|rewrite append_cons; cbn; by rewrite IH]. Qed.

(** ** Printing and parsing numbers *)
Lemma to_digit_char radix d : 0 <= d < radix -> radix <= 16 -> to_digit radix (digit_char d) = Some d.
Proof.
  intros Hd Hr.
  assert (E : d = 0 \/ d = 1 \/ d = 2 \/ d = 3 \/ d = 4 \/ d = 5 \/ d = 6 \/ d = 7 \/ d = 8 \/ d = 9 \/
              d = 10 \/ d = 11 \/ d = 12 \/ d = 13 \/ d = 14 \/ d = 15) by lia.
  assert (Hc : code (digit_char d) = if d <? 10 then 48 + d else 87 + d)
    by (clear Hd; destruct_or! E; subst d; reflexivity).
  unfold to_digit. rewrite Hc. repeat case_match; bool_to_prop; try lia; f_equal; lia.
Qed.

Definition starts_digit (radix : Z) (s : string) : bool :=
  match s with String c _ => bool_decide (is_Some (to_digit radix c)) | EmptyString => false end.

(** What [print_digits] puts before [acc]: digits that read back as [n]. *)
Lemma print_digits_read fuel radix n acc :
  2 <= radix <= 16 -> 0 <= n < radix ^ (Z.of_nat fuel + 1) ->
  exists ds, print_digits fuel radix n acc = ds +:+ acc /\
    (1 <= String.length ds <= S fuel)%nat /\
    (has_leading_zero ds = true -> String.length ds = 1%nat) /\
    (forall a c rest, read_digits radix a c (ds +:+ rest) =
       read_digits radix (a * radix ^ Z.of_nat (String.length ds) + n) (c + String.length ds) rest).
Proof.
  intros Hr. revert n acc. induction fuel as [|fuel IH]; intros n acc Hn; cbn [print_digits].
  - rewrite Z.pow_1_r in Hn. rewrite Z.mod_small by lia.
    exists (String (digit_char n) EmptyString). split; [done|]. split; [cbn; lia|]. split; [done|].
    intros a c rest. rewrite ?append_cons, ?append_empty_l; cbn [read_digits]. rewrite to_digit_char by lia. cbn [String.length].
    rewrite Z.pow_1_r. by rewrite Nat.add_1_r.
  - case_match eqn:E; bool_to_prop.
    + rewrite Z.mod_small by lia.
      exists (String (digit_char n) EmptyString). split; [done|]. split; [cbn; lia|]. split; [done|].
      intros a c rest. rewrite ?append_cons, ?append_empty_l; cbn [read_digits]. rewrite to_digit_char by lia. cbn [String.length].
      rewrite Z.pow_1_r. by rewrite Nat.add_1_r.
    + assert (Hq : 0 <= n / radix < radix ^ (Z.of_nat fuel + 1)).
      { split; [apply Z.div_pos; lia|]. apply Z.div_lt_upper_bound; [lia|].
        replace (radix * radix ^ (Z.of_nat fuel + 1)) with (radix ^ (Z.of_nat (S fuel) + 1)); [lia|].
        rewrite <- Z.pow_succ_r by lia. f_equal. lia. }
      destruct (IH (n / radix) (String (digit_char (n mod radix)) acc) Hq) as (ds & Hp & Hl & Hz & Hd).
      exists (ds +:+ String (digit_char (n mod radix)) EmptyString).
      assert (Hlen : String.length (ds +:+ String (digit_char (n mod radix)) EmptyString) =
                     S (String.length ds)) by (rewrite length_append; cbn; lia).
      rewrite Hlen. split; [rewrite Hp; by rewrite append_assoc|]. split; [lia|]. split.
      * intros Hzero. exfalso. destruct ds as [|ch ds']; [cbn in Hl; lia|].
        assert (String.length (String ch ds') = 1%nat) by (apply Hz, Hzero).
        pose proof (Hd 0 0%nat EmptyString) as Hv. rewrite append_empty_r in Hv.
        destruct ds'; [|cbn in *; lia]. cbn in Hzero. apply Ascii.eqb_eq in Hzero. subst ch.
        change "0"%char with (digit_char 0) in Hv. cbn [read_digits] in Hv.
        rewrite to_digit_char in Hv by lia. injection Hv as Hv.
        assert (0 < n / radix) by (apply Z.div_str_pos; lia). lia.
      * intros a c rest. rewrite append_assoc, Hd. rewrite ?append_cons, ?append_empty_l; cbn [read_digits].
        rewrite to_digit_char by (pose proof (Z.mod_pos_bound n radix); lia). f_equal; [|lia].
        rewrite Nat2Z.inj_succ, Z.pow_succ_r by lia.
        rewrite (Z.div_mod n radix) at 3 by lia. ring.
Qed.

(** ** Strings of characters with a property *)
Fixpoint every (P : ascii -> bool) (s : string) : bool :=
  match s with
  | EmptyString => true
  | String c s => P c && every P s
  end.

Lemma every_append P a b : every P (a +:+ b) = every P a && every P b.
Proof. induction a as [|c a IH]; [done|]. rewrite append_cons. cbn. by rewrite IH, andb_assoc. Qed.

Lemma every_weaken (P Q : ascii -> bool) s : (forall c, P c = true -> Q c = true) -> every P s = true -> every Q s = true.
Proof.
  intros H. induction s as [|c s IH]; [done|]. cbn. intros [Hc Hs]%andb_true_iff.
  by rewrite H, IH.
Qed.

Lemma every_joined P sep parts : every P sep = true -> Forall (fun p => every P p = true) parts ->
  every P (joined sep parts) = true.
Proof.
  intros Hs. induction 1 as [|p parts Hp Hparts IH]; [done|]. destruct parts as [|q parts]; [done|].
  change (joined sep (p :: q :: parts)) with (p +:+ sep +:+ joined sep (q :: parts)).
  by rewrite !every_append, Hp, Hs, IH.
Qed.

Lemma every_digit P d : 0 <= d < 16 -> every P "0123456789abcdef" = true -> P (digit_char d) = true.
Proof.
  intros Hd. rewrite <- (Z2Nat.id d) by lia. assert (H : (Z.to_nat d < 16)%nat) by lia.
  revert H. generalize (Z.to_nat d). intros n Hn. cbn. rewrite !andb_true_iff. intros.
  do 16 (destruct n as [|n]; [tauto|]). lia.
Qed.

Lemma every_print_digits P fuel radix n acc : 2 <= radix <= 16 -> every P "0123456789abcdef" = true ->
  every P acc = true -> every P (print_digits fuel radix n acc) = true.
Proof.
  intros Hr HP. revert n acc. induction fuel as [|fuel IH]; intros n acc Ha; cbn [print_digits].
  all: pose proof (Z.mod_pos_bound n radix).
  all: assert (every P (String (digit_char (n mod radix)) acc) = true)
    by (cbn; rewrite every_digit by (lia || done); done).
  - done.
  - case_match; [done|]. by apply IH.
Qed.

(** Strings without a character, and their splitting. *)
Abbreviation not_char x := (fun c => negb (Ascii.eqb c x)).
Abbreviation avoids x := (every (not_char x)).

Lemma split_not_nil sep s : split sep s <> [].
Proof. destruct s as [|c s]; [done|]. cbn. destruct (Ascii.eqb c sep); [done|]. by destruct (split sep s). Qed.

Lemma split_append_sep sep a b : split sep (a +:+ String sep b) = split sep a ++ split sep b.
Proof.
  induction a as [|c a IH]; [rewrite append_empty_l; cbn; by rewrite Ascii.eqb_refl|].
  rewrite append_cons. cbn. rewrite IH. destruct (Ascii.eqb c sep); [done|].
  pose proof (split_not_nil sep a). by destruct (split sep a).
Qed.

Lemma split_avoids sep a : avoids sep a = true -> split sep a = [a].
Proof.
  induction a as [|c a IH]; [done|]. cbn. intros [Hc Ha]%andb_true_iff. apply negb_true_iff in Hc.
  rewrite Hc. by rewrite IH.
Qed.

Lemma split_append sep a b : avoids sep a = true -> split sep (a +:+ String sep b) = a :: split sep b.
Proof. intros Ha. by rewrite split_append_sep, split_avoids. Qed.

Lemma split_once_append sep a b : avoids sep a = true -> split_once sep (a +:+ String sep b) = Some (a, b).
Proof.
  induction a as [|c a IH]; [intros _; rewrite append_empty_l; cbn; by rewrite Ascii.eqb_refl|].
  rewrite append_cons. cbn. intros [Hc Ha]%andb_true_iff. apply negb_true_iff in Hc. rewrite Hc.
  by rewrite IH.
Qed.

Lemma read_digits_avoids radix x s : forall acc n v c rest,
  avoids x s = true -> read_digits radix acc n s = (v, c, rest) -> avoids x rest = true.
Proof.
  induction s as [|ch s IH]; cbn [read_digits]; intros acc n v c rest Ha; [by intros [= _ _ <-]|].
  destruct (to_digit radix ch); [|by intros [= _ _ <-]].
  apply IH. cbn in Ha. by apply andb_true_iff in Ha as [_ ?].
Qed.

(** ** Reading what was printed *)
Lemma starts_digit_read radix rest acc n :
  starts_digit radix rest = false -> read_digits radix acc n rest = (acc, n, rest).
Proof.
  destruct rest as [|c rest]; [done|]. cbn [starts_digit read_digits]. intros H%bool_decide_eq_false.
  destruct (to_digit radix c); [|done]. destruct H. by eexists.
Qed.

Lemma leading_zero_append a b : (1 <= String.length a)%nat -> has_leading_zero (a +:+ b) = has_leading_zero a.
Proof. by destruct a as [|c a]; cbn; [lia|]. Qed.

Lemma read_number_print fuel radix allow w n rest :
  2 <= radix <= 16 -> 0 <= n < 2 ^ w -> 2 ^ w <= radix ^ (Z.of_nat fuel + 1) ->
  starts_digit radix rest = false ->
  read_number radix (S fuel) allow w (print_digits fuel radix n "" +:+ rest) = Some (n, rest).
Proof.
  intros Hr Hn Hw Hrest. destruct (print_digits_read fuel radix n "" Hr) as (ds & -> & Hl & Hz & Hd); [lia|].
  rewrite append_empty_r. unfold read_number. rewrite Hd, starts_digit_read by done.
  rewrite leading_zero_append by lia.
  rewrite (proj2 (Nat.ltb_ge _ _)) by lia. rewrite (proj2 (Nat.eqb_neq _ _)) by lia.
  destruct (has_leading_zero ds) eqn:E.
  - rewrite Hz by done. rewrite andb_false_r. rewrite (proj2 (Z.ltb_lt _ _)) by lia. f_equal.
  - rewrite andb_false_r. cbn [andb]. rewrite (proj2 (Z.ltb_lt _ _)) by lia. f_equal.
Qed.

Lemma starts_digit_sep radix c rest : to_digit radix c = None -> starts_digit radix (String c rest) = false.
Proof. intros H. cbn. rewrite H. by apply bool_decide_eq_false_2; intros []. Qed.

Lemma read_ipv4_print o rest :
  length o = 4%nat -> bytes_ok o -> starts_digit 10 rest = false ->
  read_ipv4_addr (print_ipv4 o +:+ rest) = Some (o, rest).
Proof.
  intros Hlen Ho Hrest. destruct o as [|a [|b [|c [|d [|]]]]]; try done.
  unfold bytes_ok in Ho. rewrite !list.Forall_cons in Ho. unfold is_byte in Ho.
  destruct Ho as (Ha & Hb & Hc & Hd & _).
  unfold print_ipv4. cbn [map joined]. rewrite !append_assoc, !append_cons, !append_empty_l.
  unfold read_ipv4_addr. cbn [read_octets read_separator].
  assert (Hstep : forall n s, 0 <= n < 256 -> starts_digit 10 s = false ->
            read_number 10 3 false 8 (print_octet n +:+ s) = Some (n, s)).
  { intros n s Hn Hs. unfold print_octet. apply (read_number_print 2); [lia|lia|cbn; lia|done]. }
  do 3 (rewrite Hstep by (done || by apply starts_digit_sep); cbn [mbind option_bind fst snd read_given_char]; rewrite Ascii.eqb_refl; cbn [mbind option_bind fst snd]).
  rewrite Hstep by done. done.
Qed.

Lemma read_number_avoids radix max allow w x s v rest :
  avoids x s = true -> read_number radix max allow w s = Some (v, rest) -> avoids x rest = true.
Proof.
  intros Ha. unfold read_number. destruct (read_digits radix 0 0 s) as [[v' c] rest'] eqn:E.
  pose proof (read_digits_avoids _ _ _ _ _ _ _ _ Ha E).
  repeat (case_match; [done|]). case_match; [|done]. by intros [= _ <-].
Qed.

Lemma read_ipv4_avoids s : avoids "."%char s = true -> read_ipv4_addr s = None.
Proof.
  intros Ha. unfold read_ipv4_addr. cbn [read_octets read_separator].
  destruct (read_number 10 3 false 8 s) as [[v rest]|] eqn:E; [|done].
  apply (read_number_avoids _ _ _ _ _ _ _ _ Ha) in E. cbn [mbind option_bind fst snd].
  destruct rest as [|ch rest]; [done|]. cbn [read_given_char]. cbn in E.
  by destruct (Ascii.eqb ch "."%char).
Qed.

(** ** Groups of an IPv6 address *)

(** The text of groups from [index] on, and what follows. *)
Fixpoint groups_text (index : nat) (gs : list Z) (rest : string) : string :=
  match gs with
  | [] => rest
  | g :: gs =>
      (match index with O => "" | S _ => ":" end)%string +:+ print_group g +:+
      groups_text (S index) gs rest
  end.

Lemma joined_groups_S index gs rest :
  gs <> [] -> groups_text (S index) gs rest = (":" +:+ joined ":" (map print_group gs) +:+ rest)%string.
Proof.
  revert index. induction gs as [|g gs IH]; intros index Hne; [done|]. cbn [groups_text].
  destruct gs as [|g' gs]; [done|]. rewrite IH by done. cbn [map joined]. by rewrite !append_assoc.
Qed.

Lemma joined_groups gs rest : (joined ":" (map print_group gs) +:+ rest)%string = groups_text 0 gs rest.
Proof.
  destruct gs as [|g gs]; [done|]. cbn [groups_text]. rewrite append_empty_l.
  destruct gs as [|g' gs]; [done|]. rewrite joined_groups_S by done.
  cbn [map joined]. by rewrite !append_assoc.
Qed.

Definition group_ok (g : Z) : Prop := 0 <= g < 65536.

Lemma read_groups_text gs : forall index left rest,
  (length gs <= left)%nat -> Forall group_ok gs -> avoids "."%char rest = true ->
  starts_digit 16 rest = false ->
  ((length gs < left)%nat -> read_group (index + length gs) rest = None) ->
  read_groups index left (groups_text index gs rest) = (gs, false, rest).
Proof.
  induction gs as [|g gs IH]; intros index left rest Hlen Hgs Hdot Hdig Hstop; cbn [groups_text].
  - destruct left as [|left]; [done|]. cbn [read_groups length] in *. rewrite Nat.add_0_r in Hstop.
    assert (Hv4 : read_separator ":"%char index read_ipv4_addr rest = None).
    { destruct index; cbn [read_separator]; [by apply read_ipv4_avoids|].
      destruct rest as [|c rest]; [done|]. cbn [read_given_char]. destruct (Ascii.eqb c ":"%char); [|done].
      cbn [mbind option_bind snd]. apply read_ipv4_avoids. cbn in Hdot. by apply andb_true_iff in Hdot as [_ ?]. }
    rewrite Hv4. rewrite Hstop by lia. by destruct (S left =? 1)%nat.
  - destruct left as [|left]; [cbn in Hlen; lia|]. apply list.Forall_cons in Hgs as [Hg Hgs].
    assert (Hrest : avoids "."%char (groups_text (S index) gs rest) = true).
    { clear -Hdot. generalize (S index) as i. induction gs as [|g gs IH]; intros i; [done|].
      cbn [groups_text]. rewrite !every_append, IH. unfold print_group.
      rewrite every_print_digits; [by destruct i|lia|done|done]. }
    assert (Htext : avoids "."%char (print_group g +:+ groups_text (S index) gs rest) = true).
    { rewrite every_append, Hrest. unfold print_group. rewrite every_print_digits; [done|lia|done|done]. }
    assert (Hnum : read_number 16 4 true 16 (print_group g +:+ groups_text (S index) gs rest) =
                   Some (g, groups_text (S index) gs rest)).
    { unfold print_group. apply (read_number_print 3); [lia|exact Hg|cbn; lia|].
      destruct gs; [done|]. by apply starts_digit_sep. }
    assert (Hgroup : read_group index ((match index with O => "" | S _ => ":" end)%string +:+
                       print_group g +:+ groups_text (S index) gs rest) =
                     Some (g, groups_text (S index) gs rest)).
    { unfold read_group. destruct index; [exact Hnum|]. cbn [read_separator].
      rewrite append_cons, append_empty_l. cbn [read_given_char]. rewrite Ascii.eqb_refl. exact Hnum. }
    assert (Hv4 : read_separator ":"%char index read_ipv4_addr
                    ((match index with O => "" | S _ => ":" end)%string +:+
                       print_group g +:+ groups_text (S index) gs rest) = None).
    { destruct index; [by apply read_ipv4_avoids|]. cbn [read_separator].
      rewrite append_cons, append_empty_l. cbn [read_given_char]. rewrite Ascii.eqb_refl.
      cbn [mbind option_bind snd]. by apply read_ipv4_avoids. }
    cbn [read_groups]. rewrite Hv4, Hgroup.
    rewrite IH; [by destruct (S left =? 1)%nat|cbn in Hlen; lia|done|done|done|].
    intros Hlt. cbn [length] in Hstop. rewrite Nat.add_succ_comm. apply Hstop. lia.
Qed.

(** ** The compressed form *)
Definition zero_run (segs : list Z) (r : nat * nat) : Prop :=
  (fst r + snd r <= length segs)%nat /\
  forall i, (fst r <= i < fst r + snd r)%nat -> segs !! i = Some 0.

Lemma longest_zeroes_run segs : forall pre cur long,
  zero_run (pre ++ segs) long -> zero_run (pre ++ segs) cur ->
  (snd cur = 0%nat \/ fst cur + snd cur = length pre)%nat ->
  zero_run (pre ++ segs) (longest_zeroes (length pre) cur long segs).
Proof.
  induction segs as [|seg segs IH]; intros pre cur long Hl Hc He; cbn [longest_zeroes]; [done|].
  replace (S (length pre)) with (length (pre ++ [seg])) by (rewrite length_app; cbn; lia).
  assert (Happ : pre ++ seg :: segs = (pre ++ [seg]) ++ segs) by (by rewrite <- app_assoc).
  assert (Hlen : length (pre ++ seg :: segs) = (length pre + S (length segs))%nat)
    by (by rewrite length_app).
  destruct (seg =? 0) eqn:E; bool_to_prop.
  - subst seg. set (cur' := (_, _)).
    assert (Hc' : zero_run (pre ++ 0 :: segs) cur' /\ (fst cur' + snd cur' = length (pre ++ [0%Z]))%nat).
    { subst cur'. unfold zero_run. rewrite Hlen, length_app. cbn [length fst snd].
      destruct Hc as [_ Hc].
      destruct (snd cur =? 0)%nat eqn:E; [apply Nat.eqb_eq in E | apply Nat.eqb_neq in E].
      - split; [|lia]. split; [lia|]. intros i Hi. replace i with (length pre) by lia.
        by rewrite list_lookup_middle.
      - assert (fst cur + snd cur = length pre)%nat by lia. split; [|lia]. split; [lia|].
        intros i Hi. destruct (decide (i = length pre)) as [->|Hne]; [by rewrite list_lookup_middle|].
        apply Hc. lia. }
    destruct Hc' as [Hr Hn]. rewrite Happ in *. apply IH; [by case_match|done|by right].
  - rewrite Happ in *. apply IH; [done| |by left]. split; cbn; [lia|]. intros i Hi. lia.
Qed.

Lemma zero_run_split segs r : zero_run segs r ->
  segs = take (fst r) segs ++ replicate (snd r) 0 ++ drop (fst r + snd r) segs.
Proof.
  intros [Hle Hz]. rewrite <- (take_drop (fst r) segs) at 1. f_equal.
  rewrite <- (take_drop (snd r) (drop (fst r) segs)), drop_drop. f_equal.
  apply list_eq. intros i. destruct (decide (i < snd r)%nat) as [Hi|Hi].
  - rewrite lookup_take_lt, lookup_drop, Hz by lia. by rewrite lookup_replicate_2.
  - rewrite lookup_take_ge by lia. symmetry. apply lookup_replicate_None. lia.
Qed.

Lemma groups_segments octets : length octets = 16%nat -> bytes_ok octets ->
  groups_octets (segments octets) = octets.
Proof.
  intros Hlen Ho. do 16 (destruct octets as [|? octets]; [done|]). destruct octets; [|done].
  assert (Hpair : forall a b, is_byte a -> is_byte b -> be_bytes 2 (be_val [a; b]) = [a; b]).
  { intros a b Ha Hb. apply (be_bytes_be_val [a; b]). unfold bytes_ok. by rewrite !list.Forall_cons. }
  unfold bytes_ok in Ho. rewrite !list.Forall_cons in Ho. destruct_and! Ho.
  unfold groups_octets, segments. cbn [seq map slice Nat.mul Nat.add drop take].
  unfold slice. cbn [drop take Nat.mul Nat.add]. rewrite !Hpair by done. done.
Qed.

Lemma segments_ok octets : bytes_ok octets -> length octets = 16%nat -> Forall group_ok (segments octets).
Proof.
  intros Ho Hlen. apply list.Forall_forall. intros x (i & -> & Hi)%list_elem_of_fmap.
  apply elem_of_seq in Hi. unfold group_ok.
  pose proof (be_val_range (slice (2 * i) 2 octets)) as Hr.
  rewrite length_slice in Hr by lia. apply Hr. unfold slice. by apply Forall_take, Forall_drop.
Qed.

Lemma starts_colon radix rest : starts_digit radix (String ":" rest) = false.
Proof. apply starts_digit_sep. unfold to_digit. cbn. by rewrite Z.ltb_irrefl. Qed.

Lemma read_group_colon i rest : read_group i (String ":" (String ":" rest)) = None.
Proof. by destruct i. Qed.

Lemma read_group_empty i : read_group i "" = None.
Proof. by destruct i. Qed.

Lemma joined_avoids gs : avoids "."%char (joined ":" (map print_group gs)) = true.
Proof.
  induction gs as [|g [|g' gs] IH]; [done| |].
  - cbn [map joined]. unfold print_group. by apply every_print_digits; [lia|..].
  - cbn [map joined] in *. rewrite !every_append, IH. unfold print_group.
    rewrite every_print_digits; [done|lia|done|done].
Qed.

Lemma read_ipv6_groups octets : bytes_ok octets -> length octets = 16%nat ->
  let segs := segments octets in
  let '(start, len) := longest_zeroes 0 (0, 0)%nat (0, 0)%nat segs in
  read_ipv6_addr (if (1 <? len)%nat then
      joined ":" (map print_group (take start segs)) +:+ "::" +:+
      joined ":" (map print_group (drop (start + len) segs))
    else joined ":" (map print_group segs))%string = Some (octets, ""%string).
Proof.
  intros Ho Hlen segs. assert (Hok : Forall group_ok segs) by (by apply segments_ok).
  assert (Hsegs : length segs = 8%nat) by done.
  assert (Hrun : zero_run segs (longest_zeroes 0 (0, 0)%nat (0, 0)%nat segs)).
  { apply (longest_zeroes_run segs []); [| |by left]; split; cbn; (lia || intros i Hi; lia). }
  destruct (longest_zeroes 0 (0, 0)%nat (0, 0)%nat segs) as [start len].
  pose proof (zero_run_split _ _ Hrun) as Hsplit. destruct Hrun as [Hle _]. cbn [fst snd] in *.
  rewrite Hsegs in Hle. unfold read_ipv6_addr. destruct (1 <? len)%nat eqn:Hl.
  - apply Nat.ltb_lt in Hl. rewrite joined_groups.
    rewrite (read_groups_text (take start segs)); [| | |by rewrite every_append, joined_avoids|apply starts_colon|];
      [|rewrite length_take; lia|by apply Forall_take|intros _; apply read_group_colon].
    rewrite length_take, Hsegs, Nat.min_l by lia.
    rewrite (proj2 (Nat.eqb_neq _ _)) by lia.
    rewrite append_cons. cbn [read_given_char]. rewrite Ascii.eqb_refl. cbn [mbind option_bind snd].
    rewrite append_cons, append_empty_l. cbn [read_given_char]. rewrite Ascii.eqb_refl. cbn [mbind option_bind snd].
    rewrite <- (append_empty_r (joined ":" (map print_group (drop (start + len) segs)))), joined_groups.
    rewrite read_groups_text; [|rewrite length_drop; lia|by apply Forall_drop|done|done|intros _; apply read_group_empty].
    rewrite length_drop, Hsegs. do 2 f_equal. rewrite <- (groups_segments octets) by done. f_equal.
    fold segs. rewrite Hsplit at 3. do 3 f_equal. lia.
  - rewrite <- (append_empty_r (joined ":" (map print_group segs))), joined_groups.
    rewrite read_groups_text; [|lia|done|done|done|intros _; apply read_group_empty].
    rewrite Hsegs. cbn [Nat.eqb]. subst segs. by rewrite groups_segments.
Qed.

Lemma read_groups_colon left s : read_groups 0 left (String ":" s) = ([], false, String ":" s).
Proof.
  destruct left as [|left]; [done|]. cbn [read_groups read_separator].
  replace (read_ipv4_addr (String ":" s)) with (@None (list Z * string)) by done.
  replace (read_group 0 (String ":" s)) with (@None (Z * string)) by done.
  by destruct (S left =? 1)%nat.
Qed.

Lemma read_groups_mapped o : length o = 4%nat -> bytes_ok o ->
  read_groups 0 7 ("ffff:" +:+ print_ipv4 o)%string =
  ([65535; be_val (take 2 o); be_val (drop 2 o)], true, ""%string).
Proof.
  intros Hlen Ho. pose proof (read_ipv4_print o "" Hlen Ho eq_refl) as Hv4. rewrite append_empty_r in Hv4.
  rewrite !append_cons, append_empty_l. cbn [read_groups read_separator Nat.eqb].
  match goal with |- context [read_ipv4_addr ?s] =>
    replace (read_ipv4_addr s) with (@None (list Z * string)) by done end.
  match goal with |- context [read_group 0 ?s] =>
    replace (read_group 0 s) with (Some (65535, String ":" (print_ipv4 o))) by done end.
  cbn [read_given_char]. rewrite Ascii.eqb_refl. cbn [mbind option_bind snd]. by rewrite Hv4.
Qed.

Lemma read_ipv6_mapped o : length o = 4%nat -> bytes_ok o ->
  read_ipv6_addr ("::ffff:" +:+ print_ipv4 o)%string =
  Some (replicate 10 0 ++ [255; 255] ++ o, ""%string).
Proof.
  intros Hlen Ho. pose proof (read_groups_mapped o Hlen Ho) as Hm.
  rewrite !append_cons, append_empty_l in *. unfold read_ipv6_addr. rewrite read_groups_colon.
  cbn [length Nat.eqb read_given_char]. rewrite Ascii.eqb_refl. cbn [mbind option_bind snd].
  cbn [read_given_char]. rewrite Ascii.eqb_refl. cbn [mbind option_bind snd Nat.add Nat.sub]. rewrite Hm.
  do 4 (destruct o as [|? o]; [done|]). destruct o; [|done].
  unfold bytes_ok in Ho. rewrite !list.Forall_cons in Ho. destruct_and! Ho.
  unfold groups_octets. cbn [take drop replicate app concat map length Nat.sub].
  by rewrite !(be_bytes_be_val [_; _]) by (unfold bytes_ok; by rewrite !list.Forall_cons).
Qed.

Definition ip_addr_ok (a : IpAddr) : Prop :=
  match a with
  | V4 o => length o = 4%nat /\ bytes_ok o
  | V6 o => length o = 16%nat /\ bytes_ok o
  end.

Lemma parse_print_ip_addr a : ip_addr_ok a -> parse_ip_addr (print_ip_addr a) = Some a.
Proof.
  destruct a as [o|o]; cbn [ip_addr_ok print_ip_addr]; intros [Hlen Ho]; unfold parse_ip_addr, read_ip_addr.
  - rewrite <- (append_empty_r (print_ipv4 o)), read_ipv4_print by done. done.
  - unfold print_ipv6. destruct (to_ipv4_mapped o) as [v4|] eqn:Hm.
    + unfold to_ipv4_mapped in Hm. case_decide as Hd; [|done]. injection Hm as <-.
      assert (Hv4 : length (drop 12 o) = 4%nat) by (rewrite length_drop; lia).
      replace (read_ipv4_addr _) with (@None (list Z * string)) by done.
      rewrite read_ipv6_mapped by (done || by apply Forall_drop). cbn [mbind option_bind fst snd].
      do 2 f_equal. rewrite app_assoc, <- Hd. apply take_drop.
    + pose proof (read_ipv6_groups o Ho Hlen) as Hr. cbv zeta in Hr.
      destruct (longest_zeroes 0 (0, 0)%nat (0, 0)%nat (segments o)) as [start len].
      rewrite read_ipv4_avoids, Hr; [done|].
      destruct (1 <? len)%nat; rewrite ?every_append, !joined_avoids; done.
Qed.

(** The characters of a printed address. *)
Lemma every_print_ip_addr P a : every P "0123456789abcdef" = true -> every P ".:" = true ->
  every P (print_ip_addr a) = true.
Proof.
  intros Hd Hs. assert (Hp : P "."%char = true /\ P ":"%char = true).
  { cbn in Hs. rewrite !andb_true_iff in Hs. tauto. }
  assert (Hf : every P "f" = true).
  { change "f"%string with (String (digit_char 15) ""). cbn [every]. by rewrite every_digit by (lia || done). }
  assert (H4 : forall o, every P (print_ipv4 o) = true).
  { intros o. apply every_joined; [cbn; by rewrite (proj1 Hp)|]. apply List.Forall_map, list.Forall_forall.
    intros n _. by apply every_print_digits; [lia|..]. }
  assert (H6 : forall gs, every P (joined ":" (map print_group gs)) = true).
  { intros gs. apply every_joined; [cbn; by rewrite (proj2 Hp)|]. apply List.Forall_map, list.Forall_forall.
    intros n _. by apply every_print_digits; [lia|..]. }
  destruct a as [o|o]; cbn [print_ip_addr]; [apply H4|]. unfold print_ipv6.
  destruct (to_ipv4_mapped o) as [v4|].
  - cbn in Hf. rewrite andb_true_r in Hf. rewrite every_append, H4, andb_true_r. cbn. by rewrite (proj2 Hp), Hf.
  - destruct (longest_zeroes _ _ _ _) as [start len]. destruct (1 <? len)%nat; [|apply H6].
    rewrite !every_append, !H6. cbn. by rewrite (proj2 Hp).
Qed.

(** ** What the parser accepts is an address *)
Lemma read_number_range radix max allow w s v rest :
  2 <= radix <= 36 -> read_number radix max allow w s = Some (v, rest) -> 0 <= v < 2 ^ w.
Proof.
  intros Hr. unfold read_number. destruct (read_digits radix 0 0 s) as [[v' c] rest'] eqn:E.
  assert (Hge : forall s acc n v c rest, 0 <= acc -> read_digits radix acc n s = (v, c, rest) -> 0 <= v).
  { clear -Hr. induction s as [|ch s IH]; cbn [read_digits]; intros acc n v c rest Ha; [by intros [= <- _ _]|].
    destruct (to_digit radix ch) as [d|] eqn:Hd; [|by intros [= <- _ _]].
    apply IH. revert Hd. unfold to_digit. repeat case_match; bool_to_prop; intros [= <-]; nia. }
  apply Hge in E; [|lia]. repeat (case_match; [done|]). case_match; [|done]. bool_to_prop.
  intros [= <- _]. lia.
Qed.

Lemma read_separator_inv {A} sep index (inner : parser A) s r :
  read_separator sep index inner s = Some r -> exists s', inner s' = Some r.
Proof.
  destruct index; cbn [read_separator]; [by eexists|].
  destruct (read_given_char sep s) as [[[] s']|]; [|done]. by eexists.
Qed.

Lemma read_octets_ok n : forall index s o rest, read_octets index n s = Some (o, rest) ->
  length o = n /\ bytes_ok o.
Proof.
  induction n as [|n IH]; intros index s o rest; cbn [read_octets].
  - intros [= <- _]. split; [done|constructor].
  - destruct (read_separator _ _ _ s) as [[v s']|] eqn:E; [|done]. cbn [mbind option_bind fst snd].
    apply read_separator_inv in E as [s0 E]. apply read_number_range in E; [|lia].
    destruct (read_octets (S index) n s') as [[os rest']|] eqn:E'; [|done]. cbn [mbind option_bind fst snd].
    intros [= <- _]. apply IH in E' as [Hl Ho]. split; [cbn; lia|]. apply list.Forall_cons. by split.
Qed.

Lemma read_groups_ok left : forall index s gs v4 rest, read_groups index left s = (gs, v4, rest) ->
  (length gs <= left)%nat /\ Forall group_ok gs.
Proof.
  induction left as [|left IH]; intros index s gs v4 rest; cbn [read_groups].
  - intros [= <- _ _]. split; [done|constructor].
  - destruct (if (S left =? 1)%nat then None else _) as [[o s']|] eqn:E.
    + destruct (S left =? 1)%nat eqn:Hl; [done|]. apply Nat.eqb_neq in Hl.
      intros [= <- _ _]. split; [cbn; lia|].
      apply read_separator_inv in E as [s0 E]. apply read_octets_ok in E as [Hlen Ho].
      pose proof (be_val_range (take 2 o) ltac:(by apply Forall_take)) as H1.
      pose proof (be_val_range (drop 2 o) ltac:(by apply Forall_drop)) as H2.
      rewrite length_take, Hlen in H1. rewrite length_drop, Hlen in H2.
      rewrite !list.Forall_cons. unfold group_ok. cbn in H1, H2. split; [lia|]. split; [lia|constructor].
    + destruct (read_group index s) as [[g s']|] eqn:Eg.
      * destruct (read_groups (S index) left s') as [[gs' v4'] rest'] eqn:E'.
        intros [= <- _ _]. apply IH in E' as [Hl Hok]. split; [cbn; lia|].
        apply list.Forall_cons. split; [|done]. unfold read_group in Eg.
        apply read_separator_inv in Eg as [s0 Eg]. by apply read_number_range in Eg; [|lia].
      * intros [= <- _ _]. split; [cbn; lia|constructor].
Qed.

Lemma groups_octets_ok gs : length (groups_octets gs) = (2 * length gs)%nat /\ bytes_ok (groups_octets gs).
Proof.
  unfold groups_octets. induction gs as [|g gs [IHl IHo]]; [by split; [|constructor]|].
  cbn [map concat length]. split.
  - rewrite length_app, length_be_bytes, IHl. lia.
  - apply bytes_ok_app. split; [|done]. unfold be_bytes. apply bytes_ok_reverse, le_bytes_ok.
Qed.

Lemma parse_ip_addr_ok s a : parse_ip_addr s = Some a -> ip_addr_ok a.
Proof.
  unfold parse_ip_addr, read_ip_addr. destruct (read_ipv4_addr s) as [[o rest]|] eqn:E4.
  - apply read_octets_ok in E4. destruct rest; [|done]. by intros [= <-].
  - destruct (read_ipv6_addr s) as [[o rest]|] eqn:E6; [|done]. cbn [mbind option_bind fst snd].
    destruct rest; [|done]. intros [= <-]. cbn. revert E6. unfold read_ipv6_addr.
    destruct (read_groups 0 8 s) as [[head v4] s1] eqn:Eh. apply read_groups_ok in Eh as [Hh _].
    destruct (length head =? 8)%nat eqn:El.
    + apply Nat.eqb_eq in El. intros [= <- _]. pose proof (groups_octets_ok head). rewrite El in *. tauto.
    + apply Nat.eqb_neq in El. destruct v4; [done|].
      destruct (read_given_char ":" s1) as [[? s2]|]; [|done]. cbn [mbind option_bind snd].
      destruct (read_given_char ":" s2) as [[? s3]|]; [|done]. cbn [mbind option_bind snd].
      destruct (read_groups 0 (8 - (length head + 1)) s3) as [[tail v4] s4] eqn:Et.
      apply read_groups_ok in Et as [Ht _]. intros [= <- _].
      match goal with |- context [groups_octets ?l] => pose proof (groups_octets_ok l) as [Hl Hok] end.
      split; [|done]. rewrite Hl, !length_app, length_replicate. lia.
Qed.
