(* ===== verification/Ranking.v ===== *)
(** * Ranking: the largest entries of a table

    [sort_by_key(Reverse(..))] followed by [truncate], as the statistics, the
    alerts and the address page of the console use them.  The sort is the
    stable one of the standard library. *)
From Stdlib Require Import Sorted.
From stdpp Require Import sorting.
From S2P Require Import Prelude Words.
#[local] Open Scope Z_scope.

Section Ranking.
Context {A : Type} (key : A -> Z).

(** [x] before the first entry that is not larger. *)
Fixpoint insert_ranked (x : A) (l : list A) : list A :=
  match l with
  | [] => [x]
  | y :: l => if key y <=? key x then x :: y :: l else y :: insert_ranked x l
  end.

(** [sort_by_key(|x| Reverse(key(x)))] *)
Definition sort_by_key_rev (l : list A) : list A := foldr insert_ranked [] l.

Definition top (n : nat) (l : list A) : list A := take n (sort_by_key_rev l).

Definition not_larger (x y : A) : Prop := key y <= key x.

#[local] Instance not_larger_trans : Transitive not_larger.
Proof. unfold not_larger. intros x y z. lia. Qed.

Lemma insert_ranked_perm x l : insert_ranked x l ≡ₚ x :: l.
Proof.
  induction l as [|y l IH]; [done|]. cbn. case_match; [done|]. rewrite IH. apply Permutation_swap.
Qed.

Lemma sort_by_key_rev_perm l : sort_by_key_rev l ≡ₚ l.
Proof. induction l as [|x l IH]; [done|]. cbn. by rewrite insert_ranked_perm, IH. Qed.

Lemma insert_ranked_sorted x l : StronglySorted not_larger l -> StronglySorted not_larger (insert_ranked x l).
Proof.
  induction 1 as [|y l Hl IH Hy]; cbn; [by repeat constructor|].
  destruct (Z.leb_spec (key y) (key x)) as [Hyx|Hxy].
  - constructor; [by constructor|]. constructor; [done|].
    eapply list.Forall_impl; [exact Hy|]. intros z Hz. by transitivity y.
  - constructor; [done|]. rewrite insert_ranked_perm. constructor; [unfold not_larger; lia|done].
Qed.

Lemma sort_by_key_rev_sorted l : StronglySorted not_larger (sort_by_key_rev l).
Proof. induction l; cbn; [constructor|by apply insert_ranked_sorted]. Qed.

(** What is ranked and what is left out: together the whole table, nothing left
    out larger than anything ranked. *)
Lemma top_spec n l : exists rest,
  top n l ++ rest ≡ₚ l /\ StronglySorted not_larger (top n l) /\
  length (top n l) = Nat.min n (length l) /\
  forall x y, x ∈ top n l -> y ∈ rest -> key y <= key x.
Proof.
  exists (drop n (sort_by_key_rev l)). unfold top. rewrite take_drop.
  split; [apply sort_by_key_rev_perm|].
  assert (Hs := sort_by_key_rev_sorted l). rewrite <- (take_drop n) in Hs.
  apply StronglySorted_app in Hs as (Hcross & Hs & _). split; [done|]. split.
  - by rewrite length_take, sort_by_key_rev_perm.
  - intros x y Hx Hy. by apply Hcross.
Qed.
End Ranking.
