(* ===== verification/IpText.v ===== *)
(** * IpText: addresses and networks as text

    [eshield/src/ip.rs].  The parsers and printers of the standard library are
    in [RustStd]; an error is [None]. *)
From Stdlib Require Import Ascii.
From stdpp Require Import strings pretty.
From S2P Require Import Prelude Words Common Maps RustStd.
#[local] Open Scope Z_scope.

Definition format_ip_key (key : IpKey.t) : string :=
  match IpKey_family key with
  | Some Ipv4 => print_ipv4 (be_bytes 4 (ipv4 key))
  | Some Ipv6 => print_ipv6 (IpKey.addr key)
  | None => "unknown(family=" +:+ pretty (IpKey.family key) +:+ ")"
  end%string.

Definition key_of_addr (a : IpAddr) : IpKey.t :=
  match a with V4 o => from_ipv4 o | V6 o => from_ipv6 o end.

Definition parse_ip (s : string) : option IpKey.t := key_of_addr <$> parse_ip_addr s.

(** [u32::MAX << (32 - prefix)] *)
Definition mask_v4 (prefix : Z) : Z :=
  if prefix =? 0 then 0 else wrap 32 (Z.shiftl 0xffffffff (32 - prefix)).

(** The octets of an IPv6 network, as the loop clears them: the byte the
    prefix ends in is masked only when the prefix ends inside it. *)
Definition mask_v6 (prefix : Z) (addr : list Z) : list Z :=
  if prefix =? 0 then replicate 16 0
  else
    let byte := Z.to_nat (prefix / 8) in
    let bit := prefix mod 8 in
    let addr :=
      if bit >? 0 then
        let mask := wrap 8 (Z.shiftl 0xff (8 - bit)) in
        alter (fun b => Z.land b mask) byte addr
      else addr in
    take (byte + 1) addr ++ replicate (length addr - (byte + 1)) 0.

Definition parse_cidr (s : string) : option (IpKey.t * Z) :=
  match split "/"%char s with
  | [addr; prefix] =>
      addr ← parse_ip_addr addr;
      prefix ← parse_uint 32 prefix;
      match addr with
      | V4 o =>
          if prefix >? 32 then None
          else Some (from_ipv4 (be_bytes 4 (Z.land (be_val o) (mask_v4 prefix))), prefix)
      | V6 o =>
          if prefix >? 128 then None else Some (from_ipv6 (mask_v6 prefix o), prefix)
      end
  | _ => None
  end.

Definition parse_ip_or_cidr (s : string) : option IpKey.t :=
  match parse_ip s with
  | Some key => Some key
  | None =>
      r ← parse_cidr s;
      let '(key, prefix) := r in
      expected ← (match IpKey_family key with
                  | Some Ipv4 => Some 32
                  | Some Ipv6 => Some 128
                  | None => None
                  end);
      if prefix =? expected then Some key else None
  end.

(** ** Properties *)

(** An address as the agent keeps it. *)
Definition addr_key (a : IpAddr) (key : IpKey.t) : Prop := ip_addr_ok a /\ key = key_of_addr a.

Lemma format_key_of_addr a : ip_addr_ok a -> format_ip_key (key_of_addr a) = print_ip_addr a.
Proof.
  intros Hok. destruct a as [o|o]; [|done]. destruct Hok as [Hlen Ho]. unfold format_ip_key.
  change (IpKey_family (key_of_addr (V4 o))) with (Some Ipv4). cbv iota. cbn [key_of_addr].
  rewrite ipv4_from_ipv4 by done. cbn [print_ip_addr]. f_equal.
  rewrite <- Hlen. by apply be_bytes_be_val.
Qed.

Lemma parse_ip_format a key : addr_key a key -> parse_ip (format_ip_key key) = Some key.
Proof.
  intros [Hok ->]. unfold parse_ip. by rewrite format_key_of_addr, parse_print_ip_addr by done.
Qed.

Lemma parse_ip_or_cidr_ip s key : parse_ip s = Some key -> parse_ip_or_cidr s = Some key.
Proof. intros E. unfold parse_ip_or_cidr. by rewrite E. Qed.

(** addresses survive the way to text and back.  Formatting the key of any
    IPv4 or IPv6 address, compressed and IPv4-mapped forms included, and
    parsing the text gives the same key, by itself and with the host prefix
    /32 or /128 of an exact entry. *)
Theorem parse_format_ip a key :
  addr_key a key -> parse_ip (format_ip_key key) = Some key /\
                    parse_ip_or_cidr (format_ip_key key) = Some key.
Proof.
  intros H. apply parse_ip_format in H. split; [done|]. by apply parse_ip_or_cidr_ip.
Qed.

(** *** Networks *)
Lemma be_val_shift a b : bytes_ok b ->
  Z.shiftr (be_val (a ++ b)) (8 * Z.of_nat (length b)) = be_val a.
Proof.
  intros Hb. rewrite be_val_app, Z.shiftr_div_pow2 by lia.
  replace (2 ^ (8 * Z.of_nat (length b))) with (256 ^ Z.of_nat (length b))
    by (rewrite Z.pow_mul_r by lia; done).
  pose proof (be_val_range b Hb). rewrite Z.div_add_l by lia. rewrite Z.div_small by lia. lia.
Qed.

(** Masking a [w]-bit word keeps the bits above [k]. *)
Lemma shiftr_land_mask w k v : 0 <= k <= w -> 0 <= v < 2 ^ w ->
  Z.shiftr (Z.land v (wrap w (Z.shiftl (2 ^ w - 1) k))) k = Z.shiftr v k.
Proof.
  intros Hk Hv. unfold wrap. apply Z.bits_inj'. intros i Hi.
  rewrite !Z.shiftr_spec by lia. rewrite Z.land_spec, <- Z.land_ones, Z.land_spec by lia.
  rewrite Z.shiftl_spec by lia. replace (2 ^ w - 1) with (Z.ones w) by (rewrite Z.ones_equiv; lia).
  destruct (decide (i + k < w)) as [Hlt|Hge].
  - rewrite !Z.ones_spec_low by lia. by rewrite !andb_true_r.
  - assert (Z.testbit v (i + k) = false) as ->; [|by rewrite andb_false_l].
    destruct (decide (v = 0)) as [->|]; [apply Z.bits_0|]. apply Z.bits_above_log2; [lia|].
    apply Z.lt_le_trans with w; [apply Z.log2_lt_pow2; lia|lia].
Qed.

Lemma mask_v4_shift v prefix : 0 <= prefix <= 32 -> 0 <= v < 2 ^ 32 ->
  Z.shiftr (Z.land v (mask_v4 prefix)) (32 - prefix) = Z.shiftr v (32 - prefix).
Proof.
  intros Hp Hv. unfold mask_v4. case_match; bool_to_prop.
  - subst. rewrite Z.land_0_r, Z.shiftr_0_l. symmetry. rewrite Z.shiftr_div_pow2 by lia. by apply Z.div_small.
  - apply (shiftr_land_mask 32); lia.
Qed.

Lemma zeros_ok n : bytes_ok (replicate n 0).
Proof. apply Forall_replicate. unfold is_byte. lia. Qed.

Lemma land_byte_ok b m : is_byte b -> 0 <= m -> is_byte (Z.land b m).
Proof.
  unfold is_byte. intros Hb Hm. assert (0 <= Z.land b m) by (apply Z.land_nonneg; lia).
  split; [done|]. destruct (decide (Z.land b m = 0)) as [->|]; [lia|].
  apply (Z.log2_lt_pow2 _ 8); [lia|]. pose proof (Z.log2_land b m).
  assert (b <> 0) by (intros ->; by rewrite Z.land_0_l in *).
  assert (Z.log2 b < 8) by (apply Z.log2_lt_pow2; lia). lia.
Qed.

(** Numbers whose bytes agree before [post] agree once [post] is shifted out. *)
Lemma shift_common pre post post' k : bytes_ok post -> bytes_ok post' -> length post' = length post ->
  0 <= k -> Z.shiftr (be_val (pre ++ post)) (8 * Z.of_nat (length post) + k) =
            Z.shiftr (be_val (pre ++ post')) (8 * Z.of_nat (length post) + k).
Proof.
  intros H1 H2 Hl Hk. rewrite <- !Z.shiftr_shiftr by lia. rewrite be_val_shift by done.
  rewrite <- Hl. by rewrite be_val_shift.
Qed.

(** The byte the prefix ends in, shifted to the prefix. *)
Lemma shift_last pre b bit : 0 <= bit <= 8 -> is_byte b ->
  Z.shiftr (be_val (pre ++ [b])) (8 - bit) = be_val pre * 2 ^ bit + Z.shiftr b (8 - bit).
Proof.
  intros Hbit Hb. rewrite be_val_app. cbn [length]. rewrite Z.pow_1_r.
  replace (be_val [b]) with b by (cbn; lia). rewrite !Z.shiftr_div_pow2 by lia.
  replace (be_val pre * 256) with (be_val pre * 2 ^ bit * 2 ^ (8 - bit));
    [by rewrite Z.div_add_l by lia|].
  rewrite <- Z.mul_assoc, <- Z.pow_add_r by lia.
  by replace (bit + (8 - bit)) with 8 by lia.
Qed.

Section MaskV6.
Context (o : list Z) (byte : nat) (bit : Z).
Context (Hlen : length o = 16%nat) (Ho : bytes_ok o).

Lemma mask_inside : (byte < 16)%nat -> 0 < bit < 8 ->
  let m := wrap 8 (Z.shiftl 0xff (8 - bit)) in
  let r := take (byte + 1) (alter (fun b => Z.land b m) byte o) ++ replicate (16 - (byte + 1)) 0 in
  length r = 16%nat /\ bytes_ok r /\
  Z.shiftr (be_val r) (8 * Z.of_nat (16 - (byte + 1)) + (8 - bit)) =
  Z.shiftr (be_val o) (8 * Z.of_nat (16 - (byte + 1)) + (8 - bit)).
Proof.
  intros Hbyte Hbit m r. destruct (lookup_lt_is_Some_2 o byte) as [b Hb]; [lia|].
  assert (Hbok : is_byte b) by (eapply list.Forall_lookup_1; [apply Ho|done]).
  assert (Hm : is_byte (Z.land b m)) by (apply land_byte_ok; [done|apply wrap_range; lia]).
  assert (Hr : r = (take byte o ++ [Z.land b m]) ++ replicate (16 - (byte + 1)) 0).
  { subst r. f_equal. rewrite Nat.add_1_r.
    erewrite take_S_r by (rewrite list_lookup_alter_eq, Hb; done). by rewrite take_alter_ge by lia. }
  assert (Hsplit : o = (take byte o ++ [b]) ++ drop (byte + 1) o).
  { rewrite Nat.add_1_r, <- app_assoc. symmetry. by apply take_drop_middle. }
  assert (Hdrop : length (drop (byte + 1) o) = (16 - (byte + 1))%nat) by (rewrite length_drop; lia).
  rewrite Hr. split; [rewrite !length_app, length_take, length_replicate; cbn; lia|]. split.
  { apply bytes_ok_app. split; [|apply zeros_ok]. apply bytes_ok_app. split; [by apply Forall_take|].
    by apply list.Forall_cons. }
  rewrite Hsplit at 2. rewrite <- !Z.shiftr_shiftr by lia.
  pose proof (be_val_shift (take byte o ++ [Z.land b m]) (replicate (16 - (byte + 1)) 0) (zeros_ok _)) as H1.
  pose proof (be_val_shift (take byte o ++ [b]) (drop (byte + 1) o)) as H2.
  rewrite length_replicate in H1. rewrite Hdrop in H2. rewrite H1, H2 by (by apply Forall_drop).
  rewrite !shift_last by (done || lia). f_equal. apply (shiftr_land_mask 8); [lia|exact Hbok].
Qed.

Lemma mask_aligned : (byte <= 16)%nat ->
  let r := take (byte + 1) o ++ replicate (16 - (byte + 1)) 0 in
  length r = 16%nat /\ bytes_ok r /\
  Z.shiftr (be_val r) (8 * Z.of_nat (16 - byte)) = Z.shiftr (be_val o) (8 * Z.of_nat (16 - byte)).
Proof.
  intros Hbyte r. set (post := drop byte (take (byte + 1) o) ++ replicate (16 - (byte + 1)) 0).
  assert (Hr : r = take byte o ++ post).
  { subst r post. rewrite app_assoc. f_equal. rewrite <- (take_drop byte (take (byte + 1) o)) at 1.
    rewrite take_take. by replace (byte `min` (byte + 1))%nat with byte by lia. }
  assert (Hl : length post = (16 - byte)%nat).
  { subst post. rewrite length_app, length_replicate, length_drop, length_take. lia. }
  assert (Hp : bytes_ok post).
  { apply bytes_ok_app. split; [by apply Forall_drop, Forall_take|apply zeros_ok]. }
  rewrite Hr. split; [rewrite length_app, length_take; lia|].
  split; [apply bytes_ok_app; split; [by apply Forall_take|done]|].
  rewrite <- (take_drop byte o) at 2. rewrite <- Hl, <- (Z.add_0_r (8 * _)).
  apply shift_common; [done|by apply Forall_drop|rewrite length_drop; lia|lia].
Qed.
End MaskV6.

Lemma mask_v6_shift prefix o : 0 <= prefix <= 128 -> length o = 16%nat -> bytes_ok o ->
  length (mask_v6 prefix o) = 16%nat /\ bytes_ok (mask_v6 prefix o) /\
  Z.shiftr (be_val (mask_v6 prefix o)) (128 - prefix) = Z.shiftr (be_val o) (128 - prefix).
Proof.
  intros Hp Hlen Ho. unfold mask_v6. case_match eqn:E0; bool_to_prop.
  { subst. split; [done|]. split; [apply zeros_ok|].
    pose proof (be_val_range o Ho) as Hr. rewrite Hlen in Hr.
    rewrite (Z.shiftr_div_pow2 (be_val o)) by lia. rewrite Z.div_small by exact Hr. done. }
  pose proof (Z.div_mod prefix 8 ltac:(lia)) as Hdm. pose proof (Z.mod_pos_bound prefix 8 ltac:(lia)).
  assert (0 <= prefix / 8 <= 16) by (split; [apply Z.div_pos; lia|apply Z.div_le_upper_bound; lia]).
  destruct (prefix mod 8 >? 0) eqn:Eb; bool_to_prop.
  - pose proof (mask_inside o (Z.to_nat (prefix / 8)) (prefix mod 8) Hlen Ho) as Hin. cbv zeta in Hin.
    rewrite length_alter, Hlen.
    replace (128 - prefix) with (8 * Z.of_nat (16 - (Z.to_nat (prefix / 8) + 1)) + (8 - prefix mod 8)) by lia.
    apply Hin; lia.
  - pose proof (mask_aligned o (Z.to_nat (prefix / 8)) Hlen Ho) as Hal. cbv zeta in Hal. rewrite Hlen.
    replace (128 - prefix) with (8 * Z.of_nat (16 - Z.to_nat (prefix / 8))) by lia.
    apply Hal. lia.
Qed.

(** *** What a network selects *)
Definition octets (a : IpAddr) : list Z := match a with V4 o | V6 o => o end.
Definition width (a : IpAddr) : Z := match a with V4 _ => 32 | V6 _ => 128 end.
Definition same_family (a b : IpAddr) : bool :=
  match a, b with V4 _, V4 _ | V6 _, V6 _ => true | _, _ => false end.

(** The bytes of the trie key the control plane makes of a network. *)
Definition trie_key (key : IpKey.t) : list Z :=
  match IpKey_family key with
  | Some Ipv4 => WhitelistKeyV4 (bswap 4 (ipv4 key))
  | _ => WhitelistKeyV6 (IpKey.addr key)
  end.

Lemma parse_cidr_inv s key prefix : parse_cidr s = Some (key, prefix) ->
  exists text plen a, split "/"%char s = [text; plen] /\ parse_ip_addr text = Some a /\
    parse_uint 32 plen = Some prefix /\ 0 <= prefix <= width a /\ ip_addr_ok a /\
    key = match a with
          | V4 o => from_ipv4 (be_bytes 4 (Z.land (be_val o) (mask_v4 prefix)))
          | V6 o => from_ipv6 (mask_v6 prefix o)
          end.
Proof.
  unfold parse_cidr. destruct (split "/" s) as [|text [|plen [|]]]; try done.
  destruct (parse_ip_addr text) as [a|] eqn:Ea; [|done]. cbn [mbind option_bind].
  destruct (parse_uint 32 plen) as [p|] eqn:Ep; [|done]. cbn [mbind option_bind].
  assert (0 <= p < 2 ^ 32) by (eapply parse_uint_range; [|exact Ep]; lia).
  pose proof (parse_ip_addr_ok _ _ Ea).
  intros E. exists text, plen, a.
  destruct a as [o|o]; destruct (p >? _) eqn:Hp; try done; bool_to_prop; injection E as <- <-;
    do 3 (split; [done|]); (split; [cbn; lia|]); by split.
Qed.

(** What is accepted as an address is one. *)
Lemma parsed_addr_key s key : parse_ip_or_cidr s = Some key -> exists a, addr_key a key.
Proof.
  unfold parse_ip_or_cidr, parse_ip. destruct (parse_ip_addr s) as [a|] eqn:Ea; cbn [fmap option_fmap option_map].
  - intros [= <-]. exists a. split; [by eapply parse_ip_addr_ok|done].
  - destruct (parse_cidr s) as [[k prefix]|] eqn:Ec; [|done]. cbn [mbind option_bind].
    destruct (parse_cidr_inv _ _ _ Ec) as (text & plen & a & _ & _ & _ & Hp & Hok & ->).
    destruct a as [o|o], Hok as [Hl Ho]; cbn [width] in Hp; intros E;
      change (IpKey_family (from_ipv4 _)) with (Some Ipv4) in E;
      change (IpKey_family (from_ipv6 _)) with (Some Ipv6) in E; cbn [mbind option_bind] in E;
      case_match; try done; injection E as <-.
    + exists (V4 (be_bytes 4 (Z.land (be_val o) (mask_v4 prefix)))). split; [|done].
      split; [apply length_be_bytes|apply bytes_ok_reverse, le_bytes_ok].
    + destruct (mask_v6_shift prefix o) as (Hl' & Hb & _); [done..|]. exists (V6 (mask_v6 prefix o)). done.
Qed.

Lemma mask_v4_range v prefix : 0 <= v < 2 ^ 32 -> 0 <= prefix -> 0 <= Z.land v (mask_v4 prefix) < 2 ^ 32.
Proof.
  intros Hv Hp. assert (0 <= mask_v4 prefix).
  { unfold mask_v4. case_match; [lia|]. by apply wrap_range. }
  assert (0 <= Z.land v (mask_v4 prefix)) by (apply Z.land_nonneg; lia). split; [done|].
  destruct (decide (Z.land v (mask_v4 prefix) = 0)) as [->|]; [lia|]. apply Z.log2_lt_pow2; [lia|].
  pose proof (Z.log2_land v (mask_v4 prefix)).
  assert (v <> 0) by (intros ->; by rewrite Z.land_0_l in *).
  assert (Z.log2 v < 32) by (apply Z.log2_lt_pow2; lia). lia.
Qed.

(** a network selects the addresses it names.  Whatever text [parse_cidr]
    accepts is an address and a prefix no longer than its width, and the trie
    entry made of the result matches an address of the family exactly if the
    two agree on the prefix; host bits in the text make no difference. *)
Theorem parse_cidr_selects s key prefix :
  parse_cidr s = Some (key, prefix) ->
  exists text plen a, split "/"%char s = [text; plen] /\ parse_ip_addr text = Some a /\
    0 <= prefix <= width a /\
    (forall b, ip_addr_ok b -> same_family a b = true ->
       lpm_matches (LpmEntry.mk prefix (trie_key key) 1) (width b) (octets b) = true <->
       Z.shiftr (be_val (octets b)) (width b - prefix) =
       Z.shiftr (be_val (octets a)) (width a - prefix)).
Proof.
  intros (text & plen & a & Hs & Ha & _ & Hp & Hok & ->)%parse_cidr_inv.
  exists text, plen, a. do 3 (split; [done|]). intros b Hb Hf.
  assert (Hkey : exists data,
    trie_key (match a with
          | V4 o => from_ipv4 (be_bytes 4 (Z.land (be_val o) (mask_v4 prefix)))
          | V6 o => from_ipv6 (mask_v6 prefix o)
          end) = data /\ length data = length (octets b) /\
    Z.shiftr (be_val data) (width a - prefix) = Z.shiftr (be_val (octets a)) (width a - prefix)).
  { destruct a as [o|o], b as [o'|o']; try done; destruct Hok as [Hlen Ho], Hb as [Hlen' Ho'];
      cbn [width octets] in *; eexists; (split; [reflexivity|]).
    - unfold trie_key. cbn [IpKey_family]. change (IpKey_family _) with (Some Ipv4). cbv iota.
      rewrite ipv4_from_ipv4 by apply length_be_bytes. unfold WhitelistKeyV4. rewrite le_bytes_bswap.
      rewrite length_be_bytes, Hlen'. split; [done|].
      pose proof (be_val_range o Ho) as Hr. rewrite Hlen in Hr.
      pose proof (mask_v4_range (be_val o) prefix Hr ltac:(lia)).
      rewrite !(be_val_be_bytes 4) by (rewrite ?be_val_be_bytes; lia). by apply mask_v4_shift.
    - unfold trie_key. change (IpKey_family _) with (Some Ipv6). cbv iota.
      destruct (mask_v6_shift prefix o) as (Hl & _ & Hshift); [done..|]. cbn [from_ipv6 IpKey.addr].
      unfold WhitelistKeyV6. by rewrite Hl. }
  destruct Hkey as (data & -> & Hl & <-). unfold lpm_matches. cbn [LpmEntry.prefix_len LpmEntry.data].
  assert (Hw : width b = width a) by (by destruct a, b).
  assert (Hwb : 8 * Z.of_nat (length (octets b)) = width a).
  { rewrite <- Hw. destruct b; destruct Hb as [Hlb _]; cbn [octets width]; rewrite Hlb; lia. }
  rewrite Hl, Nat.eqb_refl, Hwb, Hw, (proj2 (Z.leb_le _ _)) by lia. cbn [andb]. rewrite Z.eqb_eq.
  split; congruence.
Qed.

Lemma parse_format_ip_witness :
  parse_ip "2001:db8::1"%string = Some (from_ipv6 [32; 1; 13; 184; 0; 0; 0; 0; 0; 0; 0; 0; 0; 0; 0; 1]) /\
  (let key := from_ipv6 [32; 1; 13; 184; 0; 0; 0; 0; 0; 0; 0; 0; 0; 0; 0; 1] in
   parse_ip (format_ip_key key) = Some key).
Proof.
  split; [reflexivity|].
  apply (parse_format_ip (V6 [32; 1; 13; 184; 0; 0; 0; 0; 0; 0; 0; 0; 0; 0; 0; 1])). split; [|reflexivity].
  split; [reflexivity|]. unfold bytes_ok, is_byte. rewrite !list.Forall_cons. repeat split; (lia || constructor).
Defined.

Lemma parse_cidr_selects_witness :
  parse_cidr "192.0.2.77/24"%string = Some (from_ipv4 [192; 0; 2; 0], 24) /\
  lpm_matches (LpmEntry.mk 24 (trie_key (from_ipv4 [192; 0; 2; 0])) 1) 32 [192; 0; 2; 200] = true.
Proof.
  assert (Hp : parse_cidr "192.0.2.77/24"%string = Some (from_ipv4 [192; 0; 2; 0], 24)) by reflexivity.
  split; [exact Hp|].
  destruct (parse_cidr_selects _ _ _ Hp) as (text & plen & a & Hs & Ha & _ & Hsel).
  injection Hs as <- <-. injection Ha as <-.
  apply (Hsel (V4 [192; 0; 2; 200])); [|reflexivity|reflexivity].
  split; [reflexivity|]. unfold bytes_ok, is_byte. rewrite !list.Forall_cons. repeat split; (lia || constructor).
Defined.

(** host bits of an IPv6 network.  A prefix that ends on a byte boundary
    leaves the byte after it as written, so two texts of one network give two
    keys; an IPv4 network has one key. *)
Example cidr_v6_host_bits :
  parse_cidr "2001:db8:ff00::/32"%string <> parse_cidr "2001:db8::/32"%string /\
  parse_cidr "2001:db8:00ff::/32"%string = parse_cidr "2001:db8::/32"%string /\
  parse_cidr "2001:db8:ff00::/33"%string = parse_cidr "2001:db8:8000::/33"%string /\
  parse_cidr "10.255.0.0/8"%string = parse_cidr "10.0.0.0/8"%string.
Proof. split; [intros E; by vm_compute in E|]. repeat split; by vm_compute. Qed.
