(* ===== verification/PacketLog.v ===== *)
(** * PacketLog: the ring of sampled packets

    [eshield/src/packet_log.rs].  The packet program appends a sample to the
    ring buffer [PACKET_SAMPLES] ([log_packet_sample]); the agent moves batches
    of them into a bounded log and answers queries from it, newest first.  A
    slice out of bounds is a panic, here [None]. *)
From Stdlib Require Import Ascii.
From stdpp Require Import strings gmap.
From S2P Require Import Prelude Words Common Pure RustStd IpText Parser Maps Wire Footprint Trust Blacklist RateCounter Limits Filters TcpReset SynCookie DataPlane Accounting DataPlaneProps.
#[local] Open Scope Z_scope.

Module PacketSampleEntry.
Record t := mk {
  timestamp_ns : Z;
  src_ip : string;
  dst_ip : string;
  src_port : Z;
  dst_port : Z;
  protocol : Z;
  action : Z;
  rule_id : Z;
  packet_len : Z;
  payload_bytes : Z;
  payload_hex : string;
}.
#[global] Instance eta_t : Eta t := fun r =>
  mk (timestamp_ns r) (src_ip r) (dst_ip r) (src_port r) (dst_port r) (protocol r) (action r)
    (rule_id r) (packet_len r) (payload_bytes r) (payload_hex r).
End PacketSampleEntry.

(** ** Showing a sample *)

(** [digit_char] is the table [HEX]. *)
Fixpoint bytes_to_hex (bytes : list Z) : string :=
  match bytes with
  | [] => EmptyString
  | b :: bytes => String (digit_char (Z.shiftr b 4)) (String (digit_char (Z.land b 0xf)) (bytes_to_hex bytes))
  end.

(** The address of a sample; of an unknown family it is [IpKey::default()]. *)
Definition sample_key (family : Z) (addr : list Z) : IpKey.t :=
  match IpFamily_from_u8 family with
  | Some Ipv4 => from_ipv4 (slice 12 4 addr)
  | Some Ipv6 => from_ipv6 addr
  | None => IpKey_default
  end.

Definition format_ip_for_filter (addr : list Z) (family : Z) : string :=
  match IpFamily_from_u8 family with
  | Some Ipv4 => format_ip_key (from_ipv4 (slice 12 4 addr))
  | Some Ipv6 => format_ip_key (from_ipv6 addr)
  | None => ""%string
  end.

(** [PacketSampleEntry::from]; [&sample.payload_sample[..n]] panics past the end. *)
Definition entry_from (sample : PacketSample.t) : option PacketSampleEntry.t :=
  let n := PacketSample.payload_bytes sample in
  if n <=? Z.of_nat (length (PacketSample.payload_sample sample)) then
    Some (PacketSampleEntry.mk (PacketSample.timestamp_ns sample)
      (format_ip_key (sample_key (PacketSample.family sample) (PacketSample.src_ip sample)))
      (format_ip_key (sample_key (PacketSample.family sample) (PacketSample.dst_ip sample)))
      (PacketSample.src_port sample) (PacketSample.dst_port sample)
      (PacketSample.protocol sample) (PacketSample.action sample) (PacketSample.rule_id sample)
      (PacketSample.packet_len sample) n
      (bytes_to_hex (take (Z.to_nat n) (PacketSample.payload_sample sample))))
  else None.

(** ** The log *)
Module PacketLogQuery.
Record t := mk {
  ip : option string;
  port : option Z;
  protocol : option Z;
  action : option Z;
  rule : option Z;
  from_ns : option Z;
  to_ns : option Z;
  limit : Z;
}.
End PacketLogQuery.

Module PacketLog.
Record t := mk {
  max_entries : Z;
  entries : list PacketSample.t;
}.
#[global] Instance eta_t : Eta t := fun r => mk (max_entries r) (entries r).
End PacketLog.

Definition packet_log_new (max_entries : Z) : PacketLog.t := PacketLog.mk max_entries [].

Definition push_entry (max_entries : Z) (entries : list PacketSample.t) (sample : PacketSample.t)
    : list PacketSample.t :=
  (if Z.of_nat (length entries) >=? max_entries then tail entries else entries) ++ [sample].

Definition push_many (samples : list PacketSample.t) (log : PacketLog.t) : PacketLog.t :=
  log <| PacketLog.entries ::= fun entries => foldl (push_entry (PacketLog.max_entries log)) entries samples |>.

Definition matches (q : PacketLogQuery.t) (s : PacketSample.t) : bool :=
  let given {A} (o : option A) (P : A -> bool) := match o with Some x => P x | None => true end in
  given (PacketLogQuery.ip q) (fun ip =>
    let ip := to_lowercase ip in
    contains ip (to_lowercase (format_ip_for_filter (PacketSample.src_ip s) (PacketSample.family s))) ||
    contains ip (to_lowercase (format_ip_for_filter (PacketSample.dst_ip s) (PacketSample.family s)))) &&
  given (PacketLogQuery.port q) (fun p => (PacketSample.src_port s =? p) || (PacketSample.dst_port s =? p)) &&
  given (PacketLogQuery.protocol q) (fun p => PacketSample.protocol s =? p) &&
  given (PacketLogQuery.action q) (fun a => PacketSample.action s =? a) &&
  given (PacketLogQuery.rule q) (fun r => PacketSample.rule_id s =? r) &&
  given (PacketLogQuery.from_ns q) (fun t => negb (PacketSample.timestamp_ns s <? t)) &&
  given (PacketLogQuery.to_ns q) (fun t => negb (PacketSample.timestamp_ns s >? t)).

Definition query (q : PacketLogQuery.t) (log : PacketLog.t) : option (list PacketSampleEntry.t) :=
  mapM entry_from
    (take (Z.to_nat (PacketLogQuery.limit q))
       (filter (fun s => matches q s = true) (rev (PacketLog.entries log)))).

Definition latest (n : Z) (log : PacketLog.t) : option (list PacketSampleEntry.t) :=
  mapM entry_from (take (Z.to_nat n) (rev (PacketLog.entries log))).

Definition BATCH_SIZE : nat := 1024.

Section Consumer.
Context {KN : Kernel}.

(** One round of [packet_log::run]: at most a batch leaves the ring buffer. *)
Definition packet_log_run : State (PacketLog.t * KState) Z := fun '(log, s) =>
  let samples := take BATCH_SIZE (PACKET_SAMPLES s) in
  (Z.of_nat (length samples),
   (push_many samples log, s <| PACKET_SAMPLES := drop BATCH_SIZE (PACKET_SAMPLES s) |>)).
End Consumer.

(** ** Properties *)

(** *** The log is the end of the history *)
Definition newest (n : nat) (l : list PacketSample.t) : list PacketSample.t := drop (length l - n) l.

Lemma length_newest n l : length (newest n l) = Nat.min n (length l).
Proof. unfold newest. rewrite length_drop. lia. Qed.

Lemma push_entry_newest cap history sample : 1 <= cap ->
  push_entry cap (newest (Z.to_nat cap) history) sample = newest (Z.to_nat cap) (history ++ [sample]).
Proof.
  intros Hcap. unfold push_entry. pose proof (length_newest (Z.to_nat cap) history) as Hl.
  unfold newest in *. rewrite length_app. cbn [length].
  destruct (Z.geb_spec (Z.of_nat (length (drop (length history - Z.to_nat cap) history))) cap).
  - rewrite drop_app_le by lia. f_equal.
    change (@tail PacketSample.t) with (@drop PacketSample.t 1). rewrite drop_drop. f_equal. lia.
  - replace (length history - Z.to_nat cap)%nat with 0%nat by lia.
    by replace (length history + 1 - Z.to_nat cap)%nat with 0%nat by lia.
Qed.

Lemma push_many_newest cap history samples : 1 <= cap ->
  foldl (push_entry cap) (newest (Z.to_nat cap) history) samples = newest (Z.to_nat cap) (history ++ samples).
Proof.
  intros Hcap. revert history. induction samples as [|s samples IH]; intros history; cbn.
  - by rewrite app_nil_r.
  - by rewrite push_entry_newest, IH, <- app_assoc.
Qed.

Lemma push_many_mk samples cap entries :
  push_many samples (PacketLog.mk cap entries) = PacketLog.mk cap (foldl (push_entry cap) entries samples).
Proof. done. Qed.

Lemma push_batches cap batches : 1 <= cap ->
  foldl (fun log samples => push_many samples log) (packet_log_new cap) batches
  = PacketLog.mk cap (newest (Z.to_nat cap) (concat batches)).
Proof.
  intros Hcap. change (packet_log_new cap) with (PacketLog.mk cap (newest (Z.to_nat cap) [])).
  rewrite <- (app_nil_l (concat batches)). generalize (@nil PacketSample.t) as history.
  induction batches as [|b batches IH]; intros history; cbn [foldl concat].
  - by rewrite app_nil_r.
  - by rewrite push_many_mk, push_many_newest, IH, app_assoc.
Qed.

Lemma rev_newest n l : rev (newest n l) = take n (rev l).
Proof. symmetry. apply firstn_rev. Qed.

(** A sample the log can show. *)
Definition sample_ok (s : PacketSample.t) : Prop :=
  PacketSample.payload_bytes s <= Z.of_nat (length (PacketSample.payload_sample s)).

Lemma entry_from_ok s : sample_ok s -> is_Some (entry_from s).
Proof. unfold sample_ok, entry_from. intros H. by rewrite (proj2 (Z.leb_le _ _) H). Qed.

Lemma shown samples : Forall sample_ok samples ->
  exists es, mapM entry_from samples = Some es /\ Forall2 (fun s e => entry_from s = Some e) samples es.
Proof.
  intros H. assert (Hs : is_Some (mapM entry_from samples)).
  { apply mapM_is_Some_2. eapply list.Forall_impl; [exact H|exact entry_from_ok]. }
  destruct Hs as [es E]. exists es. split; [done|]. by apply mapM_Some.
Qed.

(** the packet log answers from the end of the history, newest first.
    Whatever batches of samples have been read, a query answers without a
    panic with the first [limit] of the samples that match it, in the order
    from the newest to the oldest, among the last [max_entries] samples. *)
Theorem query_newest_first cap batches q :
  1 <= cap -> Forall sample_ok (concat batches) ->
  exists es,
    query q (foldl (fun log samples => push_many samples log) (packet_log_new cap) batches) = Some es /\
    Forall2 (fun s e => entry_from s = Some e)
      (take (Z.to_nat (PacketLogQuery.limit q))
         (filter (fun s => matches q s = true) (take (Z.to_nat cap) (rev (concat batches))))) es.
Proof.
  intros Hcap Hok. rewrite push_batches by done. unfold query. cbn [PacketLog.entries].
  rewrite rev_newest. apply shown, list.Forall_take, Forall_filter_in, list.Forall_take.
  by rewrite <- Permutation_rev.
Qed.

(** *** The payload *)
Fixpoint parse_hex (s : string) : option (list Z) :=
  match s with
  | EmptyString => Some []
  | String a (String b s) =>
      hi ← to_digit 16 a; lo ← to_digit 16 b; rest ← parse_hex s; Some (hi * 16 + lo :: rest)
  | String _ EmptyString => None
  end.

(** the payload shown is the payload sampled.  The hexadecimal text of any
    bytes has two digits per byte and reads back as these bytes. *)
Theorem hex_reads_back bytes : bytes_ok bytes ->
  String.length (bytes_to_hex bytes) = (2 * length bytes)%nat /\ parse_hex (bytes_to_hex bytes) = Some bytes.
Proof.
  induction 1 as [|b bytes Hb _ [Hl IH]]; [done|]. split; [cbn; rewrite Hl; lia|].
  cbn [bytes_to_hex parse_hex]. unfold is_byte in Hb.
  rewrite Z.shiftr_div_pow2 by lia. change 0xf with (Z.ones 4). rewrite Z.land_ones by lia.
  pose proof (Z.mod_pos_bound b (2 ^ 4) ltac:(lia)).
  pose proof (Z.div_pos b (2 ^ 4) ltac:(lia) ltac:(lia)).
  pose proof (Z.div_lt_upper_bound b (2 ^ 4) 16 ltac:(lia) ltac:(lia)).
  rewrite !to_digit_char by lia. cbn [mbind option_bind]. rewrite IH. cbn [mbind option_bind].
  do 2 f_equal. pose proof (Z.div_mod b (2 ^ 4) ltac:(lia)). lia.
Qed.

(** *** What the packet program puts into the log *)
Section Samples.
Context {KN : Kernel}.

Definition samples_kept (s s' : KState) : Prop :=
  Forall sample_ok (PACKET_SAMPLES s) -> Forall sample_ok (PACKET_SAMPLES s').

#[local] Instance samples_kept_preorder : PreOrder samples_kept.
Proof. split; [intros s Hs; exact Hs|]. intros x y z Hxy Hyz Hx. by apply Hyz, Hxy. Qed.

Lemma kept_modifies {A} fs (m : BPF A) : modifies fs m -> F_PACKET_SAMPLES ∉ fs -> stable samples_kept m.
Proof.
  intros Hm Hf s. pose proof (modifies_field _ _ F_PACKET_SAMPLES s Hm Hf) as E.
  unfold samples_kept. cbn in E. by rewrite E.
Qed.

(** Everything but the ring of samples. *)
Definition no_samples : list Field :=
  [F_BLACKLIST; F_GLOBAL_STATS; F_TOP_ATTACKERS; F_EVENTS; F_RATE_MAP; F_RATE_MAP_PORT;
   F_PORT_RATE_MAP; F_SYN_PROXY_CONN; F_CONN_TRACK; F_TRUST_MAP; F_packet; F_ktime; F_prandom].

Ltac no_samples :=
  repeat (solve [eauto 3 with footprint nocore]
    || solve [eapply modifies_weaken; [eauto 2 with footprint nocore|solve_fields]] || footprint_step).
Ltac kept_step :=
  match goal with
  | |- stable samples_kept (bind _ _) => apply stable_bind; [typeclasses eauto| |intros ?]
  | |- stable samples_kept (match ?x with _ => _ end) => destruct x eqn:?
  | |- stable samples_kept (let _ := _ in _) => cbv zeta
  | |- stable samples_kept (ret _) => apply (kept_modifies no_samples); [apply modifies_ret|solve_fields]
  | |- stable samples_kept (gets _) => apply (kept_modifies no_samples); [apply modifies_gets|solve_fields]
  end.

#[local] Hint Resolve modifies_emit_drop_event modifies_reply_tcp_rst modifies_trust_pass
  modifies_trust_drop : footprint.

Lemma modifies_drop_packet pc : modifies no_samples (drop_packet pc).
Proof. unfold drop_packet. no_samples. Qed.
Lemma modifies_trust_pass_sampled src now d : modifies no_samples (trust_pass_sampled src now d).
Proof. unfold trust_pass_sampled. no_samples. Qed.
#[local] Hint Resolve modifies_drop_packet modifies_trust_pass_sampled : footprint.

Lemma modifies_drop_as r c p pc : modifies no_samples (drop_as r c p pc).
Proof. unfold drop_as. no_samples. Qed.
#[local] Hint Resolve modifies_drop_as : footprint.

Lemma modifies_check_port_rate_drop d c pc : modifies no_samples (check_port_rate_drop d c pc).
Proof. unfold check_port_rate_drop, no_action. no_samples. Qed.
Lemma modifies_check_syn_proxy ip tcp pc : modifies no_samples (check_syn_proxy ip tcp pc).
Proof. unfold check_syn_proxy, no_action. no_samples. Qed.
#[local] Hint Resolve modifies_check_port_rate_drop modifies_check_syn_proxy : footprint.

Lemma kept_log_packet_sample pc a : stable samples_kept (log_packet_sample pc a).
Proof.
  unfold log_packet_sample.
  repeat kept_step; try (apply (kept_modifies no_samples); [no_samples|solve_fields]; fail).
  apply stable_modify. intros s Hs. apply list.Forall_app. split; [exact Hs|]. constructor; [|done].
  unfold sample_ok. cbn [PacketSample.payload_bytes PacketSample.payload_sample].
  destruct (Nat.leb_spec (ETH_HDR_LEN + PacketCtx.ip_hdr_len pc + n + 64) (length a2)); [|done].
  rewrite length_slice by lia. done.
Qed.

Lemma kept_stage check next :
  modifies no_samples check -> (forall pc, stable samples_kept (next pc)) -> stable samples_kept (stage check next).
Proof.
  intros Hc Hn. unfold stage. apply stable_bind; [typeclasses eauto| |].
  { eapply kept_modifies; [exact Hc|solve_fields]. }
  intros [action pc]. destruct (negb _); [|apply Hn]. apply stable_bind; [typeclasses eauto| |].
  - apply kept_log_packet_sample.
  - intros _. apply (kept_modifies no_samples); [apply modifies_ret|solve_fields].
Qed.

Lemma kept_pass src now d : stable samples_kept (pass src now d).
Proof. apply (kept_modifies no_samples); [unfold pass; no_samples|solve_fields]. Qed.

Ltac check_body :=
  cbv beta delta [check_port_acl_drop check_blacklist_drop check_fragment_drop check_project_policy
    check_geoip_drop check_conn_track_drop check_tcp_drop check_udp_drop check_icmp_drop
    check_l7_drop check_rate_limit_drop no_action is_geoip_blocked is_geoip_allowed]; no_samples.

(** The packet program only writes samples the log can show. *)
Lemma kept_try_eshield : stable samples_kept try_eshield.
Proof.
  unfold try_eshield, is_whitelisted. repeat kept_step;
    try (apply (kept_modifies no_samples); [no_samples|solve_fields]; fail); try apply kept_pass.
  unfold pipeline. repeat (apply kept_stage; [|intros ?]); [check_body..|apply kept_pass].
Qed.

(** Nor does it write a table of the control plane, whatever the configuration. *)
Lemma modifies_stage check next :
  modifies no_samples check -> (forall pc, modifies (F_PACKET_SAMPLES :: no_samples) (next pc)) ->
  modifies (F_PACKET_SAMPLES :: no_samples) (stage check next).
Proof.
  intros Hc Hn. unfold stage. apply stable_bind; [typeclasses eauto| |].
  { eapply modifies_weaken; [exact Hc|solve_fields]. }
  intros [action pc]. destruct (negb _); [|apply Hn]. apply stable_bind; [typeclasses eauto| |].
  - eapply modifies_weaken; [apply modifies_log_packet_sample|solve_fields].
  - intros _. apply modifies_ret.
Qed.

Lemma tables_try_eshield s : tables (snd (try_eshield s)) = tables s.
Proof.
  assert (H : modifies (F_PACKET_SAMPLES :: no_samples) try_eshield);
    [|exact (modifies_field _ _ F_TABLES s H ltac:(solve_fields))].
  assert (Hpass : forall src now d, modifies (F_PACKET_SAMPLES :: no_samples) (pass src now d)).
  { intros src now d. apply (modifies_weaken no_samples); [unfold pass; no_samples|solve_fields]. }
  unfold try_eshield, is_whitelisted. no_samples; try apply Hpass.
  unfold pipeline. repeat (apply modifies_stage; [|intros ?]); [check_body..|apply Hpass].
Qed.

(** A frame arrives, or the consumer reads a batch. *)
Inductive LogStep := Frame (p : frame) | Round.

Definition log_step (st : PacketLog.t * KState) (step : LogStep) : PacketLog.t * KState :=
  match step with
  | Frame p => (fst st, snd (try_eshield (snd st <| packet := p |>)))
  | Round => snd (packet_log_run st)
  end.

Lemma push_many_ok samples log :
  Forall sample_ok samples -> Forall sample_ok (PacketLog.entries log) ->
  Forall sample_ok (PacketLog.entries (push_many samples log)).
Proof.
  destruct log as [cap entries]. rewrite push_many_mk. cbn [PacketLog.entries].
  intros Hs. revert entries. induction Hs as [|s samples Hs _ IH]; intros entries He; [done|].
  cbn [foldl]. apply IH. unfold push_entry. apply list.Forall_app. split; [|by repeat constructor].
  destruct (_ >=? _); [|done]. by apply list.Forall_tail.
Qed.

Lemma log_steps_ok steps st :
  Forall sample_ok (PacketLog.entries (fst st)) -> Forall sample_ok (PACKET_SAMPLES (snd st)) ->
  Forall sample_ok (PacketLog.entries (fst (foldl log_step st steps))).
Proof.
  revert st. induction steps as [|step steps IH]; intros [log s] Hl Hs; [done|].
  cbn [foldl]. apply IH; destruct step as [p|]; cbn -[try_eshield push_many] in *.
  - done.
  - apply push_many_ok; [by apply list.Forall_take|done].
  - by apply (kept_try_eshield (s <| packet := p |>)).
  - by apply list.Forall_drop.
Qed.

(** no packet can make the packet log panic.  However frames and rounds of
    the consumer interleave, starting from an empty ring and log, every query
    is answered: no sample claims more payload bytes than it carries. *)
Theorem packet_log_total cap steps q s :
  PACKET_SAMPLES s = [] -> is_Some (query q (fst (foldl log_step (packet_log_new cap, s) steps))).
Proof.
  intros Hs. destruct (shown (take (Z.to_nat (PacketLogQuery.limit q))
    (filter (fun x => matches q x = true)
       (rev (PacketLog.entries (fst (foldl log_step (packet_log_new cap, s) steps))))))) as (es & E & _).
  - apply list.Forall_take, Forall_filter_in. rewrite <- Permutation_rev.
    apply log_steps_ok; cbn; [done|by rewrite Hs].
  - unfold query. by rewrite E.
Qed.
End Samples.

(** ** Concrete runs *)
Module PacketLogWitness.
Definition sample (last port action : Z) : PacketSample.t :=
  PacketSample.mk (1000 * port) (repeat 0 10 ++ [255; 255; 10; 0; 0; last]) (repeat 0 10 ++ [255; 255; 10; 0; 0; 9])
    4 6 4000 port action rules.BLACKLIST 60 0 (repeat 0 64).
Definition batches : list (list PacketSample.t) :=
  [[sample 1 80 0; sample 10 443 0]; [sample 2 80 1]; [sample 1 22 0]].
Definition by_ip (ip : string) (limit : Z) : PacketLogQuery.t :=
  PacketLogQuery.mk (Some ip) None None None None None None limit.

Lemma query_newest_first_witness :
  exists es, query (by_ip "10.0.0.1" 2)
      (foldl (fun log samples => push_many samples log) (packet_log_new 3) batches) = Some es /\
    map PacketSampleEntry.dst_port es = [22; 443].
Proof.
  assert (Hc : 1 <= 3) by lia.
  assert (Hb : Forall sample_ok (concat batches)) by (repeat constructor; vm_compute; congruence).
  destruct (query_newest_first 3 batches (by_ip "10.0.0.1" 2) Hc Hb) as (es & E & _).
  exists es. split; [exact E|]. vm_compute in E. by injection E as <-.
Defined.

(** A frame of a blocked source with sampling on, then a round. *)
Definition traffic : list LogStep := [Frame (packet DataPlaneWitness.logged); Round].

Lemma packet_log_total_witness :
  exists es, query (by_ip "10" 5) (fst (foldl log_step
      (packet_log_new 3, DataPlaneWitness.logged) traffic)) = Some es /\ length es = 1%nat.
Proof.
  assert (Hs : PACKET_SAMPLES DataPlaneWitness.logged = []) by (vm_compute; reflexivity).
  destruct (packet_log_total 3 traffic (by_ip "10" 5) DataPlaneWitness.logged Hs) as [es E].
  exists es. split; [exact E|]. vm_compute in E. by injection E as <-.
Defined.

Lemma hex_reads_back_witness : bytes_ok [10; 255; 0] /\ parse_hex (bytes_to_hex [10; 255; 0]) = Some [10; 255; 0].
Proof.
  assert (H : bytes_ok [10; 255; 0]) by (repeat constructor; vm_compute; congruence).
  split; [exact H|]. apply (hex_reads_back _ H).
Defined.

(** The filter by address is a search for the text in the printed addresses: a
    query about 10.0.0.1 also answers with the samples of 10.0.0.10. *)
Example address_filter_is_text :
  (map PacketSampleEntry.src_ip <$> query (by_ip "10.0.0.1" 100) (push_many [sample 10 443 0] (packet_log_new 3)))
  = Some ["10.0.0.10"%string].
Proof. vm_compute. reflexivity. Qed.
End PacketLogWitness.
