(* ===== verification/Danger.v ===== *)
(** * Danger: the danger signal monitor

    [eshield/src/danger.rs].  [f64] is binary64 of [SpecFloat], each operation
    correctly rounded; a decimal literal [n / d] is its correctly rounded
    quotient.  The inputs are what the code parses from /proc: the fields of
    the [cpu] line of /proc/stat ([None] if the file or the line is missing)
    and the two values of /proc/meminfo. *)
From Stdlib Require Import SpecFloat.
From S2P Require Import Prelude Words.
#[local] Open Scope Z_scope.

(** ** binary64 *)
Abbreviation f64 := spec_float.
Definition f64_of (x : Z) : f64 := binary_normalize 53 1024 x 0 false.
Definition fadd : f64 -> f64 -> f64 := SFadd 53 1024.
Definition fsub : f64 -> f64 -> f64 := SFsub 53 1024.
Definition fmul : f64 -> f64 -> f64 := SFmul 53 1024.
Definition fdiv : f64 -> f64 -> f64 := SFdiv 53 1024.
Definition fgt (a b : f64) : bool := SFltb b a.
Definition lit (n d : Z) : f64 := fdiv (f64_of n) (f64_of d).

Record DangerMonitor := mk {
  cpu_ewma : f64;
  dps_ewma : f64;
  prev_cpu : Z * Z;
  anomaly_multiplier : f64;
}.

Definition DangerMonitor_new (anomaly_multiplier : f64) : DangerMonitor :=
  mk (f64_of 0) (f64_of 0) (0, 0) anomaly_multiplier.

(** The usage in thousandths, and the pair kept for the next call. *)
Definition read_cpu_usage (fields : option (list Z)) (prev : Z * Z) : f64 * (Z * Z) :=
  match fields with
  | None => (f64_of 0, prev)
  | Some fields =>
      if (length fields <? 4)%nat then (f64_of 0, prev)
      else
        let total := wrap 64 (foldl Z.add 0 fields) in
        let idle := nth 3 fields 0 in
        let '(prev_idle, prev_total) := prev in
        let prev := (total, idle) in
        if prev_total =? 0 then (f64_of 0, prev)
        else
          let delta_total := saturating_sub total prev_total in
          let delta_idle := saturating_sub idle prev_idle in
          if delta_total =? 0 then (f64_of 0, prev)
          else (fmul (fsub (f64_of 1) (fdiv (f64_of delta_idle) (f64_of delta_total))) (f64_of 1000),
                prev)
  end.

(** [MemTotal] and [MemAvailable], zero where missing or unreadable. *)
Definition read_mem_usage (meminfo : option (Z * Z)) : f64 :=
  match meminfo with
  | None => f64_of 0
  | Some (total, available) =>
      if total =? 0 then f64_of 0
      else fmul (fdiv (f64_of (wrapping_sub 64 total available)) (f64_of total)) (f64_of 1000)
  end.

(** [0.95 * old + 0.05 * new] *)
Definition ewma (old new : f64) : f64 := fadd (fmul (lit 95 100) old) (fmul (lit 5 100) new).

Definition sample (current_dps : Z) (stat : option (list Z)) (meminfo : option (Z * Z))
    (m : DangerMonitor) : Z * DangerMonitor :=
  let '(cpu, prev) := read_cpu_usage stat (prev_cpu m) in
  let mem := read_mem_usage meminfo in
  let cpu_ewma := ewma (cpu_ewma m) cpu in
  let dps_ewma := ewma (dps_ewma m) (f64_of current_dps) in
  let cpu_anomaly := fgt cpu (fmul cpu_ewma (anomaly_multiplier m)) && fgt cpu (f64_of 500) in
  let mem_anomaly := fgt mem (f64_of 900) in
  let dps_anomaly := fgt (f64_of current_dps) (fmul dps_ewma (anomaly_multiplier m))
                     && (current_dps >? 1000) in
  let level :=
    if (cpu_anomaly && dps_anomaly) || mem_anomaly then 2
    else if cpu_anomaly || dps_anomaly then 1
    else 0 in
  (level, mk cpu_ewma dps_ewma prev (anomaly_multiplier m)).

(** ** Facts *)

(** The pair is stored as (total, idle) and read as (idle, total): once the
    idle counter is below the total of the sample before, as on any machine
    that has been busy for a while, no idle time is ever seen. *)
Lemma idle_time_lost fields fields' prev :
  let total := wrap 64 (foldl Z.add 0 fields) in
  let total' := wrap 64 (foldl Z.add 0 fields') in
  (4 <= length fields)%nat -> (4 <= length fields')%nat ->
  nth 3 fields 0 <> 0 -> nth 3 fields' 0 <= total -> nth 3 fields 0 < total' ->
  fst (read_cpu_usage (Some fields') (snd (read_cpu_usage (Some fields) prev))) =
    fmul (fsub (f64_of 1) (fdiv (f64_of 0) (f64_of (total' - nth 3 fields 0)))) (f64_of 1000).
Proof.
  cbv zeta. intros Hl Hl' Hnz Hidle Htotal.
  assert (Hsnd : snd (read_cpu_usage (Some fields) prev) = (wrap 64 (foldl Z.add 0 fields), nth 3 fields 0)).
  { unfold read_cpu_usage. rewrite (proj2 (Nat.ltb_ge _ _)) by lia. destruct prev as [a b].
    cbv zeta. destruct (b =? 0); [done|]. by destruct (_ =? 0). }
  rewrite Hsnd. unfold read_cpu_usage. rewrite (proj2 (Nat.ltb_ge _ _)) by lia. cbv zeta.
  rewrite (proj2 (Z.eqb_neq _ _)) by lia. unfold saturating_sub.
  rewrite (Z.max_l (_ - nth 3 fields 0)) by lia. rewrite (proj2 (Z.eqb_neq _ _)) by lia.
  by rewrite Z.max_r by lia.
Qed.

(** an idle machine reads as fully busy.  A machine that has been up for a
    while and is idle for nine tenths of the interval between two samples is
    measured at 1000 thousandths, and the level rises to 1 although nothing
    happens. *)
Example idle_machine_alarms :
  let first := [30000; 0; 20000; 450000] in      (* user, nice, system, idle *)
  let second := [30005; 0; 20005; 450090] in
  let m := snd (sample 0 (Some first) None (DangerMonitor_new (f64_of 2))) in
  fst (read_cpu_usage (Some second) (prev_cpu m)) = f64_of 1000 /\
  fst (sample 0 (Some second) None m) = 1.
Proof. vm_compute. split; reflexivity. Qed.
