(* ===== verification/Config.v ===== *)
(** * Config: the agent's configuration and its validation

    [eshield/src/config.rs].  A record per configuration struct; [toml] fills
    them.  The file system is a parameter: which interfaces exist, and which
    store directories exist or can be created.  A validation error is [false]
    (or [None] where a value is computed). *)
From Stdlib Require Import Ascii SpecFloat.
From stdpp Require Import strings.
From S2P Require Import Prelude Words Common RustStd IpText Danger.
#[local] Open Scope Z_scope.

Inductive BlockOrigin := Local | Api | Adaptive | ThreatIntel | Hub.
#[export] Instance BlockOrigin_eq_dec : EqDecision BlockOrigin.
Proof. solve_decision. Defined.

Definition publishable (o : BlockOrigin) : bool :=
  match o with Local | Api | Adaptive | ThreatIntel => true | Hub => false end.

Module XdpConfig.
Record t := mk {
  mode : string;
  disable_offloads : bool;
  auto_reattach : bool;
  fragment_policy : string;
}.
End XdpConfig.
Definition XdpConfig_default : XdpConfig.t := XdpConfig.mk "auto" true true "rate_limit".

Module AuditConfig.
Record t := mk {
  enabled : bool;
  path : string;
  max_size_mb : Z;
}.
End AuditConfig.

Module TrustScoreConfig.
Record t := mk {
  enabled : bool;
  add_divisor : Z;
  sub_divisor : Z;
}.
End TrustScoreConfig.

Module DangerSignalConfig.
Record t := mk {
  enabled : bool;
  sample_interval_s : Z;
  anomaly_multiplier : f64;
}.
End DangerSignalConfig.

Module ConnTrackConfig.
Record t := mk {
  enabled : bool;
  threshold : Z;
  window_ms : Z;
}.
End ConnTrackConfig.

Module HubTlsConfig.
Record t := mk {
  enabled : bool;
  ca_cert : option string;
  client_cert : option string;
  client_key : option string;
  verify : bool;
}.
End HubTlsConfig.

Module LimitsConfig.
Record t := mk {
  min_memory_mb : Z;
  refuse_memory_mb : Z;
}.
End LimitsConfig.

Module HubConfig.
Record t := mk {
  enabled : bool;
  urls : list string;
  node_name : string;
  token : string;
  sync_pull_interval_s : Z;
  sync_push_interval_s : Z;
  push_min_hit_count : Z;
  push_min_trust : Z;
  push_max_batch_size : Z;
  sync_rules_enabled : bool;
  sync_rules_interval_s : Z;
  tls : HubTlsConfig.t;
}.
End HubConfig.

Module PacketLogConfig.
Record t := mk {
  enabled : bool;
  sample_rate : Z;
  memory_max_entries : Z;
  payload_hex : bool;
}.
End PacketLogConfig.

Module PortAclItem.
Record t := mk {
  protocol : string;
  dport : string;
  action : string;
}.
End PortAclItem.

Module ProtectionProject.
Record t := mk {
  name : string;
  description : string;
  protocol : string;
  dport : string;
  target_ips : list string;
  enabled_modules : list string;
  action : string;
}.
End ProtectionProject.

Module GeoIpConfig.
Record t := mk {
  enabled : bool;
  db_path : option string;
  country_blocks_csv : option string;
  asn_blocks_csv : option string;
  block_countries : list string;
  allow_countries : list string;
  block_asns : list Z;
  allow_asns : list Z;
  default_action : string;
}.
End GeoIpConfig.

Module ThreatFeed.
Record t := mk {
  name : string;
  url : string;
  interval_s : Z;
  confidence : Z;
  category : option string;
  action : string;
}.
End ThreatFeed.

Module ThreatIntelConfig.
Record t := mk {
  enabled : bool;
  feeds : list ThreatFeed.t;
}.
End ThreatIntelConfig.

Module AdaptiveConfig.
Record t := mk {
  enabled : bool;
  threshold : Z;
  window_s : Z;
  block_duration_s : Z;
}.
End AdaptiveConfig.
Definition AdaptiveConfig_default : AdaptiveConfig.t := AdaptiveConfig.mk false 10 5 300.

Module L7PatternConfig.
Record t := mk {
  pattern : string;
  mask : option string;
}.
End L7PatternConfig.

Module L7ScanConfig.
Record t := mk {
  enabled : bool;
  patterns : list L7PatternConfig.t;
}.
#[global] Instance eta_t : Eta t := fun r => mk (enabled r) (patterns r).
End L7ScanConfig.

(** [config::RateLimitConfig], not the map value of the same name. *)
Module RateLimitSection.
Record t := mk {
  enabled : bool;
  threshold : Z;
  tick_ms : Z;
  decay_num : Z;
  decay_den : Z;
  block_duration_s : Z;
  dport_grouping : bool;
  block_mode : string;
}.
End RateLimitSection.
Definition RateLimitSection_default : RateLimitSection.t :=
  RateLimitSection.mk true 2000 100 7 8 120 false "hard".

Module PortRateLimitConfig.
Record t := mk {
  enabled : bool;
  threshold : Z;
  tick_ms : Z;
}.
End PortRateLimitConfig.
Definition PortRateLimitConfig_default : PortRateLimitConfig.t := PortRateLimitConfig.mk true 2000 100.

Module Config.
Record t := mk {
  interface : string;
  whitelist : list string;
  blacklist : list string;
  log_level : string;
  ebpf_log_enabled : bool;
  udp_flood_enabled : bool;
  icmp_flood_enabled : bool;
  tcp_reset_on_drop : bool;
  rate_limit : RateLimitSection.t;
  port_rate_limit : PortRateLimitConfig.t;
  (** [SynProxyConfig] has one field *)
  syn_proxy_enabled : bool;
  l7_scan : L7ScanConfig.t;
  adaptive : AdaptiveConfig.t;
  port_acl : list PortAclItem.t;
  protection_projects : list ProtectionProject.t;
  geoip : GeoIpConfig.t;
  threat_intel : ThreatIntelConfig.t;
  web_port : Z;
  web_bind : option string;
  api_token : option string;
  readonly_token : option string;
  log_json : bool;
  store_path : string;
  timeseries_retention_days : Z;
  metrics_interval_s : Z;
  alert_webhook_url : option string;
  alert_webhook_type : string;
  alert_threshold_dps : Z;
  alert_cooldown_s : Z;
  audit : AuditConfig.t;
  trust_score : TrustScoreConfig.t;
  danger_signal : DangerSignalConfig.t;
  conn_track : ConnTrackConfig.t;
  hub : HubConfig.t;
  packet_log : PacketLogConfig.t;
  xdp : XdpConfig.t;
  limits : LimitsConfig.t;
}.
#[global] Instance eta_t : Eta t := fun r =>
  mk (interface r) (whitelist r) (blacklist r) (log_level r) (ebpf_log_enabled r)
    (udp_flood_enabled r) (icmp_flood_enabled r) (tcp_reset_on_drop r) (rate_limit r)
    (port_rate_limit r) (syn_proxy_enabled r) (l7_scan r) (adaptive r) (port_acl r)
    (protection_projects r) (geoip r) (threat_intel r) (web_port r) (web_bind r)
    (api_token r) (readonly_token r) (log_json r) (store_path r)
    (timeseries_retention_days r) (metrics_interval_s r) (alert_webhook_url r)
    (alert_webhook_type r) (alert_threshold_dps r) (alert_cooldown_s r) (audit r)
    (trust_score r) (danger_signal r) (conn_track r) (hub r) (packet_log r) (xdp r)
    (limits r).
End Config.

(** ** Names the validation knows *)
Definition one_of (names : list string) (s : string) : bool := existsb (String.eqb s) names.

Definition protocols : list string := ["tcp"; "udp"; "icmp"; "icmpv6"; "any"]%string.
Definition valid_modules : list string :=
  ["syn_flood"; "udp_flood"; "icmp_flood"; "rate_limit"; "adaptive"; "l7_scan"; "geoip";
   "tcp_reset"; "port_acl"; "conn_track"]%string.

(** ** Port ACL items *)

(** The low and the high port of the text of an item; [None] is an error. *)
Definition parse_port_range (dport : string) : option (Z * Z) :=
  if String.eqb dport "*" || String.eqb dport "any" then Some (0, 0)
  else
    match split_once "-"%char dport with
    | Some (a, b) =>
        low ← parse_uint 16 a;
        high ← parse_uint 16 b;
        if low >? high then None else Some (low, high)
    | None => p ← parse_uint 16 dport; Some (p, p)
    end.

Definition valid_port_acl_item (item : PortAclItem.t) : bool :=
  one_of protocols (to_lowercase (PortAclItem.protocol item)) &&
  one_of ["allow"; "drop"]%string (to_lowercase (PortAclItem.action item)) &&
  bool_decide (is_Some (parse_port_range (PortAclItem.dport item))).

Definition validate_port_acl_items (items : list PortAclItem.t) : bool :=
  negb (Z.of_nat (length items) >? MAX_PORT_ACL) && forallb valid_port_acl_item items.

Definition protocol_number (protocol : string) : option Z :=
  let s := to_lowercase protocol in
  if String.eqb s "any" then Some 0
  else if String.eqb s "tcp" then Some 6
  else if String.eqb s "udp" then Some 17
  else if String.eqb s "icmp" then Some 1
  else if String.eqb s "icmpv6" then Some 58
  else None.

Definition to_entry (item : PortAclItem.t) : option PortAclEntry.t :=
  protocol ← protocol_number (PortAclItem.protocol item);
  action ← (let s := to_lowercase (PortAclItem.action item) in
            if String.eqb s "allow" then Some 1 else if String.eqb s "drop" then Some 2 else None);
  range ← parse_port_range (PortAclItem.dport item);
  Some (PortAclEntry.mk protocol (bswap 2 (fst range)) (bswap 2 (snd range)) action).

(** ** L7 patterns *)
Definition valid_l7_pattern (pat : L7PatternConfig.t) : bool :=
  let len := String.length (L7PatternConfig.pattern pat) in
  negb (len =? 0)%nat && negb (8 <? len)%nat &&
  (match L7PatternConfig.mask pat with
   | Some mask => (String.length mask =? len)%nat
   | None => true
   end).

Definition validate_l7_patterns (patterns : list L7PatternConfig.t) : bool :=
  negb (Z.of_nat (length patterns) >? MAX_L7_PATTERNS) && forallb valid_l7_pattern patterns.

(** ** Protection projects *)

(** One target: whether it is an IPv4 one; [None] is an error. *)
Definition check_target (ip : string) : option bool :=
  let is_v4 key := bool_decide (IpKey_family key = Some Ipv4) in
  match parse_ip ip with
  | Some key => Some (is_v4 key)
  | None =>
      r ← parse_cidr ip;
      if is_v4 (fst r) && (snd r <? 24) then None else Some (is_v4 (fst r))
  end.

Fixpoint check_targets (ips : list string) (has_ipv4_target : bool) : option bool :=
  match ips with
  | [] => Some has_ipv4_target
  | ip :: ips => v4 ← check_target ip; check_targets ips (has_ipv4_target || v4)
  end.

Definition valid_project (proj : ProtectionProject.t) : bool :=
  negb (String.eqb (ProtectionProject.name proj) "") &&
  one_of protocols (to_lowercase (ProtectionProject.protocol proj)) &&
  negb (String.eqb (ProtectionProject.dport proj) "") &&
  (String.eqb (ProtectionProject.dport proj) "any" ||
   bool_decide (is_Some (parse_uint 16 (ProtectionProject.dport proj)))) &&
  one_of ["pass"; "drop"; "defend"]%string (to_lowercase (ProtectionProject.action proj)) &&
  forallb (one_of valid_modules) (ProtectionProject.enabled_modules proj) &&
  negb (bool_decide (ProtectionProject.target_ips proj = [])) &&
  bool_decide (check_targets (ProtectionProject.target_ips proj) false = Some true).

Definition validate_protection_projects_list (projects : list ProtectionProject.t) : bool :=
  negb (256 <? length projects)%nat && forallb valid_project projects.

(** ** The other sections *)
Definition validate_geoip (config : Config.t) : bool :=
  let g := Config.geoip config in
  negb (GeoIpConfig.enabled g) ||
  (one_of ["pass"; "drop"]%string (GeoIpConfig.default_action g) &&
   forallb (fun code => (String.length code =? 2)%nat) (GeoIpConfig.block_countries g) &&
   forallb (fun code => (String.length code =? 2)%nat) (GeoIpConfig.allow_countries g)).

Definition valid_feed (feed : ThreatFeed.t) : bool :=
  negb (String.eqb (ThreatFeed.name feed) "") && negb (String.eqb (ThreatFeed.url feed) "") &&
  negb (ThreatFeed.interval_s feed =? 0) && negb (ThreatFeed.confidence feed >? 100) &&
  one_of ["drop"; "allow"]%string (ThreatFeed.action feed).

Definition validate_threat_intel (config : Config.t) : bool :=
  let t := Config.threat_intel config in
  negb (ThreatIntelConfig.enabled t) || forallb valid_feed (ThreatIntelConfig.feeds t).

Definition valid_url (url : string) : bool :=
  negb (String.eqb url "") && (String.prefix "http://" url || String.prefix "https://" url).

Definition validate_hub (config : Config.t) : bool :=
  let h := Config.hub config in
  negb (HubConfig.enabled h) ||
  (negb (String.eqb (HubConfig.node_name h) "") &&
   negb (bool_decide (HubConfig.urls h = [])) &&
   negb (String.eqb (HubConfig.token h) "") &&
   forallb valid_url (HubConfig.urls h) &&
   negb (HubConfig.sync_pull_interval_s h =? 0) &&
   negb (HubConfig.sync_push_interval_s h =? 0) &&
   negb (HubConfig.push_min_hit_count h =? 0) &&
   negb (HubConfig.sync_rules_interval_s h =? 0)).

Definition is_finite (x : f64) : bool :=
  match x with S754_infinity _ | S754_nan => false | _ => true end.

(** [Config::validate]; the file system says which interfaces exist and which
    store paths have a directory that exists or can be created. *)
Definition validate (interface_exists store_dir_ok : string -> bool) (config : Config.t) : bool :=
  let rl := Config.rate_limit config in
  let prl := Config.port_rate_limit config in
  let ad := Config.adaptive config in
  let ct := Config.conn_track config in
  let ts := Config.trust_score config in
  let ds := Config.danger_signal config in
  let pl := Config.packet_log config in
  negb (String.eqb (Config.interface config) "") &&
  interface_exists (Config.interface config) &&
  one_of ["auto"; "native"; "drv"; "generic"; "skb"]%string
    (to_lowercase (XdpConfig.mode (Config.xdp config))) &&
  one_of ["pass"; "rate_limit"; "drop"]%string
    (to_lowercase (XdpConfig.fragment_policy (Config.xdp config))) &&
  one_of ["hard"; "soft"]%string (to_lowercase (RateLimitSection.block_mode rl)) &&
  forallb (fun cidr => bool_decide (is_Some (parse_cidr cidr))) (Config.whitelist config) &&
  forallb (fun ip => bool_decide (is_Some (parse_ip_or_cidr ip))) (Config.blacklist config) &&
  store_dir_ok (Config.store_path config) &&
  validate_port_acl_items (Config.port_acl config) &&
  (negb (RateLimitSection.enabled rl) ||
   (negb (RateLimitSection.threshold rl =? 0) && negb (RateLimitSection.tick_ms rl =? 0) &&
    negb (RateLimitSection.decay_den rl =? 0))) &&
  (negb (PortRateLimitConfig.enabled prl) ||
   (negb (PortRateLimitConfig.threshold prl =? 0) && negb (PortRateLimitConfig.tick_ms prl =? 0))) &&
  (negb (AdaptiveConfig.enabled ad) ||
   (negb (AdaptiveConfig.threshold ad =? 0) && negb (AdaptiveConfig.window_s ad =? 0))) &&
  validate_l7_patterns (L7ScanConfig.patterns (Config.l7_scan config)) &&
  (negb (ConnTrackConfig.enabled ct) ||
   (negb (ConnTrackConfig.threshold ct =? 0) && negb (ConnTrackConfig.window_ms ct =? 0))) &&
  (negb (TrustScoreConfig.enabled ts) ||
   (negb (TrustScoreConfig.add_divisor ts =? 0) && negb (TrustScoreConfig.sub_divisor ts =? 0))) &&
  (negb (DangerSignalConfig.enabled ds) ||
   (negb (DangerSignalConfig.sample_interval_s ds =? 0) &&
    (is_finite (DangerSignalConfig.anomaly_multiplier ds) &&
     fgt (DangerSignalConfig.anomaly_multiplier ds) (f64_of 0)))) &&
  (negb (PacketLogConfig.enabled pl) ||
   (negb (PacketLogConfig.sample_rate pl =? 0) && negb (PacketLogConfig.memory_max_entries pl =? 0))) &&
  negb (Config.web_port config =? 0) &&
  (match Config.web_bind config with
   | Some bind => negb (String.eqb (trim bind) "") && bool_decide (is_Some (parse_socket_addr bind))
   | None => true
   end) &&
  validate_geoip config && validate_threat_intel config &&
  validate_protection_projects_list (Config.protection_projects config) &&
  validate_hub config.

(** [Config::from_file]: the text of the file, [toml::from_str] on it, and the
    interface the environment names. *)
Definition from_file (from_toml : string -> option Config.t) (content : option string)
    (ESHIELD_INTERFACE : option string) : option Config.t :=
  content ← content;
  config ← from_toml content;
  Some (match ESHIELD_INTERFACE with
        | Some iface => if negb (String.eqb iface "") then config <| Config.interface := iface |> else config
        | None => config
        end).
