(* ===== verification/TimeSeries.v ===== *)
(** * TimeSeries: the window of sampled metrics

    [eshield/src/timeseries.rs] and the counters of [state.rs] it samples.
    The clock (monotonic seconds) is an argument. *)
From Stdlib Require Import Sorted.
From stdpp Require Import strings gmap countable.
From S2P Require Import Prelude Words Common RustStd IpText.
#[local] Open Scope Z_scope.

#[export, refine] Instance IpKey_countable : Countable IpKey.t :=
  inj_countable' (fun k => (IpKey.family k, IpKey.addr k, IpKey.padding k))
    (fun t => IpKey.mk (fst (fst t)) (snd (fst t)) (snd t)) _.
Proof. by intros []. Defined.

(** [state.rs]: every field but the window, which is a state of its own. *)
Module Stats.
Record t := mk {
  total_packets : Z;
  total_dropped : Z;
  total_passed : Z;
  blacklist_blocked : Z;
  rate_limited : Z;
  syn_flood_blocked : Z;
  l7_blocked : Z;
  adaptive_blocked : Z;
  udp_flood_blocked : Z;
  icmp_flood_blocked : Z;
  geoip_blocked : Z;
  port_dropped : gmap Z Z;
  top_attackers : gmap IpKey.t Z;
  program_start_ns : Z;
  recent_attacks : list DropEvent.t;
  conn_track_blocked : Z;
  port_rate_blocked : Z;
  fragment_blocked : Z;
  tcp_rst_sent : Z;
  tcp_rst_fail : Z;
  tcp_rst_attempt : Z;
  current_pps : Z;
  current_dps : Z;
  tcp_dropped : Z;
  udp_dropped : Z;
  icmp_dropped : Z;
  other_dropped : Z;
  process_hist : list Z;
  trust_trusted : Z;
  trust_neutral : Z;
  trust_suspicious : Z;
  trust_malicious : Z;
  danger_level : Z;
  map_entries : gmap string Z;
  map_entries_updated_ns : Z;
  xdp_attached : bool;
  xdp_mode : Z;
}.
#[global] Instance eta_t : Eta t := fun r =>
  mk (total_packets r) (total_dropped r) (total_passed r) (blacklist_blocked r) (rate_limited r)
    (syn_flood_blocked r) (l7_blocked r) (adaptive_blocked r) (udp_flood_blocked r)
    (icmp_flood_blocked r) (geoip_blocked r) (port_dropped r) (top_attackers r)
    (program_start_ns r) (recent_attacks r) (conn_track_blocked r) (port_rate_blocked r) (fragment_blocked r)
    (tcp_rst_sent r) (tcp_rst_fail r) (tcp_rst_attempt r) (current_pps r) (current_dps r)
    (tcp_dropped r) (udp_dropped r) (icmp_dropped r) (other_dropped r) (process_hist r)
    (trust_trusted r) (trust_neutral r) (trust_suspicious r) (trust_malicious r) (danger_level r)
    (map_entries r) (map_entries_updated_ns r) (xdp_attached r) (xdp_mode r).
End Stats.

(** [Stats::default] *)
Definition Stats_default : Stats.t :=
  Stats.mk 0 0 0 0 0 0 0 0 0 0 0 ∅ ∅ 0 [] 0 0 0 0 0 0 0 0 0 0 0 0 (replicate 6 0) 0 0 0 0 0 ∅ 0 false 0.

Module MetricPoint.
Record t := mk {
  timestamp : Z;
  total_packets : Z;
  total_passed : Z;
  total_dropped : Z;
  blacklist_blocked : Z;
  rate_limited : Z;
  syn_flood_blocked : Z;
  l7_blocked : Z;
  adaptive_blocked : Z;
  udp_flood_blocked : Z;
  icmp_flood_blocked : Z;
  geoip_blocked : Z;
  dps : option Z;
  pps : option Z;
  dps_max : option Z;
  pps_max : option Z;
  has_data : bool;
  top_attackers : gmap string Z;
  port_dropped : gmap Z Z;
}.
End MetricPoint.

Module TimeSeriesWindow.
Record t := mk {
  slots : list MetricPoint.t;
  capacity : nat;
  interval_s : Z;
  head_timestamp : Z;
  last_total_packets : Z;
  last_total_dropped : Z;
  last_total_passed : Z;
}.
End TimeSeriesWindow.
Import TimeSeriesWindow.

Definition window_new (capacity : nat) (interval_s : Z) : TimeSeriesWindow.t :=
  TimeSeriesWindow.mk [] capacity interval_s 0 0 0 0.

(** [top_attackers] by printed address. *)
Definition attackers_by_name (m : gmap IpKey.t Z) : gmap string Z :=
  foldl (fun m kv => <[format_ip_key (fst kv) := snd kv]> m) ∅ (map_to_list m).

(** The point of a sample. *)
Definition point_of (now : Z) (stats : Stats.t) (w : TimeSeriesWindow.t) : MetricPoint.t :=
  let first := head_timestamp w =? 0 in
  let elapsed := if first then interval_s w else Z.max (saturating_sub now (head_timestamp w)) 1 in
  let delta total last := if first then 0 else saturating_sub total last in
  let dropped_delta := delta (Stats.total_dropped stats) (last_total_dropped w) in
  let passed_delta := delta (Stats.total_passed stats) (last_total_passed w) in
  let packet_delta := delta (Stats.total_packets stats) (last_total_packets w) in
  let has_data := negb first && (packet_delta >? 0) in
  let dps := if has_data then Some (dropped_delta / elapsed) else None in
  let pps := if has_data then Some (passed_delta / elapsed) else None in
  MetricPoint.mk now (Stats.total_packets stats) (Stats.total_passed stats)
    (Stats.total_dropped stats) (Stats.blacklist_blocked stats) (Stats.rate_limited stats)
    (Stats.syn_flood_blocked stats) (Stats.l7_blocked stats) (Stats.adaptive_blocked stats)
    (Stats.udp_flood_blocked stats) (Stats.icmp_flood_blocked stats) (Stats.geoip_blocked stats)
    dps pps dps pps has_data (attackers_by_name (Stats.top_attackers stats))
    (Stats.port_dropped stats).

(** A full ring drops its oldest slot. *)
Definition push_slot (capacity : nat) (slots : list MetricPoint.t) (p : MetricPoint.t)
    : list MetricPoint.t :=
  (if (length slots =? capacity)%nat then tail slots else slots) ++ [p].

Definition record (now : Z) (stats : Stats.t) (w : TimeSeriesWindow.t) : TimeSeriesWindow.t :=
  if (now =? head_timestamp w) && negb (bool_decide (slots w = [])) then w
  else
    TimeSeriesWindow.mk (push_slot (capacity w) (slots w) (point_of now stats w)) (capacity w)
      (interval_s w) now (Stats.total_packets stats) (Stats.total_dropped stats)
      (Stats.total_passed stats).

Definition last_timestamp (w : TimeSeriesWindow.t) : Z :=
  match list.last (slots w) with Some p => MetricPoint.timestamp p | None => 0 end.

Definition snapshot_after (timestamp : Z) (w : TimeSeriesWindow.t) : list MetricPoint.t :=
  filter (fun p => timestamp < MetricPoint.timestamp p) (slots w).

Fixpoint skip_while {A} (P : A -> bool) (l : list A) : list A :=
  match l with
  | [] => []
  | x :: l' => if P x then skip_while P l' else l
  end.

Definition snapshot (now duration_s : Z) (w : TimeSeriesWindow.t) : list MetricPoint.t :=
  let cutoff := saturating_sub now duration_s in
  if duration_s =? 0 then slots w
  else skip_while (fun p => MetricPoint.timestamp p <? cutoff) (slots w).

Definition load (points : list MetricPoint.t) (w : TimeSeriesWindow.t) : TimeSeriesWindow.t :=
  if bool_decide (points = []) then w
  else
    let slots := drop (length points - capacity w) points in
    match list.last slots with
    | Some last => TimeSeriesWindow.mk slots (capacity w) (interval_s w) (MetricPoint.timestamp last) 0 0 0
    | None => TimeSeriesWindow.mk slots (capacity w) (interval_s w) (head_timestamp w)
                (last_total_packets w) (last_total_dropped w) (last_total_passed w)
    end.

(** ** The window against the full history *)

(** The last [n] elements. *)
Definition lastn {A} (n : nat) (l : list A) : list A := drop (length l - n) l.

(** Every sample ever taken, oldest first, next to the window. *)
Fixpoint record_all (samples : list (Z * Stats.t)) (w : TimeSeriesWindow.t)
    (history : list MetricPoint.t) : TimeSeriesWindow.t * list MetricPoint.t :=
  match samples with
  | [] => (w, history)
  | (now, stats) :: samples =>
      record_all samples (record now stats w)
        (if (now =? head_timestamp w) && negb (bool_decide (slots w = [])) then history
         else history ++ [point_of now stats w])
  end.

Fixpoint clock_from (t : Z) (samples : list (Z * Stats.t)) : Prop :=
  match samples with
  | [] => True
  | (now, _) :: samples => t <= now /\ clock_from now samples
  end.

Definition increasing (ps : list MetricPoint.t) : Prop :=
  StronglySorted (fun p q => MetricPoint.timestamp p < MetricPoint.timestamp q) ps.

Lemma lastn_snoc {A} (n : nat) (l : list A) x :
  (0 < n)%nat ->
  lastn n (l ++ [x]) = (if (length (lastn n l) =? n)%nat then tail (lastn n l) else lastn n l) ++ [x].
Proof.
  intros Hn. unfold lastn. rewrite length_app. cbn [length]. rewrite length_drop.
  destruct (_ =? n)%nat eqn:E; [apply Nat.eqb_eq in E | apply Nat.eqb_neq in E].
  - rewrite drop_app_le by lia. f_equal.
    replace (length l + 1 - n)%nat with (S (length l - n)) by lia.
    destruct (drop (length l - n) l) as [|y r] eqn:Ed.
    + apply (f_equal length) in Ed. rewrite length_drop in Ed. cbn in Ed. lia.
    + cbn [tail]. rewrite <- Nat.add_1_r, <- drop_drop, Ed. done.
  - replace (length l - n)%nat with 0%nat by lia. replace (length l + 1 - n)%nat with 0%nat by lia. done.
Qed.

Lemma StronglySorted_snoc (ps : list MetricPoint.t) p :
  increasing ps -> (forall q, q ∈ ps -> MetricPoint.timestamp q < MetricPoint.timestamp p) ->
  increasing (ps ++ [p]).
Proof.
  intros Hs Hp. induction Hs as [|q ps Hs IH Hq]; cbn; [repeat constructor|].
  constructor; [apply IH; intros; apply Hp; by right|].
  apply Forall_app. split; [done|]. constructor; [apply Hp; by left|constructor].
Qed.

(** What holds between two samples: the head is the newest timestamp. *)
Definition window_ok (w : TimeSeriesWindow.t) (history : list MetricPoint.t) : Prop :=
  (0 < capacity w)%nat /\ slots w = lastn (capacity w) history /\ increasing history /\
  (forall p, p ∈ history -> MetricPoint.timestamp p <= head_timestamp w) /\
  (history <> [] -> 0 < head_timestamp w).

Lemma lastn_nil {A} n (l : list A) : (0 < n)%nat -> lastn n l = [] -> l = [].
Proof.
  intros Hn E. apply (f_equal length) in E. unfold lastn in E. rewrite length_drop in E.
  cbn in E. destruct l; [done|cbn in *; lia].
Qed.

Lemma record_ok now stats w history :
  window_ok w history -> 0 < now -> head_timestamp w <= now ->
  window_ok (record now stats w)
    (if (now =? head_timestamp w) && negb (bool_decide (slots w = [])) then history
     else history ++ [point_of now stats w]) /\
  head_timestamp (record now stats w) = now.
Proof.
  intros (Hc & Hs & Hi & Hh & Hpos) Hnow Hle. unfold record.
  destruct ((now =? head_timestamp w) && negb (bool_decide (slots w = []))) eqn:E.
  - bool_to_prop. split; [by repeat split|lia].
  - cbn. split; [|done]. split; [done|]. cbn. split; [|split; [|split; [|lia]]].
    + unfold push_slot. rewrite lastn_snoc by done. by rewrite <- Hs.
    + apply StronglySorted_snoc; [done|]. intros q Hq. cbn.
      apply andb_false_iff in E as [E|E].
      * apply Z.eqb_neq in E. specialize (Hh q Hq). lia.
      * apply negb_false_iff, bool_decide_eq_true in E. rewrite Hs in E.
        apply lastn_nil in E; [|done]. subst history. by apply not_elem_of_nil in Hq.
    + intros p [Hp| ->%list_elem_of_singleton]%elem_of_app; [|done]. specialize (Hh p Hp). lia.
Qed.

Lemma record_all_ok samples : forall w history t,
  window_ok w history -> head_timestamp w <= t -> 0 < t -> clock_from t samples ->
  window_ok (fst (record_all samples w history)) (snd (record_all samples w history)).
Proof.
  induction samples as [|[now stats] samples IH]; intros w history t Hw Ht Hpos Hc; [done|].
  destruct Hc as [Hn Hc]. cbn [record_all].
  destruct (record_ok now stats w history Hw ltac:(lia) ltac:(lia)) as [Hw' Hh'].
  apply (IH _ _ now); [done|lia|lia|done].
Qed.

(** What [snapshot] and [snapshot_after] select from an increasing list. *)
Lemma skip_while_filter cutoff ps : increasing ps ->
  skip_while (fun p => MetricPoint.timestamp p <? cutoff) ps =
  filter (fun p => cutoff <= MetricPoint.timestamp p) ps.
Proof.
  induction 1 as [|p ps Hs IH Hp]; [done|]. cbn [skip_while]. rewrite filter_cons.
  destruct (MetricPoint.timestamp p <? cutoff) eqn:E; bool_to_prop.
  - by rewrite decide_False by lia.
  - rewrite decide_True by lia. f_equal. symmetry. apply filter_all.
    eapply list.Forall_impl; [exact Hp|]. cbn. lia.
Qed.

Lemma lastn_increasing n ps : increasing ps -> increasing (lastn n ps).
Proof.
  intros Hs. unfold lastn. generalize (length ps - n)%nat as k. intros k. revert ps Hs.
  induction k as [|k IH]; intros ps Hs; [done|]. destruct Hs as [|p ps Hs Hp]; [constructor|]. by apply IH.
Qed.

(** the ring is the end of the history.  However many samples a window of
    positive capacity takes under a clock that does not run backwards, it holds
    exactly the last [capacity] of the points recorded since it was made, in
    strictly increasing order of time, one per second at most; a snapshot is
    the points no older than the duration, and the incremental one the points
    after the given time. *)
Theorem window_is_end_of_history cap interval_s samples t :
  (0 < cap)%nat -> 0 < t -> clock_from t samples ->
  let '(w, history) := record_all samples (window_new cap interval_s) [] in
  slots w = lastn cap history /\ increasing history /\
  (forall now d, 0 < d -> snapshot now d w =
     filter (fun p => saturating_sub now d <= MetricPoint.timestamp p) (lastn cap history)) /\
  (forall ts, snapshot_after ts w =
     filter (fun p => ts < MetricPoint.timestamp p) (lastn cap history)) /\
  last_timestamp w = match list.last history with Some p => MetricPoint.timestamp p | None => 0 end.
Proof.
  intros Hcap Ht Hc.
  assert (Hw : window_ok (window_new cap interval_s) []).
  { split; [done|]. split; [done|]. split; [constructor|]. split; [|done].
    intros p Hp. by apply not_elem_of_nil in Hp. }
  pose proof (record_all_ok samples _ _ t Hw ltac:(cbn; lia) Ht Hc) as H.
  assert (Hcw : forall samples w history, capacity (fst (record_all samples w history)) = capacity w).
  { clear. induction samples as [|[now stats] samples IH]; intros w history; [done|]. cbn [record_all].
    rewrite IH. unfold record. by case_match. }
  specialize (Hcw samples (window_new cap interval_s) []).
  destruct (record_all samples (window_new cap interval_s) []) as [w history]. cbn [fst snd] in *.
  destruct H as (_ & Hs & Hi & _). rewrite Hcw in Hs. cbn [window_new capacity] in Hs.
  split; [done|]. split; [done|]. split; [|split].
  - intros now d Hd. unfold snapshot. rewrite (proj2 (Z.eqb_neq d 0)) by lia. rewrite Hs.
    by apply skip_while_filter, lastn_increasing.
  - intros ts. unfold snapshot_after. by rewrite Hs.
  - unfold last_timestamp. rewrite Hs. unfold lastn. destruct history as [|p history _] using rev_ind; [done|].
    rewrite length_app. cbn [length]. rewrite drop_app_le by lia. by rewrite !last_snoc.
Qed.

Module TimeSeriesWitness.
Definition stats (n : Z) : Stats.t :=
  Stats_default <| Stats.total_packets := n |> <| Stats.total_passed := n |>.
Definition samples : list (Z * Stats.t) := [(10, stats 5); (11, stats 9); (11, stats 9); (12, stats 30)].

Lemma window_is_end_of_history_witness :
  (0 < 2)%nat /\ 0 < 10 /\ clock_from 10 samples /\
  let '(w, history) := record_all samples (window_new 2 1) [] in
  slots w = lastn 2 history /\ increasing history /\
  (forall now d, 0 < d -> snapshot now d w =
     filter (fun p => saturating_sub now d <= MetricPoint.timestamp p) (lastn 2 history)) /\
  (forall ts, snapshot_after ts w =
     filter (fun p => ts < MetricPoint.timestamp p) (lastn 2 history)) /\
  last_timestamp w = match list.last history with Some p => MetricPoint.timestamp p | None => 0 end.
Proof.
  assert (H1 : (0 < 2)%nat) by lia. assert (H2 : 0 < 10) by lia.
  assert (H3 : clock_from 10 samples) by (cbn; lia).
  split; [exact H1|]. split; [exact H2|]. split; [exact H3|].
  exact (window_is_end_of_history 2 1 samples 10 H1 H2 H3).
Defined.

(** Three of the four samples make a point; the ring keeps the last two. *)
Example window_run :
  let '(w, history) := record_all samples (window_new 2 1) [] in
  (map MetricPoint.timestamp (slots w), map MetricPoint.pps history) =
  ([11; 12], [None; Some 4; Some 21]).
Proof. vm_compute. reflexivity. Qed.
End TimeSeriesWitness.
