(* ===== verification/Redb.v ===== *)
(** * Redb: ordered tables over byte strings

    The rule stores of the agent and of the hub keep their tables in the
    [redb] database, which is not part of the repository.  [Class Redb] is what
    they use of a table: point access by key and iteration in key order;
    [RedbLaws] is its documented behaviour.  [Module SortedTable] is an
    executable instance. *)
From Stdlib Require Import Sorted.
From S2P Require Import Prelude Words.
#[local] Open Scope Z_scope.

Abbreviation bytes := (list Z).

(** ** Byte strings in lexicographic order *)
Fixpoint bytes_ltb (a b : bytes) : bool :=
  match a, b with
  | _, [] => false
  | [], _ :: _ => true
  | x :: a, y :: b => (x <? y) || ((x =? y) && bytes_ltb a b)
  end.

Definition bytes_lt (a b : bytes) : Prop := bytes_ltb a b = true.

Lemma bytes_ltb_cons x a y b :
  bytes_lt (x :: a) (y :: b) <-> x < y \/ (x = y /\ bytes_lt a b).
Proof. unfold bytes_lt. cbn. rewrite orb_true_iff, andb_true_iff, Z.ltb_lt, Z.eqb_eq. tauto. Qed.

Lemma bytes_lt_irrefl a : ~ bytes_lt a a.
Proof.
  induction a as [|x a IH]; [done|]. rewrite bytes_ltb_cons. intros [H|[_ H]]; [lia|tauto].
Qed.

Lemma bytes_lt_trans a b c : bytes_lt a b -> bytes_lt b c -> bytes_lt a c.
Proof.
  revert b c. induction a as [|x a IH]; intros [|y b] [|z c] Hab Hbc; try done.
  rewrite bytes_ltb_cons in *. destruct Hab as [H1|[-> H1]], Hbc as [H2|[-> H2]]; [lia|lia|lia|].
  right. eauto.
Qed.

Lemma bytes_lt_app_l p a b : bytes_lt (p ++ a) (p ++ b) <-> bytes_lt a b.
Proof.
  induction p as [|x p IH]; [done|]. cbn [app]. rewrite bytes_ltb_cons, IH. intuition lia.
Qed.

Lemma bytes_trichotomy a b : bytes_lt a b \/ a = b \/ bytes_lt b a.
Proof.
  revert b. induction a as [|x a IH]; intros [|y b]; [tauto|by left|by right; right|].
  rewrite !bytes_ltb_cons. destruct (IH b) as [H|[->|H]], (Z.lt_trichotomy x y) as [?|[->|?]]; tauto.
Qed.

(** Big-endian numbers compare as byte strings, whatever follows them. *)
Lemma be_bytes_S n x : be_bytes (S n) x = be_bytes n (x / 256) ++ [x mod 256].
Proof. unfold be_bytes. cbn [le_bytes]. by rewrite reverse_cons. Qed.

Lemma be_bytes_lt n x y p q :
  0 <= x -> x < y -> y < 256 ^ Z.of_nat n -> bytes_lt (be_bytes n x ++ p) (be_bytes n y ++ q).
Proof.
  revert x y p q. induction n as [|n IH]; intros x y p q Hx Hxy Hy; [cbn in Hy; lia|].
  rewrite !be_bytes_S, <- !app_assoc. rewrite pow256_S in Hy.
  destruct (Z.eq_dec (x / 256) (y / 256)) as [E|E].
  - rewrite E. apply bytes_lt_app_l. cbn [app]. apply bytes_ltb_cons. left.
    pose proof (Z.div_mod x 256 ltac:(lia)). pose proof (Z.div_mod y 256 ltac:(lia)). lia.
  - apply IH; [apply Z.div_pos; lia| |apply Z.div_lt_upper_bound; lia].
    pose proof (Z.div_le_mono x y 256 ltac:(lia) ltac:(lia)). lia.
Qed.

Lemma zeros_least n b : bytes_ok b -> length b = n -> ~ bytes_lt b (replicate n 0).
Proof.
  intros Hb Hn. subst n. induction Hb as [|x b Hx _ IH]; [done|].
  cbn [length replicate]. rewrite bytes_ltb_cons. intros [?|[_ ?]]; [unfold is_byte in Hx; lia|tauto].
Qed.

(** ** The interface *)
Class Redb := {
  table : Type;
  tbl_empty : table;
  tbl_get : table -> bytes -> option bytes;
  tbl_insert : bytes -> bytes -> table -> table;
  tbl_remove : bytes -> table -> table;
  (** all rows, by ascending key *)
  tbl_iter : table -> list (bytes * bytes);
}.

Class RedbLaws (R : Redb) : Prop := {
  get_empty : forall k, tbl_get tbl_empty k = None;
  get_insert : forall k v t, tbl_get (tbl_insert k v t) k = Some v;
  get_insert_ne : forall k k' v t, k <> k' -> tbl_get (tbl_insert k v t) k' = tbl_get t k';
  get_remove : forall k t, tbl_get (tbl_remove k t) k = None;
  get_remove_ne : forall k k' t, k <> k' -> tbl_get (tbl_remove k t) k' = tbl_get t k';
  iter_sorted : forall t, StronglySorted bytes_lt (map fst (tbl_iter t));
  iter_get : forall t k v, (k, v) ∈ tbl_iter t <-> tbl_get t k = Some v;
}.

Section Derived.
Context {R : Redb} {RL : RedbLaws R}.

(** [table.len()] *)
Definition tbl_len (t : table) : Z := Z.of_nat (length (tbl_iter t)).

(** [table.range(start..)] *)
Definition tbl_range (start : bytes) (t : table) : list (bytes * bytes) :=
  filter (fun row => bytes_ltb (fst row) start = false) (tbl_iter t).

Lemma tbl_len_zero t : tbl_len t = 0 -> forall k, tbl_get t k = None.
Proof.
  unfold tbl_len. intros H k. destruct (tbl_get t k) as [v|] eqn:E; [|done].
  apply iter_get in E. destruct (tbl_iter t); [by apply not_elem_of_nil in E|cbn in H; lia].
Qed.

(** Removing a list of keys. *)
Lemma get_foldr_remove ks t k :
  tbl_get (foldl (fun t k => tbl_remove k t) t ks) k =
  if decide (k ∈ ks) then None else tbl_get t k.
Proof.
  revert t. induction ks as [|k' ks IH]; intros t; cbn [foldl].
  - by rewrite decide_False by apply not_elem_of_nil.
  - rewrite IH. destruct (decide (k ∈ ks)) as [Hin|Hout].
    + by rewrite decide_True by (apply elem_of_cons; tauto).
    + destruct (decide (k' = k)) as [->|Hne].
      * rewrite get_remove, decide_True by (apply elem_of_cons; tauto). done.
      * rewrite get_remove_ne, decide_False by (rewrite ?elem_of_cons; intuition congruence). done.
Qed.
End Derived.

(** ** An executable instance: the rows as a sorted list *)
Module SortedTable.
Fixpoint get (t : list (bytes * bytes)) (k : bytes) : option bytes :=
  match t with
  | [] => None
  | (k', v) :: t => if decide (k' = k) then Some v else get t k
  end.

Fixpoint insert (k v : bytes) (t : list (bytes * bytes)) : list (bytes * bytes) :=
  match t with
  | [] => [(k, v)]
  | (k', v') :: t =>
      if bytes_ltb k k' then (k, v) :: (k', v') :: t
      else if decide (k = k') then (k, v) :: t
      else (k', v') :: insert k v t
  end.

Definition remove (k : bytes) (t : list (bytes * bytes)) : list (bytes * bytes) :=
  filter (fun row => fst row <> k) t.

Definition sorted (t : list (bytes * bytes)) : Prop := StronglySorted bytes_lt (map fst t).

Lemma keys_insert k v t : forall x, x ∈ map fst (insert k v t) -> x = k \/ x ∈ map fst t.
Proof.
  induction t as [|[k' v'] t IH]; intros x; cbn.
  - intros H. apply list_elem_of_singleton in H. tauto.
  - destruct (bytes_ltb k k'); [|destruct (decide (k = k')) as [->|]]; cbn; rewrite !elem_of_cons;
      [tauto|tauto|]. intros [->|H]; [tauto|]. destruct (IH _ H); tauto.
Qed.

Lemma sorted_insert k v t : sorted t -> sorted (insert k v t).
Proof.
  unfold sorted. induction t as [|[k' v'] t IH]; cbn; intros H; [repeat constructor|].
  apply StronglySorted_inv in H as [Ht Hk'].
  destruct (bytes_ltb k k') eqn:E; [|destruct (decide (k = k')) as [->|Hne]]; cbn.
  - constructor; [by constructor|]. constructor; [done|].
    rewrite list.Forall_forall in *. intros x Hx. eapply bytes_lt_trans; [exact E|by apply Hk'].
  - by constructor.
  - constructor; [by apply IH|]. apply list.Forall_forall. intros x Hx.
    apply keys_insert in Hx as [->|Hx].
    + destruct (bytes_trichotomy k k') as [Hlt|[Heq|Hlt]];
        [unfold bytes_lt in Hlt; congruence|done|done].
    + rewrite list.Forall_forall in Hk'. auto.
Qed.

Lemma sorted_filter (P : bytes * bytes -> Prop) `{!forall x, Decision (P x)} t :
  sorted t -> sorted (filter P t).
Proof.
  unfold sorted. induction t as [|row t IH]; [done|]. cbn [map]. intros Hs.
  apply StronglySorted_inv in Hs as [Ht Hrow]. rewrite filter_cons. case_decide; [|by apply IH].
  cbn [map]. constructor; [by apply IH|]. apply list.Forall_forall. intros x Hx.
  rewrite list.Forall_forall in Hrow. apply Hrow. apply list_elem_of_In, in_map_iff in Hx as (r&<-&Hr).
  apply list_elem_of_In, list_elem_of_filter in Hr as [_ Hr].
  apply list_elem_of_In, in_map_iff. exists r. split; [done|by apply list_elem_of_In].
Qed.

Lemma get_elem t k v : sorted t -> (k, v) ∈ t <-> get t k = Some v.
Proof.
  unfold sorted. induction t as [|[k' v'] t IH]; cbn; intros H.
  - split; [intros E; by apply not_elem_of_nil in E|done].
  - apply StronglySorted_inv in H as [Ht Hk']. rewrite elem_of_cons, IH by done.
    destruct (decide (k' = k)) as [->|Hne]; [|intuition congruence].
    split; [|intros [= ->]; tauto]. intros [[= ->]|E]; [done|].
    apply (IH Ht) in E. rewrite list.Forall_forall in Hk'. exfalso. apply (bytes_lt_irrefl k), Hk'.
    apply list_elem_of_In, in_map_iff. exists (k, v). split; [done|by apply list_elem_of_In].
Qed.

Lemma get_insert_eq k v t : sorted t -> get (insert k v t) k = Some v.
Proof.
  intros H. apply get_elem; [by apply sorted_insert|]. clear H.
  induction t as [|[k' v'] t IH]; cbn; [by left|].
  destruct (bytes_ltb k k'); [by left|]. destruct (decide (k = k')); [by left|by right].
Qed.

Lemma get_insert_other k k' v t : k <> k' -> get (insert k v t) k' = get t k'.
Proof.
  intros Hne. induction t as [|[k1 v1] t IH]; cbn; [by rewrite decide_False|].
  destruct (bytes_ltb k k1); [cbn; by rewrite (decide_False (P := k = k'))|].
  destruct (decide (k = k1)) as [->|]; cbn; [by rewrite !decide_False|].
  by rewrite IH.
Qed.

Lemma get_remove_eq k t : get (remove k t) k = None.
Proof.
  unfold remove. induction t as [|[k1 v1] t IH]; [done|]. rewrite filter_cons.
  case_decide as H; [|done]. cbn in *. by rewrite decide_False.
Qed.

Lemma get_remove_other k k' t : k <> k' -> get (remove k t) k' = get t k'.
Proof.
  intros Hne. unfold remove. induction t as [|[k1 v1] t IH]; [done|]. rewrite filter_cons.
  case_decide as H; cbn in *; rewrite IH; [done|].
  destruct (decide (k1 = k')) as [->|]; [|done]. destruct H. congruence.
Qed.

#[global, refine] Instance redb : Redb := {
  table := { t : list (bytes * bytes) | sorted t };
  tbl_empty := [] ↾ _;
  tbl_get t := get (`t);
  tbl_insert k v t := insert k v (`t) ↾ _;
  tbl_remove k t := remove k (`t) ↾ _;
  tbl_iter t := `t;
}.
Proof.
  - constructor.
  - apply sorted_insert, (proj2_sig t).
  - apply sorted_filter, (proj2_sig t).
Defined.

#[global] Instance redb_laws : RedbLaws redb.
Proof.
  split.
  - done.
  - intros k v [t Ht]. by apply get_insert_eq.
  - intros k k' v [t Ht] H. by apply get_insert_other.
  - intros k [t Ht]. apply get_remove_eq.
  - intros k k' [t Ht] H. by apply get_remove_other.
  - by intros [t Ht].
  - intros [t Ht] k v. by apply get_elem.
Qed.
End SortedTable.
