(* ===== verification/RuleStore.v ===== *)
(** * RuleStore: the rules the agent keeps on disk

    [eshield/src/store.rs] over the interface [Redb].  Every write is one
    transaction: an error ([None]) leaves the store as it was.  Tables that hold
    one row under key 0 are options; the time series is keyed by its second.
    [now] is [monotonic_ns] when an operation stamps its rows. *)
From stdpp Require Import gmap sorting countable strings.
From S2P Require Import Prelude Words Common Config TimeSeries Redb.
#[local] Open Scope Z_scope.

Module BlacklistRow.
Record t := mk {
  blocked_until_ns : Z;
  block_reason : Z;
  first_seen_ns : Z;
  origin : BlockOrigin;
  last_updated_ns : Z;
}.
End BlacklistRow.

(** A [WhitelistRow] is its prefix. *)
Class RuleJson := {
  row_to_vec : BlacklistRow.t -> option bytes;
  row_from_slice : bytes -> option BlacklistRow.t;
  white_to_vec : Z -> option bytes;
  white_from_slice : bytes -> option Z;
  acl_to_vec : list PortAclItem.t -> option bytes;
  acl_from_slice : bytes -> option (list PortAclItem.t);
  l7_to_vec : list L7PatternConfig.t -> option bytes;
  l7_from_slice : bytes -> option (list L7PatternConfig.t);
  projects_to_vec : list ProtectionProject.t -> option bytes;
  projects_from_slice : bytes -> option (list ProtectionProject.t);
  metric_to_vec : MetricPoint.t -> option bytes;
  metric_from_slice : bytes -> option MetricPoint.t;
}.

Class RuleJsonLaws (J : RuleJson) : Prop := {
  row_from_to : forall r, exists b, row_to_vec r = Some b /\ row_from_slice b = Some r;
  white_from_to : forall p, exists b, white_to_vec p = Some b /\ white_from_slice b = Some p;
  acl_from_to : forall x, exists b, acl_to_vec x = Some b /\ acl_from_slice b = Some x;
  l7_from_to : forall x, exists b, l7_to_vec x = Some b /\ l7_from_slice b = Some x;
  projects_from_to : forall x, exists b, projects_to_vec x = Some b /\ projects_from_slice b = Some x;
  metric_from_to : forall x, exists b, metric_to_vec x = Some b /\ metric_from_slice b = Some x;
}.

Definition ip_key_bytes (key : IpKey.t) : bytes := IpKey.family key :: IpKey.addr key.

Definition bytes_to_ip_key (b : bytes) : IpKey.t :=
  if (17 <=? length b)%nat then IpKey.mk (nth 0 b 0) (slice 1 16 b) (replicate 15 0) else IpKey_default.

(** Collect the results of a fallible loop over rows. *)
Fixpoint collect {A B} (f : A -> option B) (l : list A) : option (list B) :=
  match l with
  | [] => Some []
  | x :: l => y ← f x; ys ← collect f l; Some (y :: ys)
  end.

Section RuleStore.
Context {R : Redb} {J : RuleJson}.

Record RuleStore := mkStore {
  BLACKLIST : table;
  WHITELIST : table;
  PORT_ACL : option bytes;
  L7_PATTERNS : option bytes;
  PROTECTION_PROJECTS : option bytes;
  TIMESERIES : table;
}.
#[global] Instance eta_RuleStore : Eta RuleStore := fun r =>
  mkStore (BLACKLIST r) (WHITELIST r) (PORT_ACL r) (L7_PATTERNS r) (PROTECTION_PROJECTS r)
    (TIMESERIES r).

Definition RuleStore_empty : RuleStore := mkStore tbl_empty tbl_empty None None None tbl_empty.

(** ** The black list *)
Definition save_blacklist (now : Z) (key : IpKey.t) (blocked_until_ns block_reason first_seen_ns : Z)
    (origin : BlockOrigin) (s : RuleStore) : option RuleStore :=
  value ← row_to_vec (BlacklistRow.mk blocked_until_ns block_reason first_seen_ns origin now);
  Some (s <| BLACKLIST ::= tbl_insert (ip_key_bytes key) value |>).

(** One transaction for all keys. *)
Fixpoint insert_rows (row : BlacklistRow.t) (keys : list IpKey.t) (t : table) : option table :=
  match keys with
  | [] => Some t
  | key :: keys => value ← row_to_vec row; insert_rows row keys (tbl_insert (ip_key_bytes key) value t)
  end.

Definition save_blacklist_many (now : Z) (keys : list IpKey.t)
    (blocked_until_ns block_reason first_seen_ns : Z) (origin : BlockOrigin) (s : RuleStore)
    : option RuleStore :=
  if bool_decide (keys = []) then Some s
  else
    t ← insert_rows (BlacklistRow.mk blocked_until_ns block_reason first_seen_ns origin now) keys
          (BLACKLIST s);
    Some (s <| BLACKLIST := t |>).

Definition remove_blacklist (key : IpKey.t) (s : RuleStore) : option RuleStore :=
  Some (s <| BLACKLIST ::= tbl_remove (ip_key_bytes key) |>).

Definition load_row (row : bytes * bytes) : option (IpKey.t * BlacklistRow.t) :=
  r ← row_from_slice (snd row); Some (bytes_to_ip_key (fst row), r).

Definition load_blacklist (s : RuleStore) : option (list (IpKey.t * BlacklistRow.t)) :=
  collect load_row (tbl_iter (BLACKLIST s)).

Definition load_blacklist_since (since_ns : Z) (s : RuleStore)
    : option (list (IpKey.t * BlacklistRow.t)) :=
  rows ← collect load_row (tbl_iter (BLACKLIST s));
  Some (filter (fun r => since_ns < BlacklistRow.last_updated_ns (snd r)) rows).

Fixpoint load_blacklist_origins (keys : list IpKey.t) (s : RuleStore)
    : option (gmap IpKey.t BlockOrigin) :=
  match keys with
  | [] => Some ∅
  | key :: keys =>
      match tbl_get (BLACKLIST s) (ip_key_bytes key) with
      | Some value =>
          row ← row_from_slice value;
          m ← load_blacklist_origins keys s;
          Some (<[key := BlacklistRow.origin row]> m)
      | None => load_blacklist_origins keys s
      end
  end.

(** Rows that do not parse are kept. *)
Definition expired_row (now_ns : Z) (row : bytes * bytes) : bool :=
  match row_from_slice (snd row) with
  | Some r => negb (BlacklistRow.blocked_until_ns r =? BLOCK_PERMANENT) &&
              (BlacklistRow.blocked_until_ns r <=? now_ns)
  | None => false
  end.

Definition prune_expired_blacklist (now_ns : Z) (s : RuleStore) : option (Z * RuleStore) :=
  let keys := map fst (filter (fun row => expired_row now_ns row = true) (tbl_iter (BLACKLIST s))) in
  Some (Z.of_nat (length keys),
        s <| BLACKLIST ::= fun t => foldl (fun t k => tbl_remove k t) t keys |>).

(** ** The white list: one row per address, whatever the prefix *)
Definition save_whitelist (key : IpKey.t) (prefix : Z) (s : RuleStore) : option RuleStore :=
  value ← white_to_vec prefix; Some (s <| WHITELIST ::= tbl_insert (ip_key_bytes key) value |>).

(** The prefix is serialised and then not used. *)
Definition remove_whitelist (key : IpKey.t) (prefix : Z) (s : RuleStore) : option RuleStore :=
  _ ← white_to_vec prefix; Some (s <| WHITELIST ::= tbl_remove (ip_key_bytes key) |>).

Definition load_white (row : bytes * bytes) : option (IpKey.t * Z) :=
  prefix ← white_from_slice (snd row); Some (bytes_to_ip_key (fst row), prefix).

Definition load_whitelist (s : RuleStore) : option (list (IpKey.t * Z)) :=
  collect load_white (tbl_iter (WHITELIST s)).

(** ** Rule sets *)
Definition save_port_acl_items (items : list PortAclItem.t) (s : RuleStore) : option RuleStore :=
  value ← acl_to_vec items; Some (s <| PORT_ACL := Some value |>).
Definition load_port_acl_items (s : RuleStore) : option (list PortAclItem.t) :=
  match PORT_ACL s with Some v => acl_from_slice v | None => Some [] end.
Definition save_l7_patterns (patterns : list L7PatternConfig.t) (s : RuleStore) : option RuleStore :=
  value ← l7_to_vec patterns; Some (s <| L7_PATTERNS := Some value |>).
Definition load_l7_patterns (s : RuleStore) : option (list L7PatternConfig.t) :=
  match L7_PATTERNS s with Some v => l7_from_slice v | None => Some [] end.
Definition save_protection_projects (projects : list ProtectionProject.t) (s : RuleStore)
    : option RuleStore :=
  value ← projects_to_vec projects; Some (s <| PROTECTION_PROJECTS := Some value |>).
Definition load_protection_projects (s : RuleStore) : option (list ProtectionProject.t) :=
  match PROTECTION_PROJECTS s with Some v => projects_from_slice v | None => Some [] end.

(** ** The time series: rows by ascending second *)
Definition by_timestamp (p q : MetricPoint.t) : Prop := MetricPoint.timestamp p <= MetricPoint.timestamp q.
#[export] Instance by_timestamp_dec : RelDecision by_timestamp := fun p q => Z_le_dec _ _.

Definition second_of (row : bytes * bytes) : Z := be_val (fst row).

(** [out.sort_by_key(|p| p.timestamp)] *)
Definition load_timeseries (since : Z) (s : RuleStore) : option (list MetricPoint.t) :=
  points ← collect (fun row => metric_from_slice (snd row))
             (filter (fun row => since <= second_of row) (tbl_iter (TIMESERIES s)));
  Some (merge_sort by_timestamp points).

Fixpoint insert_points (points : list MetricPoint.t) (t : table) : option table :=
  match points with
  | [] => Some t
  | p :: points =>
      value ← metric_to_vec p;
      insert_points points (tbl_insert (be_bytes 8 (MetricPoint.timestamp p)) value t)
  end.

Definition save_timeseries (points : list MetricPoint.t) (s : RuleStore) : option RuleStore :=
  t ← insert_points points (TIMESERIES s); Some (s <| TIMESERIES := t |>).

Definition prune_timeseries (before : Z) (s : RuleStore) : option (Z * RuleStore) :=
  let keys := map fst (filter (fun row => second_of row < before) (tbl_iter (TIMESERIES s))) in
  Some (Z.of_nat (length keys),
        s <| TIMESERIES ::= fun t => foldl (fun t k => tbl_remove k t) t keys |>).
End RuleStore.


(** ** A concrete serialisation, for the evaluated examples *)
Module RuleSample.
Definition origin_code (o : BlockOrigin) : Z :=
  match o with Local => 0 | Api => 1 | Adaptive => 2 | ThreatIntel => 3 | Hub => 4 end.
Definition origin_of (n : Z) : BlockOrigin :=
  if n =? 0 then Local else if n =? 1 then Api else if n =? 2 then Adaptive
  else if n =? 3 then ThreatIntel else Hub.

Definition row_fields (r : BlacklistRow.t) : Z * Z * Z * Z * Z :=
  (BlacklistRow.blocked_until_ns r, BlacklistRow.block_reason r, BlacklistRow.first_seen_ns r,
   origin_code (BlacklistRow.origin r), BlacklistRow.last_updated_ns r).
Definition of_row (t : Z * Z * Z * Z * Z) : BlacklistRow.t :=
  let '(u, r, f, o, l) := t in BlacklistRow.mk u r f (origin_of o) l.

Definition acl_fields (i : PortAclItem.t) : string * string * string :=
  (PortAclItem.protocol i, PortAclItem.dport i, PortAclItem.action i).
Definition of_acl (t : string * string * string) : PortAclItem.t :=
  let '(p, d, a) := t in PortAclItem.mk p d a.

Definition l7_fields (i : L7PatternConfig.t) : string * option string :=
  (L7PatternConfig.pattern i, L7PatternConfig.mask i).
Definition of_l7 (t : string * option string) : L7PatternConfig.t :=
  let '(p, m) := t in L7PatternConfig.mk p m.

Abbreviation project_row :=
  (string * string * string * string * list string * list string * string)%type.
Definition project_fields (i : ProtectionProject.t) : project_row :=
  (ProtectionProject.name i, ProtectionProject.description i, ProtectionProject.protocol i,
   ProtectionProject.dport i, ProtectionProject.target_ips i, ProtectionProject.enabled_modules i,
   ProtectionProject.action i).
Definition of_project (t : project_row) : ProtectionProject.t :=
  let '(n, de, p, d, ips, ms, a) := t in ProtectionProject.mk n de p d ips ms a.

Abbreviation metric_row :=
  (Z * (Z * Z * Z * Z * Z) * (Z * Z * Z * Z * Z * Z) *
   (option Z * option Z * option Z * option Z * bool) * (gmap string Z * gmap Z Z))%type.
Definition metric_fields (m : MetricPoint.t) : metric_row :=
  (MetricPoint.timestamp m,
   (MetricPoint.total_packets m, MetricPoint.total_passed m, MetricPoint.total_dropped m,
    MetricPoint.blacklist_blocked m, MetricPoint.rate_limited m),
   (MetricPoint.syn_flood_blocked m, MetricPoint.l7_blocked m, MetricPoint.adaptive_blocked m,
    MetricPoint.udp_flood_blocked m, MetricPoint.icmp_flood_blocked m, MetricPoint.geoip_blocked m),
   (MetricPoint.dps m, MetricPoint.pps m, MetricPoint.dps_max m, MetricPoint.pps_max m,
    MetricPoint.has_data m),
   (MetricPoint.top_attackers m, MetricPoint.port_dropped m)).
Definition of_metric (t : metric_row) : MetricPoint.t :=
  let '(ts, (a, b, c, d, e), (f, g, h, i, j, k), (l, m, n, o, p), (q, r)) := t in
  MetricPoint.mk ts a b c d e f g h i j k l m n o p q r.

Definition enc {A} `{Countable A} (a : A) : option bytes := Some [Zpos (encode a)].
Definition dec {A} `{Countable A} (b : bytes) : option A :=
  match b with [Zpos e] => decode e | _ => None end.

#[global] Instance json : RuleJson := {
  row_to_vec r := enc (row_fields r);
  row_from_slice b := of_row <$> dec b;
  white_to_vec p := enc p;
  white_from_slice b := dec b;
  acl_to_vec x := enc (map acl_fields x);
  acl_from_slice b := map of_acl <$> dec b;
  l7_to_vec x := enc (map l7_fields x);
  l7_from_slice b := map of_l7 <$> dec b;
  projects_to_vec x := enc (map project_fields x);
  projects_from_slice b := map of_project <$> dec b;
  metric_to_vec m := enc (metric_fields m);
  metric_from_slice b := of_metric <$> dec b;
}.

Lemma enc_dec {A B} `{Countable A} (f : B -> A) (g : A -> B) (b : B) :
  g (f b) = b -> exists v, enc (f b) = Some v /\ g <$> dec v = Some b.
Proof. intros Hb. eexists. split; [done|]. cbn. rewrite decode_encode. cbn. by rewrite Hb. Qed.

Lemma enc_dec_list {A B} `{Countable A} (f : B -> A) (g : A -> B) (l : list B) :
  (forall b, g (f b) = b) -> exists v, enc (map f l) = Some v /\ map g <$> dec v = Some l.
Proof.
  intros Hb. apply (enc_dec (map f) (map g)). rewrite map_map. rewrite <- (map_id l) at 2.
  by apply map_ext.
Qed.

#[global] Instance json_laws : RuleJsonLaws json.
Proof.
  split; intros x.
  - apply (enc_dec row_fields of_row). by destruct x as [? ? ? [] ?].
  - eexists. split; [done|]. cbn. apply decode_encode.
  - apply enc_dec_list. by intros [].
  - apply enc_dec_list. by intros [].
  - apply enc_dec_list. by intros [].
  - apply (enc_dec metric_fields of_metric). by destruct x.
Qed.
End RuleSample.
