(* ===== verification/RuleStoreProps.v ===== *)
(** * RuleStoreProps: what the agent's store promises

    The black list table refines a finite map from addresses to rows: saving
    inserts, removing deletes, pruning keeps the rows in force, and the three
    ways of loading read the map. *)
From Stdlib Require Import Sorted.
From stdpp Require Import gmap.
From S2P Require Import Prelude Words Common Config TimeSeries Redb IpText RuleStore.
#[local] Open Scope Z_scope.

(** Addresses as the agent makes them: 16 bytes, zero padding. *)
Definition key_ok (key : IpKey.t) : Prop :=
  length (IpKey.addr key) = 16%nat /\ IpKey.padding key = replicate 15 0.

Lemma key_bytes_back key : key_ok key -> bytes_to_ip_key (ip_key_bytes key) = key.
Proof.
  intros [Hl Hp]. unfold bytes_to_ip_key, ip_key_bytes. cbn [length]. rewrite Hl. cbn [Nat.leb nth].
  unfold slice. rewrite skipn_cons, drop_0, take_ge by lia. destruct key; cbn in *. by subst.
Qed.

Lemma key_bytes_inj k1 k2 : key_ok k1 -> key_ok k2 -> ip_key_bytes k1 = ip_key_bytes k2 -> k1 = k2.
Proof. intros H1 H2 E. rewrite <- (key_bytes_back k1), <- (key_bytes_back k2) by done. by rewrite E. Qed.

(** ** The specification: a map of rows *)
#[local] Abbreviation Rows := (gmap IpKey.t BlacklistRow.t).

Definition in_force (now_ns : Z) (r : BlacklistRow.t) : bool :=
  (BlacklistRow.blocked_until_ns r =? BLOCK_PERMANENT) || (now_ns <? BlacklistRow.blocked_until_ns r).

Inductive StoreOp :=
  | Save (now : Z) (key : IpKey.t) (until reason first : Z) (origin : BlockOrigin)
  | SaveMany (now : Z) (keys : list IpKey.t) (until reason first : Z) (origin : BlockOrigin)
  | Remove (key : IpKey.t)
  | Prune (now : Z).

Definition spec_op (op : StoreOp) (m : Rows) : Rows :=
  match op with
  | Save now key until reason first origin =>
      <[key := BlacklistRow.mk until reason first origin now]> m
  | SaveMany now keys until reason first origin =>
      foldl (fun m key => <[key := BlacklistRow.mk until reason first origin now]> m) m keys
  | Remove key => delete key m
  | Prune now => filter (fun kr => in_force now (snd kr) = true) m
  end.

Definition op_ok (op : StoreOp) : Prop :=
  match op with
  | Save _ key _ _ _ _ | Remove key => key_ok key
  | SaveMany _ keys _ _ _ _ => Forall key_ok keys
  | Prune _ => True
  end.

Section Refinement.
Context {R : Redb} {RL : RedbLaws R} {J : RuleJson} {JL : RuleJsonLaws J}.

Definition impl_op (op : StoreOp) (s : RuleStore) : option RuleStore :=
  match op with
  | Save now key until reason first origin => save_blacklist now key until reason first origin s
  | SaveMany now keys until reason first origin =>
      save_blacklist_many now keys until reason first origin s
  | Remove key => remove_blacklist key s
  | Prune now => snd <$> prune_expired_blacklist now s
  end.

(** Table [t] holds the rows of [m]. *)
Definition repr (t : table) (m : Rows) : Prop :=
  (forall k v, tbl_get t k = Some v -> exists key r, key_ok key /\ k = ip_key_bytes key /\
     row_from_slice v = Some r /\ m !! key = Some r) /\
  (forall key r, m !! key = Some r -> key_ok key /\ exists v,
     tbl_get t (ip_key_bytes key) = Some v /\ row_from_slice v = Some r).

Lemma repr_empty : repr tbl_empty ∅.
Proof. split; intros *; [by rewrite get_empty|by rewrite lookup_empty]. Qed.

Lemma repr_insert t m key r v : repr t m -> key_ok key -> row_from_slice v = Some r ->
  repr (tbl_insert (ip_key_bytes key) v t) (<[key := r]> m).
Proof.
  intros [H1 H2] Hk Hv. split.
  - intros k w. destruct (decide (ip_key_bytes key = k)) as [<-|Hne].
    + rewrite get_insert. intros [= <-]. exists key, r. by rewrite lookup_insert_eq.
    + rewrite get_insert_ne by done. intros Hg. destruct (H1 k w Hg) as (key' & r' & ? & -> & ? & ?).
      exists key', r'. rewrite lookup_insert_ne by congruence. done.
  - intros key' r'. destruct (decide (key = key')) as [<-|Hne].
    + rewrite lookup_insert_eq. intros [= <-]. split; [done|]. exists v. by rewrite get_insert.
    + rewrite lookup_insert_ne by done. intros Hm. destruct (H2 _ _ Hm) as (Hk' & w & Hg & Hw).
      split; [done|]. exists w. rewrite get_insert_ne; [done|].
      intros E. by apply Hne, key_bytes_inj.
Qed.

Lemma repr_delete t m key : repr t m -> key_ok key ->
  repr (tbl_remove (ip_key_bytes key) t) (delete key m).
Proof.
  intros [H1 H2] Hk. split.
  - intros k w. destruct (decide (ip_key_bytes key = k)) as [<-|Hne]; [by rewrite get_remove|].
    rewrite get_remove_ne by done. intros Hg. destruct (H1 k w Hg) as (key' & r' & ? & -> & ? & ?).
    exists key', r'. rewrite lookup_delete_ne by congruence. done.
  - intros key' r' [Hne Hm]%lookup_delete_Some. destruct (H2 _ _ Hm) as (Hk' & w & Hg & Hw).
    split; [done|]. exists w. rewrite get_remove_ne; [done|]. intros E. by apply Hne, key_bytes_inj.
Qed.

Lemma repr_insert_rows keys row : forall t m, repr t m -> Forall key_ok keys ->
  exists t', insert_rows row keys t = Some t' /\ repr t' (foldl (fun m key => <[key := row]> m) m keys).
Proof.
  induction keys as [|key keys IH]; intros t m Hr Hks; cbn [insert_rows foldl]; [by exists t|].
  apply list.Forall_cons in Hks as [Hk Hks]. destruct (row_from_to row) as (v & -> & Hv).
  cbn [mbind option_bind]. apply IH; [|done]. by apply repr_insert.
Qed.

Lemma expired_in_force now k v r : row_from_slice v = Some r ->
  expired_row now (k, v) = negb (in_force now r).
Proof.
  intros Hv. unfold expired_row, in_force. cbn [snd]. rewrite Hv. rewrite negb_orb. f_equal.
  by rewrite Z.leb_antisym.
Qed.

Lemma repr_prune now t m : repr t m ->
  repr (foldl (fun t k => tbl_remove k t) t
          (map fst (filter (fun row => expired_row now row = true) (tbl_iter t))))
       (filter (fun kr => in_force now (snd kr) = true) m).
Proof.
  intros [H1 H2]. set (ks := map fst _).
  assert (Hks : forall k v, tbl_get t k = Some v -> (k ∈ ks <-> expired_row now (k, v) = true)).
  { intros k v Hg. subst ks. rewrite list_elem_of_fmap. split.
    - intros ([k' v'] & -> & Hin). apply list_elem_of_filter in Hin as [He Hin%iter_get]. cbn in *. congruence.
    - intros He. exists (k, v). split; [done|]. apply list_elem_of_filter. split; [done|]. by apply iter_get. }
  split.
  - intros k v. rewrite get_foldr_remove. case_decide as Hin; [done|]. intros Hg.
    destruct (H1 k v Hg) as (key & r & Hk & -> & Hv & Hm). exists key, r. repeat (split; [done|]).
    apply map_lookup_filter_Some. split; [done|]. cbn. rewrite (Hks _ _ Hg) in Hin.
    rewrite (expired_in_force _ _ _ _ Hv) in Hin. by destruct (in_force now r).
  - intros key r (Hm & Hf)%map_lookup_filter_Some. destruct (H2 _ _ Hm) as (Hk & v & Hg & Hv).
    split; [done|]. exists v. split; [|done]. rewrite get_foldr_remove, decide_False; [done|].
    rewrite (Hks _ _ Hg), (expired_in_force _ _ _ _ Hv). cbn in Hf. by rewrite Hf.
Qed.

Lemma impl_refines op s m : repr (BLACKLIST s) m -> op_ok op ->
  exists s', impl_op op s = Some s' /\ repr (BLACKLIST s') (spec_op op m) /\
    WHITELIST s' = WHITELIST s /\ PORT_ACL s' = PORT_ACL s /\ L7_PATTERNS s' = L7_PATTERNS s /\
    PROTECTION_PROJECTS s' = PROTECTION_PROJECTS s /\ TIMESERIES s' = TIMESERIES s.
Proof.
  intros Hr Hok. destruct op as [now key u r f o|now keys u r f o|key|now]; cbn [impl_op spec_op op_ok] in *.
  - unfold save_blacklist. destruct (row_from_to (BlacklistRow.mk u r f o now)) as (v & -> & Hv).
    cbn [mbind option_bind]. eexists. split; [done|]. split; [|done]. by apply repr_insert.
  - unfold save_blacklist_many. case_bool_decide as Hn; [subst; by exists s|].
    destruct (repr_insert_rows keys (BlacklistRow.mk u r f o now) _ _ Hr Hok) as (t' & -> & Hr').
    cbn [mbind option_bind]. eexists. by split.
  - eexists. split; [done|]. split; [|done]. by apply repr_delete.
  - eexists. split; [done|]. split; [|done]. by apply repr_prune.
Qed.

Fixpoint impl_ops (ops : list StoreOp) (s : RuleStore) : option RuleStore :=
  match ops with [] => Some s | op :: ops => s ← impl_op op s; impl_ops ops s end.

(** ** Loading *)
Lemma collect_rows rows (m : Rows) : (forall row, row ∈ rows -> exists key r,
    load_row row = Some (key, r) /\ m !! key = Some r /\ fst row = ip_key_bytes key /\ key_ok key) ->
  exists out, collect load_row rows = Some out /\
    (forall key r, (key, r) ∈ out <-> key_ok key /\ exists v, (ip_key_bytes key, v) ∈ rows /\
                                       row_from_slice v = Some r).
Proof.
  induction rows as [|[k v] rows IH]; intros H; cbn [collect].
  - exists []. split; [done|]. intros key r. split; [by intros ?%not_elem_of_nil|].
    intros (_ & v & ?%not_elem_of_nil & _). done.
  - destruct (H (k, v)) as (key0 & r0 & Hl & Hm & Hk & Hok); [by left|].
    destruct IH as (out & Ho & Hout); [intros row Hin; apply H; by right|].
    rewrite Hl, Ho. cbn [mbind option_bind]. eexists. split; [done|]. intros key r.
    rewrite elem_of_cons, Hout. unfold load_row in Hl. cbn [fst snd] in *.
    destruct (row_from_slice v) as [r1|] eqn:Hv; [|done]. cbn [mbind option_bind] in Hl. injection Hl as Hkey <-.
    split.
    + intros [[= -> ->]|(Hok' & v' & Hin & Hv')].
      * split; [done|]. exists v. rewrite <- Hk. split; [by left|done].
      * split; [done|]. exists v'. split; [by right|done].
    + intros (Hok' & v' & Hin & Hv'). apply elem_of_cons in Hin as [[= E ->]|Hin].
      * left. f_equal; [|congruence]. apply key_bytes_inj; [done|done|congruence].
      * right. split; [done|]. by exists v'.
Qed.

Lemma load_repr s (m : Rows) : repr (BLACKLIST s) m ->
  exists out, load_blacklist s = Some out /\ forall key r, (key, r) ∈ out <-> m !! key = Some r.
Proof.
  intros [H1 H2]. unfold load_blacklist. destruct (collect_rows (tbl_iter (BLACKLIST s)) m) as (out & Ho & Hout).
  - intros [k v] Hin%iter_get. destruct (H1 k v Hin) as (key & r & Hk & -> & Hv & Hm). exists key, r.
    unfold load_row. cbn [fst snd]. rewrite Hv, key_bytes_back by done. done.
  - exists out. split; [done|]. intros key r. rewrite Hout. split.
    + intros (Hk & v & Hin%iter_get & Hv). destruct (H1 _ _ Hin) as (key' & r' & Hk' & E & Hv' & Hm).
      apply key_bytes_inj in E; [|done..]. subst. congruence.
    + intros Hm. destruct (H2 _ _ Hm) as (Hk & v & Hg & Hv). split; [done|]. exists v.
      split; [by apply iter_get|done].
Qed.

Lemma origins_repr s (m : Rows) keys : repr (BLACKLIST s) m -> Forall key_ok keys ->
  exists out, load_blacklist_origins keys s = Some out /\
    forall key, out !! key = if decide (key ∈ keys) then BlacklistRow.origin <$> m !! key else None.
Proof.
  intros Hr Hks. induction Hks as [|key keys Hk Hks IH]; cbn [load_blacklist_origins].
  - exists ∅. split; [done|]. intros key. by rewrite lookup_empty, decide_False by apply not_elem_of_nil.
  - destruct IH as (out & Ho & Hout). destruct Hr as [H1 H2].
    destruct (tbl_get (BLACKLIST s) (ip_key_bytes key)) as [v|] eqn:Hg.
    + destruct (H1 _ _ Hg) as (key' & r & Hk' & E & Hv & Hm). apply key_bytes_inj in E; [|done..]. subst key'.
      rewrite Hv, Ho. cbn [mbind option_bind]. eexists. split; [done|]. intros key'.
      destruct (decide (key = key')) as [<-|Hne].
      * rewrite lookup_insert_eq, decide_True, Hm by (by left). done.
      * rewrite lookup_insert_ne, Hout by done. repeat case_decide; rewrite ?elem_of_cons in *; intuition congruence.
    + exists out. split; [done|]. intros key'. rewrite Hout.
      assert (m !! key = None) as Hnone.
      { destruct (m !! key) as [r|] eqn:Hm; [|done]. destruct (H2 _ _ Hm) as (_ & v & ? & _). congruence. }
      destruct (decide (key' = key)) as [->|Hne]; [rewrite Hnone; repeat case_decide; done|].
      repeat case_decide; rewrite ?elem_of_cons in *; intuition congruence.
Qed.

(** C8: the rule store refines a map.  Any sequence of saves, bulk saves,
    removals and prunings succeeds, and what is then loaded, in full, by change
    time or by address, is exactly the contents of the map after the same
    sequence; the white list and the port ACL stay empty. *)
Theorem rule_store_refines ops :
  Forall op_ok ops ->
  let m := foldl (fun m op => spec_op op m) ∅ ops in
  exists s, impl_ops ops RuleStore_empty = Some s /\
    (exists rows, load_blacklist s = Some rows /\ forall key r, (key, r) ∈ rows <-> m !! key = Some r) /\
    (forall since, exists rows, load_blacklist_since since s = Some rows /\
       forall key r, (key, r) ∈ rows <-> m !! key = Some r /\ since < BlacklistRow.last_updated_ns r) /\
    (forall keys, Forall key_ok keys -> exists out, load_blacklist_origins keys s = Some out /\
       forall key, out !! key = if decide (key ∈ keys) then BlacklistRow.origin <$> m !! key else None) /\
    load_whitelist s = Some [] /\ load_port_acl_items s = Some [].
Proof.
  intros Hops m.
  assert (H : forall ops s m, Forall op_ok ops -> repr (BLACKLIST s) m ->
    exists s', impl_ops ops s = Some s' /\ repr (BLACKLIST s') (foldl (fun m op => spec_op op m) m ops) /\
      WHITELIST s' = WHITELIST s /\ PORT_ACL s' = PORT_ACL s).
  { clear Hops m ops. induction ops as [|op ops IH]; intros s m Hok Hr; [by exists s|].
    apply list.Forall_cons in Hok as [Ho Hok]. destruct (impl_refines op s m Hr Ho) as (s1 & E & Hr1 & Hw & Ha & _).
    destruct (IH s1 _ Hok Hr1) as (s2 & E2 & Hr2 & Hw2 & Ha2). exists s2. cbn [impl_ops foldl]. rewrite E.
    cbn [mbind option_bind]. split_and!; congruence || done. }
  destruct (H ops RuleStore_empty ∅ Hops repr_empty) as (s & E & Hr & Hw & Ha). fold m in Hr.
  exists s. split; [done|]. destruct (load_repr s m Hr) as (rows & Hl & Hrows).
  split; [by exists rows|]. split; [|split; [by intros; apply origins_repr|]].
  - intros since. exists (filter (fun r => since < BlacklistRow.last_updated_ns (snd r)) rows). split.
    + unfold load_blacklist_since, load_blacklist in *. by rewrite Hl.
    + intros key r. rewrite list_elem_of_filter, Hrows. cbn. tauto.
  - unfold load_whitelist, load_port_acl_items. rewrite Hw, Ha. cbn [RuleStore_empty WHITELIST PORT_ACL].
    split; [|done]. destruct (tbl_iter tbl_empty) as [|[k v] l] eqn:Ei; [done|].
    assert (tbl_get tbl_empty k = Some v) as Hg by (apply iter_get; rewrite Ei; by left).
    by rewrite get_empty in Hg.
Qed.
End Refinement.


(** white-list rows are keyed by address alone.  Whatever two prefixes of
    the same network address are allowed, the second row replaces the first,
    and removing either prefix forgets both: after a restart the agent restores
    one network or none where it was given two. *)
Theorem whitelist_rows_collide {R : Redb} {RL : RedbLaws R} {J : RuleJson} {JL : RuleJsonLaws J}
    key p1 p2 (s : RuleStore) :
  exists s1 s2 s3, save_whitelist key p1 s = Some s1 /\ save_whitelist key p2 s1 = Some s2 /\
    (tbl_get (WHITELIST s2) (ip_key_bytes key) ≫= white_from_slice) = Some p2 /\
    remove_whitelist key p1 s2 = Some s3 /\ tbl_get (WHITELIST s3) (ip_key_bytes key) = None.
Proof.
  destruct (white_from_to p1) as (v1 & E1 & _), (white_from_to p2) as (v2 & E2 & B2).
  unfold save_whitelist, remove_whitelist. rewrite E1, E2. cbn [mbind option_bind].
  eexists _, _, _. split; [done|]. split; [done|]. split; [|split; [done|]]; cbn.
  - rewrite get_insert. done.
  - by rewrite get_remove.
Qed.

Module RuleStoreWitness.
Definition k1 : IpKey.t := from_ipv4 [10; 0; 0; 1].
Definition k2 : IpKey.t := from_ipv4 [10; 0; 0; 2].
Definition ops : list StoreOp :=
  [Save 5 k1 9 6 5 Api; SaveMany 6 [k1; k2] 0 11 6 ThreatIntel; Prune 10; Remove k2].

Lemma rule_store_refines_witness :
  Forall op_ok ops /\
  let m := foldl (fun m op => spec_op op m) ∅ ops in
  exists s, impl_ops (R := SortedTable.redb) (J := RuleSample.json) ops RuleStore_empty = Some s /\
    (exists rows, load_blacklist s = Some rows /\ forall key r, (key, r) ∈ rows <-> m !! key = Some r) /\
    (forall since, exists rows, load_blacklist_since since s = Some rows /\
       forall key r, (key, r) ∈ rows <-> m !! key = Some r /\ since < BlacklistRow.last_updated_ns r) /\
    (forall keys, Forall key_ok keys -> exists out, load_blacklist_origins keys s = Some out /\
       forall key, out !! key = if decide (key ∈ keys) then BlacklistRow.origin <$> m !! key else None) /\
    load_whitelist s = Some [] /\ load_port_acl_items s = Some [].
Proof.
  assert (H : Forall op_ok ops) by (repeat constructor).
  split; [exact H|]. exact (rule_store_refines (RL := SortedTable.redb_laws) (JL := RuleSample.json_laws) ops H).
Defined.

(** The run of the sequence leaves one permanent row. *)
Example rule_store_run :
  (impl_ops (R := SortedTable.redb) (J := RuleSample.json) ops RuleStore_empty ≫= load_blacklist) =
  Some [(k1, BlacklistRow.mk 0 11 6 ThreatIntel 6)].
Proof. vm_compute. reflexivity. Qed.

(** 10.0.0.0/8 is allowed, then 10.0.0.0/16: only the second is restored. *)
Lemma whitelist_rows_collide_witness :
  let key := from_ipv4 [10; 0; 0; 0] in
  exists s1 s2 s3, save_whitelist (R := SortedTable.redb) (J := RuleSample.json) key 8 RuleStore_empty = Some s1 /\
    save_whitelist key 16 s1 = Some s2 /\
    (tbl_get (WHITELIST s2) (ip_key_bytes key) ≫= white_from_slice) = Some 16 /\
    remove_whitelist key 8 s2 = Some s3 /\ tbl_get (WHITELIST s3) (ip_key_bytes key) = None.
Proof.
  exact (whitelist_rows_collide (RL := SortedTable.redb_laws) (JL := RuleSample.json_laws)
    (from_ipv4 [10; 0; 0; 0]) 8 16 RuleStore_empty).
Defined.
End RuleStoreWitness.
