(* ===== verification/AgentMaps.v ===== *)
(** * AgentMaps: the agent's writes to the kernel maps

    [eshield/src/control.rs], the [init_*] functions, and the map sizes of
    [eshield-ebpf/src/maps.rs].  The agent works on the same [KState] as the
    packet program.  A system call that fails is the error of [Try].  The maps
    are found in the loaded program, so that [map_mut] does not fail. *)
From Stdlib Require Import Ascii.
From stdpp Require Import strings gmap.
From S2P Require Import Prelude Words Common RustStd IpText Config Maps.
#[local] Open Scope Z_scope.

(** ** The interface *)

(** The entry is for the same network as the key. *)
Definition same_prefix (plen : Z) (data : list Z) (e : LpmEntry.t) : bool :=
  (LpmEntry.prefix_len e =? plen) && lpm_matches e plen data.

(** What the agent calls on the maps beyond [Kernel]: the keys of a hash map,
    insertion into a trie of at most [cap] entries, removal from a trie. *)
Class MapOps {KN : Kernel} := {
  lru_keys : forall {K V} `{EqDecision K}, lru K V -> list K;
  lpm_insert : nat -> LpmEntry.t -> list LpmEntry.t -> option (list LpmEntry.t);
  lpm_remove : Z -> list Z -> list LpmEntry.t -> option (list LpmEntry.t);
}.

(** Documented behaviour: iteration visits the keys present; an insertion
    replaces the entry of the same network and can only fail for a bad prefix
    or when there is no room; a removal fails when there is no such network. *)
Class MapLaws {KN : Kernel} (M : MapOps) : Prop := {
  lru_keys_spec {K V} `{EqDecision K} (m : lru K V) k :
    k ∈ lru_keys m <-> is_Some (lru_get m k);
  lpm_insert_spec cap e t t' : lpm_insert cap e t = Some t' -> forall e', e' ∈ t' <->
    e' = e \/ (e' ∈ t /\ same_prefix (LpmEntry.prefix_len e) (LpmEntry.data e) e' = false);
  lpm_insert_room cap e t :
    0 <= LpmEntry.prefix_len e <= 8 * Z.of_nat (length (LpmEntry.data e)) ->
    (length t < cap)%nat ->
    exists t', lpm_insert cap e t = Some t' /\ (length t' <= S (length t))%nat;
  lpm_remove_spec plen data t t' : lpm_remove plen data t = Some t' -> forall e', e' ∈ t' <->
    e' ∈ t /\ same_prefix plen data e' = false;
  lpm_remove_found plen data t :
    is_Some (lpm_remove plen data t) <-> Exists (fun e => same_prefix plen data e = true) t;
}.

(** The iteration order of the standard hash sets and maps is unspecified. *)
Class HashOrder := { hash_list : forall {A} `{Countable A}, gset A -> list A }.
Class HashOrderLaws (O : HashOrder) : Prop := {
  hash_list_spec {A} `{Countable A} (X : gset A) : hash_list X ≡ₚ elements X;
}.

Lemma elem_of_hash_list {O : HashOrder} {HL : HashOrderLaws O} `{Countable A} (X : gset A) x : x ∈ hash_list X <-> x ∈ X.
Proof. by rewrite hash_list_spec, elem_of_elements. Qed.

(** ** Map sizes *)
Definition WHITELIST_ENTRIES : nat := 1024.
Definition GEOIP_ENTRIES : nat := 4096.

(** [Array::set] *)
Definition array_set {A} (l : list A) (i : Z) (v : A) : option (list A) :=
  if i <? Z.of_nat (length l) then Some (<[Z.to_nat i := v]> l) else None.

Section AgentMaps.
Context {KN : Kernel} {MO : MapOps}.

Abbreviation Ebpf := (Try KState).

(** [Array::set], [LpmTrie::insert] and [LpmTrie::remove] on one map. *)
Definition array_write {A} (p : KState -> list A) `{!Setter p} (i : Z) (v : A) : Ebpf unit := fun s =>
  match array_set (p s) i v with
  | Some l => (Some tt, s <| p := l |>)
  | None => (None, s)
  end.
Definition trie_insert (p : KState -> list LpmEntry.t) `{!Setter p} (cap : nat) (e : LpmEntry.t)
    : Ebpf unit := fun s =>
  match lpm_insert cap e (p s) with
  | Some t => (Some tt, s <| p := t |>)
  | None => (None, s)
  end.
Definition trie_remove (p : KState -> list LpmEntry.t) `{!Setter p} (plen : Z) (data : list Z)
    : Ebpf unit := fun s =>
  match lpm_remove plen data (p s) with
  | Some t => (Some tt, s <| p := t |>)
  | None => (None, s)
  end.

Definition CONFIG_set (cfg : RuntimeConfig.t) : Ebpf unit := array_write CONFIG 0 cfg.

(** ** Time *)

(** [time.rs]: [CLOCK_MONOTONIC], the clock of [bpf_ktime_get_ns]. *)
Definition monotonic_ns : State KState Z := get_ktime_ns.
Definition monotonic_secs : State KState Z := let* t := get_ktime_ns in ret (t / 1000000000).

(** The deadline of a block of [duration_s] seconds. *)
Definition deadline (now_ns duration_s : Z) : Z :=
  if duration_s =? 0 then BLOCK_PERMANENT
  else saturating_add 64 now_ns (saturating_mul 64 duration_s 1000000000).

(** ** [control.rs]: the configuration *)
Definition u8_from (b : bool) : Z := if b then 1 else 0.

Definition fragment_policy_to_u8 (policy : string) : Z :=
  let s := to_lowercase policy in
  if String.eqb s "rate_limit" then 1 else if String.eqb s "drop" then 2 else 0.

Definition default_action_to_u8 (action : string) : Z := if String.eqb action "drop" then 1 else 0.

(** [(len as u8).min(max)] *)
Definition count_u8 (len : nat) (max : Z) : Z := Z.min (wrap 8 (Z.of_nat len)) max.

Definition runtime_of (config : Config.t) : RuntimeConfig.t :=
  RuntimeConfig.mk
    (Z.max (TrustScoreConfig.add_divisor (Config.trust_score config)) 1)
    (Z.max (TrustScoreConfig.sub_divisor (Config.trust_score config)) 1)
    (Z.max (ConnTrackConfig.threshold (Config.conn_track config)) 1)
    (Z.max (ConnTrackConfig.window_ms (Config.conn_track config)) 1)
    (PacketLogConfig.sample_rate (Config.packet_log config))
    (u8_from (RateLimitSection.enabled (Config.rate_limit config)))
    (u8_from (Config.syn_proxy_enabled config))
    (u8_from (L7ScanConfig.enabled (Config.l7_scan config)))
    (u8_from (Config.udp_flood_enabled config))
    (u8_from (Config.icmp_flood_enabled config))
    (u8_from (GeoIpConfig.enabled (Config.geoip config)))
    (default_action_to_u8 (GeoIpConfig.default_action (Config.geoip config)))
    (u8_from (Config.tcp_reset_on_drop config))
    (u8_from (TrustScoreConfig.enabled (Config.trust_score config)))
    0
    (u8_from (PacketLogConfig.enabled (Config.packet_log config)))
    (u8_from (negb (bool_decide (Config.protection_projects config = []))))
    (count_u8 (length (Config.port_acl config)) MAX_PORT_ACL)
    (count_u8 (length (L7ScanConfig.patterns (Config.l7_scan config))) MAX_L7_PATTERNS)
    (u8_from (PortRateLimitConfig.enabled (Config.port_rate_limit config)))
    (u8_from (ConnTrackConfig.enabled (Config.conn_track config)))
    (u8_from (RateLimitSection.dport_grouping (Config.rate_limit config)))
    (fragment_policy_to_u8 (XdpConfig.fragment_policy (Config.xdp config)))
    (u8_from (eq_ignore_ascii_case (RateLimitSection.block_mode (Config.rate_limit config)) "soft")).

Definition init_config_map (config : Config.t) : Ebpf unit := CONFIG_set (runtime_of config).

Definition init_rate_limit_map (config : Config.t) : Ebpf unit :=
  let rl := Config.rate_limit config in
  array_write RATE_LIMIT_CFG 0 (RateLimitConfig.mk (RateLimitSection.threshold rl) (RateLimitSection.tick_ms rl)
    (RateLimitSection.decay_num rl) (RateLimitSection.decay_den rl)
    (RateLimitSection.block_duration_s rl)).

Definition init_port_rate_map (config : Config.t) : Ebpf unit :=
  let prl := Config.port_rate_limit config in
  array_write PORT_RATE_LIMIT_CFG 0 (RateLimitConfig.mk (PortRateLimitConfig.threshold prl)
    (PortRateLimitConfig.tick_ms prl) 0 1 0).

Definition sync_config_count (f : RuntimeConfig.t -> RuntimeConfig.t) : Ebpf unit :=
  let! cfg := run (gets (fun s => array_get (CONFIG s) 0)) in
  match cfg with
  | Some cfg => ignore (CONFIG_set (f cfg))
  | None => ok tt
  end.

(** ** Payload signatures *)

(** Bytes padded with zeros to eight, as a word. *)
Definition word8 (b : list Z) : Z := le_val (b ++ replicate (8 - length b) 0).

Definition l7_entry (pat_cfg : L7PatternConfig.t) : option L7Pattern.t :=
  let pattern_bytes := as_bytes (L7PatternConfig.pattern pat_cfg) in
  let len := length pattern_bytes in
  if (8 <? len)%nat then None
  else
    match L7PatternConfig.mask pat_cfg with
    | Some mask_str =>
        let mask_bytes := as_bytes mask_str in
        if negb (length mask_bytes =? len)%nat then None
        else Some (L7Pattern.mk (word8 pattern_bytes) (word8 mask_bytes) (Z.of_nat len) 0)
    | None => Some (L7Pattern.mk (word8 pattern_bytes) (word8 (replicate len 0xff)) (Z.of_nat len) 0)
    end.

Definition L7Pattern_default : L7Pattern.t := L7Pattern.mk 0 0 0 0.

Definition init_l7_patterns_map (pattern_cfgs : list L7PatternConfig.t) : Ebpf unit :=
  let! _ := for_each (fun i => ignore (array_write L7_PATTERNS i L7Pattern_default)) (seqZ 0 MAX_L7_PATTERNS) in
  let! _ := for_each_from (fun i pat_cfg =>
      let! entry := of_option (l7_entry pat_cfg) in array_write L7_PATTERNS i entry)
    0 (take (Z.to_nat MAX_L7_PATTERNS) pattern_cfgs) in
  sync_config_count (fun cfg =>
    cfg <| RuntimeConfig.l7_pattern_count := count_u8 (length pattern_cfgs) MAX_L7_PATTERNS |>).

(** ** The port ACL *)
Definition PortAclEntry_default : PortAclEntry.t := PortAclEntry.mk 0 0 0 0.

Definition init_port_acl_map (items : list PortAclItem.t) : Ebpf unit :=
  let! _ := for_each (fun i => ignore (array_write PORT_ACL i PortAclEntry_default)) (seqZ 0 MAX_PORT_ACL) in
  let! _ := for_each_from (fun i item =>
      let! _ := ensure (i <? MAX_PORT_ACL) in
      let! entry := of_option (to_entry item) in
      array_write PORT_ACL i entry) 0 items in
  sync_config_count (fun cfg =>
    cfg <| RuntimeConfig.port_acl_count := count_u8 (length items) MAX_PORT_ACL |>).

(** ** Protection projects *)
Definition POLICY_ENTRIES : Z := 8192.

Definition project_dport (dport : string) : option Z :=
  if String.eqb dport "any" then Some 0 else parse_uint 16 dport.

Definition project_action_number (action : string) : option Z :=
  let s := to_lowercase action in
  if String.eqb s "pass" then Some project_action.PASS
  else if String.eqb s "drop" then Some project_action.DROP
  else if String.eqb s "defend" then Some project_action.DEFEND
  else None.

Definition module_bit (m : string) : option Z :=
  if String.eqb m "syn_flood" then Some project_modules.SYN_FLOOD
  else if String.eqb m "udp_flood" then Some project_modules.UDP_FLOOD
  else if String.eqb m "icmp_flood" then Some project_modules.ICMP_FLOOD
  else if String.eqb m "rate_limit" then Some project_modules.RATE_LIMIT
  else if String.eqb m "adaptive" then Some project_modules.ADAPTIVE
  else if String.eqb m "l7_scan" then Some project_modules.L7_SCAN
  else if String.eqb m "geoip" then Some project_modules.GEOIP
  else if String.eqb m "tcp_reset" then Some project_modules.TCP_RESET
  else if String.eqb m "port_acl" then Some project_modules.PORT_ACL
  else if String.eqb m "conn_track" then Some project_modules.CONN_TRACK
  else None.

Definition project_flags (modules : list string) : Z :=
  foldl (fun flags m => match module_bit m with Some b => Z.lor flags b | None => flags end) 0 modules.

Abbreviation PolicyRow := (ProjectPolicyKey.t * ProjectPolicy.t)%type.

(** One target, appended to the rows so far. *)
Definition expand_target (protocol dport action flags : Z) (entries : list PolicyRow) (ip : string)
    : option (list PolicyRow) :=
  target ← (match parse_ip ip with Some k => Some (k, 32) | None => parse_cidr ip end);
  let '(key, prefix) := target in
  if negb (bool_decide (IpKey_family key = Some Ipv4)) then Some entries
  else if prefix <? 24 then None
  else
    let count := Z.shiftl 1 (32 - prefix) in
    if Z.of_nat (length entries) + count >? POLICY_ENTRIES then None
    else Some (entries ++ map (fun h =>
           (ProjectPolicyKey.mk (bswap 4 (Z.lor (ipv4 key) h)) (bswap 2 dport) protocol,
            ProjectPolicy.mk flags action)) (seqZ 0 count)).

Fixpoint expand_targets (protocol dport action flags : Z) (entries : list PolicyRow)
    (ips : list string) : option (list PolicyRow) :=
  match ips with
  | [] => Some entries
  | ip :: ips =>
      entries ← expand_target protocol dport action flags entries ip;
      expand_targets protocol dport action flags entries ips
  end.

Fixpoint expand_projects (entries : list PolicyRow) (projects : list ProtectionProject.t)
    : option (list PolicyRow) :=
  match projects with
  | [] => Some entries
  | proj :: projects =>
      protocol ← protocol_number (ProtectionProject.protocol proj);
      dport ← project_dport (ProtectionProject.dport proj);
      action ← project_action_number (ProtectionProject.action proj);
      let flags := project_flags (ProtectionProject.enabled_modules proj) in
      entries ← expand_targets protocol dport action flags entries (ProtectionProject.target_ips proj);
      expand_projects entries projects
  end.

Definition clear_policies (m : lru ProjectPolicyKey.t ProjectPolicy.t)
    : lru ProjectPolicyKey.t ProjectPolicy.t :=
  foldl (fun m key => lru_remove m key) m (lru_keys m).

Definition insert_policies (entries : list PolicyRow) (m : lru ProjectPolicyKey.t ProjectPolicy.t)
    : lru ProjectPolicyKey.t ProjectPolicy.t :=
  foldl (fun m row => lru_insert m (fst row) (snd row)) m entries.

Definition init_protection_projects_map (projects : list ProtectionProject.t) : Ebpf unit :=
  let! entries := of_option (expand_projects [] projects) in
  let! _ := run (modify (fun s => s <| PROJECT_POLICY ::= fun m =>
    insert_policies entries (clear_policies m) |>)) in
  sync_config_count (fun cfg =>
    cfg <| RuntimeConfig.project_enabled := u8_from (0 <? Z.of_nat (length entries)) |>).

(** ** Tries *)
Definition entry_v4 (addr prefix : Z) : LpmEntry.t :=
  LpmEntry.mk prefix (WhitelistKeyV4 (bswap 4 addr)) 1.
Definition entry_v6 (addr : list Z) (prefix : Z) : LpmEntry.t :=
  LpmEntry.mk prefix (WhitelistKeyV6 addr) 1.

Definition WHITELIST_V4_insert (addr prefix : Z) : Ebpf unit :=
  trie_insert WHITELIST_V4 WHITELIST_ENTRIES (entry_v4 addr prefix).
Definition WHITELIST_V6_insert (addr : list Z) (prefix : Z) : Ebpf unit :=
  trie_insert WHITELIST_V6 WHITELIST_ENTRIES (entry_v6 addr prefix).
Definition WHITELIST_V4_remove (addr prefix : Z) : Ebpf unit :=
  trie_remove WHITELIST_V4 prefix (WhitelistKeyV4 (bswap 4 addr)).
Definition WHITELIST_V6_remove (addr : list Z) (prefix : Z) : Ebpf unit :=
  trie_remove WHITELIST_V6 prefix (WhitelistKeyV6 addr).

(** The network [key/prefix] goes to the trie of its family. *)
Definition whitelist_add (key : IpKey.t) (prefix : Z) : Ebpf unit :=
  match IpKey_family key with
  | Some Ipv4 => WHITELIST_V4_insert (ipv4 key) prefix
  | Some Ipv6 => WHITELIST_V6_insert (IpKey.addr key) prefix
  | None => err
  end.
Definition whitelist_del (key : IpKey.t) (prefix : Z) : Ebpf unit :=
  match IpKey_family key with
  | Some Ipv4 => WHITELIST_V4_remove (ipv4 key) prefix
  | Some Ipv6 => WHITELIST_V6_remove (IpKey.addr key) prefix
  | None => err
  end.
End AgentMaps.

(** ** An executable instance, over the maps of [BoundedLru] *)
Module BoundedTrie.
Section Inst.
Context (capacity : nat) (clock : Z).

Definition others (plen : Z) (data : list Z) (t : list LpmEntry.t) : list LpmEntry.t :=
  filter (fun e => same_prefix plen data e = false) t.

Definition insert (cap : nat) (e : LpmEntry.t) (t : list LpmEntry.t) : option (list LpmEntry.t) :=
  let plen := LpmEntry.prefix_len e in
  let rest := others plen (LpmEntry.data e) t in
  if (0 <=? plen) && (plen <=? 8 * Z.of_nat (length (LpmEntry.data e))) && (length rest <? cap)%nat
  then Some (e :: rest) else None.

Definition remove (plen : Z) (data : list Z) (t : list LpmEntry.t) : option (list LpmEntry.t) :=
  if existsb (same_prefix plen data) t then Some (others plen data t) else None.

Definition ops : @MapOps (BoundedLru.kernel capacity clock) :=
  @Build_MapOps (BoundedLru.kernel capacity clock)
    (fun K V _ (m : list (K * V)) => map fst m) insert remove.

Lemma others_spec plen data t e :
  e ∈ others plen data t <-> e ∈ t /\ same_prefix plen data e = false.
Proof. unfold others. rewrite list_elem_of_filter. tauto. Qed.

#[export] Instance laws : MapLaws ops.
Proof.
  split; cbn.
  - intros K V ? m k. induction m as [|[k' v] m IH]; cbn.
    + split; [intros H; by apply not_elem_of_nil in H|by intros []].
    + rewrite elem_of_cons, IH. case_decide as E; [split; [by eexists|by left]|].
      split; [by intros [?|?]|by right].
  - intros cap e t t'. unfold insert. case_match; [|done]. intros [= <-] e'.
    rewrite elem_of_cons, others_spec. tauto.
  - intros cap e t Hp Hlen. unfold insert.
    assert (length (others (LpmEntry.prefix_len e) (LpmEntry.data e) t) <= length t)%nat as Hle
      by apply length_filter.
    rewrite !(proj2 (Z.leb_le _ _)), (proj2 (Nat.ltb_lt _ _)) by lia.
    eexists. split; [done|]. cbn [length]. lia.
  - intros plen data t t'. unfold remove. case_match; [|done]. intros [= <-] e'. apply others_spec.
  - intros plen data t. unfold remove. rewrite Exists_exists. setoid_rewrite <- list_elem_of_In.
    destruct (existsb _ t) eqn:E.
    + apply existsb_exists in E as (e & Hin & He). split; [|by eexists].
      intros _. exists e. by rewrite list_elem_of_In.
    + split; [by intros []|]. intros (e & Hin & He). rewrite list_elem_of_In in Hin.
      assert (existsb (same_prefix plen data) t = true) by (apply existsb_exists; by exists e). congruence.
Qed.
End Inst.
End BoundedTrie.

Module MapSamples.
#[export] Instance order : HashOrder := {| hash_list A _ _ X := elements X |}.
#[export] Instance order_laws : HashOrderLaws order.
Proof. by split. Qed.
#[export] Instance ops : @MapOps Samples.kernel := BoundedTrie.ops 8 5000000000.
#[export] Instance laws : MapLaws ops := BoundedTrie.laws 8 5000000000.
End MapSamples.
