(* ===== verification/ConfigFile.v ===== *)
(** * ConfigFile: what a configuration file may leave out

    The [serde] attributes and the [Default] implementations of
    [eshield/src/config.rs].  A file, as [toml] delivers it, is a record of
    options per section ([None]: the key is missing); [*_read] is the
    deserialisation, with the default of every field.  A section that is
    missing as a whole is the [Default] of its type, which is not always the
    section with nothing in it. *)
From Stdlib Require Import SpecFloat.
From stdpp Require Import strings.
From S2P Require Import Prelude Words Common RustStd IpText Danger AgentMaps Config.
#[local] Open Scope Z_scope.

(** ** Sections, and their defaults when they are missing *)
Definition AuditConfig_default : AuditConfig.t := AuditConfig.mk false "/var/log/eshield/audit.log" 100.
Definition TrustScoreConfig_default : TrustScoreConfig.t := TrustScoreConfig.mk false 100 3.
Definition DangerSignalConfig_default : DangerSignalConfig.t := DangerSignalConfig.mk false 5 (f64_of 2).
Definition ConnTrackConfig_default : ConnTrackConfig.t := ConnTrackConfig.mk false 20 10000.
Definition HubTlsConfig_default : HubTlsConfig.t := HubTlsConfig.mk true None None None true.
Definition HubConfig_default : HubConfig.t :=
  HubConfig.mk false [] "" "" 10 5 10 100 100 false 30 HubTlsConfig_default.
Definition PacketLogConfig_default : PacketLogConfig.t := PacketLogConfig.mk false 10000 50000 true.
Definition LimitsConfig_default : LimitsConfig.t := LimitsConfig.mk 512 256.
(** [#[derive(Default)]]: the default of every field's type *)
Definition GeoIpConfig_default : GeoIpConfig.t := GeoIpConfig.mk false None None None [] [] [] [] "".
Definition ThreatIntelConfig_default : ThreatIntelConfig.t := ThreatIntelConfig.mk false [].
Definition L7ScanConfig_default : L7ScanConfig.t := L7ScanConfig.mk false [].

Module XdpSection.
Record t := mk {
  mode : option string;
  disable_offloads : option bool;
  auto_reattach : option bool;
  fragment_policy : option string;
}.
End XdpSection.
Definition XdpConfig_read (s : XdpSection.t) : XdpConfig.t :=
  XdpConfig.mk (default "auto"%string (XdpSection.mode s)) (default true (XdpSection.disable_offloads s))
    (default true (XdpSection.auto_reattach s)) (default "rate_limit"%string (XdpSection.fragment_policy s)).

Module AuditSection.
Record t := mk {
  enabled : option bool;
  path : option string;
  max_size_mb : option Z;
}.
End AuditSection.
Definition AuditConfig_read (s : AuditSection.t) : AuditConfig.t :=
  AuditConfig.mk (default false (AuditSection.enabled s))
    (default "/var/log/eshield/audit.log"%string (AuditSection.path s)) (default 100 (AuditSection.max_size_mb s)).

Module TrustScoreSection.
Record t := mk {
  enabled : option bool;
  add_divisor : option Z;
  sub_divisor : option Z;
}.
End TrustScoreSection.
Definition TrustScoreConfig_read (s : TrustScoreSection.t) : TrustScoreConfig.t :=
  TrustScoreConfig.mk (default false (TrustScoreSection.enabled s)) (default 100 (TrustScoreSection.add_divisor s))
    (default 3 (TrustScoreSection.sub_divisor s)).

Module DangerSignalSection.
Record t := mk {
  enabled : option bool;
  sample_interval_s : option Z;
  anomaly_multiplier : option f64;
}.
End DangerSignalSection.
Definition DangerSignalConfig_read (s : DangerSignalSection.t) : DangerSignalConfig.t :=
  DangerSignalConfig.mk (default false (DangerSignalSection.enabled s))
    (default 5 (DangerSignalSection.sample_interval_s s)) (default (f64_of 2) (DangerSignalSection.anomaly_multiplier s)).

Module ConnTrackSection.
Record t := mk {
  enabled : option bool;
  threshold : option Z;
  window_ms : option Z;
}.
End ConnTrackSection.
Definition ConnTrackConfig_read (s : ConnTrackSection.t) : ConnTrackConfig.t :=
  ConnTrackConfig.mk (default false (ConnTrackSection.enabled s)) (default 20 (ConnTrackSection.threshold s))
    (default 10000 (ConnTrackSection.window_ms s)).

Module HubTlsSection.
Record t := mk {
  enabled : option bool;
  ca_cert : option string;
  client_cert : option string;
  client_key : option string;
  verify : option bool;
}.
End HubTlsSection.
Definition HubTlsConfig_read (s : HubTlsSection.t) : HubTlsConfig.t :=
  HubTlsConfig.mk (default true (HubTlsSection.enabled s)) (HubTlsSection.ca_cert s) (HubTlsSection.client_cert s)
    (HubTlsSection.client_key s) (default true (HubTlsSection.verify s)).

Module HubSection.
Record t := mk {
  enabled : option bool;
  urls : option (list string);
  node_name : option string;
  token : option string;
  sync_pull_interval_s : option Z;
  sync_push_interval_s : option Z;
  push_min_hit_count : option Z;
  push_min_trust : option Z;
  push_max_batch_size : option Z;
  sync_rules_enabled : option bool;
  sync_rules_interval_s : option Z;
  tls : option HubTlsSection.t;
}.
End HubSection.
Definition HubConfig_read (s : HubSection.t) : HubConfig.t :=
  HubConfig.mk (default false (HubSection.enabled s)) (default [] (HubSection.urls s))
    (default ""%string (HubSection.node_name s)) (default ""%string (HubSection.token s))
    (default 10 (HubSection.sync_pull_interval_s s)) (default 5 (HubSection.sync_push_interval_s s))
    (default 10 (HubSection.push_min_hit_count s)) (default 100 (HubSection.push_min_trust s))
    (default 100 (HubSection.push_max_batch_size s)) (default false (HubSection.sync_rules_enabled s))
    (default 30 (HubSection.sync_rules_interval_s s))
    (default HubTlsConfig_default (HubTlsConfig_read <$> HubSection.tls s)).

Module PacketLogSection.
Record t := mk {
  enabled : option bool;
  sample_rate : option Z;
  memory_max_entries : option Z;
  payload_hex : option bool;
}.
End PacketLogSection.
Definition PacketLogConfig_read (s : PacketLogSection.t) : PacketLogConfig.t :=
  PacketLogConfig.mk (default false (PacketLogSection.enabled s)) (default 10000 (PacketLogSection.sample_rate s))
    (default 50000 (PacketLogSection.memory_max_entries s)) (default true (PacketLogSection.payload_hex s)).

Module LimitsSection.
Record t := mk {
  min_memory_mb : option Z;
  refuse_memory_mb : option Z;
}.
End LimitsSection.
Definition LimitsConfig_read (s : LimitsSection.t) : LimitsConfig.t :=
  LimitsConfig.mk (default 512 (LimitsSection.min_memory_mb s)) (default 256 (LimitsSection.refuse_memory_mb s)).

Module RateLimitFile.
Record t := mk {
  enabled : option bool;
  threshold : option Z;
  tick_ms : option Z;
  decay_num : option Z;
  decay_den : option Z;
  block_duration_s : option Z;
  dport_grouping : option bool;
  block_mode : option string;
}.
End RateLimitFile.
Definition RateLimitSection_read (s : RateLimitFile.t) : RateLimitSection.t :=
  RateLimitSection.mk (default true (RateLimitFile.enabled s)) (default 2000 (RateLimitFile.threshold s))
    (default 100 (RateLimitFile.tick_ms s)) (default 7 (RateLimitFile.decay_num s))
    (default 8 (RateLimitFile.decay_den s)) (default 120 (RateLimitFile.block_duration_s s))
    (default false (RateLimitFile.dport_grouping s)) (default "hard"%string (RateLimitFile.block_mode s)).

Module PortRateLimitFile.
Record t := mk {
  enabled : option bool;
  threshold : option Z;
  tick_ms : option Z;
}.
End PortRateLimitFile.
Definition PortRateLimitConfig_read (s : PortRateLimitFile.t) : PortRateLimitConfig.t :=
  PortRateLimitConfig.mk (default true (PortRateLimitFile.enabled s)) (default 2000 (PortRateLimitFile.threshold s))
    (default 100 (PortRateLimitFile.tick_ms s)).

Module AdaptiveFile.
Record t := mk {
  enabled : option bool;
  threshold : option Z;
  window_s : option Z;
  block_duration_s : option Z;
}.
End AdaptiveFile.
Definition AdaptiveConfig_read (s : AdaptiveFile.t) : AdaptiveConfig.t :=
  AdaptiveConfig.mk (default true (AdaptiveFile.enabled s)) (default 10 (AdaptiveFile.threshold s))
    (default 5 (AdaptiveFile.window_s s)) (default 300 (AdaptiveFile.block_duration_s s)).

Module GeoIpFile.
Record t := mk {
  enabled : option bool;
  db_path : option string;
  country_blocks_csv : option string;
  asn_blocks_csv : option string;
  block_countries : option (list string);
  allow_countries : option (list string);
  block_asns : option (list Z);
  allow_asns : option (list Z);
  default_action : option string;
}.
End GeoIpFile.
Definition GeoIpConfig_read (s : GeoIpFile.t) : GeoIpConfig.t :=
  GeoIpConfig.mk (default false (GeoIpFile.enabled s)) (GeoIpFile.db_path s) (GeoIpFile.country_blocks_csv s)
    (GeoIpFile.asn_blocks_csv s) (default [] (GeoIpFile.block_countries s)) (default [] (GeoIpFile.allow_countries s))
    (default [] (GeoIpFile.block_asns s)) (default [] (GeoIpFile.allow_asns s))
    (default "pass"%string (GeoIpFile.default_action s)).

(** *** Items of lists: what is not optional is missing from the item as a whole *)
Module ProjectFile.
Record t := mk {
  name : string;
  description : option string;
  protocol : string;
  dport : string;
  target_ips : option (list string);
  enabled_modules : option (list string);
  action : option string;
}.
End ProjectFile.
Definition ProtectionProject_read (s : ProjectFile.t) : ProtectionProject.t :=
  ProtectionProject.mk (ProjectFile.name s) (default ""%string (ProjectFile.description s)) (ProjectFile.protocol s)
    (ProjectFile.dport s) (default [] (ProjectFile.target_ips s)) (default [] (ProjectFile.enabled_modules s))
    (default "defend"%string (ProjectFile.action s)).

Module FeedFile.
Record t := mk {
  name : string;
  url : string;
  interval_s : option Z;
  confidence : option Z;
  category : option string;
  action : option string;
}.
End FeedFile.
Definition ThreatFeed_read (s : FeedFile.t) : ThreatFeed.t :=
  ThreatFeed.mk (FeedFile.name s) (FeedFile.url s) (default 3600 (FeedFile.interval_s s))
    (default 80 (FeedFile.confidence s)) (FeedFile.category s) (default "drop"%string (FeedFile.action s)).

Module ThreatIntelFile.
Record t := mk {
  enabled : option bool;
  feeds : option (list FeedFile.t);
}.
End ThreatIntelFile.
Definition ThreatIntelConfig_read (s : ThreatIntelFile.t) : ThreatIntelConfig.t :=
  ThreatIntelConfig.mk (default false (ThreatIntelFile.enabled s))
    (map ThreatFeed_read (default [] (ThreatIntelFile.feeds s))).

Module L7ScanFile.
Record t := mk {
  enabled : option bool;
  (** [mask] of a pattern is optional in [L7PatternConfig] itself *)
  patterns : option (list L7PatternConfig.t);
}.
End L7ScanFile.
Definition L7ScanConfig_read (s : L7ScanFile.t) : L7ScanConfig.t :=
  L7ScanConfig.mk (default false (L7ScanFile.enabled s)) (default [] (L7ScanFile.patterns s)).

(** ** The file *)
Module ConfigFile.
Record t := mk {
  interface : option string;
  whitelist : option (list string);
  blacklist : option (list string);
  log_level : option string;
  ebpf_log_enabled : option bool;
  udp_flood_enabled : option bool;
  icmp_flood_enabled : option bool;
  tcp_reset_on_drop : option bool;
  rate_limit : option RateLimitFile.t;
  port_rate_limit : option PortRateLimitFile.t;
  (** the section, with its one key *)
  syn_proxy : option (option bool);
  l7_scan : option L7ScanFile.t;
  adaptive : option AdaptiveFile.t;
  port_acl : option (list PortAclItem.t);
  protection_projects : option (list ProjectFile.t);
  geoip : option GeoIpFile.t;
  threat_intel : option ThreatIntelFile.t;
  web_port : option Z;
  web_bind : option string;
  api_token : option string;
  readonly_token : option string;
  log_json : option bool;
  store_path : option string;
  timeseries_retention_days : option Z;
  metrics_interval_s : option Z;
  alert_webhook_url : option string;
  alert_webhook_type : option string;
  alert_threshold_dps : option Z;
  alert_cooldown_s : option Z;
  audit : option AuditSection.t;
  trust_score : option TrustScoreSection.t;
  danger_signal : option DangerSignalSection.t;
  conn_track : option ConnTrackSection.t;
  hub : option HubSection.t;
  packet_log : option PacketLogSection.t;
  xdp : option XdpSection.t;
  limits : option LimitsSection.t;
}.
#[global] Instance eta_t : Eta t := fun r =>
  mk (interface r) (whitelist r) (blacklist r) (log_level r) (ebpf_log_enabled r)
    (udp_flood_enabled r) (icmp_flood_enabled r) (tcp_reset_on_drop r) (rate_limit r)
    (port_rate_limit r) (syn_proxy r) (l7_scan r) (adaptive r) (port_acl r)
    (protection_projects r) (geoip r) (threat_intel r) (web_port r) (web_bind r)
    (api_token r) (readonly_token r) (log_json r) (store_path r)
    (timeseries_retention_days r) (metrics_interval_s r) (alert_webhook_url r)
    (alert_webhook_type r) (alert_threshold_dps r) (alert_cooldown_s r) (audit r)
    (trust_score r) (danger_signal r) (conn_track r) (hub r) (packet_log r) (xdp r)
    (limits r).
End ConfigFile.

(** Three keys have no default: without them there is no configuration. *)
Definition Config_read (f : ConfigFile.t) : option Config.t :=
  interface ← ConfigFile.interface f;
  whitelist ← ConfigFile.whitelist f;
  blacklist ← ConfigFile.blacklist f;
  Some (Config.mk interface whitelist blacklist
    (default "info"%string (ConfigFile.log_level f)) (default false (ConfigFile.ebpf_log_enabled f))
    (default false (ConfigFile.udp_flood_enabled f)) (default false (ConfigFile.icmp_flood_enabled f))
    (default false (ConfigFile.tcp_reset_on_drop f))
    (default RateLimitSection_default (RateLimitSection_read <$> ConfigFile.rate_limit f))
    (default PortRateLimitConfig_default (PortRateLimitConfig_read <$> ConfigFile.port_rate_limit f))
    (default false (default false <$> ConfigFile.syn_proxy f))
    (default L7ScanConfig_default (L7ScanConfig_read <$> ConfigFile.l7_scan f))
    (default AdaptiveConfig_default (AdaptiveConfig_read <$> ConfigFile.adaptive f))
    (default [] (ConfigFile.port_acl f))
    (map ProtectionProject_read (default [] (ConfigFile.protection_projects f)))
    (default GeoIpConfig_default (GeoIpConfig_read <$> ConfigFile.geoip f))
    (default ThreatIntelConfig_default (ThreatIntelConfig_read <$> ConfigFile.threat_intel f))
    (default 8720 (ConfigFile.web_port f)) (ConfigFile.web_bind f)
    (ConfigFile.api_token f) (ConfigFile.readonly_token f) (default false (ConfigFile.log_json f))
    (default "/var/lib/eshield/rules.redb"%string (ConfigFile.store_path f))
    (default 30 (ConfigFile.timeseries_retention_days f)) (default 30 (ConfigFile.metrics_interval_s f))
    (ConfigFile.alert_webhook_url f) (default "generic"%string (ConfigFile.alert_webhook_type f))
    (default 1000 (ConfigFile.alert_threshold_dps f)) (default 60 (ConfigFile.alert_cooldown_s f))
    (default AuditConfig_default (AuditConfig_read <$> ConfigFile.audit f))
    (default TrustScoreConfig_default (TrustScoreConfig_read <$> ConfigFile.trust_score f))
    (default DangerSignalConfig_default (DangerSignalConfig_read <$> ConfigFile.danger_signal f))
    (default ConnTrackConfig_default (ConnTrackConfig_read <$> ConfigFile.conn_track f))
    (default HubConfig_default (HubConfig_read <$> ConfigFile.hub f))
    (default PacketLogConfig_default (PacketLogConfig_read <$> ConfigFile.packet_log f))
    (default XdpConfig_default (XdpConfig_read <$> ConfigFile.xdp f))
    (default LimitsConfig_default (LimitsConfig_read <$> ConfigFile.limits f))).

(** [toml::from_str]: the parser of the text is a parameter. *)
Definition from_toml (parse : string -> option ConfigFile.t) (content : string) : option Config.t :=
  f ← parse content; Config_read f.

(** *** A file with nothing but the three keys, and one with every key *)
Definition ConfigFile_empty : ConfigFile.t :=
  ConfigFile.mk None None None None None None None None None None None None None None None None None None None
    None None None None None None None None None None None None None None None None None None.

Definition minimal_file (interface : string) (whitelist blacklist : list string) : ConfigFile.t :=
  ConfigFile_empty <| ConfigFile.interface := Some interface |> <| ConfigFile.whitelist := Some whitelist |>
    <| ConfigFile.blacklist := Some blacklist |>.

Definition project_written (p : ProtectionProject.t) : ProjectFile.t :=
  ProjectFile.mk (ProtectionProject.name p) (Some (ProtectionProject.description p)) (ProtectionProject.protocol p)
    (ProtectionProject.dport p) (Some (ProtectionProject.target_ips p)) (Some (ProtectionProject.enabled_modules p))
    (Some (ProtectionProject.action p)).

Definition feed_written (x : ThreatFeed.t) : FeedFile.t :=
  FeedFile.mk (ThreatFeed.name x) (ThreatFeed.url x) (Some (ThreatFeed.interval_s x))
    (Some (ThreatFeed.confidence x)) (ThreatFeed.category x) (Some (ThreatFeed.action x)).

Definition hub_written (h : HubConfig.t) : HubSection.t :=
  let t := HubConfig.tls h in
  HubSection.mk (Some (HubConfig.enabled h)) (Some (HubConfig.urls h)) (Some (HubConfig.node_name h))
    (Some (HubConfig.token h)) (Some (HubConfig.sync_pull_interval_s h)) (Some (HubConfig.sync_push_interval_s h))
    (Some (HubConfig.push_min_hit_count h)) (Some (HubConfig.push_min_trust h))
    (Some (HubConfig.push_max_batch_size h)) (Some (HubConfig.sync_rules_enabled h))
    (Some (HubConfig.sync_rules_interval_s h))
    (Some (HubTlsSection.mk (Some (HubTlsConfig.enabled t)) (HubTlsConfig.ca_cert t) (HubTlsConfig.client_cert t)
       (HubTlsConfig.client_key t) (Some (HubTlsConfig.verify t)))).

Definition rate_limit_written (r : RateLimitSection.t) : RateLimitFile.t :=
  RateLimitFile.mk (Some (RateLimitSection.enabled r)) (Some (RateLimitSection.threshold r))
    (Some (RateLimitSection.tick_ms r)) (Some (RateLimitSection.decay_num r)) (Some (RateLimitSection.decay_den r))
    (Some (RateLimitSection.block_duration_s r)) (Some (RateLimitSection.dport_grouping r))
    (Some (RateLimitSection.block_mode r)).

Definition geoip_written (g : GeoIpConfig.t) : GeoIpFile.t :=
  GeoIpFile.mk (Some (GeoIpConfig.enabled g)) (GeoIpConfig.db_path g) (GeoIpConfig.country_blocks_csv g)
    (GeoIpConfig.asn_blocks_csv g) (Some (GeoIpConfig.block_countries g)) (Some (GeoIpConfig.allow_countries g))
    (Some (GeoIpConfig.block_asns g)) (Some (GeoIpConfig.allow_asns g)) (Some (GeoIpConfig.default_action g)).

Definition config_written (c : Config.t) : ConfigFile.t :=
  let prl := Config.port_rate_limit c in
  let ad := Config.adaptive c in
  let au := Config.audit c in
  let ts := Config.trust_score c in
  let ds := Config.danger_signal c in
  let ct := Config.conn_track c in
  let pl := Config.packet_log c in
  let x := Config.xdp c in
  ConfigFile.mk (Some (Config.interface c)) (Some (Config.whitelist c)) (Some (Config.blacklist c))
    (Some (Config.log_level c)) (Some (Config.ebpf_log_enabled c)) (Some (Config.udp_flood_enabled c))
    (Some (Config.icmp_flood_enabled c)) (Some (Config.tcp_reset_on_drop c))
    (Some (rate_limit_written (Config.rate_limit c)))
    (Some (PortRateLimitFile.mk (Some (PortRateLimitConfig.enabled prl)) (Some (PortRateLimitConfig.threshold prl))
       (Some (PortRateLimitConfig.tick_ms prl))))
    (Some (Some (Config.syn_proxy_enabled c)))
    (Some (L7ScanFile.mk (Some (L7ScanConfig.enabled (Config.l7_scan c))) (Some (L7ScanConfig.patterns (Config.l7_scan c)))))
    (Some (AdaptiveFile.mk (Some (AdaptiveConfig.enabled ad)) (Some (AdaptiveConfig.threshold ad))
       (Some (AdaptiveConfig.window_s ad)) (Some (AdaptiveConfig.block_duration_s ad))))
    (Some (Config.port_acl c)) (Some (map project_written (Config.protection_projects c)))
    (Some (geoip_written (Config.geoip c)))
    (Some (ThreatIntelFile.mk (Some (ThreatIntelConfig.enabled (Config.threat_intel c)))
       (Some (map feed_written (ThreatIntelConfig.feeds (Config.threat_intel c))))))
    (Some (Config.web_port c)) (Config.web_bind c) (Config.api_token c) (Config.readonly_token c)
    (Some (Config.log_json c)) (Some (Config.store_path c)) (Some (Config.timeseries_retention_days c))
    (Some (Config.metrics_interval_s c)) (Config.alert_webhook_url c) (Some (Config.alert_webhook_type c))
    (Some (Config.alert_threshold_dps c)) (Some (Config.alert_cooldown_s c))
    (Some (AuditSection.mk (Some (AuditConfig.enabled au)) (Some (AuditConfig.path au)) (Some (AuditConfig.max_size_mb au))))
    (Some (TrustScoreSection.mk (Some (TrustScoreConfig.enabled ts)) (Some (TrustScoreConfig.add_divisor ts))
       (Some (TrustScoreConfig.sub_divisor ts))))
    (Some (DangerSignalSection.mk (Some (DangerSignalConfig.enabled ds)) (Some (DangerSignalConfig.sample_interval_s ds))
       (Some (DangerSignalConfig.anomaly_multiplier ds))))
    (Some (ConnTrackSection.mk (Some (ConnTrackConfig.enabled ct)) (Some (ConnTrackConfig.threshold ct))
       (Some (ConnTrackConfig.window_ms ct))))
    (Some (hub_written (Config.hub c)))
    (Some (PacketLogSection.mk (Some (PacketLogConfig.enabled pl)) (Some (PacketLogConfig.sample_rate pl))
       (Some (PacketLogConfig.memory_max_entries pl)) (Some (PacketLogConfig.payload_hex pl))))
    (Some (XdpSection.mk (Some (XdpConfig.mode x)) (Some (XdpConfig.disable_offloads x)) (Some (XdpConfig.auto_reattach x))
       (Some (XdpConfig.fragment_policy x))))
    (Some (LimitsSection.mk (Some (LimitsConfig.min_memory_mb (Config.limits c)))
       (Some (LimitsConfig.refuse_memory_mb (Config.limits c))))).

(** ** Properties *)

(** A key that is missing counts as the key with its default. *)
Theorem config_written_read c : Config_read (config_written c) = Some c.
Proof.
  assert (Hp : forall l, map ProtectionProject_read (map project_written l) = l).
  { intros l. rewrite map_map. rewrite <- (map_id l) at 2. apply map_ext. by intros []. }
  assert (Hf : forall l, map ThreatFeed_read (map feed_written l) = l).
  { intros l. rewrite map_map. rewrite <- (map_id l) at 2. apply map_ext. by intros []. }
  destruct c as [? ? ? ? ? ? ? ? [] [] ? [] [] ? ? [] [] ? ? ? ? ? ? ? ? ? ? ? ? [] [] [] [] [? ? ? ? ? ? ? ? ? ? ? []] [] [] []].
  unfold config_written, Config_read, ThreatIntelConfig_read. cbn. by rewrite Hp, Hf.
Qed.

(** A section without keys is the section left out, except for the adaptive
    black list, which the empty section turns on, and the action of GeoIP, which
    the missing section leaves empty. *)
Theorem empty_sections :
  RateLimitSection_read (RateLimitFile.mk None None None None None None None None) = RateLimitSection_default /\
  PortRateLimitConfig_read (PortRateLimitFile.mk None None None) = PortRateLimitConfig_default /\
  L7ScanConfig_read (L7ScanFile.mk None None) = L7ScanConfig_default /\
  ThreatIntelConfig_read (ThreatIntelFile.mk None None) = ThreatIntelConfig_default /\
  AuditConfig_read (AuditSection.mk None None None) = AuditConfig_default /\
  TrustScoreConfig_read (TrustScoreSection.mk None None None) = TrustScoreConfig_default /\
  DangerSignalConfig_read (DangerSignalSection.mk None None None) = DangerSignalConfig_default /\
  ConnTrackConfig_read (ConnTrackSection.mk None None None) = ConnTrackConfig_default /\
  HubTlsConfig_read (HubTlsSection.mk None None None None None) = HubTlsConfig_default /\
  HubConfig_read (HubSection.mk None None None None None None None None None None None None) = HubConfig_default /\
  PacketLogConfig_read (PacketLogSection.mk None None None None) = PacketLogConfig_default /\
  XdpConfig_read (XdpSection.mk None None None None) = XdpConfig_default /\
  LimitsConfig_read (LimitsSection.mk None None) = LimitsConfig_default /\
  AdaptiveConfig.enabled (AdaptiveConfig_read (AdaptiveFile.mk None None None None)) = true /\
  AdaptiveConfig.enabled AdaptiveConfig_default = false /\
  GeoIpConfig.default_action (GeoIpConfig_read (GeoIpFile.mk None None None None None None None None None)) = "pass"%string /\
  GeoIpConfig.default_action GeoIpConfig_default = ""%string.
Proof. by split_and!. Qed.

(** The smallest file works.  With nothing but an interface, a white list and a
    black list, the configuration is valid exactly if the interface has a name
    and exists, every entry parses and the default store can be opened; it then
    turns on the two rate limits and the limit for fragments, and nothing else,
    with bounds that are not zero.  A file without one of the three is refused. *)
Theorem minimal_file_starts interface_exists store_dir_ok interface whitelist blacklist :
  exists config, Config_read (minimal_file interface whitelist blacklist) = Some config /\
    validate interface_exists store_dir_ok config =
      negb (String.eqb interface "") && interface_exists interface &&
      forallb (fun cidr => bool_decide (is_Some (parse_cidr cidr))) whitelist &&
      forallb (fun ip => bool_decide (is_Some (parse_ip_or_cidr ip))) blacklist &&
      store_dir_ok "/var/lib/eshield/rules.redb" /\
    runtime_of config = RuntimeConfig.mk 100 3 20 10000 10000 1 0 0 0 0 0 0 0 0 0 0 0 0 0 1 0 0 1 0.
Proof.
  eexists. split; [reflexivity|]. split; [|reflexivity].
  unfold validate. cbn [Config.interface Config.whitelist Config.blacklist Config.store_path].
  generalize (forallb (fun cidr => bool_decide (is_Some (parse_cidr cidr))) whitelist)
    (forallb (fun ip => bool_decide (is_Some (parse_ip_or_cidr ip))) blacklist). intros w b.
  destruct (negb (String.eqb interface "")), (interface_exists interface), w, b; try (vm_compute; reflexivity).
  all: cbn [default]; destruct (store_dir_ok _); vm_compute; reflexivity.
Qed.
