(* ===== verification/Metrics.v ===== *)
(** * Metrics: from the kernel's counters to what the agent shows

    [state.rs], the background tasks of [eshield/src/main.rs] that read the maps
    ([sync_global_stats], [sync_trust_scores], [sync_top_attackers],
    [sync_map_entries]) and the handlers of [web.rs] that present the result.
    One tick of a task is a function; a read that fails is [None].  Additions
    wrap, as in a release build. *)
From Stdlib Require Import QArith Sorted.
From stdpp Require Import strings gmap.
From S2P Require Import Prelude Words Common Pure RustStd Ranking IpText TimeSeries Maps Trust Blacklist AgentMaps.
#[local] Open Scope Z_scope.

(** ** Operations of [Stats] *)
Definition xdp_mode_str (stats : Stats.t) : string :=
  if Stats.xdp_mode stats =? 1 then "native"%string
  else if Stats.xdp_mode stats =? 2 then "generic"%string else "unknown"%string.

(** Upper bounds of the buckets but the last, which has none. *)
Definition hist_bounds : list Z := [1000; 5000; 10000; 50000; 100000].

Fixpoint bucket_of (us : Z) (bounds : list Z) : nat :=
  match bounds with
  | [] => O
  | b :: bounds => if us <=? b then O else S (bucket_of us bounds)
  end.

Definition record_process_time_us (us : Z) (stats : Stats.t) : Stats.t :=
  stats <| Stats.process_hist ::= alter (fun n => wrapping_add 64 n 1) (bucket_of us hist_bounds) |>.

Definition attack_events (limit : Z) (stats : Stats.t) : list DropEvent.t :=
  take (Z.to_nat limit) (rev (Stats.recent_attacks stats)).

(** ** The global counters *)

(** [acc += v], field by field; what is not read back stays 0. *)
Definition add_cpu (acc v : GlobalStats.t) : GlobalStats.t :=
  let plus f := wrapping_add 64 (f acc) (f v) in
  GlobalStats_default
    <| GlobalStats.total_packets := plus GlobalStats.total_packets |>
    <| GlobalStats.total_dropped := plus GlobalStats.total_dropped |>
    <| GlobalStats.total_passed := plus GlobalStats.total_passed |>
    <| GlobalStats.syn_flood_blocked := plus GlobalStats.syn_flood_blocked |>
    <| GlobalStats.rate_limited := plus GlobalStats.rate_limited |>
    <| GlobalStats.l7_blocked := plus GlobalStats.l7_blocked |>
    <| GlobalStats.udp_flood_blocked := plus GlobalStats.udp_flood_blocked |>
    <| GlobalStats.icmp_flood_blocked := plus GlobalStats.icmp_flood_blocked |>
    <| GlobalStats.geoip_blocked := plus GlobalStats.geoip_blocked |>
    <| GlobalStats.conn_track_blocked := plus GlobalStats.conn_track_blocked |>
    <| GlobalStats.blacklist_blocked := plus GlobalStats.blacklist_blocked |>
    <| GlobalStats.tcp_rst_sent := plus GlobalStats.tcp_rst_sent |>
    <| GlobalStats.tcp_rst_fail := plus GlobalStats.tcp_rst_fail |>
    <| GlobalStats.tcp_rst_attempt := plus GlobalStats.tcp_rst_attempt |>
    <| GlobalStats.tcp_dropped := plus GlobalStats.tcp_dropped |>
    <| GlobalStats.udp_dropped := plus GlobalStats.udp_dropped |>
    <| GlobalStats.icmp_dropped := plus GlobalStats.icmp_dropped |>
    <| GlobalStats.other_dropped := plus GlobalStats.other_dropped |>
    <| GlobalStats.fragment_blocked := plus GlobalStats.fragment_blocked |>
    <| GlobalStats.port_rate_blocked := plus GlobalStats.port_rate_blocked |>.

(** What the loop keeps between two ticks. *)
Module GlobalSync.
Record t := mk {
  last_packets : Z;
  last_dropped : Z;
}.
End GlobalSync.

Definition global_sync_start : GlobalSync.t := GlobalSync.mk 0 0.

(** The slots of all CPUs, or [None] when the map can not be read. *)
Definition read_global (values : option (list GlobalStats.t)) : GlobalStats.t :=
  foldl add_cpu GlobalStats_default (default [] values).

Definition store_global (acc : GlobalStats.t) (stats : Stats.t) : Stats.t :=
  stats <| Stats.total_packets := GlobalStats.total_packets acc |>
    <| Stats.total_dropped := GlobalStats.total_dropped acc |>
    <| Stats.total_passed := GlobalStats.total_passed acc |>
    <| Stats.syn_flood_blocked := GlobalStats.syn_flood_blocked acc |>
    <| Stats.rate_limited := GlobalStats.rate_limited acc |>
    <| Stats.l7_blocked := GlobalStats.l7_blocked acc |>
    <| Stats.udp_flood_blocked := GlobalStats.udp_flood_blocked acc |>
    <| Stats.icmp_flood_blocked := GlobalStats.icmp_flood_blocked acc |>
    <| Stats.geoip_blocked := GlobalStats.geoip_blocked acc |>
    <| Stats.conn_track_blocked := GlobalStats.conn_track_blocked acc |>
    <| Stats.blacklist_blocked := GlobalStats.blacklist_blocked acc |>
    <| Stats.tcp_rst_sent := GlobalStats.tcp_rst_sent acc |>
    <| Stats.tcp_rst_fail := GlobalStats.tcp_rst_fail acc |>
    <| Stats.tcp_rst_attempt := GlobalStats.tcp_rst_attempt acc |>
    <| Stats.tcp_dropped := GlobalStats.tcp_dropped acc |>
    <| Stats.udp_dropped := GlobalStats.udp_dropped acc |>
    <| Stats.icmp_dropped := GlobalStats.icmp_dropped acc |>
    <| Stats.other_dropped := GlobalStats.other_dropped acc |>
    <| Stats.fragment_blocked := GlobalStats.fragment_blocked acc |>
    <| Stats.port_rate_blocked := GlobalStats.port_rate_blocked acc |>.

(** One tick, once a second. *)
Definition sync_global_stats (values : option (list GlobalStats.t)) (st : GlobalSync.t * Stats.t)
    : GlobalSync.t * Stats.t :=
  let '(sync, stats) := st in
  let acc := read_global values in
  let stats := store_global acc stats in
  let pps := saturating_sub (GlobalStats.total_packets acc) (GlobalSync.last_packets sync) in
  let dps := saturating_sub (GlobalStats.total_dropped acc) (GlobalSync.last_dropped sync) in
  (GlobalSync.mk (GlobalStats.total_packets acc) (GlobalStats.total_dropped acc),
   stats <| Stats.current_pps := pps |> <| Stats.current_dps := dps |>).

(** ** The tables *)
Section Tables.
Context {KN : Kernel} {MO : MapOps}.

(** [map.iter().flatten()] *)
Definition lru_entries {K V} `{EqDecision K} (m : lru K V) : list (K * V) :=
  omap (fun k => v ← lru_get m k; Some (k, v)) (lru_keys m).

Definition count_level (level : Z) (entries : list (IpKey.t * TrustEntry.t)) : Z :=
  Z.of_nat (length (filter (fun kv => TrustEntry.level (snd kv) = level) entries)).

Definition sync_trust_scores (s : KState) (stats : Stats.t) : Stats.t :=
  let entries := lru_entries (TRUST_MAP s) in
  stats <| Stats.trust_trusted := count_level 1 entries |>
    <| Stats.trust_neutral := count_level 2 entries |>
    <| Stats.trust_suspicious := count_level 3 entries |>
    <| Stats.trust_malicious := count_level 4 entries |>.

Definition sync_top_attackers (s : KState) (stats : Stats.t) : Stats.t :=
  stats <| Stats.top_attackers :=
    list_to_map (filter (fun kc => snd kc > 0) (lru_entries (TOP_ATTACKERS s))) |>.

Definition CAP : Z := 20000.

(** [map.iter().take(CAP).count()] *)
Definition entry_count {K V} `{EqDecision K} (m : lru K V) : Z :=
  Z.of_nat (length (take (Z.to_nat CAP) (lru_entries m))).

Definition sampled (s : KState) : list (string * Z) :=
  [("BLACKLIST"%string, entry_count (BLACKLIST s)); ("RATE_MAP"%string, entry_count (RATE_MAP s));
   ("PORT_RATE_MAP"%string, entry_count (PORT_RATE_MAP s)); ("TRUST_MAP"%string, entry_count (TRUST_MAP s));
   ("CONN_TRACK"%string, entry_count (CONN_TRACK s));
   ("SYN_PROXY_CONN"%string, entry_count (SYN_PROXY_CONN s));
   ("TOP_ATTACKERS"%string, entry_count (TOP_ATTACKERS s));
   ("PROJECT_POLICY"%string, entry_count (PROJECT_POLICY s))].

Definition sync_map_entries (now_ns : Z) (s : KState) (stats : Stats.t) : Stats.t :=
  stats <| Stats.map_entries ::= fun m => foldl (fun m nc => <[fst nc := snd nc]> m) m (sampled s) |>
    <| Stats.map_entries_updated_ns := now_ns |>.
End Tables.

(** ** What is shown *)

(** [wall_clock_offset_ns]: the offset between the two clocks. *)
Definition wall_clock_offset_ns (wall_now_ns monotonic_now_ns : Z) : Z := wall_now_ns - monotonic_now_ns.
Definition monotonic_to_wall_ns (ts_ns offset_ns : Z) : Z := wrap 64 (Z.max (ts_ns + offset_ns) 0).

Definition rule_display_name (rule_id : Z) : string :=
  if rule_id =? rules.BLACKLIST then "黑名单"%string
  else if rule_id =? rules.RATE_LIMIT then "速率限制"%string
  else if rule_id =? rules.SYN_FLOOD then "SYN Flood"%string
  else if rule_id =? rules.L7_PATTERN then "L7 指纹"%string
  else if rule_id =? rules.ADAPTIVE then "自适应"%string
  else if rule_id =? rules.API_BLOCK then "手动封禁"%string
  else if rule_id =? rules.PORT_ACL then "端口 ACL"%string
  else if rule_id =? rules.UDP_FLOOD then "UDP Flood"%string
  else if rule_id =? rules.ICMP_FLOOD then "ICMP Flood"%string
  else if rule_id =? rules.GEOIP then "GeoIP"%string
  else if rule_id =? rules.THREAT_INTEL then "威胁情报"%string
  else if rule_id =? rules.PROJECT_POLICY then "防护项目"%string
  else if rule_id =? rules.CONN_TRACK then "连接跟踪"%string
  else if rule_id =? rules.FRAGMENT then "分片策略"%string
  else if rule_id =? rules.PORT_RATE then "端口聚合限速"%string
  else "未知"%string.

Module AttackEvent.
Record t := mk {
  timestamp_ns : Z;
  src_ip : string;
  protocol : Z;
  rule_id : Z;
  rule_name : string;
  dst_port : Z;
}.
End AttackEvent.

Definition attack_event (offset_ns : Z) (e : DropEvent.t) : AttackEvent.t :=
  AttackEvent.mk (monotonic_to_wall_ns (DropEvent.timestamp_ns e) offset_ns)
    (match IpFamily_from_u8 (DropEvent.family e) with
     | Some Ipv4 => print_ipv4 (slice 12 4 (DropEvent.src_ip e))
     | Some Ipv6 => format_ip_key (from_ipv6 (DropEvent.src_ip e))
     | None => "unknown"%string
     end)
    (DropEvent.protocol e) (DropEvent.rule_id e) (rule_display_name (DropEvent.rule_id e))
    (DropEvent.dst_port e).

Definition attack_events_handler (offset_ns limit : Z) (stats : Stats.t) : list AttackEvent.t :=
  map (attack_event offset_ns) (attack_events (Z.min limit 200) stats).

Module StatsResponse.
Record t := mk {
  counters : Stats.t;
  top_attackers : list (string * Z);
  top_ports : list (Z * Z);
  xdp_mode : string;
}.
End StatsResponse.

Section Views.
Context {HO : HashOrder}.

(** [stats.top_attackers.iter()] and [stats.port_dropped.iter()] *)
Definition attackers (stats : Stats.t) : list (string * Z) :=
  map (fun k => (format_ip_key k, default 0 (Stats.top_attackers stats !! k)))
    (hash_list (dom (Stats.top_attackers stats))).
Definition ports (stats : Stats.t) : list (Z * Z) :=
  map (fun p => (p, default 0 (Stats.port_dropped stats !! p))) (hash_list (dom (Stats.port_dropped stats))).

(** The scalar fields are copied from the statistics. *)
Definition stats_snapshot (stats : Stats.t) : StatsResponse.t :=
  StatsResponse.mk stats (top snd 20 (attackers stats)) (top snd 10 (ports stats)) (xdp_mode_str stats).
End Views.

(** *** Occupancy of the maps *)
Module MapInfo.
Record t := mk {
  name : string;
  map_type : string;
  max_entries : Z;
}.
End MapInfo.

Module MapUsage.
Record t := mk {
  info : MapInfo.t;
  entries : Z;
  ratio : Q;
}.
End MapUsage.

Definition warn_threshold : Q := 8 # 10.

(** The ratio before rounding to a double. *)
Definition map_usage (stats : Stats.t) (info : MapInfo.t) : MapUsage.t :=
  let used := default 0 (Stats.map_entries stats !! MapInfo.name info) in
  MapUsage.mk info used
    (if MapInfo.max_entries info >? 0 then used # Z.to_pos (MapInfo.max_entries info) else 0%Q).

Definition map_usage_handler (map_infos : list MapInfo.t) (stats : Stats.t) : list MapUsage.t :=
  map (map_usage stats) map_infos.

(** *** The histogram of [/metrics] *)

(** The running total of the buckets: the lines of the metric, the last with
    the bound infinity. *)
Fixpoint cumulated (total : Z) (buckets : list Z) : list Z :=
  match buckets with
  | [] => []
  | v :: buckets => let total := wrapping_add 64 total v in total :: cumulated total buckets
  end.

Definition histogram (stats : Stats.t) : list Z := cumulated 0 (Stats.process_hist stats).

(** ** Properties *)

(** *** Rates *)

(** A sequence of ticks, with the rates each of them shows. *)
Fixpoint ticks (readings : list (option (list GlobalStats.t))) (st : GlobalSync.t * Stats.t)
    : list (Z * Z) * (GlobalSync.t * Stats.t) :=
  match readings with
  | [] => ([], st)
  | values :: readings =>
      let st := sync_global_stats values st in
      let '(rates, st') := ticks readings st in
      ((Stats.current_pps (snd st), Stats.current_dps (snd st)) :: rates, st')
  end.

(** The totals of a reading, and readings whose totals do not go back. *)
Definition packets_of (values : option (list GlobalStats.t)) : Z := GlobalStats.total_packets (read_global values).
Definition dropped_of (values : option (list GlobalStats.t)) : Z := GlobalStats.total_dropped (read_global values).

Fixpoint growing (packets dropped : Z) (readings : list (option (list GlobalStats.t))) : Prop :=
  match readings with
  | [] => True
  | values :: readings =>
      packets <= packets_of values /\ dropped <= dropped_of values /\
      growing (packets_of values) (dropped_of values) readings
  end.

Definition sum (l : list Z) : Z := foldr Z.add 0 l.

Lemma sync_global_stats_run values sync stats :
  exists stats', sync_global_stats values (sync, stats) = (GlobalSync.mk (packets_of values) (dropped_of values), stats') /\
    Stats.current_pps stats' = saturating_sub (packets_of values) (GlobalSync.last_packets sync) /\
    Stats.current_dps stats' = saturating_sub (dropped_of values) (GlobalSync.last_dropped sync) /\
    Stats.total_packets stats' = packets_of values /\ Stats.total_dropped stats' = dropped_of values.
Proof. eexists. split; [reflexivity|]. done. Qed.

(** the rates account for every packet.  As long as the counters of the
    kernel are read and do not go back, the packets per second the agent has
    shown add up to the packets counted since the start, and the dropped ones
    likewise: no second's traffic is shown twice or not at all. *)
Theorem rates_account readings sync stats rates sync' stats' :
  growing (GlobalSync.last_packets sync) (GlobalSync.last_dropped sync) readings ->
  ticks readings (sync, stats) = (rates, (sync', stats')) ->
  GlobalSync.last_packets sync' = GlobalSync.last_packets sync + sum (map fst rates) /\
  GlobalSync.last_dropped sync' = GlobalSync.last_dropped sync + sum (map snd rates) /\
  (readings <> [] -> Stats.total_packets stats' = GlobalSync.last_packets sync' /\
                     Stats.total_dropped stats' = GlobalSync.last_dropped sync').
Proof.
  revert sync stats rates. induction readings as [|values readings IH]; intros sync stats rates Hg E.
  - injection E as <- <- <-. cbn. split_and!; [lia|lia|done].
  - cbn [ticks] in E. destruct (sync_global_stats_run values sync stats) as (stats1 & E1 & Hp & Hd & Ht & Hu).
    rewrite E1 in E. cbn [fst snd] in E. destruct (ticks readings _) as [rates' [sync1 stats2]] eqn:E2.
    injection E as <- <- <-. destruct Hg as (Hg1 & Hg2 & Hg).
    specialize (IH (GlobalSync.mk (packets_of values) (dropped_of values)) stats1 rates' Hg E2). cbn [GlobalSync.last_packets GlobalSync.last_dropped] in IH.
    destruct IH as (IH1 & IH2 & IH3). cbn [map sum foldr fst snd]. fold (sum (map fst rates')).
    fold (sum (map snd rates')). unfold saturating_sub in Hp, Hd. split_and!; [lia|lia|]. intros _.
    destruct readings as [|v readings]; [|by apply IH3].
    cbn in E2. injection E2 as <- <- <-. done.
Qed.

(** a failed read looks like an attack.  When the counters can not be read
    for one tick the agent shows zeros, and the tick after it shows everything
    dropped since the start as the drops of one second. *)
Theorem failed_read_bursts values sync stats :
  0 <= GlobalSync.last_dropped sync -> 0 <= dropped_of (Some values) ->
  map snd (fst (ticks [None; Some values] (sync, stats))) = [0; dropped_of (Some values)].
Proof.
  intros Hl Hd. cbn [ticks]. destruct (sync_global_stats_run None sync stats) as (st1 & -> & _ & D1 & _).
  destruct (sync_global_stats_run (Some values) (GlobalSync.mk (packets_of None) (dropped_of None)) st1)
    as (st2 & -> & _ & D2 & _).
  cbn [fst snd map]. rewrite D1, D2. unfold saturating_sub. change (dropped_of None) with 0.
  cbn [GlobalSync.last_dropped]. repeat f_equal; lia.
Qed.

(** *** Rankings *)
Section Ranked.
Context {HO : HashOrder} {HL : HashOrderLaws HO}.

(** the ten ports of the overview are the ones with the most drops.  Every
    port with drops is in the list or has at most as many as each of the ten
    that are, and the list is in descending order. *)
Theorem top_ports_largest stats p c :
  Stats.port_dropped stats !! p = Some c ->
  let shown := StatsResponse.top_ports (stats_snapshot stats) in
  StronglySorted (not_larger snd) shown /\
  ((p, c) ∈ shown \/ (length shown = 10%nat /\ Forall (fun pc => c <= snd pc) shown)).
Proof.
  intros Hp. cbn [stats_snapshot StatsResponse.top_ports].
  destruct (top_spec snd 10 (ports stats)) as (rest & Hperm & Hs & Hlen & Hle). split; [done|].
  assert (Hin : (p, c) ∈ top snd 10 (ports stats) ++ rest).
  { rewrite Hperm. unfold ports. apply list_elem_of_fmap. exists p. rewrite Hp. split; [done|].
    apply elem_of_hash_list, elem_of_dom. by eexists. }
  apply elem_of_app in Hin as [Hin|Hin]; [by left|]. right. split.
  - rewrite Hlen. assert (length rest <> 0)%nat by (destruct rest; [by apply not_elem_of_nil in Hin|done]).
    apply Permutation_length in Hperm. rewrite length_app in Hperm. lia.
  - apply list.Forall_forall. intros x Hx. exact (Hle x _ Hx Hin).
Qed.
End Ranked.

(** *** Occupancy *)
Section Occupancy.
Context {KN : Kernel} {MO : MapOps}.

Lemma entry_count_cap {K V} `{EqDecision K} (m : lru K V) : 0 <= entry_count m <= CAP.
Proof. unfold entry_count, CAP. rewrite length_take. lia. Qed.

Lemma sampled_cap s nc : nc ∈ sampled s -> 0 <= snd nc <= CAP.
Proof.
  unfold sampled. rewrite !elem_of_cons, elem_of_nil.
  intros [->|[->|[->|[->|[->|[->|[->|[->|[]]]]]]]]]; apply entry_count_cap.
Qed.

Lemma inserted_all (l : list (string * Z)) : forall (m : gmap string Z) name,
  name ∈ map fst l ->
  exists nc, nc ∈ l /\ foldl (fun m nc => <[fst nc := snd nc]> m) m l !! name = Some (snd nc).
Proof.
  induction l as [|nc l IH] using rev_ind; intros m name Hn; [by apply elem_of_nil in Hn|].
  rewrite foldl_app. cbn [foldl]. destruct (decide (name = fst nc)) as [->|Hne].
  - exists nc. rewrite lookup_insert_eq. split; [|done]. apply elem_of_app. right. by left.
  - rewrite lookup_insert_ne by done.
    rewrite map_app in Hn. apply elem_of_app in Hn as [Hn|Hn]; [|by apply list_elem_of_singleton in Hn].
    destruct (IH m name Hn) as (x & Hx & E). exists x. split; [|done]. apply elem_of_app. by left.
Qed.

(** a full table is not reported.  The sampling stops counting at 20000
    entries, so that the share shown of any sampled map with more than 25000
    places (the black list, the rate, trust and connection tables have 100000)
    stays below the threshold of the warning, however full it is. *)
Theorem full_map_never_warns now_ns s stats info :
  MapInfo.name info ∈ map fst (sampled s) -> 25000 < MapInfo.max_entries info ->
  (MapUsage.ratio (map_usage (sync_map_entries now_ns s stats) info) < warn_threshold)%Q.
Proof.
  intros Hn Hmax. unfold map_usage. cbn [MapUsage.ratio].
  destruct (inserted_all (sampled s) (Stats.map_entries stats) _ Hn) as (nc & Hin & E).
  change (Stats.map_entries (sync_map_entries now_ns s stats)) with
    (foldl (fun m nc => <[fst nc := snd nc]> m) (Stats.map_entries stats) (sampled s)).
  rewrite E. cbn [default].
  apply sampled_cap in Hin. rewrite (proj2 (Z.gtb_lt _ _)) by lia.
  unfold Qlt, CAP in *. cbn. rewrite Z2Pos.id by lia. lia.
Qed.

(** blocked sources are in no class of the distribution.  A source the
    packet program blocks gets the score 0, which is the class "malicious", but
    its entry carries the class 0, which [sync_trust_scores] counts nowhere. *)
Theorem blocked_not_counted {KL : KernelLaws} src now_ns d reason s :
  exists e, lru_get (TRUST_MAP (snd (add_to_blacklist src now_ns d reason s))) src = Some e /\
    trust_level (TrustEntry.trust_score e) = 4 /\ TrustEntry.level e = 0.
Proof.
  unfold add_to_blacklist, bump_blacklist_gen, bind, gets, modify, with_stats, TRUST_MAP_insert, BLACKLIST_insert, modify.
  cbn. rewrite lru_get_insert_eq. eexists. split; [reflexivity|]. done.
Qed.
End Occupancy.

(** *** The histogram *)
Definition record_all (samples : list Z) (stats : Stats.t) : Stats.t :=
  foldl (fun stats us => record_process_time_us us stats) stats samples.

Definition at_most (b : Z) (samples : list Z) : Z := Z.of_nat (length (filter (fun us => us <= b) samples)).

Lemma wrapping_add_small w a b : 0 <= a + b < 2 ^ w -> wrapping_add w a b = a + b.
Proof. apply wrap_small. Qed.

Lemma at_most_snoc b samples us :
  at_most b (samples ++ [us]) = at_most b samples + if us <=? b then 1 else 0.
Proof.
  unfold at_most. rewrite list.filter_app, length_app, filter_cons, filter_nil.
  destruct (Z.leb_spec us b); [rewrite decide_True by done|rewrite decide_False by lia]; cbn; lia.
Qed.

(** The buckets of a histogram of [samples]. *)
Definition buckets_of (samples : list Z) (hist : list Z) : Prop :=
  exists a b c d e f, hist = [a; b; c; d; e; f] /\
    0 <= a /\ 0 <= b /\ 0 <= c /\ 0 <= d /\ 0 <= e /\ 0 <= f /\
    a = at_most 1000 samples /\ a + b = at_most 5000 samples /\ a + b + c = at_most 10000 samples /\
    a + b + c + d = at_most 50000 samples /\ a + b + c + d + e = at_most 100000 samples /\
    a + b + c + d + e + f = Z.of_nat (length samples).

Lemma buckets_of_snoc samples us hist :
  buckets_of samples hist -> Z.of_nat (length (samples ++ [us])) < 2 ^ 64 ->
  buckets_of (samples ++ [us]) (alter (fun n => wrapping_add 64 n 1) (bucket_of us hist_bounds) hist).
Proof.
  intros (a & b & c & d & e & f & -> & H) Hlen. rewrite length_app in Hlen. cbn [length] in Hlen.
  unfold buckets_of. rewrite !at_most_snoc, length_app. cbn [length hist_bounds bucket_of].
  destruct (Z.leb_spec us 1000), (Z.leb_spec us 5000), (Z.leb_spec us 10000), (Z.leb_spec us 50000),
    (Z.leb_spec us 100000); try lia; cbn [alter list_alter];
    do 6 eexists; (split; [reflexivity|]); rewrite ?wrapping_add_small by lia; lia.
Qed.

(** the histogram of [/metrics] is the distribution of the samples.  After
    any durations have been recorded since the start, the line with the bound
    [b] is the number of durations of at most [b] microseconds, and the last
    line is the number of all of them. *)
Theorem histogram_counts samples :
  Z.of_nat (length samples) < 2 ^ 64 ->
  histogram (record_all samples Stats_default)
  = map (fun b => at_most b samples) hist_bounds ++ [Z.of_nat (length samples)].
Proof.
  intros Hlen. assert (Hb : buckets_of samples (Stats.process_hist (record_all samples Stats_default))).
  { induction samples as [|us samples IH] using rev_ind.
    - exists 0, 0, 0, 0, 0, 0. by vm_compute.
    - unfold record_all. rewrite foldl_app. apply buckets_of_snoc; [|done].
      apply IH. rewrite length_app in Hlen. lia. }
  destruct Hb as (a & b & c & d & e & f & E & H). unfold histogram. rewrite E.
  cbn [cumulated map hist_bounds app]. rewrite !wrapping_add_small by lia.
  repeat f_equal; lia.
Qed.

(** ** Concrete runs *)
Module MetricsWitness.
Import Samples MapSamples.

Definition counted (packets dropped : Z) : GlobalStats.t :=
  GlobalStats_default <| GlobalStats.total_packets := packets |> <| GlobalStats.total_dropped := dropped |>.
Definition readings : list (option (list GlobalStats.t)) :=
  [Some [counted 10 1; counted 5 0]; Some [counted 30 4; counted 5 0]; Some [counted 31 4; counted 9 2]].

Lemma rates_account_witness :
  map fst (fst (ticks readings (global_sync_start, Stats_default))) = [15; 20; 5] /\
  GlobalSync.last_packets (fst (snd (ticks readings (global_sync_start, Stats_default)))) = 40.
Proof.
  assert (Hg : growing (GlobalSync.last_packets global_sync_start) (GlobalSync.last_dropped global_sync_start) readings)
    by (cbn [growing readings]; split_and!; try done; vm_compute; congruence).
  destruct (ticks readings (global_sync_start, Stats_default)) as [rates [sync stats]] eqn:E.
  destruct (rates_account readings _ _ rates sync stats Hg E) as (H & _ & _).
  assert (Hr : map fst rates = [15; 20; 5]) by (vm_compute in E; by injection E as <- _ _).
  split; [exact Hr|]. cbn [fst snd]. rewrite H, Hr. reflexivity.
Defined.

Lemma failed_read_bursts_witness :
  map snd (fst (ticks [None; Some [counted 900 700]] (GlobalSync.mk 800 650, Stats_default))) = [0; 700].
Proof. apply (failed_read_bursts [counted 900 700]); vm_compute; congruence. Defined.

Definition ports_seen : Stats.t := Stats_default <| Stats.port_dropped := {[ 80 := 7; 22 := 9 ]} |>.

Lemma top_ports_largest_witness : (80, 7) ∈ StatsResponse.top_ports (stats_snapshot ports_seen).
Proof.
  assert (Hp : Stats.port_dropped ports_seen !! 80 = Some 7) by (vm_compute; reflexivity).
  destruct (top_ports_largest ports_seen 80 7 Hp) as (_ & [H|[H _]]); [exact H|]. vm_compute in H. done.
Defined.

Definition trust_info : MapInfo.t := MapInfo.mk "TRUST_MAP" "LruHash" 100000.

Lemma full_map_never_warns_witness :
  (MapUsage.ratio (map_usage (sync_map_entries 5 (state []) Stats_default) trust_info) < warn_threshold)%Q.
Proof.
  apply full_map_never_warns; [|reflexivity]. apply (bool_decide_eq_true_1 _). vm_compute. reflexivity.
Defined.

Lemma blocked_not_counted_witness :
  (lru_get (TRUST_MAP (snd (add_to_blacklist alice 1 0 rules.UDP_FLOOD (state [])))) alice) = Some (TrustEntry.mk 1 0 0 0 0).
Proof.
  destruct (blocked_not_counted (KL := kernel_laws) alice 1 0 rules.UDP_FLOOD (state [])) as (e & E & _ & _).
  rewrite E. vm_compute in E. by injection E as <-.
Defined.

Lemma histogram_counts_witness :
  histogram (record_all [1000; 1001; 700; 200000] Stats_default) = [2; 3; 3; 3; 3; 4].
Proof. rewrite histogram_counts by (vm_compute; reflexivity). vm_compute. reflexivity. Defined.
End MetricsWitness.
