(* ===== verification/Exposition.v ===== *)
(** * Exposition: the page /metrics in Prometheus' text format

    [metrics_handler] of [eshield/src/web.rs].  The page is a sequence of lines,
    [metrics_items], and [metrics_text] is their text; a reader of the format
    ([scrape]) gets back the numbers of the statistics.  The atomic counters are
    read at one moment. *)
From Stdlib Require Import Ascii SpecFloat.
From stdpp Require Import strings gmap pretty.
From S2P Require Import Prelude Words Common Pure RustStd Ranking IpText Danger TimeSeries AgentMaps Metrics.
#[local] Open Scope Z_scope.

(** ** The text format *)
Definition quote_char : ascii := of_code 34.
Definition backslash_char : ascii := of_code 92.
Definition quote : string := String quote_char EmptyString.

(** *** [{:.4}] of an [f64]: the exact value, a tie to the even digit *)
Definition round_half_even (n d : Z) : Z :=
  let q := n / d in
  let r := n mod d in
  if (2 * r >? d) || ((2 * r =? d) && Z.odd q) then q + 1 else q.

(** The value in ten thousandths. *)
Definition ten_thousandths (m : positive) (e : Z) : Z :=
  round_half_even (Zpos m * 10000 * 2 ^ Z.max e 0) (2 ^ Z.max (- e) 0).

Definition print_fraction (n : Z) : string :=
  String (digit_char (n / 1000 mod 10)) (String (digit_char (n / 100 mod 10))
    (String (digit_char (n / 10 mod 10)) (String (digit_char (n mod 10)) EmptyString))).

Definition print_fixed4 (x : f64) : string :=
  match x with
  | S754_zero s => (if s then "-" else "") +:+ "0.0000"
  | S754_finite s m e =>
      let n := ten_thousandths m e in
      (if s then "-" else "") +:+ print_u64 (n / 10000) +:+ "." +:+ print_fraction (n mod 10000)
  | S754_infinity s => (if s then "-" else "") +:+ "inf"
  | S754_nan => "NaN"
  end%string.

(** *** Lines *)
Module Sample.
Record t := mk {
  name : string;
  labels : list (string * string);
  value : string;
}.
End Sample.

Inductive Item :=
  | Blank
  (** the HELP and the TYPE line of a metric *)
  | Family (name help kind : string)
  | Line (sample : Sample.t).

Definition label_text (l : string * string) : string := (fst l +:+ "=" +:+ quote +:+ snd l +:+ quote)%string.

Definition sample_text (s : Sample.t) : string :=
  (Sample.name s +:+ "{" +:+ joined "," (map label_text (Sample.labels s)) +:+ "} " +:+ Sample.value s)%string.

Definition item_lines (i : Item) : list string :=
  match i with
  | Blank => [""]
  | Family name help kind => ["# HELP " +:+ name +:+ " " +:+ help; "# TYPE " +:+ name +:+ " " +:+ kind]
  | Line s => [sample_text s]
  end%string.

(** Every line ends with a line feed. *)
Fixpoint text_of_lines (ls : list string) : string :=
  match ls with
  | [] => EmptyString
  | l :: ls => l +:+ newline +:+ text_of_lines ls
  end.

(** ** The page *)

(** The counters with a metric of their own: name, help and value. *)
Definition counters (stats : Stats.t) : list (string * string * Z) :=
  [("eshield_dropped_total", "Total dropped packets", Stats.total_dropped stats);
   ("eshield_passed_total", "Total passed packets", Stats.total_passed stats);
   ("eshield_blacklist_blocked_total", "Blacklist blocked packets", Stats.blacklist_blocked stats);
   ("eshield_rate_limited_total", "Rate limited packets", Stats.rate_limited stats);
   ("eshield_syn_flood_blocked_total", "SYN flood blocked packets", Stats.syn_flood_blocked stats);
   ("eshield_l7_blocked_total", "L7 scan blocked packets", Stats.l7_blocked stats);
   ("eshield_adaptive_blocked_total", "Adaptive threshold blocked packets", Stats.adaptive_blocked stats);
   ("eshield_udp_flood_blocked_total", "UDP flood blocked packets", Stats.udp_flood_blocked stats);
   ("eshield_icmp_flood_blocked_total", "ICMP flood blocked packets", Stats.icmp_flood_blocked stats);
   ("eshield_geoip_blocked_total", "GeoIP blocked packets", Stats.geoip_blocked stats);
   ("eshield_conn_track_blocked_total", "Connection-track blocked packets", Stats.conn_track_blocked stats)]%string.

Definition by_protocol (stats : Stats.t) : list (string * Z) :=
  [("tcp", Stats.tcp_dropped stats); ("udp", Stats.udp_dropped stats);
   ("icmp", Stats.icmp_dropped stats); ("other", Stats.other_dropped stats)]%string.

Definition le_bounds : list string := ["1000"; "5000"; "10000"; "50000"; "100000"; "+Inf"]%string.

Definition COUNTED_MAPS : list string :=
  ["BLACKLIST"; "RATE_MAP"; "PORT_RATE_MAP"; "TRUST_MAP"; "CONN_TRACK"; "SYN_PROXY_CONN";
   "TOP_ATTACKERS"; "PROJECT_POLICY"]%string.

Definition entries_of (stats : Stats.t) (map_name : string) : Z := default 0 (Stats.map_entries stats !! map_name).

Section Page.
Context {HO : HashOrder}.
Variables (interface fragment_policy : string) (stats : Stats.t) (map_infos : list MapInfo.t).

(** A line of this interface. *)
Definition line (name : string) (labels : list (string * string)) (value : string) : Item :=
  Line (Sample.mk name (("interface"%string, interface) :: labels) value).
Definition number (name : string) (labels : list (string * string)) (n : Z) : Item :=
  line name labels (print_u64 n).

Definition counter_items : list Item :=
  flat_map (fun c => let '(name, help, n) := c in [Family name help "counter"; number name [] n; Blank])
    (counters stats).

Definition protocol_items : list Item :=
  Family "eshield_dropped_by_protocol_total" "Dropped packets by IP protocol" "counter" ::
  map (fun p => number "eshield_dropped_by_protocol_total" [("protocol"%string, fst p)] (snd p)) (by_protocol stats).

Definition attacker_items : list Item :=
  flat_map (fun a =>
      [Blank; Family "eshield_source_dropped_total" "Dropped packets per source IP" "counter";
       number "eshield_source_dropped_total" [("ip"%string, fst a)] (snd a)])
    (StatsResponse.top_attackers (stats_snapshot stats)).

Definition port_items : list Item :=
  match top snd 10 (ports stats) with
  | [] => []
  | ports =>
      Blank :: Family "eshield_dropped_by_port_total" "Dropped packets by destination port" "counter" ::
      map (fun p => number "eshield_dropped_by_port_total" [("port"%string, print_u64 (fst p))] (snd p)) ports
  end.

Definition histogram_items : list Item :=
  let buckets := histogram stats in
  Blank :: Family "eshield_event_consumer_duration_us" "Event consumer batch processing duration histogram" "histogram" ::
  map (fun b => number "eshield_event_consumer_duration_us_bucket" [("le"%string, fst b)] (snd b))
    (zip le_bounds buckets) ++
  [number "eshield_event_consumer_duration_us_sum" [] 0;
   number "eshield_event_consumer_duration_us_count" [] (List.last buckets 0)].

Definition policy_items : list Item :=
  [Blank; Family "eshield_fragment_blocked_total" "Fragments blocked by fragment policy" "counter";
   number "eshield_fragment_blocked_total" [("policy"%string, fragment_policy)] (Stats.fragment_blocked stats);
   Blank; Family "eshield_port_rate_blocked_total" "Port-aggregate rate-limit drops" "counter";
   number "eshield_port_rate_blocked_total" [] (Stats.port_rate_blocked stats)].

Definition max_entries_items : list Item :=
  Blank :: Family "eshield_map_max_entries" "eBPF map max entries" "gauge" ::
  map (fun i => number "eshield_map_max_entries"
      [("name"%string, MapInfo.name i); ("map_type"%string, MapInfo.map_type i)] (MapInfo.max_entries i)) map_infos.

Definition map_entries_items : list Item :=
  Blank :: Family "eshield_map_entries" "eBPF map current entries" "gauge" ::
  map (fun n => number "eshield_map_entries" [("name"%string, n)] (entries_of stats n)) COUNTED_MAPS.

Definition usage_line (i : MapInfo.t) : list Item :=
  if negb (existsb (String.eqb (MapInfo.name i)) COUNTED_MAPS) then []
  else
    let used := entries_of stats (MapInfo.name i) in
    if MapInfo.max_entries i =? 0 then []
    else [line "eshield_map_usage_ratio" [("name"%string, MapInfo.name i)]
            (print_fixed4 (fdiv (f64_of used) (f64_of (MapInfo.max_entries i))))].

Definition usage_items : list Item :=
  Blank :: Family "eshield_map_usage_ratio" "eBPF map usage ratio (entries / max_entries)" "gauge" ::
  flat_map usage_line map_infos.

Definition metrics_items : list Item :=
  counter_items ++ protocol_items ++ attacker_items ++ port_items ++ histogram_items ++ policy_items ++
  max_entries_items ++ map_entries_items ++ usage_items.

Definition metrics_text : string := text_of_lines (flat_map item_lines metrics_items).
End Page.

(** ** A reader of the format *)

(** A label value up to its closing quote, with the escapes of the format. *)
Fixpoint read_value (s : string) : option (string * string) :=
  match s with
  | EmptyString => None
  | String c s =>
      if Ascii.eqb c quote_char then Some (EmptyString, s)
      else if Ascii.eqb c backslash_char then
        match s with
        | String e s =>
            r ← read_value s;
            if Ascii.eqb e "n" then Some (String newline_char (fst r), snd r)
            else if Ascii.eqb e quote_char || Ascii.eqb e backslash_char then Some (String e (fst r), snd r)
            else None
        | EmptyString => None
        end
      else r ← read_value s; Some (String c (fst r), snd r)
  end.

(** One label and the separator behind it; the number bounds the labels. *)
Fixpoint read_labels (fuel : nat) (s : string) : option (list (string * string) * string) :=
  match fuel with
  | O => None
  | S fuel =>
      kv ← split_once "=" s;
      match snd kv with
      | String q s =>
          if Ascii.eqb q quote_char then
            v ← read_value s;
            match snd v with
            | String c s =>
                if Ascii.eqb c "," then
                  r ← read_labels fuel s; Some ((fst kv, fst v) :: fst r, snd r)
                else if Ascii.eqb c "}" then Some ([(fst kv, fst v)], s)
                else None
            | EmptyString => None
            end
          else None
      | EmptyString => None
      end
  end.

Definition read_sample (s : string) : option Sample.t :=
  nr ← split_once "{" s;
  lr ← read_labels (String.length s) (snd nr);
  match snd lr with
  | String c value => if Ascii.eqb c " " then Some (Sample.mk (fst nr) (fst lr) value) else None
  | EmptyString => None
  end.

(** Empty lines and comments carry no sample. *)
Definition read_line (s : string) : option (list Sample.t) :=
  match s with
  | EmptyString => Some []
  | String c _ => if Ascii.eqb c "#" then Some [] else sample ← read_sample s; Some [sample]
  end.

Fixpoint read_lines (ls : list string) : option (list Sample.t) :=
  match ls with
  | [] => Some []
  | l :: ls => a ← read_line l; b ← read_lines ls; Some (a ++ b)
  end.

Definition scrape (s : string) : option (list Sample.t) := read_lines (split newline_char s).

(** The metrics a page declares: the names of its TYPE lines. *)
Definition declares (l : string) : list string :=
  if String.prefix "# TYPE " l then
    match split_once " " (String.substring 7 (String.length l) l) with Some (n, _) => [n] | None => [] end
  else [].
Definition declared (s : string) : list string := flat_map declares (split newline_char s).

(** The numbers of a series: of the samples with this name and these labels. *)
Definition series (name : string) (labels : list (string * string)) (samples : list Sample.t) : list (option Z) :=
  map (fun s => parse_uint 64 (Sample.value s))
    (filter (fun s => Sample.name s = name /\ Sample.labels s = labels) samples).

(** ** Numbers *)
Lemma read_digits_parse w s : forall acc c v n, 0 <= acc ->
  read_digits 10 acc c s = (v, n, EmptyString) -> v < 2 ^ w -> parse_digits w acc s = Some v /\ acc <= v.
Proof.
  induction s as [|ch s IH]; intros acc c v n Ha; cbn [read_digits parse_digits]; [intros [= -> _] Hv; by split|].
  destruct (to_digit 10 ch) as [d|] eqn:Hd; [|done]. cbn [mbind option_bind].
  assert (0 <= d) by (revert Hd; unfold to_digit; repeat case_match; bool_to_prop; intros [= <-]; lia).
  intros Hr Hv. apply IH in Hr as [E Hle]; [|lia|done]. rewrite (proj2 (Z.ltb_lt _ _)) by lia. split; [done|lia].
Qed.

Lemma parse_print_u64 n : 0 <= n < 2 ^ 64 -> parse_uint 64 (print_u64 n) = Some n.
Proof.
  intros Hn. destruct (print_digits_read 19 10 n "" ltac:(lia)) as (ds & E & Hl & _ & Hd).
  { lia. }
  rewrite append_empty_r in E. unfold print_u64. rewrite E.
  specialize (Hd 0 0%nat EmptyString). rewrite append_empty_r in Hd. cbn [read_digits] in Hd.
  apply (read_digits_parse 64) in Hd as [Hp _]; [|lia|lia].
  assert (Hplus : avoids "+" ds = true).
  { rewrite <- E. by apply every_print_digits; [lia|..]. }
  destruct ds as [|c ds]; [cbn in Hl; lia|]. cbn in Hplus. apply andb_true_iff in Hplus as [Hc _].
  unfold parse_uint. apply negb_true_iff in Hc. by rewrite Hc, Hp.
Qed.

(** ** Reading a line *)

(** Characters of a metric or label name, and of a label value that needs no escape. *)
Definition name_char (c : ascii) : bool :=
  let n := code c in ((97 <=? n) && (n <=? 122)) || ((48 <=? n) && (n <=? 57)) || (n =? 95).
Definition clean_char (c : ascii) : bool :=
  negb (Ascii.eqb c quote_char) && negb (Ascii.eqb c backslash_char) && negb (Ascii.eqb c newline_char).
Abbreviation clean := (every clean_char).

Definition label_ok (l : string * string) : bool := every name_char (fst l) && clean (snd l).
Definition named (n : string) : bool := negb (String.eqb n "") && every name_char n.
Definition sample_ok (s : Sample.t) : bool :=
  named (Sample.name s) && negb (bool_decide (Sample.labels s = [])) && forallb label_ok (Sample.labels s) &&
  avoids newline_char (Sample.value s).
Definition item_ok (i : Item) : bool :=
  match i with
  | Blank => true
  | Family name help kind => named name && avoids newline_char help && avoids newline_char kind
  | Line s => sample_ok s
  end.

Lemma name_char_avoids x n : name_char x = false -> every name_char n = true -> avoids x n = true.
Proof.
  intros Hx. apply every_weaken. intros c Hc. apply negb_true_iff.
  destruct (Ascii.eqb_spec c x) as [->|]; [congruence|done].
Qed.

Lemma read_value_clean v rest : clean v = true -> read_value (v +:+ String quote_char rest) = Some (v, rest).
Proof.
  induction v as [|c v IH]; [done|]. rewrite append_cons. cbn [every read_value]. unfold clean_char at 1.
  intros [[[H1 H2]%andb_true_iff _]%andb_true_iff Hv]%andb_true_iff. apply negb_true_iff in H1, H2.
  by rewrite H1, H2, IH.
Qed.

Lemma label_text_append l s :
  label_text l +:+ s = fst l +:+ String "=" (String quote_char (snd l +:+ String quote_char s)).
Proof. unfold label_text, quote. by rewrite !append_assoc. Qed.

Lemma read_labels_text l ls rest fuel : forallb label_ok (l :: ls) = true -> (length ls < fuel)%nat ->
  read_labels fuel (joined "," (map label_text (l :: ls)) +:+ String "}" rest) = Some (l :: ls, rest).
Proof.
  revert l fuel. induction ls as [|l' ls IH]; intros l [|fuel] Hok Hf; [lia| |lia|].
  all: cbn [forallb] in Hok; apply andb_true_iff in Hok as [Hl Hls]; unfold label_ok in Hl;
    apply andb_true_iff in Hl as [Hk Hv]; apply (name_char_avoids "=") in Hk; [|done].
  - cbn [map joined]. rewrite label_text_append. cbn [read_labels]. rewrite split_once_append by done.
    cbn [mbind option_bind fst snd]. rewrite Ascii.eqb_refl, read_value_clean by done. by destruct l.
  - change (joined "," (map label_text (l :: l' :: ls))) with
      (label_text l +:+ "," +:+ joined "," (map label_text (l' :: ls))).
    rewrite !append_assoc, label_text_append. cbn [read_labels]. rewrite split_once_append by done.
    cbn [mbind option_bind fst snd]. rewrite Ascii.eqb_refl, read_value_clean by done.
    cbn [mbind option_bind fst snd]. rewrite append_cons. rewrite append_empty_l.
    cbn [Ascii.eqb Bool.eqb andb]. rewrite IH; [by destruct l|done|cbn in Hf; lia].
Qed.

Lemma label_text_length l : (1 <= String.length (label_text l))%nat.
Proof. unfold label_text. rewrite !length_append. cbn. lia. Qed.

Lemma joined_length ls : (length ls <= String.length (joined "," (map label_text ls)))%nat.
Proof.
  induction ls as [|l [|l' ls] IH]; [done| |].
  - cbn [map joined length]. apply label_text_length.
  - change (joined "," (map label_text (l :: l' :: ls))) with
      (label_text l +:+ "," +:+ joined "," (map label_text (l' :: ls))).
    rewrite !length_append. cbn [length] in *. pose proof (label_text_length l). cbn. cbn in IH. lia.
Qed.

Lemma sample_text_append s : sample_text s =
  Sample.name s +:+ String "{" (joined "," (map label_text (Sample.labels s)) +:+ String "}" (String " " (Sample.value s))).
Proof. unfold sample_text. by rewrite !append_cons, !append_empty_l. Qed.

Lemma read_sample_text s : sample_ok s = true -> read_sample (sample_text s) = Some s.
Proof.
  unfold sample_ok, named. intros [[[[_ Hn]%andb_true_iff Hne]%andb_true_iff Hl]%andb_true_iff _]%andb_true_iff.
  rewrite sample_text_append. unfold read_sample.
  rewrite split_once_append by (by apply (name_char_avoids "{")). cbn [mbind option_bind fst snd].
  destruct s as [n [|l ls] v]; [done|]. cbn [Sample.labels Sample.name Sample.value] in *.
  rewrite read_labels_text; [done|done|].
  rewrite !length_append. pose proof (joined_length (l :: ls)). cbn [length String.length] in *. rewrite length_append. lia.
Qed.

(** The samples of the lines. *)
Definition samples_of (items : list Item) : list Sample.t :=
  flat_map (fun i => match i with Line s => [s] | _ => [] end) items.

Lemma read_lines_app a b : read_lines (a ++ b) = (x ← read_lines a; y ← read_lines b; Some (x ++ y)).
Proof.
  induction a as [|l a IH]; cbn [app read_lines]; [by destruct (read_lines b)|]. rewrite IH.
  destruct (read_line l); [|done]. cbn [mbind option_bind]. destruct (read_lines a); [|done]. cbn [mbind option_bind].
  destruct (read_lines b); [|done]. cbn [mbind option_bind]. by rewrite app_assoc.
Qed.

Lemma named_head n s : named n = true -> exists c r, n +:+ s = String c r /\ name_char c = true.
Proof.
  unfold named. destruct n as [|c n]; [done|]. cbn. intros [Hc _]%andb_true_iff. exists c, (n +:+ s).
  by rewrite append_cons.
Qed.

Lemma read_item_lines i : item_ok i = true -> read_lines (item_lines i) = Some (samples_of [i]).
Proof.
  destruct i as [|n h k|s]; [done..|]. intros Hok. cbn [item_lines read_lines].
  assert (E : read_line (sample_text s) = Some [s]).
  { pose proof (read_sample_text s Hok) as Hs. cbn [item_ok] in Hok. unfold sample_ok in Hok.
    apply andb_true_iff in Hok as [[[Hn _]%andb_true_iff _]%andb_true_iff _].
    rewrite sample_text_append in *. revert Hs.
    destruct (named_head (Sample.name s) (String "{" (joined "," (map label_text (Sample.labels s)) +:+
      String "}" (String " " (Sample.value s)))) Hn) as (c & r & -> & Hc). intros Hs. cbn [read_line].
    destruct (Ascii.eqb_spec c "#") as [->|]; [done|]. by rewrite Hs. }
  by rewrite E.
Qed.

Lemma read_all_items items : forallb item_ok items = true ->
  read_lines (flat_map item_lines items) = Some (samples_of items).
Proof.
  induction items as [|i items IH]; [done|]. cbn [forallb flat_map]. intros [Hi Hs]%andb_true_iff.
  rewrite read_lines_app, read_item_lines, IH by done. cbn [mbind option_bind]. unfold samples_of.
  cbn [flat_map]. by rewrite app_nil_r.
Qed.

Lemma split_text_of_lines ls : Forall (fun l => avoids newline_char l = true) ls ->
  split newline_char (text_of_lines ls) = ls ++ [""%string].
Proof.
  induction 1 as [|l ls Hl _ IH]; [done|]. cbn [text_of_lines app]. unfold newline.
  by rewrite append_cons, append_empty_l, split_append, IH.
Qed.

Lemma clean_no_newline s : clean s = true -> avoids newline_char s = true.
Proof. apply every_weaken. unfold clean_char. intros c [_ H]%andb_true_iff. done. Qed.

Lemma label_no_newline l : label_ok l = true -> avoids newline_char (label_text l) = true.
Proof.
  unfold label_ok. intros [Hk Hv]%andb_true_iff. apply (name_char_avoids newline_char) in Hk; [|done].
  apply clean_no_newline in Hv. unfold label_text. by rewrite !every_append, Hk, Hv.
Qed.

Lemma item_no_newline i : item_ok i = true -> Forall (fun l => avoids newline_char l = true) (item_lines i).
Proof.
  destruct i as [|n h k|s]; cbn [item_ok item_lines].
  - by repeat constructor.
  - unfold named. intros [[[_ Hn]%andb_true_iff Hh]%andb_true_iff Hk]%andb_true_iff.
    apply (name_char_avoids newline_char) in Hn; [|done].
    repeat constructor; by rewrite !every_append, Hn, ?Hh, ?Hk.
  - unfold sample_ok, named. intros [[[[_ Hn]%andb_true_iff _]%andb_true_iff Hl]%andb_true_iff Hv]%andb_true_iff.
    apply (name_char_avoids newline_char) in Hn; [|done]. repeat constructor. unfold sample_text.
    rewrite !every_append, Hn, Hv, every_joined; [done|done|].
    apply List.Forall_map, list.Forall_forall. intros l Hin. apply label_no_newline.
    by apply (proj1 (forallb_forall _ _) Hl), list_elem_of_In.
Qed.

Lemma items_no_newline items : forallb item_ok items = true ->
  Forall (fun l => avoids newline_char l = true) (flat_map item_lines items).
Proof.
  induction items as [|i items IH]; [by constructor|]. cbn [forallb flat_map]. intros [Hi Hs]%andb_true_iff.
  apply list.Forall_app. split; [by apply item_no_newline|by apply IH].
Qed.

(** A page of good lines reads back. *)
Lemma scrape_items items : forallb item_ok items = true ->
  scrape (text_of_lines (flat_map item_lines items)) = Some (samples_of items).
Proof.
  intros Hok. unfold scrape. rewrite split_text_of_lines by (by apply items_no_newline).
  rewrite read_lines_app, read_all_items by done. cbn. by rewrite app_nil_r.
Qed.

(** The metrics a page of good lines declares. *)
Definition families (items : list Item) : list string :=
  flat_map (fun i => match i with Family name _ _ => [name] | _ => [] end) items.

Lemma substring_append_l a b n : (String.length b <= n)%nat ->
  String.substring (String.length a) n (a +:+ b) = b.
Proof.
  induction a as [|c a IH]; [|by rewrite append_cons; cbn; apply IH].
  rewrite append_empty_l. cbn [String.length]. revert n.
  induction b as [|c b IH]; intros [|n] Hn; cbn in *; try done; try lia. by rewrite IH by lia.
Qed.

Lemma declares_type n k : every name_char n = true -> declares ("# TYPE " +:+ n +:+ " " +:+ k) = [n].
Proof.
  intros Hn. unfold declares.
  assert (Hp : String.prefix "# TYPE " ("# TYPE " +:+ n +:+ " " +:+ k) = true) by (cbn; by destruct (n +:+ _)).
  rewrite Hp. change 7%nat with (String.length "# TYPE "). rewrite substring_append_l by (rewrite !length_append; lia).
  rewrite append_cons, append_empty_l, split_once_append; [done|]. by apply name_char_avoids.
Qed.

Lemma declares_item i : item_ok i = true -> flat_map declares (item_lines i) = families [i].
Proof.
  destruct i as [|n h k|s]; [done|..]; cbn [item_ok item_lines flat_map families].
  - unfold named. intros [[[_ Hn]%andb_true_iff _]%andb_true_iff _]%andb_true_iff. by rewrite declares_type by done.
  - unfold sample_ok. intros [[[Hn _]%andb_true_iff _]%andb_true_iff _]%andb_true_iff. rewrite sample_text_append.
    destruct (named_head (Sample.name s) (String "{" (joined "," (map label_text (Sample.labels s)) +:+
      String "}" (String " " (Sample.value s)))) Hn) as (c & r & -> & Hc). unfold declares. cbn [String.prefix].
    destruct (ascii_dec "#" c) as [<-|]; [done|done].
Qed.

Lemma declared_items items : forallb item_ok items = true ->
  declared (text_of_lines (flat_map item_lines items)) = families items.
Proof.
  intros Hok. unfold declared. rewrite split_text_of_lines by (by apply items_no_newline).
  rewrite flat_map_app. cbn [flat_map declares String.prefix app]. rewrite app_nil_r.
  induction items as [|i items IH]; [done|]. cbn [forallb flat_map] in *. apply andb_true_iff in Hok as [Hi Hs].
  rewrite flat_map_app, declares_item, IH by done. unfold families. cbn [flat_map]. by rewrite app_nil_r.
Qed.

(** ** The lines of the page *)
Lemma print_u64_no_newline n : avoids newline_char (print_u64 n) = true.
Proof. by apply every_print_digits; [lia|..]. Qed.

Lemma print_u64_clean n : clean (print_u64 n) = true.
Proof. by apply every_print_digits; [lia|..]. Qed.

Lemma print_fixed4_no_newline x : avoids newline_char (print_fixed4 x) = true.
Proof.
  assert (Hd : forall n, negb (Ascii.eqb (digit_char (n mod 10)) newline_char) = true).
  { intros n. pose proof (Z.mod_pos_bound n 10). by apply (every_digit (not_char newline_char)); [lia|]. }
  destruct x as [[]|[]| |s m e]; try reflexivity. cbn [print_fixed4].
  rewrite !every_append, print_u64_no_newline. unfold print_fraction. cbn [every]. rewrite !Hd. by destruct s.
Qed.

Lemma line_ok interface n ls v : clean interface = true -> named n = true -> forallb label_ok ls = true ->
  avoids newline_char v = true -> item_ok (line interface n ls v) = true.
Proof.
  intros Hi Hn Hl Hv. cbn [item_ok line]. unfold sample_ok. cbn [Sample.name Sample.labels Sample.value forallb].
  rewrite Hn, Hl, Hv. unfold label_ok. cbn [fst snd]. by rewrite Hi.
Qed.

Lemma number_ok interface n ls v : clean interface = true -> named n = true -> forallb label_ok ls = true ->
  item_ok (number interface n ls v) = true.
Proof. intros. by apply line_ok, print_u64_no_newline. Qed.

Lemma forallb_map_all {A} (f : A -> Item) xs : (forall x, x ∈ xs -> item_ok (f x) = true) ->
  forallb item_ok (map f xs) = true.
Proof.
  intros H. apply forallb_forall. intros i Hi. apply in_map_iff in Hi as (x & <- & Hx).
  by apply H, list_elem_of_In.
Qed.

Lemma forallb_flat_map_all {A} (f : A -> list Item) xs : (forall x, x ∈ xs -> forallb item_ok (f x) = true) ->
  forallb item_ok (flat_map f xs) = true.
Proof.
  intros H. apply forallb_forall. intros i Hi. apply in_flat_map in Hi as (x & Hx & Hi).
  apply list_elem_of_In in Hx. by apply (proj1 (forallb_forall _ _) (H x Hx)).
Qed.

(** What identifies a series. *)
Definition ids (items : list Item) : list (string * list (string * string)) :=
  map (fun s => (Sample.name s, Sample.labels s)) (samples_of items).
Definition names_in (names : list string) (items : list Item) : Prop :=
  Forall (fun s => Sample.name s ∈ names) (samples_of items).

Lemma samples_of_app a b : samples_of (a ++ b) = samples_of a ++ samples_of b.
Proof. apply flat_map_app. Qed.

Lemma nodup_blocks (blocks : list (list Item * list string)) :
  Forall (fun b => NoDup (ids (fst b)) /\ names_in (snd b) (fst b)) blocks ->
  NoDup (concat (map snd blocks)) -> NoDup (ids (concat (map fst blocks))).
Proof.
  induction 1 as [|[items names] blocks [Hi Hn] Hbs IH]; [constructor|]. cbn [map concat fst snd] in *.
  intros (Hnd & Hdis & Hrest)%list.NoDup_app. unfold ids. rewrite samples_of_app, map_app. apply list.NoDup_app.
  split; [done|]. split; [|by apply IH].
  intros id (s & -> & Hs)%list_elem_of_fmap (s' & E & Hs')%list_elem_of_fmap.
  injection E as En _. unfold names_in in Hn. rewrite list.Forall_forall in Hn. apply Hn in Hs.
  apply (Hdis (Sample.name s) Hs). rewrite En. clear -Hbs Hs'. revert Hs'.
  induction Hbs as [|[items' names'] blocks [_ Hn'] _ IH]; cbn [map concat fst snd]; [by intros ?%not_elem_of_nil|].
  rewrite samples_of_app. unfold names_in in Hn'. cbn [fst snd] in Hn'. rewrite list.Forall_forall in Hn'.
  intros [H|H]%elem_of_app; apply elem_of_app; [left|right]; auto.
Qed.

Section Blocks.
Variable interface : string.

Definition number_sample (name : string) (labels : list (string * string)) (n : Z) : Sample.t :=
  Sample.mk name (("interface"%string, interface) :: labels) (print_u64 n).

Lemma samples_of_numbers {A} name (lab : A -> list (string * string)) (val : A -> Z) xs :
  samples_of (map (fun x => number interface name (lab x) (val x)) xs) =
  map (fun x => number_sample name (lab x) (val x)) xs.
Proof. induction xs as [|x xs IH]; [done|]. cbn [map]. rewrite <- IH. done. Qed.

Lemma block_numbers {A} name (lab : A -> list (string * string)) (val : A -> Z) xs items :
  samples_of items = map (fun x => number_sample name (lab x) (val x)) xs -> NoDup (map lab xs) ->
  NoDup (ids items) /\ names_in [name] items.
Proof.
  intros E Hnd. unfold ids, names_in. rewrite E, map_map. split.
  - cbn. rewrite <- (map_map lab (fun l => (name, ("interface"%string, interface) :: l))).
    apply NoDup_fmap_2; [|done]. intros x y [= ->]. done.
  - apply List.Forall_map, list.Forall_forall. intros x _. by left.
Qed.

(** A series that is on the page once reads as its number. *)
Lemma series_number items name labels n :
  NoDup (ids items) -> number_sample name labels n ∈ samples_of items -> 0 <= n < 2 ^ 64 ->
  series name (("interface"%string, interface) :: labels) (samples_of items) = [Some n].
Proof.
  intros Hnd Hin Hn. unfold series. unfold ids in Hnd. revert Hnd Hin. generalize (samples_of items).
  intros samples. induction samples as [|s samples IH]; [by intros _ ?%not_elem_of_nil|].
  cbn [map]. intros [Hs Hnd]%list.NoDup_cons Hin. rewrite filter_cons. apply elem_of_cons in Hin as [<-|Hin].
  - rewrite decide_True by done. rewrite filter_none.
    + cbn [map Sample.value number_sample]. by rewrite parse_print_u64.
    + apply list.Forall_forall. intros s Hin [E1 E2]. apply Hs. cbn. rewrite <- E1, <- E2.
      by apply (list_elem_of_fmap_2 (fun s => (Sample.name s, Sample.labels s))).
  - rewrite decide_False; [by apply IH|]. intros [E1 E2]. apply Hs. rewrite E1, E2.
    by apply (list_elem_of_fmap_2 (fun s => (Sample.name s, Sample.labels s)) _ (number_sample name labels n)).
Qed.
End Blocks.

(** ** The whole page *)
Lemma top_nodup {A B} (key : A -> Z) (f : A -> B) n l : NoDup (map f l) -> NoDup (map f (top key n l)).
Proof.
  intros H. destruct (top_spec key n l) as (rest & Hp & _). apply (Permutation_map f) in Hp.
  rewrite <- Hp, map_app in H. by apply list.NoDup_app in H as (? & _).
Qed.

Lemma print_u64_inj a b : 0 <= a < 2 ^ 64 -> 0 <= b < 2 ^ 64 -> print_u64 a = print_u64 b -> a = b.
Proof.
  intros Ha Hb E. apply (f_equal (parse_uint 64)) in E. rewrite !parse_print_u64 in E by done. congruence.
Qed.

Lemma nodup_names items : NoDup (map Sample.name (samples_of items)) -> NoDup (ids items).
Proof.
  intros H. apply (NoDup_fmap_1 fst). change (fst <$> ids items) with (map fst (ids items)).
  unfold ids. rewrite map_map. exact H.
Qed.

Section PageProps.
Context {HO : HashOrder} {HL : HashOrderLaws HO}.
Variables (interface fragment_policy : string) (stats : Stats.t) (map_infos : list MapInfo.t).

(** What the page is made of: texts that need no escape, maps with names of
    their own, attackers that are addresses and ports that are ports. *)
Record page_ok : Prop := {
  interface_clean : clean interface = true;
  policy_clean : clean fragment_policy = true;
  infos_clean : forall i, i ∈ map_infos -> clean (MapInfo.name i) = true /\ clean (MapInfo.map_type i) = true;
  infos_distinct : NoDup (map MapInfo.name map_infos);
  attackers_addresses : forall key, key ∈ dom (Stats.top_attackers stats) -> exists a, addr_key a key;
  ports_u16 : forall p, p ∈ dom (Stats.port_dropped stats) -> 0 <= p < 2 ^ 16;
}.

Abbreviation top_attackers := (top snd 20 (attackers stats)).
Abbreviation top_ports := (top snd 10 (ports stats)).
Abbreviation page := (metrics_items interface fragment_policy stats map_infos).

Lemma attackers_distinct : page_ok -> NoDup (map fst top_attackers).
Proof.
  intros P. apply top_nodup. unfold attackers. rewrite map_map. apply NoDup_fmap_2_strong.
  - intros x y Hx Hy E. cbn in E. apply elem_of_hash_list in Hx, Hy.
    destruct (attackers_addresses P x Hx) as [a Ha], (attackers_addresses P y Hy) as [b Hb].
    apply parse_ip_format in Ha, Hb. rewrite E, Hb in Ha. congruence.
  - rewrite hash_list_spec. apply NoDup_elements.
Qed.

Lemma attacker_clean : page_ok -> forall a, a ∈ top_attackers -> clean (fst a) = true.
Proof.
  intros P x Hx. destruct (top_spec snd 20 (attackers stats)) as (rest & Hp & _).
  assert (Hin : x ∈ attackers stats) by (rewrite <- Hp; apply elem_of_app; by left).
  apply list_elem_of_fmap in Hin as (key & -> & Hk). apply elem_of_hash_list in Hk.
  destruct (attackers_addresses P key Hk) as (a & Ha & ->). cbn [fst].
  rewrite format_key_of_addr by done. by apply every_print_ip_addr.
Qed.

Lemma ports_distinct : page_ok -> NoDup (map (fun p => print_u64 (fst p)) top_ports).
Proof.
  intros P. apply top_nodup. unfold ports. rewrite map_map. apply NoDup_fmap_2_strong.
  - intros x y Hx Hy. apply elem_of_hash_list in Hx, Hy. apply (ports_u16 P) in Hx, Hy.
    apply print_u64_inj; lia.
  - rewrite hash_list_spec. apply NoDup_elements.
Qed.

Lemma page_items_ok : page_ok -> forallb item_ok page = true.
Proof.
  intros P. pose proof (interface_clean P) as Hi. unfold metrics_items. rewrite !forallb_app, !andb_true_iff. split_and!.
  - apply forallb_flat_map_all. intros c Hc. unfold counters in Hc.
    repeat (apply elem_of_cons in Hc as [->|Hc]; [cbn [forallb]; by rewrite number_ok|]). by apply not_elem_of_nil in Hc.
  - cbn [protocol_items forallb]. apply forallb_map_all. intros p Hp. apply number_ok; [done..|]. unfold by_protocol in Hp.
    repeat (apply elem_of_cons in Hp as [->|Hp]; [done|]). by apply not_elem_of_nil in Hp.
  - apply forallb_flat_map_all. intros a Ha. cbn [forallb]. rewrite number_ok; [done..|].
    cbn. unfold label_ok. cbn. by rewrite (attacker_clean P).
  - unfold port_items. destruct top_ports as [|p ps]; [done|]. cbn [forallb andb item_ok].
    apply (forallb_map_all _ (p :: ps)). intros x _. apply number_ok; [done..|].
    cbn [forallb]. unfold label_ok. cbn [fst snd]. by rewrite print_u64_clean.
  - unfold histogram_items. cbn [forallb andb item_ok]. rewrite forallb_app, forallb_map_all.
    + cbn [forallb]. by rewrite !number_ok.
    + intros [le n] Hb. apply number_ok; [done..|]. apply elem_of_zip_l in Hb. cbn [fst]. unfold le_bounds in Hb.
      repeat (apply elem_of_cons in Hb as [->|Hb]; [done|]). by apply not_elem_of_nil in Hb.
  - unfold policy_items. cbn [forallb]. rewrite !number_ok; [done..|]. cbn. unfold label_ok. cbn. by rewrite (policy_clean P).
  - unfold max_entries_items. cbn [forallb andb item_ok]. apply forallb_map_all. intros i Hin. apply number_ok; [done..|].
    destruct (infos_clean P i Hin) as [H1 H2]. cbn [forallb]. unfold label_ok. cbn [fst snd]. by rewrite H1, H2.
  - unfold map_entries_items. cbn [forallb andb item_ok]. apply forallb_map_all. intros n Hn. apply number_ok; [done..|].
    unfold COUNTED_MAPS in Hn. repeat (apply elem_of_cons in Hn as [->|Hn]; [done|]). by apply not_elem_of_nil in Hn.
  - unfold usage_items. cbn [forallb andb item_ok]. apply forallb_flat_map_all. intros i Hin. unfold usage_line.
    destruct (negb _); [done|]. destruct (_ =? 0); [done|]. cbn [forallb]. rewrite line_ok; [done..| |apply print_fixed4_no_newline].
    destruct (infos_clean P i Hin) as [H1 _]. cbn [forallb]. unfold label_ok. cbn [fst snd]. by rewrite H1.
Qed.

(** Every series is on the page once. *)
Definition page_blocks : list (list Item * list string) :=
  [(counter_items interface stats, map (fun c => fst (fst c)) (counters stats));
   (protocol_items interface stats, ["eshield_dropped_by_protocol_total"%string]);
   (attacker_items interface stats, ["eshield_source_dropped_total"%string]);
   (port_items interface stats, ["eshield_dropped_by_port_total"%string]);
   (Blank :: Family "eshield_event_consumer_duration_us" "Event consumer batch processing duration histogram" "histogram" ::
      map (fun b => number interface "eshield_event_consumer_duration_us_bucket" [("le"%string, fst b)] (snd b))
        (zip le_bounds (histogram stats)), ["eshield_event_consumer_duration_us_bucket"%string]);
   ([number interface "eshield_event_consumer_duration_us_sum" [] 0;
     number interface "eshield_event_consumer_duration_us_count" [] (List.last (histogram stats) 0)],
    ["eshield_event_consumer_duration_us_sum"; "eshield_event_consumer_duration_us_count"]%string);
   (policy_items interface fragment_policy stats,
    ["eshield_fragment_blocked_total"; "eshield_port_rate_blocked_total"]%string);
   (max_entries_items interface map_infos, ["eshield_map_max_entries"%string]);
   (map_entries_items interface stats, ["eshield_map_entries"%string]);
   (usage_items interface stats map_infos, ["eshield_map_usage_ratio"%string])].

Lemma page_of_blocks : page = concat (map fst page_blocks).
Proof.
  unfold metrics_items, histogram_items. cbn [page_blocks map fst concat]. rewrite app_nil_r.
  do 4 f_equal. cbn [app]. by rewrite <- app_assoc.
Qed.

Lemma block_named items names : NoDup (map Sample.name (samples_of items)) ->
  map Sample.name (samples_of items) = names -> NoDup (ids items) /\ names_in names items.
Proof.
  intros Hnd <-. split; [by apply nodup_names|]. apply list.Forall_forall. intros s Hs.
  by apply (list_elem_of_fmap_2 Sample.name).
Qed.

Lemma samples_of_attackers l :
  samples_of (flat_map (fun a => [Blank; Family "eshield_source_dropped_total" "Dropped packets per source IP" "counter";
     number interface "eshield_source_dropped_total" [("ip"%string, fst a)] (snd a)]) l) =
  map (fun a => number_sample interface "eshield_source_dropped_total" [("ip"%string, fst a)] (snd a)) l.
Proof. induction l as [|a l IH]; [done|]. cbn [flat_map map]. by rewrite samples_of_app, IH. Qed.

Lemma samples_of_ports : samples_of (port_items interface stats) =
  map (fun p => number_sample interface "eshield_dropped_by_port_total" [("port"%string, print_u64 (fst p))] (snd p)) top_ports.
Proof. unfold port_items. destruct top_ports as [|p ps]; [done|]. exact (samples_of_numbers _ _ _ _ (p :: ps)). Qed.

Lemma zip_distinct {A B} (l : list A) (k : list B) : NoDup l -> NoDup (map fst (zip l k)).
Proof.
  intros H. revert k. induction H as [|x l Hx Hl IH]; intros [|y k]; cbn [zip zip_with map]; try constructor; [|apply IH].
  cbn [fst]. intros ([a b] & E & Hin)%list_elem_of_fmap. apply Hx. cbn in E. subst x. by apply elem_of_zip_l in Hin.
Qed.

Lemma usage_block l : NoDup (map MapInfo.name l) ->
  NoDup (ids (flat_map (usage_line interface stats) l)) /\
  names_in ["eshield_map_usage_ratio"%string] (flat_map (usage_line interface stats) l) /\
  forall s, s ∈ samples_of (flat_map (usage_line interface stats) l) ->
    exists i, i ∈ l /\ Sample.labels s = [("interface"%string, interface); ("name"%string, MapInfo.name i)].
Proof.
  induction l as [|i l IH]; cbn [map flat_map].
  { intros _. split; [constructor|]. split; [constructor|]. by intros s ?%not_elem_of_nil. }
  intros [Hi Hl]%list.NoDup_cons. destruct (IH Hl) as (Hnd & Hn & Hs). unfold usage_line at 1 3 5.
  destruct (negb _); [split_and!; [done..|]; intros s (i' & ? & ?)%Hs; exists i'; split; [by right|done]|].
  destruct (_ =? 0); [split_and!; [done..|]; intros s (i' & ? & ?)%Hs; exists i'; split; [by right|done]|].
  split_and!.
  - cbn [app]. unfold ids. cbn [samples_of flat_map line app map]. apply list.NoDup_cons. split; [|done].
    intros (s & E & Hin)%list_elem_of_fmap. destruct (Hs s Hin) as (i' & Hin' & El). apply Hi.
    injection E as _ E. rewrite El in E. injection E as ->. by apply (list_elem_of_fmap_2 MapInfo.name).
  - cbn. constructor; [by left|done].
  - cbn [app samples_of flat_map line]. intros s [->|Hin]%elem_of_cons; [exists i; split; [by left|done]|].
    destruct (Hs s Hin) as (i' & ? & ?). exists i'. split; [by right|done].
Qed.

Lemma labelled {A} (f : A -> string) (key : string) (xs : list A) :
  NoDup (map f xs) -> NoDup (map (fun x => [(key, f x)]) xs).
Proof.
  intros H. rewrite <- (map_map f (fun v => [(key, v)])). apply NoDup_fmap_2; [|done]. by intros x y [= ->].
Qed.

Lemma page_once : page_ok -> NoDup (ids page).
Proof.
  intros P. rewrite page_of_blocks. apply nodup_blocks; [|apply (bool_decide_eq_true_1 _); vm_compute; reflexivity].
  repeat (apply list.Forall_cons; split); [..|constructor]; cbn [fst snd].
  - apply block_named; [|done]. apply (bool_decide_eq_true_1 _). vm_compute. reflexivity.
  - apply (block_numbers interface _ _ _ _ _ (samples_of_numbers interface _ _ snd (by_protocol stats))).
    apply labelled. apply (bool_decide_eq_true_1 _). vm_compute. reflexivity.
  - apply (block_numbers interface _ _ _ _ _ (samples_of_attackers _)). by apply labelled, attackers_distinct.
  - apply (block_numbers interface _ _ _ _ _ samples_of_ports). by apply labelled, ports_distinct.
  - apply (block_numbers interface _ _ _ _ _ (samples_of_numbers interface _ _ snd (zip le_bounds (histogram stats)))).
    apply labelled, zip_distinct. apply (bool_decide_eq_true_1 _). vm_compute. reflexivity.
  - apply block_named; [|done]. apply (bool_decide_eq_true_1 _). vm_compute. reflexivity.
  - apply block_named; [|done]. apply (bool_decide_eq_true_1 _). vm_compute. reflexivity.
  - apply (block_numbers interface _ _ _ _ _ (samples_of_numbers interface _ _ MapInfo.max_entries map_infos)).
    apply (NoDup_fmap_1 (fun l => snd (List.hd (EmptyString, EmptyString) l))). pose proof (infos_distinct P) as H.
    change (NoDup (map (fun l => snd (List.hd (EmptyString, EmptyString) l))
      (map (fun i => [("name"%string, MapInfo.name i); ("map_type"%string, MapInfo.map_type i)]) map_infos))).
    by rewrite map_map.
  - apply (block_numbers interface _ _ _ _ _ (samples_of_numbers interface _ _ (entries_of stats) COUNTED_MAPS)).
    apply (labelled (fun x => x)). apply (bool_decide_eq_true_1 _). vm_compute. reflexivity.
  - destruct (usage_block map_infos (infos_distinct P)) as (H1 & H2 & _). by split.
Qed.

(** A number that is on the page, and its reading. *)
Definition reads (samples : list Sample.t) (name : string) (labels : list (string * string)) (n : Z) : Prop :=
  0 <= n < 2 ^ 64 -> series name (("interface"%string, interface) :: labels) samples = [Some n].

Lemma reads_number name labels n : page_ok -> number_sample interface name labels n ∈ samples_of page ->
  reads (samples_of page) name labels n.
Proof. intros P Hin Hn. apply series_number; [by apply page_once|done|done]. Qed.

Lemma listed {A} name (lab : A -> list (string * string)) (val : A -> Z) xs items x labels n :
  samples_of items = map (fun x => number_sample interface name (lab x) (val x)) xs -> x ∈ xs ->
  lab x = labels -> val x = n -> number_sample interface name labels n ∈ samples_of items.
Proof. intros -> Hx <- <-. by apply (list_elem_of_fmap_2 (fun x => number_sample interface name (lab x) (val x))). Qed.

Lemma counter_listed name help n : (name, help, n) ∈ counters stats ->
  number_sample interface name [] n ∈ samples_of (counter_items interface stats).
Proof.
  unfold counter_items. generalize (counters stats). intros l. induction l as [|[[a b] c] l IH]; [by intros ?%not_elem_of_nil|].
  cbn [flat_map]. rewrite samples_of_app, elem_of_app. intros [[= -> -> ->]|H]%elem_of_cons; [left; by left|right; by apply IH].
Qed.

(** *** What the metrics are meant to tell *)

(** The counters of [struct Stats] that have a metric, by the names of their fields. *)
Definition STATS_FIELDS : list (string * (Stats.t -> Z)) :=
  [("total_dropped", Stats.total_dropped); ("total_passed", Stats.total_passed);
   ("blacklist_blocked", Stats.blacklist_blocked); ("rate_limited", Stats.rate_limited);
   ("syn_flood_blocked", Stats.syn_flood_blocked); ("l7_blocked", Stats.l7_blocked);
   ("adaptive_blocked", Stats.adaptive_blocked); ("udp_flood_blocked", Stats.udp_flood_blocked);
   ("icmp_flood_blocked", Stats.icmp_flood_blocked); ("geoip_blocked", Stats.geoip_blocked);
   ("conn_track_blocked", Stats.conn_track_blocked); ("port_rate_blocked", Stats.port_rate_blocked)]%string.

(** A counter's metric is named after its field: [total_dropped] is
    [eshield_dropped_total], [rate_limited] is [eshield_rate_limited_total]. *)
Definition metric_name (field : string) : string :=
  ("eshield_" +:+ default field (str_strip_prefix "total_" field) +:+ "_total")%string.

Lemma field_on_page field get : (field, get) ∈ STATS_FIELDS ->
  number_sample interface (metric_name field) [] (get stats) ∈ samples_of page.
Proof.
  intros H. unfold metrics_items. rewrite !samples_of_app, !elem_of_app.
  assert (Hc : (metric_name field, get stats) ∈ map (fun c => (fst (fst c), snd c)) (counters stats) \/
               (field, get) = ("port_rate_blocked"%string, Stats.port_rate_blocked)).
  { unfold STATS_FIELDS in H. repeat (apply elem_of_cons in H as [[= -> ->]|H]; [|]); [..|by apply not_elem_of_nil in H];
      [left; apply list_elem_of_In; vm_compute; tauto..|by right]. }
  destruct Hc as [Hc|[= -> ->]].
  - apply list_elem_of_fmap in Hc as ([[name help] n] & [= -> ->] & Hin). left. by eapply counter_listed.
  - do 5 right. left. right. by left.
Qed.

Lemma protocol_read protocol n : page_ok -> (protocol, n) ∈ by_protocol stats ->
  reads (samples_of page) "eshield_dropped_by_protocol_total" [("protocol"%string, protocol)] n.
Proof.
  intros P H. apply reads_number; [done|]. unfold metrics_items. rewrite !samples_of_app, !elem_of_app. right. left.
  by eapply (listed _ (fun p => [("protocol"%string, fst p)]) snd); [exact (samples_of_numbers interface _ _ snd (by_protocol stats))|exact H|..].
Qed.

Lemma bucket_read le n : page_ok -> (le, n) ∈ zip le_bounds (histogram stats) ->
  reads (samples_of page) "eshield_event_consumer_duration_us_bucket" [("le"%string, le)] n.
Proof.
  intros P H. apply reads_number; [done|]. unfold metrics_items. rewrite !samples_of_app, !elem_of_app.
  do 4 right. left. unfold histogram_items. rewrite !app_comm_cons, samples_of_app, elem_of_app. left.
  by eapply (listed _ (fun b => [("le"%string, fst b)]) snd); [exact (samples_of_numbers interface _ _ snd (zip le_bounds (histogram stats)))|exact H|..].
Qed.

Lemma histogram_read us : page_ok -> Z.of_nat (length us) < 2 ^ 64 ->
  Stats.process_hist stats = Stats.process_hist (record_all us Stats_default) ->
  (forall b, b ∈ hist_bounds ->
     reads (samples_of page) "eshield_event_consumer_duration_us_bucket" [("le"%string, print_u64 b)] (at_most b us)) /\
  reads (samples_of page) "eshield_event_consumer_duration_us_bucket" [("le"%string, "+Inf"%string)] (Z.of_nat (length us)) /\
  reads (samples_of page) "eshield_event_consumer_duration_us_count" [] (Z.of_nat (length us)).
Proof.
  intros P Hl Hh. assert (E : histogram stats = map (fun b => at_most b us) hist_bounds ++ [Z.of_nat (length us)]).
  { rewrite <- histogram_counts by done. unfold histogram. by rewrite Hh. }
  split; [|split].
  - intros b Hb. apply bucket_read; [done|]. rewrite E. unfold hist_bounds in *. cbn [map app le_bounds zip zip_with].
    repeat (apply elem_of_cons in Hb as [->|Hb]; [repeat (first [by left|right])|]). by apply not_elem_of_nil in Hb.
  - apply bucket_read; [done|]. rewrite E. cbn [map app hist_bounds le_bounds zip zip_with]. repeat (first [by left|right]).
  - apply reads_number; [done|]. unfold metrics_items. rewrite !samples_of_app, !elem_of_app.
    do 4 right. left. unfold histogram_items. rewrite !app_comm_cons, samples_of_app, elem_of_app, E. right. right. by left.
Qed.

(** C38: the page of the metrics tells the numbers of the statistics.  A reader of
    the samples of Prometheus' text format, which skips the comment lines (HELP and
    TYPE are repeated for every attacker, which is a finding of its own), reads the
    page to its end, and finds no series twice.  Each counter is read under the name
    of its field, each protocol under its own; so are the twenty attackers and ten
    ports with the most drops, the capacity and the entries of the maps.  The
    histogram's line with bound [le] is read as the number of the durations recorded
    since the start that were at most [le] microseconds, its count as the number of
    all of them. *)
Theorem metrics_read_back : page_ok ->
  exists samples, scrape (metrics_text interface fragment_policy stats map_infos) = Some samples /\
    NoDup (map (fun s => (Sample.name s, Sample.labels s)) samples) /\
    (forall field get, (field, get) ∈ STATS_FIELDS -> reads samples (metric_name field) [] (get stats)) /\
    (let dropped protocol := reads samples "eshield_dropped_by_protocol_total" [("protocol"%string, protocol)] in
     dropped "tcp"%string (Stats.tcp_dropped stats) /\ dropped "udp"%string (Stats.udp_dropped stats) /\
     dropped "icmp"%string (Stats.icmp_dropped stats) /\ dropped "other"%string (Stats.other_dropped stats)) /\
    (forall ip n, (ip, n) ∈ top_attackers -> reads samples "eshield_source_dropped_total" [("ip"%string, ip)] n) /\
    (forall p n, (p, n) ∈ top_ports -> reads samples "eshield_dropped_by_port_total" [("port"%string, print_u64 p)] n) /\
    (forall us, Z.of_nat (length us) < 2 ^ 64 ->
       Stats.process_hist stats = Stats.process_hist (record_all us Stats_default) ->
       (forall b, b ∈ hist_bounds ->
          reads samples "eshield_event_consumer_duration_us_bucket" [("le"%string, print_u64 b)] (at_most b us)) /\
       reads samples "eshield_event_consumer_duration_us_bucket" [("le"%string, "+Inf"%string)] (Z.of_nat (length us)) /\
       reads samples "eshield_event_consumer_duration_us_count" [] (Z.of_nat (length us))) /\
    reads samples "eshield_fragment_blocked_total" [("policy"%string, fragment_policy)] (Stats.fragment_blocked stats) /\
    (forall i, i ∈ map_infos -> reads samples "eshield_map_max_entries"
       [("name"%string, MapInfo.name i); ("map_type"%string, MapInfo.map_type i)] (MapInfo.max_entries i)) /\
    (forall name, name ∈ COUNTED_MAPS ->
       reads samples "eshield_map_entries" [("name"%string, name)] (default 0 (Stats.map_entries stats !! name))).
Proof.
  intros P. exists (samples_of page). split; [by apply scrape_items, page_items_ok|]. split; [by apply page_once|].
  split; [intros field get H; by apply reads_number, field_on_page|].
  split; [split_and!; apply protocol_read; [done| |done| |done| |done|]; unfold by_protocol; rewrite !elem_of_cons; auto|].
  split; [|split; [|split; [by intros us; apply histogram_read|split_and!]]];
    intros; (apply reads_number; [done|]); unfold metrics_items; rewrite !samples_of_app, !elem_of_app.
  - do 2 right. left. by eapply (listed _ (fun a => [("ip"%string, fst a)]) snd); [exact (samples_of_attackers _)|exact H|..].
  - do 3 right. left. by eapply (listed _ (fun p => [("port"%string, print_u64 (fst p))]) snd); [exact samples_of_ports|exact H|..].
  - do 5 right. left. by left.
  - do 6 right. left. by eapply (listed _ (fun i => [("name"%string, MapInfo.name i); ("map_type"%string, MapInfo.map_type i)]) MapInfo.max_entries); [exact (samples_of_numbers interface _ _ MapInfo.max_entries map_infos)|exact H|..].
  - do 7 right. left. by eapply (listed _ (fun n => [("name"%string, n)]) (entries_of stats)); [exact (samples_of_numbers interface _ _ (entries_of stats) COUNTED_MAPS)|exact H|..].
Qed.

Lemma families_numbers {A} name (lab : A -> list (string * string)) (val : A -> Z) xs :
  families (map (fun x => number interface name (lab x) (val x)) xs) = [].
Proof. induction xs as [|x xs IH]; [done|]. exact IH. Qed.

Lemma families_app a b : families (a ++ b) = families a ++ families b.
Proof. apply flat_map_app. Qed.

Lemma families_usage l : families (flat_map (usage_line interface stats) l) = [].
Proof.
  induction l as [|i l IH]; [done|]. cbn [flat_map]. rewrite families_app, IH, app_nil_r.
  unfold usage_line. destruct (negb _); [done|]. by destruct (_ =? 0).
Qed.

Lemma families_attackers : families (attacker_items interface stats) =
  replicate (length top_attackers) "eshield_source_dropped_total"%string.
Proof.
  unfold attacker_items. change (StatsResponse.top_attackers (stats_snapshot stats)) with top_attackers.
  induction top_attackers as [|a l IH]; [done|]. cbn [flat_map length replicate]. by rewrite families_app, IH.
Qed.

(** The metrics declared besides the attackers' and the ports'. *)
Definition fixed_families : list string :=
  map (fun c => fst (fst c)) (counters Stats_default) ++ ["eshield_dropped_by_protocol_total"%string].
Definition later_families : list string :=
  ["eshield_event_consumer_duration_us"; "eshield_fragment_blocked_total"; "eshield_port_rate_blocked_total";
   "eshield_map_max_entries"; "eshield_map_entries"; "eshield_map_usage_ratio"]%string.

Lemma families_page : families page = fixed_families ++
  replicate (length top_attackers) "eshield_source_dropped_total"%string ++
  (if bool_decide (top_ports = []) then [] else ["eshield_dropped_by_port_total"%string]) ++ later_families.
Proof.
  assert (Hp : families (port_items interface stats) =
    if bool_decide (top_ports = []) then [] else ["eshield_dropped_by_port_total"%string]).
  { unfold port_items. destruct top_ports as [|p ps]; [done|]. exact (f_equal (cons _) (families_numbers _ _ _ (p :: ps))). }
  assert (Hh : families (histogram_items interface stats) = ["eshield_event_consumer_duration_us"%string]).
  { unfold histogram_items. rewrite !app_comm_cons, families_app. exact (f_equal (fun l => (_ :: l) ++ []) (families_numbers _ _ _ _)). }
  assert (Hm : families (max_entries_items interface map_infos) = ["eshield_map_max_entries"%string])
    by exact (f_equal (cons _) (families_numbers _ _ _ _)).
  assert (Hu : families (usage_items interface stats map_infos) = ["eshield_map_usage_ratio"%string])
    by exact (f_equal (cons _) (families_usage map_infos)).
  unfold metrics_items. rewrite !families_app, families_attackers, Hp, Hh, Hm, Hu.
  rewrite (app_assoc (families (counter_items interface stats))). done.
Qed.

(** A metric may be declared once.  The page declares the metric of the
    attackers again for every attacker. *)
Theorem metrics_declared : page_ok ->
  NoDup (declared (metrics_text interface fragment_policy stats map_infos)) <-> (length top_attackers <= 1)%nat.
Proof.
  intros P. unfold metrics_text. rewrite declared_items by (by apply page_items_ok).
  rewrite families_page. split.
  - intros H. destruct (length top_attackers) as [|[|n]]; [lia..|]. exfalso.
    apply list.NoDup_app in H as (_ & _ & H). apply list.NoDup_cons in H as [H _]. apply H. by left.
  - intros H. destruct (length top_attackers) as [|[|n]]; [..|lia]; destruct (bool_decide _);
      apply (bool_decide_eq_true_1 _); vm_compute; reflexivity.
Qed.
End PageProps.

Module ExpositionWitness.
Import MapSamples.

Definition attacker (n : Z) : IpKey.t := key_of_addr (V4 [10; 0; 0; n]).
Definition busy : Stats.t :=
  Stats_default <| Stats.total_dropped := 12 |> <| Stats.tcp_dropped := 7 |>
    <| Stats.top_attackers := {[ attacker 1 := 9; attacker 2 := 3 ]} |>
    <| Stats.port_dropped := {[ 22 := 5; 443 := 7 ]} |>
    <| Stats.process_hist := [4; 1; 0; 0; 0; 2] |>
    <| Stats.map_entries := {[ "BLACKLIST"%string := 25000; "RATE_MAP"%string := 1 ]} |>.
Definition infos : list MapInfo.t :=
  [MapInfo.mk "BLACKLIST" "LruHash" 100000; MapInfo.mk "CONFIG" "Array" 1; MapInfo.mk "RATE_MAP" "LruHash" 32000].

Lemma busy_page : page_ok "eth0" "rate_limit" busy infos.
Proof.
  constructor; [reflexivity|reflexivity| |apply (bool_decide_eq_true_1 _); vm_compute; reflexivity| |].
  - intros i Hi. unfold infos in Hi. repeat (apply elem_of_cons in Hi as [->|Hi]; [done|]). by apply not_elem_of_nil in Hi.
  - intros key [n Hk]%elem_of_dom. cbn in Hk.
    apply lookup_insert_Some in Hk as [[<- _]|[_ Hk]]; [|apply lookup_singleton_Some in Hk as [<- _]];
      (eexists (V4 _); split; [|reflexivity]); (split; [reflexivity|]);
      unfold bytes_ok, is_byte; rewrite !list.Forall_cons; repeat split; (lia || constructor).
  - intros p [n Hp]%elem_of_dom. cbn in Hp.
    apply lookup_insert_Some in Hp as [[<- _]|[_ Hp]]; [|apply lookup_singleton_Some in Hp as [<- _]]; lia.
Qed.

Lemma metrics_read_back_witness : exists samples,
  scrape (metrics_text "eth0" "rate_limit" busy infos) = Some samples /\
  series "eshield_dropped_total" [("interface"%string, "eth0"%string)] samples = [Some 12] /\
  series "eshield_source_dropped_total" [("interface"%string, "eth0"%string); ("ip"%string, "10.0.0.2"%string)] samples = [Some 3] /\
  series "eshield_event_consumer_duration_us_count" [("interface"%string, "eth0"%string)] samples = [Some 7].
Proof.
  destruct (metrics_read_back "eth0" "rate_limit" busy infos busy_page)
    as (samples & H & _ & Hc & _ & Ha & _ & Hn & _).
  exists samples. split; [exact H|]. split; [|split].
  - assert (E : metric_name "total_dropped" = "eshield_dropped_total"%string) by (vm_compute; reflexivity).
    assert (Hin : ("total_dropped"%string, Stats.total_dropped) ∈ STATS_FIELDS) by (unfold STATS_FIELDS; left).
    specialize (Hc _ _ Hin). rewrite E in Hc.
    change (Stats.total_dropped busy) with 12 in Hc. apply Hc. lia.
  - apply Ha; [vm_compute; right; left|lia].
  - assert (Hl : Z.of_nat (length [1; 2; 3; 1000; 2000; 100001; 200000]) < 2 ^ 64) by done.
    assert (Hh : Stats.process_hist busy = Stats.process_hist (record_all [1; 2; 3; 1000; 2000; 100001; 200000] Stats_default))
      by (vm_compute; reflexivity).
    destruct (Hn _ Hl Hh) as (_ & _ & Hcount).
    change (Z.of_nat _) with 7 in Hcount. apply Hcount. lia.
Defined.

Lemma metrics_declared_witness : ~ NoDup (declared (metrics_text "eth0" "rate_limit" busy infos)).
Proof. intros H%(metrics_declared "eth0" "rate_limit" busy infos busy_page). vm_compute in H. lia. Defined.

(** Some lines of that page; a single quote stands for a double one. *)
Fixpoint quoted (s : string) : string :=
  match s with
  | EmptyString => EmptyString
  | String c s => String (if Ascii.eqb c "'" then quote_char else c) (quoted s)
  end.

Example page_lines :
  let ls := lines (metrics_text "eth0" "rate_limit" busy infos) in
  take 4 ls =
    ["# HELP eshield_dropped_total Total dropped packets"%string; "# TYPE eshield_dropped_total counter"%string;
     quoted "eshield_dropped_total{interface='eth0'} 12"; ""%string] /\
  lastn 5 ls =
    [""%string; "# HELP eshield_map_usage_ratio eBPF map usage ratio (entries / max_entries)"%string;
     "# TYPE eshield_map_usage_ratio gauge"%string;
     quoted "eshield_map_usage_ratio{interface='eth0',name='BLACKLIST'} 0.2500";
     quoted "eshield_map_usage_ratio{interface='eth0',name='RATE_MAP'} 0.0000"].
Proof. vm_compute. split; reflexivity. Qed.
End ExpositionWitness.
