(* ===== verification/Alert.v ===== *)
(** * Alert: when the agent raises an alarm

    [eshield/src/alert.rs] and the task of [main.rs] that calls it once a
    minute, and what is posted to the service.  Times are seconds of the wall
    clock, which may jump.  The request itself is left out. *)
From Stdlib Require Import Ascii.
From stdpp Require Import strings gmap.
From S2P Require Import Prelude Words Common RustStd Ranking IpText TimeSeries AgentMaps Metrics.
#[local] Open Scope Z_scope.

Module AlertConfig.
Record t := mk {
  webhook_url : option string;
  webhook_type : string;
  threshold_dps : Z;
  cooldown_s : Z;
  interface : string;
}.
End AlertConfig.

Module AlertEvent.
Record t := mk {
  timestamp : Z;
  interface : string;
  alert_type : string;
  total_dropped : Z;
  dps : Z;
  threshold_dps : Z;
  cooldown_s : Z;
  message : string;
  rule_breakdown : gmap string Z;
  top_attackers : list (string * Z);
}.
End AlertEvent.

(** Values of JSON. *)
Inductive Json :=
  | JString (s : string)
  | JNumber (n : Z)
  | JArray (l : list Json)
  | JObject (fields : list (string * Json)).

Definition rule_breakdown (stats : Stats.t) : gmap string Z :=
  list_to_map [("blacklist"%string, Stats.blacklist_blocked stats); ("rate_limit"%string, Stats.rate_limited stats);
    ("syn_flood"%string, Stats.syn_flood_blocked stats); ("l7"%string, Stats.l7_blocked stats);
    ("adaptive"%string, Stats.adaptive_blocked stats); ("udp_flood"%string, Stats.udp_flood_blocked stats);
    ("icmp_flood"%string, Stats.icmp_flood_blocked stats); ("geoip"%string, Stats.geoip_blocked stats)].

(** What the task keeps. *)
Module AlertTask.
Record t := mk {
  last_total : Z;
  last_alert_s : Z;
}.
End AlertTask.

Section Alert.
Context {HO : HashOrder}.

Definition alert_event (cfg : AlertConfig.t) (now_s dps : Z) (stats : Stats.t) : AlertEvent.t :=
  AlertEvent.mk now_s (AlertConfig.interface cfg) "drop_rate" (Stats.total_dropped stats) dps (AlertConfig.threshold_dps cfg)
    (AlertConfig.cooldown_s cfg)
    ("eShield [" +:+ AlertConfig.interface cfg +:+ "] 告警：DROP 速率 " +:+ print_u64 dps +:+ " pps 超过阈值 " +:+
     print_u64 (AlertConfig.threshold_dps cfg) +:+ " pps")
    (rule_breakdown stats) (top snd 5 (attackers stats)).

(** [AlertManager::check]: the event that is sent, and the time of the last one. *)
Definition alert_check (cfg : AlertConfig.t) (now_s : Z) (stats : Stats.t) (delta window_s last_alert_s : Z)
    : option AlertEvent.t * Z :=
  if (window_s =? 0) || match AlertConfig.webhook_url cfg with None => true | Some _ => false end
  then (None, last_alert_s)
  else
    let dps := delta / window_s in
    if dps <? AlertConfig.threshold_dps cfg then (None, last_alert_s)
    else if saturating_sub now_s last_alert_s <? AlertConfig.cooldown_s cfg then (None, last_alert_s)
    else (Some (alert_event cfg now_s dps stats), now_s).

Definition alert_task_start : AlertTask.t := AlertTask.mk 0 0.

(** One tick, once a minute. *)
Definition alert_tick (cfg : AlertConfig.t) (now_s : Z) (stats : Stats.t) (st : AlertTask.t)
    : option AlertEvent.t * AlertTask.t :=
  let total := Stats.total_dropped stats in
  let delta := saturating_sub total (AlertTask.last_total st) in
  let '(event, last_alert_s) := alert_check cfg now_s stats delta 60 (AlertTask.last_alert_s st) in
  (event, AlertTask.mk total last_alert_s).

(** *** The text for the service *)
Definition quote : string := String (of_code 34) EmptyString.

(** [serde_json::to_string] of the map: its names need no escapes. *)
Definition breakdown_json (m : gmap string Z) : string :=
  "{" +:+ joined "," (map (fun k => quote +:+ k +:+ quote +:+ ":" +:+ print_u64 (default 0 (m !! k))) (hash_list (dom m))) +:+ "}".

Definition attacker_list (l : list (string * Z)) : string :=
  joined ", " (map (fun a => fst a +:+ "(" +:+ print_u64 (snd a) +:+ ")") l).

Definition chat_text (event : AlertEvent.t) : string :=
  AlertEvent.message event +:+ newline +:+ "规则分布：" +:+ breakdown_json (AlertEvent.rule_breakdown event) +:+
  newline +:+ "TOP：" +:+ attacker_list (AlertEvent.top_attackers event).

Definition slack_text (event : AlertEvent.t) : string :=
  "*eShield " +:+ AlertEvent.interface event +:+ " 告警*" +:+ newline +:+
  "DROP 速率：" +:+ print_u64 (AlertEvent.dps event) +:+ " pps" +:+ newline +:+
  "阈值：" +:+ print_u64 (AlertEvent.threshold_dps event) +:+ " pps" +:+ newline +:+
  "总丢弃：" +:+ print_u64 (AlertEvent.total_dropped event) +:+ newline +:+
  "TOP 攻击源：" +:+ attacker_list (AlertEvent.top_attackers event).

Definition attacker_value (a : string * Z) : Json :=
  JObject [("ip", JString (fst a)); ("count", JNumber (snd a))]%string.

(** [serde_json::to_value] of the event. *)
Definition event_value (e : AlertEvent.t) : Json :=
  JObject [
    ("timestamp", JNumber (AlertEvent.timestamp e)); ("interface", JString (AlertEvent.interface e));
    ("alert_type", JString (AlertEvent.alert_type e)); ("total_dropped", JNumber (AlertEvent.total_dropped e));
    ("dps", JNumber (AlertEvent.dps e)); ("threshold_dps", JNumber (AlertEvent.threshold_dps e));
    ("cooldown_s", JNumber (AlertEvent.cooldown_s e)); ("message", JString (AlertEvent.message e));
    ("rule_breakdown", JObject (map (fun k => (k, JNumber (default 0 (AlertEvent.rule_breakdown e !! k))))
       (hash_list (dom (AlertEvent.rule_breakdown e)))));
    ("top_attackers", JArray (map attacker_value (AlertEvent.top_attackers e)))]%string.

Definition text_payload (text : string) : Json :=
  JObject [("msgtype", JString "text"); ("text", JObject [("content", JString text)])]%string.

Definition format_payload (webhook_type : string) (event : AlertEvent.t) : Json :=
  if String.eqb webhook_type "slack" then
    JObject [("text", JString (AlertEvent.message event));
      ("blocks", JArray [JObject [("type", JString "section");
         ("text", JObject [("type", JString "mrkdwn"); ("text", JString (slack_text event))])]])]%string
  else if String.eqb webhook_type "dingtalk" || String.eqb webhook_type "wecom" || String.eqb webhook_type "wechat"
  then text_payload (chat_text event)
  else event_value event.

(** What [check] posts, and where. *)
Definition alert_post (cfg : AlertConfig.t) (event : AlertEvent.t) : option (string * Json) :=
  (fun url => (url, format_payload (AlertConfig.webhook_type cfg) event)) <$> AlertConfig.webhook_url cfg.

(** ** Properties *)

(** *** Reading a payload *)
Definition json_get (name : string) (v : Json) : option Json :=
  match v with JObject fields => snd <$> find (fun f => String.eqb (fst f) name) fields | _ => None end.

(** What a service shows: Slack the text and the first block, the chat services
    the content, another receiver the field [message]. *)
Definition shown_text (v : Json) : option string :=
  match json_get "text" v with
  | Some (JString s) => Some s
  | Some (JObject _ as o) => match json_get "content" o with Some (JString s) => Some s | _ => None end
  | _ => match json_get "message" v with Some (JString s) => Some s | _ => None end
  end.

(** The value of a counter in the breakdown. *)
Definition breakdown_of (v : Json) (rule : string) : option Z :=
  match json_get "rule_breakdown" v ≫= json_get rule with Some (JNumber n) => Some n | _ => None end.

Lemma find_named (l : list string) (f : string -> Json) k : k ∈ l ->
  find (fun p => String.eqb (fst p) k) (map (fun k => (k, f k)) l) = Some (k, f k).
Proof.
  induction l as [|x l IH]; [by intros ?%elem_of_nil|]. cbn. intros [->|Hk]%elem_of_cons; [by rewrite String.eqb_refl|].
  destruct (String.eqb_spec x k) as [->|]; [done|by apply IH].
Qed.

Context {HL : HashOrderLaws HO}.

(** what is posted tells of the alarm.  Whatever the type of the service, the
    text shown begins with the message of the alarm; and a receiver of no
    special type can read every counter of the breakdown back. *)
Theorem payload_tells service event :
  (exists rest, shown_text (format_payload service event) = Some (AlertEvent.message event +:+ rest)) /\
  (service ∉ ["slack"; "dingtalk"; "wecom"; "wechat"]%string -> forall rule n,
     AlertEvent.rule_breakdown event !! rule = Some n -> breakdown_of (format_payload service event) rule = Some n).
Proof.
  unfold format_payload. split.
  - destruct (String.eqb service "slack"); [exists ""%string; by rewrite append_empty_r|].
    destruct (_ || _); [|exists ""%string; by rewrite append_empty_r]. by eexists.
  - rewrite !not_elem_of_cons. intros (H1%String.eqb_neq & H2%String.eqb_neq & H3%String.eqb_neq & H4%String.eqb_neq & _) rule n Hn.
    rewrite H1, H2, H3, H4. cbn [orb]. unfold breakdown_of, event_value.
    change (json_get "rule_breakdown" _) with (Some (JObject (map (fun k => (k, JNumber (default 0 (AlertEvent.rule_breakdown event !! k))))
      (hash_list (dom (AlertEvent.rule_breakdown event)))))).
    cbn [mbind option_bind json_get].
    rewrite (find_named _ (fun k => JNumber (default 0 (AlertEvent.rule_breakdown event !! k)))); [cbn; by rewrite Hn|].
    apply elem_of_hash_list. by apply elem_of_dom_2 in Hn.
Qed.

(** The events of a run. *)
Fixpoint alert_run (cfg : AlertConfig.t) (ticks : list (Z * Stats.t)) (st : AlertTask.t) : list AlertEvent.t :=
  match ticks with
  | [] => []
  | (now_s, stats) :: ticks =>
      let '(event, st) := alert_tick cfg now_s stats st in
      match event with Some e => e :: alert_run cfg ticks st | None => alert_run cfg ticks st end
  end.

(** Each event at least [cooldown] after the one before it. *)
Fixpoint spaced_from (last cooldown : Z) (events : list AlertEvent.t) : Prop :=
  match events with
  | [] => True
  | e :: events => last + cooldown <= AlertEvent.timestamp e /\ spaced_from (AlertEvent.timestamp e) cooldown events
  end.

Lemma alert_check_cases cfg now_s stats delta window_s last :
  (alert_check cfg now_s stats delta window_s last = (None, last)) \/
  (alert_check cfg now_s stats delta window_s last = (Some (alert_event cfg now_s (delta / window_s) stats), now_s) /\
   AlertConfig.cooldown_s cfg <= saturating_sub now_s last /\ AlertConfig.threshold_dps cfg <= delta / window_s).
Proof.
  unfold alert_check. destruct (_ || _); [by left|].
  destruct (Z.ltb_spec (delta / window_s) (AlertConfig.threshold_dps cfg)); [by left|].
  destruct (Z.ltb_spec (saturating_sub now_s last) (AlertConfig.cooldown_s cfg)); [by left|by right].
Qed.

Lemma alert_run_spaced cfg ticks st : 0 < AlertConfig.cooldown_s cfg ->
  spaced_from (AlertTask.last_alert_s st) (AlertConfig.cooldown_s cfg) (alert_run cfg ticks st).
Proof.
  intros Hc. revert st. induction ticks as [|[now_s stats] ticks IH]; intros st; [done|].
  cbn [alert_run]. unfold alert_tick. set (delta := saturating_sub _ _).
  destruct (alert_check_cases cfg now_s stats delta 60 (AlertTask.last_alert_s st)) as [->|(-> & Hs & _)];
    cbv beta iota zeta.
  - apply (IH (AlertTask.mk _ _)).
  - cbn [spaced_from alert_event AlertEvent.timestamp]. split; [unfold saturating_sub in Hs; lia|].
    apply (IH (AlertTask.mk _ _)).
Qed.

(** no alarm is lost and none comes too often.  Two alarms in a row are at
    least the cooldown apart, however the wall clock jumps.  A minute whose
    rate of drops reaches the threshold raises an alarm, unless the last one is
    less than the cooldown old (or stamped later than now); the alarm carries
    the rate of that minute. *)
Theorem alerts_spaced cfg ticks st :
  0 < AlertConfig.cooldown_s cfg ->
  spaced_from (AlertTask.last_alert_s st) (AlertConfig.cooldown_s cfg) (alert_run cfg ticks st) /\
  (forall now_s stats url, AlertConfig.webhook_url cfg = Some url ->
     let dps := saturating_sub (Stats.total_dropped stats) (AlertTask.last_total st) / 60 in
     AlertConfig.threshold_dps cfg <= dps ->
     match fst (alert_tick cfg now_s stats st) with
     | Some e => AlertEvent.dps e = dps /\ AlertEvent.timestamp e = now_s
     | None => now_s < AlertTask.last_alert_s st + AlertConfig.cooldown_s cfg
     end).
Proof.
  intros Hc. split; [by apply alert_run_spaced|]. intros now_s stats url Hu dps Hd. unfold alert_tick, alert_check.
  rewrite Hu. cbn [Z.eqb orb]. fold dps. rewrite (proj2 (Z.ltb_ge _ _)) by done.
  destruct (Z.ltb_spec (saturating_sub now_s (AlertTask.last_alert_s st)) (AlertConfig.cooldown_s cfg)) as [H|H];
    cbn [fst]; [unfold saturating_sub in H; lia|done].
Qed.
End Alert.

Module AlertWitness.
Import MapSamples.

Definition config : AlertConfig.t := AlertConfig.mk (Some "http://hook"%string) "slack" 10 300 "eth0".
Definition dropped (n : Z) : Stats.t := Stats_default <| Stats.total_dropped := n |>.

(** A flood of ten minutes: one alarm at once, one after five minutes. *)
Definition flood : list (Z * Stats.t) :=
  map (fun i => (1700000000 + 60 * i, dropped (6000 * i))) (seqZ 1 9).

Lemma alerts_spaced_witness :
  map AlertEvent.timestamp (alert_run config flood alert_task_start) = [1700000060; 1700000360] /\
  spaced_from 0 300 (alert_run config flood alert_task_start).
Proof.
  assert (Hc : 0 < AlertConfig.cooldown_s config) by reflexivity.
  destruct (alerts_spaced config flood alert_task_start Hc) as [H _].
  split; [vm_compute; reflexivity|exact H].
Defined.
End AlertWitness.
