(* ===== verification/Geoip.v ===== *)
(** * Geoip: networks selected from CSV lists, through a cache

    [eshield/src/geoip.rs].  The CSV reader is a library ([Class CsvLib]); the
    file system maps a path to its modification time and contents.  An error is
    [None].  The cache is the state; its lock does not fail. *)
From Stdlib Require Import Ascii.
From stdpp Require Import strings gmap pretty.
From S2P Require Import Prelude Words Common RustStd IpText Config TimeSeries.
#[local] Open Scope Z_scope.

Module GeoIpBlock.
Record t := mk {
  key : IpKey.t;
  prefix : Z;
  reason : string;
}.
End GeoIpBlock.

(** [csv::Reader::records] with a header row: the records, [None] where one
    can not be read. *)
Class CsvLib := { records : string -> list (option (list string)) }.

Module FileMeta.
Record t := mk {
  modified : Z;
  contents : string;
}.
End FileMeta.

Abbreviation FileSystem := (gmap string FileMeta.t).

(** ** The cache key *)

(** "none", "path:modified:len" or "path:missing". *)
Inductive Fingerprint := NoFile | Missing (path : string) | Present (path : string) (modified : Z) (len : nat).
#[export] Instance Fingerprint_eq_dec : EqDecision Fingerprint.
Proof. solve_decision. Defined.

Definition file_fingerprint (fs : FileSystem) (path : option string) : Fingerprint :=
  match path with
  | None => NoFile
  | Some path =>
      match fs !! path with
      | Some meta => Present path (FileMeta.modified meta) (String.length (FileMeta.contents meta))
      | None => Missing path
      end
  end.

(** The sorted lists of the key stand for the sets they are made of. *)
Module CacheKey.
Record t := mk {
  kind : string;
  country_csv : Fingerprint;
  asn_csv : Fingerprint;
  countries : gset string;
  asns : gset Z;
}.
End CacheKey.
#[export] Instance CacheKey_eq_dec : EqDecision CacheKey.t.
Proof. solve_decision. Defined.

Definition geoip_cache_key (fs : FileSystem) (config : GeoIpConfig.t) (countries : gset string)
    (asns : gset Z) (kind : string) : CacheKey.t :=
  CacheKey.mk kind (file_fingerprint fs (GeoIpConfig.country_blocks_csv config))
    (file_fingerprint fs (GeoIpConfig.asn_blocks_csv config)) countries asns.

(** The hash map of the cache, as an association list. *)
Abbreviation GeoIpCache := (list (CacheKey.t * list GeoIpBlock.t)).

Fixpoint cache_get (cache : GeoIpCache) (k : CacheKey.t) : option (list GeoIpBlock.t) :=
  match cache with
  | [] => None
  | (k', v) :: cache => if decide (k' = k) then Some v else cache_get cache k
  end.

Definition cache_insert (k : CacheKey.t) (v : list GeoIpBlock.t) (cache : GeoIpCache) : GeoIpCache :=
  (k, v) :: filter (fun kv => fst kv <> k) cache.

(** ** The lists *)
Section Geoip.
Context {CL : CsvLib}.

(** One record of the country list; [None] skips it. *)
Definition country_block (countries : gset string) (kind : string) (record : list string)
    : option GeoIpBlock.t :=
  match record with
  | network :: country :: _ =>
      let network := trim network in
      let country := to_ascii_uppercase (trim country) in
      if negb (bool_decide (country ∈ countries)) then None
      else
        r ← parse_cidr network;
        Some (GeoIpBlock.mk (fst r) (snd r) ("geoip-" +:+ kind +:+ "-country-" +:+ country))
  | _ => None
  end.

Definition asn_block (asns : gset Z) (kind : string) (record : list string) : option GeoIpBlock.t :=
  match record with
  | network :: asn :: _ =>
      let network := trim network in
      asn ← parse_uint 32 (trim asn);
      if negb (bool_decide (asn ∈ asns)) then None
      else
        r ← parse_cidr network;
        Some (GeoIpBlock.mk (fst r) (snd r) ("geoip-" +:+ kind +:+ "-asn-" +:+ pretty asn))
  | _ => None
  end.

(** The reading loop: an unreadable record is an error. *)
Fixpoint parse_rows (block : list string -> option GeoIpBlock.t) (rows : list (option (list string)))
    : option (list GeoIpBlock.t) :=
  match rows with
  | [] => Some []
  | None :: _ => None
  | Some record :: rows =>
      rest ← parse_rows block rows;
      Some (match block record with Some b => b :: rest | None => rest end)
  end.

Definition parse_country_csv (text : string) (countries : gset string) (kind : string) :=
  parse_rows (country_block countries kind) (records text).
Definition parse_asn_csv (text : string) (asns : gset Z) (kind : string) :=
  parse_rows (asn_block asns kind) (records text).

(** A list is read when something is selected, a path is set and exists. *)
Definition read_list (fs : FileSystem) (selected : bool) (path : option string)
    (parse : string -> option (list GeoIpBlock.t)) : option (list GeoIpBlock.t) :=
  if negb selected then Some []
  else
    match path with
    | None => Some []
    | Some path =>
        match fs !! path with
        | Some meta => parse (FileMeta.contents meta)
        | None => Some []
        end
    end.

(** What [load_entries] computes on a cache miss. *)
Definition fresh_entries (fs : FileSystem) (config : GeoIpConfig.t) (countries : gset string)
    (asns : gset Z) (kind : string) : option (list GeoIpBlock.t) :=
  from_countries ← read_list fs (negb (bool_decide (countries = ∅)))
    (GeoIpConfig.country_blocks_csv config) (fun text => parse_country_csv text countries kind);
  from_asns ← read_list fs (negb (bool_decide (asns = ∅)))
    (GeoIpConfig.asn_blocks_csv config) (fun text => parse_asn_csv text asns kind);
  Some (from_countries ++ from_asns).

Definition load_entries (fs : FileSystem) (config : GeoIpConfig.t) (countries : list string)
    (asns : list Z) (kind : string) : Try GeoIpCache (list GeoIpBlock.t) :=
  let countries := list_to_set (map to_ascii_uppercase countries) in
  let asns := list_to_set asns in
  let cache_key := geoip_cache_key fs config countries asns kind in
  fun cache =>
    match cache_get cache cache_key with
    | Some cached => (Some cached, cache)
    | None =>
        match fresh_entries fs config countries asns kind with
        | None => (None, cache)
        | Some blocks =>
            let cache := if (32 <=? length cache)%nat then [] else cache in
            (Some blocks, cache_insert cache_key blocks cache)
        end
    end.

Definition load_geoip_blocks (fs : FileSystem) (config : GeoIpConfig.t) :=
  load_entries fs config (GeoIpConfig.block_countries config) (GeoIpConfig.block_asns config) "block".
Definition load_geoip_allows (fs : FileSystem) (config : GeoIpConfig.t) :=
  load_entries fs config (GeoIpConfig.allow_countries config) (GeoIpConfig.allow_asns config) "allow".

(** ** Properties *)

(** One load after another, each from the files as they are at that time. *)
Fixpoint load_runs (runs : list (FileSystem * GeoIpConfig.t * bool)) (cache : GeoIpCache)
    : list (option (list GeoIpBlock.t)) :=
  match runs with
  | [] => []
  | (fs, config, block) :: runs =>
      let '(r, cache) :=
        (if (block : bool) then load_geoip_blocks fs config else load_geoip_allows fs config) cache in
      r :: load_runs runs cache
  end.

Definition uncached (run : FileSystem * GeoIpConfig.t * bool) : option (list GeoIpBlock.t) :=
  let '(fs, config, block) := run in
  if (block : bool) then
    fresh_entries fs config (list_to_set (map to_ascii_uppercase (GeoIpConfig.block_countries config)))
      (list_to_set (GeoIpConfig.block_asns config)) "block"
  else
    fresh_entries fs config (list_to_set (map to_ascii_uppercase (GeoIpConfig.allow_countries config)))
      (list_to_set (GeoIpConfig.allow_asns config)) "allow".

(** A file whose contents change gets another modification time or length. *)
Definition stamps_tell (all : list FileSystem) : Prop :=
  forall fs1 fs2 path m1 m2, fs1 ∈ all -> fs2 ∈ all ->
    fs1 !! path = Some m1 -> fs2 !! path = Some m2 ->
    FileMeta.modified m1 = FileMeta.modified m2 ->
    String.length (FileMeta.contents m1) = String.length (FileMeta.contents m2) ->
    FileMeta.contents m1 = FileMeta.contents m2.

Lemma read_list_same all fs1 fs2 b p1 p2 parse :
  stamps_tell all -> fs1 ∈ all -> fs2 ∈ all -> file_fingerprint fs1 p1 = file_fingerprint fs2 p2 ->
  read_list fs1 b p1 parse = read_list fs2 b p2 parse.
Proof.
  intros Hs H1 H2. unfold file_fingerprint, read_list. destruct b; [cbn [negb]|done].
  destruct p1 as [p1|], p2 as [p2|]; try done; repeat case_match; try done.
  intros [= -> Hm Hl]. f_equal. by eapply (Hs fs1 fs2 p2).
Qed.

Definition cache_sound (all : list FileSystem) (cache : GeoIpCache) : Prop :=
  forall k v, cache_get cache k = Some v -> exists fs config, fs ∈ all /\
    k = geoip_cache_key fs config (CacheKey.countries k) (CacheKey.asns k) (CacheKey.kind k) /\
    fresh_entries fs config (CacheKey.countries k) (CacheKey.asns k) (CacheKey.kind k) = Some v.

Lemma cache_get_insert k v k' cache :
  cache_get (cache_insert k v cache) k' = if decide (k = k') then Some v else cache_get cache k'.
Proof.
  unfold cache_insert. cbn [cache_get]. case_decide as Hk; [done|].
  induction cache as [|[k0 v0] cache IH]; [done|]. rewrite filter_cons. cbn [fst cache_get].
  destruct (decide (k0 <> k)) as [H0|H0]; cbn [cache_get]; rewrite IH; [done|].
  destruct (decide (k0 = k')) as [->|]; [destruct H0; congruence|done].
Qed.

Lemma load_entries_fresh all fs config countries asns kind cache :
  stamps_tell all -> fs ∈ all -> cache_sound all cache ->
  let '(r, cache') := load_entries fs config countries asns kind cache in
  r = fresh_entries fs config (list_to_set (map to_ascii_uppercase countries)) (list_to_set asns) kind /\
  cache_sound all cache'.
Proof.
  intros Hs Hfs Hc. unfold load_entries. set (cs := list_to_set (map _ countries)).
  set (ns := list_to_set asns). set (k := geoip_cache_key fs config cs ns kind).
  destruct (cache_get cache k) as [v|] eqn:Hg.
  - destruct (Hc _ _ Hg) as (fs' & config' & Hfs' & Hk & Hv). split; [|done].
    subst k. unfold geoip_cache_key in Hk. cbn in Hk, Hv. injection Hk as E1 E2.
    rewrite <- Hv. unfold fresh_entries.
    rewrite (read_list_same all _ _ _ _ _ _ Hs Hfs' Hfs (eq_sym E1)).
    by rewrite (read_list_same all _ _ _ _ _ _ Hs Hfs' Hfs (eq_sym E2)).
  - destruct (fresh_entries fs config cs ns kind) as [v|] eqn:Hv; [|done]. split; [done|].
    intros k' v'. rewrite cache_get_insert. case_decide as Hk'.
    + intros [= <-]. exists fs, config. subst k'. split; [done|]. split; [done|]. exact Hv.
    + destruct (32 <=? length cache)%nat; [done|]. apply Hc.
Qed.

(** the CSV cache can not be seen.  In any sequence of loads and reloads of
    the block and allow lists, starting from the empty cache, each one returns
    what reading the files again would return, errors included, provided that a
    file that changes gets another modification time or length. *)
Theorem geoip_cache_transparent runs :
  stamps_tell (map (fun r => fst (fst r)) runs) -> load_runs runs [] = map uncached runs.
Proof.
  set (all := map _ runs). intros Hs.
  assert (H : forall rs cache, (forall r, r ∈ rs -> fst (fst r) ∈ all) -> cache_sound all cache ->
    load_runs rs cache = map uncached rs).
  { induction rs as [|[[fs config] block] rs IH]; intros cache Hin Hc; [done|].
    assert (Hfs : fs ∈ all) by (apply (Hin (fs, config, block)); by left).
    cbn [load_runs map uncached].
    pose proof (load_entries_fresh all fs config (GeoIpConfig.block_countries config)
      (GeoIpConfig.block_asns config) "block" cache Hs Hfs Hc) as Hb.
    pose proof (load_entries_fresh all fs config (GeoIpConfig.allow_countries config)
      (GeoIpConfig.allow_asns config) "allow" cache Hs Hfs Hc) as Ha.
    unfold load_geoip_blocks, load_geoip_allows.
    destruct block.
    - destruct (load_entries _ _ _ _ "block" cache) as [r c']. destruct Hb as [-> Hc'].
      f_equal. apply IH; [intros r' Hr'; apply Hin; by right|done].
    - destruct (load_entries _ _ _ _ "allow" cache) as [r c']. destruct Ha as [-> Hc'].
      f_equal. apply IH; [intros r' Hr'; apply Hin; by right|done]. }
  apply H; [|done]. intros r Hr. subst all. apply list_elem_of_fmap. by exists r.
Qed.
End Geoip.

Module GeoipWitness.
(** Comma-separated lines after the header, for the evaluated example. *)
#[local] Instance csv : CsvLib := {|
  records text := map (fun l => Some (split ","%char l)) (tail (lines text))
|}.

Definition text1 : string :=
  "network,country" +:+ String (of_code 10) ("10.0.0.0/8,us" +:+ String (of_code 10) "192.168.1.0/24, CN").
Definition text2 : string := "network,country" +:+ String (of_code 10) "172.16.0.0/12,CN".
Definition files1 : FileSystem := {[ "c.csv" := FileMeta.mk 1 text1 ]}.
Definition files2 : FileSystem := {[ "c.csv" := FileMeta.mk 2 text2 ]}.
Definition config : GeoIpConfig.t :=
  GeoIpConfig.mk true None (Some "c.csv") None ["cn"] [] [] [] "pass".
Definition runs : list (FileSystem * GeoIpConfig.t * bool) :=
  [(files1, config, true); (files1, config, true); (files2, config, true); (files2, config, false)].

Lemma geoip_cache_transparent_witness :
  stamps_tell (map (fun r => fst (fst r)) runs) /\ load_runs runs [] = map uncached runs.
Proof.
  assert (H : stamps_tell (map (fun r => fst (fst r)) runs)).
  { intros fs1 fs2 path m1 m2 H1 H2 E1 E2 Hm _.
    assert (Hin : forall fs, fs ∈ map (fun r => fst (fst r)) runs -> fs = files1 \/ fs = files2).
    { intros fs Hfs. cbn in Hfs. rewrite !elem_of_cons in Hfs. destruct Hfs as [?|[?|[?|[?|Hn]]]]; auto.
      by apply not_elem_of_nil in Hn. }
    destruct (Hin _ H1) as [-> | ->], (Hin _ H2) as [-> | ->]; unfold files1, files2 in *;
      apply lookup_singleton_Some in E1 as [_ <-]; apply lookup_singleton_Some in E2 as [_ <-]; done. }
  split; [exact H|]. exact (geoip_cache_transparent runs H).
Defined.

Example geoip_runs :
  map (fmap (map (fun b => (GeoIpBlock.prefix b, GeoIpBlock.reason b)))) (load_runs runs []) =
  [Some [(24, "geoip-block-country-CN")]; Some [(24, "geoip-block-country-CN")];
   Some [(12, "geoip-block-country-CN")]; Some []].
Proof. vm_compute. reflexivity. Qed.
End GeoipWitness.
