(* ===== verification/Adaptive.v ===== *)
(** * Adaptive: blocking a source from its drop events

    [eshield/src/adaptive.rs] and the batch of [event_consumer.rs], with the
    operations of [state.rs] it calls.  Sharded maps are finite maps; the order
    in which a hash map is walked is [HashOrder].  A batch takes the events it
    has read from the ring buffer. *)
From stdpp Require Import gmap.
From S2P Require Import Prelude Words Common Pure Config TimeSeries Maps AgentMaps.
#[local] Open Scope Z_scope.

Module AdaptiveEngine.
Record t := mk {
  config : AdaptiveConfig.t;
  (** per source: second and number of events in it *)
  windows : gmap IpKey.t (list (Z * Z));
  (** per source: the second its block ends *)
  blocked : gmap IpKey.t Z;
}.
#[global] Instance eta_t : Eta t := fun r => mk (config r) (windows r) (blocked r).
End AdaptiveEngine.
Import AdaptiveEngine.

Definition engine_new (config : AdaptiveConfig.t) : AdaptiveEngine.t := AdaptiveEngine.mk config ∅ ∅.
Definition update_config (config : AdaptiveConfig.t) (e : AdaptiveEngine.t) : AdaptiveEngine.t :=
  e <| AdaptiveEngine.config := config |>.
Definition is_enabled (e : AdaptiveEngine.t) : bool := AdaptiveConfig.enabled (config e).

(** ** The window of one source *)
Definition in_window (now_s window_s t : Z) : bool := saturating_sub now_s t <=? window_s.

(** Add to the last second, or start a new one. *)
Fixpoint add_count (now_s count : Z) (w : list (Z * Z)) : list (Z * Z) :=
  match w with
  | [] => [(now_s, count)]
  | [(t, c)] => if t =? now_s then [(t, saturating_add 64 c count)] else [(t, c); (now_s, count)]
  | x :: w => x :: add_count now_s count w
  end.

Definition slide (now_s window_s count : Z) (w : list (Z * Z)) : list (Z * Z) :=
  add_count now_s count (filter (fun tc => in_window now_s window_s (fst tc) = true) w).

Fixpoint weight (l : list (Z * Z)) : Z :=
  match l with [] => 0 | tc :: l => snd tc + weight l end.

(** [sum()] of [u64] *)
Definition total (w : list (Z * Z)) : Z := wrap 64 (weight w).

Section Adaptive.
Context {KN : Kernel} {MO : MapOps} {HO : HashOrder}.

Definition on_events (src_ip : IpKey.t) (count : Z)
    : State (AdaptiveEngine.t * Stats.t * KState) unit := fun '(e, stats, s) =>
  let cfg := config e in
  if (count =? 0) || negb (AdaptiveConfig.enabled cfg) then (tt, (e, stats, s))
  else
    let '(now_s, s) := monotonic_secs s in
    let block_duration_s := AdaptiveConfig.block_duration_s cfg in
    let already := match blocked e !! src_ip with Some until => until >? now_s | None => false end in
    if already then (tt, (e, stats, s))
    else
      let window := slide now_s (AdaptiveConfig.window_s cfg) count (default [] (windows e !! src_ip)) in
      let e := e <| AdaptiveEngine.windows ::= insert src_ip window |> in
      if total window >=? AdaptiveConfig.threshold cfg then
        let '(blocked_until_ns, s) :=
          if block_duration_s =? 0 then (BLOCK_PERMANENT, s)
          else let '(now_ns, s) := monotonic_ns s in (deadline now_ns block_duration_s, s) in
        let '(now_ns, s) := monotonic_ns s in
        let entry := merge_block_entry (lru_get (BLACKLIST s) src_ip) now_ns blocked_until_ns
                       rules.ADAPTIVE false in
        let s := s <| BLACKLIST ::= fun m => lru_insert m src_ip entry |> in
        let until := if block_duration_s =? 0 then u64_MAX
                     else saturating_add 64 now_s block_duration_s in
        (tt, (e <| AdaptiveEngine.blocked ::= insert src_ip until |>,
              stats <| Stats.adaptive_blocked ::= fun n => wrapping_add 64 n 1 |>, s))
      else (tt, (e, stats, s)).

(** ** Pruning *)
Definition MAX_ENTRIES : Z := 100000.

Definition over_limit (e : AdaptiveEngine.t) : bool :=
  (Z.of_nat (size (windows e)) >? MAX_ENTRIES) || (Z.of_nat (size (blocked e)) >? MAX_ENTRIES).

(** The loop of evictions; a round removes the first key of the larger map
    from both. *)
Fixpoint evict (fuel : nat) (e : AdaptiveEngine.t) : AdaptiveEngine.t :=
  match fuel with
  | O => e
  | S fuel =>
      if over_limit e then
        let from_windows := (size (blocked e) <=? size (windows e))%nat in
        let key := head (if (from_windows : bool) then hash_list (dom (windows e))
                         else hash_list (dom (blocked e))) in
        match key with
        | Some key => evict fuel (e <| AdaptiveEngine.windows ::= delete key |>
                                    <| AdaptiveEngine.blocked ::= delete key |>)
        | None => e
        end
      else e
  end.

(** Every round makes one of the maps smaller. *)
Definition evict_fuel (e : AdaptiveEngine.t) : nat := S (size (windows e) + size (blocked e)).

Definition alive (now_s window_s : Z) (w : list (Z * Z)) : bool :=
  existsb (fun tc => in_window now_s window_s (fst tc)) w.

(** Windows that still count and blocks that have not ended *)
Definition prune_live (now_s : Z) (e : AdaptiveEngine.t) : AdaptiveEngine.t :=
  let window_s := AdaptiveConfig.window_s (config e) in
  e <| AdaptiveEngine.windows ::= filter (fun kw => alive now_s window_s (snd kw) = true) |>
    <| AdaptiveEngine.blocked ::= filter (fun ku => now_s < snd ku) |>.

Definition prune (now_s : Z) (e : AdaptiveEngine.t) : AdaptiveEngine.t :=
  let e := prune_live now_s e in
  evict (evict_fuel e) e.

(** ** A batch of drop events *)
Definition BATCH : nat := 4096.

Definition push_attack_events (events : list DropEvent.t) (stats : Stats.t) : Stats.t :=
  stats <| Stats.recent_attacks ::= fun buf =>
    foldl (fun buf event => (if (1000 <=? length buf)%nat then tail buf else buf) ++ [event])
      buf events |>.

Definition count_in {K} `{Countable K} (k : K) (m : gmap K Z) : gmap K Z :=
  <[k := default 0 (m !! k) + 1]> m.

Definition add_dropped_batch (by_port : gmap Z Z) (stats : Stats.t) : Stats.t :=
  foldl (fun stats port =>
    if port =? 0 then stats
    else stats <| Stats.port_dropped ::= fun m =>
           <[port := wrapping_add 64 (default 0 (m !! port)) (default 0 (by_port !! port))]> m |>)
    stats (hash_list (dom by_port)).

(** Events from before the start of the program, by more than a second. *)
Definition stale (program_start_ns : Z) (event : DropEvent.t) : bool :=
  negb (program_start_ns =? 0) &&
  (saturating_add 64 (DropEvent.timestamp_ns event) 1000000000 <? program_start_ns).

Definition event_source (event : DropEvent.t) : option IpKey.t :=
  match IpFamily_from_u8 (DropEvent.family event) with
  | Some Ipv4 => Some (from_ipv4 (slice 12 4 (DropEvent.src_ip event)))
  | Some Ipv6 => Some (from_ipv6 (DropEvent.src_ip event))
  | None => None
  end.

(** The rules whose sources the data plane has blocked itself. *)
Definition adaptive_rule (rule_id : Z) : bool :=
  negb (rule_id =? rules.GEOIP) && negb (rule_id =? rules.SYN_FLOOD) &&
  negb (rule_id =? rules.UDP_FLOOD) && negb (rule_id =? rules.ICMP_FLOOD) &&
  negb (rule_id =? rules.BLACKLIST).

(** Events per port and, for the engine, per source. *)
Fixpoint tally (enabled : bool) (events : list DropEvent.t) (by_port : gmap Z Z)
    (counts : gmap IpKey.t Z) : gmap Z Z * gmap IpKey.t Z :=
  match events with
  | [] => (by_port, counts)
  | event :: events =>
      match event_source event with
      | None => tally enabled events by_port counts
      | Some src_key =>
          tally enabled events (count_in (DropEvent.dst_port event) by_port)
            (if enabled && adaptive_rule (DropEvent.rule_id event) then count_in src_key counts
             else counts)
      end
  end.

Fixpoint feed (counts : gmap IpKey.t Z) (sources : list IpKey.t)
    : State (AdaptiveEngine.t * Stats.t * KState) unit :=
  match sources with
  | [] => ret tt
  | src :: sources =>
      let* _ := on_events src (default 0 (counts !! src)) in feed counts sources
  end.

(** [event_consumer::run] on the events that are waiting: their number. *)
Definition consume (waiting : list DropEvent.t) : State (AdaptiveEngine.t * Stats.t * KState) Z :=
  fun '(e, stats, s) =>
    let events := take BATCH waiting in
    let valid := filter (fun event => stale (Stats.program_start_ns stats) event = false) events in
    let stats := push_attack_events valid stats in
    let '(by_port, counts) := tally (is_enabled e) valid ∅ ∅ in
    let '(_, (e, stats, s)) := feed counts (hash_list (dom counts)) (e, stats, s) in
    (Z.of_nat (length valid), (e, add_dropped_batch by_port stats, s)).
End Adaptive.

(** ** Properties *)

(** *** The window against the full history of a source *)

(** The events of the history that are at most [window_s] seconds old. *)
Fixpoint recent (now_s window_s : Z) (l : list (Z * Z)) : Z :=
  match l with
  | [] => 0
  | tc :: l => (if in_window now_s window_s (fst tc) then snd tc else 0) + recent now_s window_s l
  end.

(** The window stands for the history, at [last] and at any later time. *)
Definition stands_for (window_s last : Z) (w history : list (Z * Z)) : Prop :=
  (forall now, last <= now -> recent now window_s w = recent now window_s history) /\
  Forall (fun tc => fst tc <= last /\ 0 <= snd tc) w.

Lemma recent_cat now W l1 l2 : recent now W (l1 ++ l2) = recent now W l1 + recent now W l2.
Proof. induction l1 as [|x l1 IH]; cbn; [done|]. rewrite IH. lia. Qed.

Lemma recent_filter now now' W l : now <= now' ->
  recent now' W (filter (fun tc => in_window now W (fst tc) = true) l) = recent now' W l.
Proof.
  intros Hle. induction l as [|x l IH]; [done|]. rewrite filter_cons. case_decide as Hd.
  - cbn. by rewrite IH.
  - rewrite IH. cbn. assert (in_window now' W (fst x) = false) as ->; [|lia].
    apply not_true_is_false. intros Hin. apply Hd. unfold in_window, saturating_sub in *.
    apply Z.leb_le in Hin. apply Z.leb_le. lia.
Qed.

Lemma recent_fresh now W l : Forall (fun tc => in_window now W (fst tc) = true) l ->
  recent now W l = weight l.
Proof. induction 1 as [|x l Hx _ IH]; cbn; [done|]. by rewrite Hx, IH. Qed.

Lemma add_count_recent now' now W c w : 0 <= c -> Forall (fun tc => 0 <= snd tc) w ->
  weight w + c < 2 ^ 64 ->
  recent now' W (add_count now c w) = recent now' W w + (if in_window now' W now then c else 0).
Proof.
  intros Hc. induction w as [|[t n] w IH]; intros Hw Hlt; [cbn; lia|].
  apply list.Forall_cons in Hw as [Hn Hw]. cbn [snd] in Hn.
  assert (0 <= weight w) as Hpos.
  { clear -Hw. induction Hw as [|x w Hx _ IH]; cbn; lia. }
  cbn in Hlt.
  destruct w as [|x w].
  - cbn in Hlt. cbn [add_count]. destruct (t =? now) eqn:E.
    + apply Z.eqb_eq in E as ->. cbn. unfold saturating_add. rewrite Z.min_l by lia.
      destruct (in_window _ _ _); lia.
    + cbn. lia.
  - change (add_count now c ((t, n) :: x :: w)) with ((t, n) :: add_count now c (x :: w)).
    cbn [recent]. rewrite IH by (done || lia). cbn. lia.
Qed.

Lemma add_count_forall (P : Z * Z -> Prop) now c w :
  Forall P w -> P (now, c) -> (forall t n, P (t, n) -> t = now -> P (t, saturating_add 64 n c)) ->
  Forall P (add_count now c w).
Proof.
  intros Hw Hnew Hadd. induction w as [|[t n] w IH]; [by constructor|].
  apply list.Forall_cons in Hw as [Hx Hw]. destruct w as [|y w].
  - cbn. destruct (t =? now) eqn:E; [|by repeat constructor].
    constructor; [|constructor]. apply Hadd; [done|by apply Z.eqb_eq].
  - change (add_count now c ((t, n) :: y :: w)) with ((t, n) :: add_count now c (y :: w)).
    constructor; [done|]. by apply IH.
Qed.

Lemma recent_nonneg now W w : Forall (fun tc => 0 <= snd tc) w -> 0 <= recent now W w.
Proof. induction 1 as [|x w Hx _ IH]; cbn; [done|]. case_match; lia. Qed.

Lemma add_count_fresh now W c w : 0 <= W ->
  Forall (fun tc => in_window now W (fst tc) = true) w ->
  Forall (fun tc => in_window now W (fst tc) = true) (add_count now c w).
Proof.
  intros HW Hw. apply add_count_forall; [done| |by intros]. cbn. unfold in_window, saturating_sub.
  apply Z.leb_le. lia.
Qed.

(** One batch: what the engine compares with its threshold is the number of
    events of the history, this batch included, that are in the window. *)
Lemma slide_stands_for W last now c w history :
  stands_for W last w history -> 0 <= W -> last <= now -> 0 < c ->
  recent now W history + c < 2 ^ 64 ->
  stands_for W now (slide now W c w) (history ++ [(now, c)]) /\
  total (slide now W c w) = recent now W (history ++ [(now, c)]).
Proof.
  intros [Hr Hf] HW Hle Hc Hlt. unfold slide. set (f := filter _ w).
  assert (Hff : Forall (fun tc => in_window now W (fst tc) = true) f).
  { apply list.Forall_forall. intros x [? _]%list_elem_of_filter. done. }
  assert (Hfn : Forall (fun tc => fst tc <= now /\ 0 <= snd tc) f).
  { apply list.Forall_forall. intros x [_ Hx]%list_elem_of_filter.
    rewrite list.Forall_forall in Hf. specialize (Hf x Hx). lia. }
  assert (Hfs : Forall (fun tc => 0 <= snd tc) f)
    by (eapply list.Forall_impl; [exact Hfn|]; cbn; lia).
  assert (Hw : weight f = recent now W history).
  { rewrite <- Hr by lia. rewrite <- (recent_filter now now) by lia. fold f. by rewrite recent_fresh. }
  assert (Hn : in_window now W now = true) by (unfold in_window, saturating_sub; apply Z.leb_le; lia).
  assert (Hadd : forall now', recent now' W (add_count now c f) =
                              recent now' W f + (if in_window now' W now then c else 0)).
  { intros now'. apply add_count_recent; [lia|done|lia]. }
  split; [split|].
  - intros now' Hn'. rewrite Hadd, recent_cat. subst f. rewrite recent_filter by lia.
    rewrite Hr by lia. cbn. lia.
  - apply add_count_forall; [done|cbn; lia|]. cbn. unfold saturating_add. intros t n Hx _. lia.
  - unfold total.
    rewrite <- (recent_fresh now W) by (by apply add_count_fresh). rewrite Hadd, Hn.
    rewrite recent_fresh, Hw by done. rewrite recent_cat. cbn [recent fst snd]. rewrite Hn.
    rewrite Z.add_0_r. apply Z.mod_small. split; [|lia].
    rewrite <- Hw. rewrite <- (recent_fresh now W) by done. pose proof (recent_nonneg now W f Hfs). lia.
Qed.

(** *** One batch of one source *)
Section Properties.
Context {KN : Kernel} {KL : KernelLaws} {MO : MapOps} {HO : HashOrder} {HL : HashOrderLaws HO}.

(** **** What the engine means to keep of one source *)

(** The batches that were counted, with their seconds, and the end of the last
    block, if there was one. *)
Record Watch := mkWatch {
  seen : list (Z * Z);
  ends : option Z;
}.

Definition under_block (now_s : Z) (w : Watch) : bool :=
  match ends w with Some until => now_s <? until | None => false end.

Definition block_end (cfg : AdaptiveConfig.t) (now_s : Z) : Z :=
  if AdaptiveConfig.block_duration_s cfg =? 0 then u64_MAX
  else saturating_add 64 now_s (AdaptiveConfig.block_duration_s cfg).

(** A batch while the source is blocked is not counted; any other is compared with
    the threshold together with everything counted before that is recent. *)
Definition observe (cfg : AdaptiveConfig.t) (now_s count : Z) (w : Watch) : Watch :=
  if under_block now_s w then w
  else
    let seen := seen w ++ [(now_s, count)] in
    mkWatch seen (if AdaptiveConfig.threshold cfg <=? recent now_s (AdaptiveConfig.window_s cfg) seen
                  then Some (block_end cfg now_s) else ends w).

(** The engine and the kernel run, and [src] is watched: batches of any source,
    pruning within the limit, and whatever the rest of the program does to the
    statistics and the maps. *)
Section Watched.
Context (cfg : AdaptiveConfig.t) (src : IpKey.t).

Definition second (s : KState) : Z := ktime_get_ns (ktime_calls s) / 1000000000.

Inductive engine_step : AdaptiveEngine.t * Stats.t * KState * Watch -> AdaptiveEngine.t * Stats.t * KState * Watch -> Prop :=
  | step_batch e stats s w any count : 0 < count ->
      engine_step (e, stats, s, w)
        (snd (on_events any count (e, stats, s)), if decide (any = src) then observe cfg (second s) count w else w)
  | step_prune e stats s w :
      over_limit (prune_live (second s) e) = false ->
      engine_step (e, stats, s, w) (prune (second s) e, stats, snd (monotonic_secs s), w)
  | step_elsewhere e stats s w stats' s' : (ktime_calls s <= ktime_calls s')%nat ->
      engine_step (e, stats, s, w) (e, stats', s', w).

(** The engine's maps stand for what it means to keep. *)
Definition watched : AdaptiveEngine.t * Stats.t * KState * Watch -> Prop := fun '(e, stats, s, w) =>
  config e = cfg /\
  Forall (fun tc => 0 <= snd tc) (seen w) /\
  stands_for (AdaptiveConfig.window_s cfg) (second s) (default [] (windows e !! src)) (seen w) /\
  match blocked e !! src with
  | Some until => ends w = Some until
  | None => forall now, second s <= now -> under_block now w = false
  end.

Hypothesis clock_ticks : forall n, ktime_get_ns n <= ktime_get_ns (S n).
Hypothesis window_nonneg : 0 <= AdaptiveConfig.window_s cfg.

Lemma second_le s s' : (ktime_calls s <= ktime_calls s')%nat -> second s <= second s'.
Proof using clock_ticks.
  intros H. apply Z.div_le_mono; [done|]. induction H as [|n _ IH]; [done|]. by etransitivity; [|apply clock_ticks].
Qed.

Lemma stands_for_later W last last' win l : last <= last' -> stands_for W last win l -> stands_for W last' win l.
Proof.
  intros Hle [Hr Hf]. split; [intros; apply Hr; lia|]. eapply list.Forall_impl; [exact Hf|]. cbn. lia.
Qed.

Lemma recent_weight now W l : Forall (fun tc => 0 <= snd tc) l -> 0 <= recent now W l <= weight l.
Proof. induction 1 as [|x l Hx _ IH]; cbn; [done|]. case_match; lia. Qed.

Lemma weight_cat l1 l2 : weight (l1 ++ l2) = weight l1 + weight l2.
Proof. induction l1 as [|x l1 IH]; cbn; [done|]. rewrite IH. lia. Qed.

(** Time passes. *)
Lemma watched_later e stats s w stats' s' : (ktime_calls s <= ktime_calls s')%nat ->
  watched (e, stats, s, w) -> watched (e, stats', s', w).
Proof using clock_ticks.
  intros Hle%second_le (Hc & Hn & Hw & Hb). split; [done|]. split; [done|]. split; [by eapply stands_for_later|].
  destruct (blocked e !! src); [done|]. intros now H. apply Hb. lia.
Qed.

(** Dead windows and ended blocks are not missed. *)
Lemma dead_window now now' W l : now <= now' -> alive now W l = false -> recent now' W l = 0.
Proof.
  intros Hle. unfold alive. induction l as [|x l IH]; cbn; [done|]. intros [Hx Hl]%orb_false_iff. rewrite IH by done.
  assert (in_window now' W (fst x) = false) as ->; [|done]. unfold in_window, saturating_sub in *. rewrite Z.leb_gt in *. lia.
Qed.

Lemma watched_prune e stats s w : watched (e, stats, s, w) -> watched (prune_live (second s) e, stats, s, w).
Proof using Type.
  intros (Hc & Hn & [Hr Hf] & Hb). split; [done|]. split; [done|]. split.
  - cbn. rewrite map_lookup_filter. destruct (windows e !! src) as [win|]; cbn; [|by split].
    case_guard as Ha; cbn; [by split|]. apply not_true_is_false in Ha. split; [|by constructor]. intros now Hle. cbn.
    rewrite <- Hr by done. rewrite Hc in Ha. symmetry. by apply (dead_window (second s)).
  - cbn. rewrite map_lookup_filter. destruct (blocked e !! src) as [until|]; cbn; [|done].
    case_guard; cbn; [done|]. intros now Hle. unfold under_block. rewrite Hb. apply Z.ltb_ge. lia.
Qed.

(** Of the other sources a batch changes neither window nor block. *)
Lemma batch_other any count e stats s : any <> src ->
  let '(_, (e', stats', s')) := on_events any count (e, stats, s) in
  config e' = config e /\ windows e' !! src = windows e !! src /\ blocked e' !! src = blocked e !! src /\
  (ktime_calls s <= ktime_calls s')%nat.
Proof using Type.
  intros Hne. unfold on_events. destruct (_ || _); [by split_and!|].
  unfold monotonic_secs, monotonic_ns, bind, get_ktime_ns, ret. cbn [fst snd].
  destruct (match blocked e !! any with Some u => _ | None => _ end); [split_and!; cbn; try done; lia|].
  destruct (_ >=? _); [|cbn; rewrite lookup_insert_ne by done; split_and!; try done; lia].
  destruct (_ =? 0); cbn; rewrite !lookup_insert_ne by done; split_and!; try done; lia.
Qed.

(** The entry that a block of the engine leaves; the clock is read again for the
    deadline, if there is one, and for the merge. *)
Definition engine_entry (s : KState) : BlockEntry.t :=
  let reading n := ktime_get_ns (n + ktime_calls s)%nat in
  merge_block_entry (lru_get (BLACKLIST s) src)
    (reading (if AdaptiveConfig.block_duration_s cfg =? 0 then 1%nat else 2%nat))
    (deadline (reading 1%nat) (AdaptiveConfig.block_duration_s cfg)) rules.ADAPTIVE false.

Lemma batch_result e stats s w count :
  AdaptiveConfig.enabled cfg = true -> 0 < count -> weight (seen (observe cfg (second s) count w)) < 2 ^ 64 ->
  watched (e, stats, s, w) ->
  let now_s := second s in
  let '(_, (e', stats', s')) := on_events src count (e, stats, s) in
  watched (e', stats', s', observe cfg now_s count w) /\
  if under_block now_s w then e' = e /\ stats' = stats /\ BLACKLIST s' = BLACKLIST s
  else if AdaptiveConfig.threshold cfg <=? recent now_s (AdaptiveConfig.window_s cfg) (seen w ++ [(now_s, count)]) then
    BLACKLIST s' = lru_insert (BLACKLIST s) src (engine_entry s) /\
    blocked e' = <[src := block_end cfg now_s]> (blocked e) /\
    stats' = stats <| Stats.adaptive_blocked ::= fun n => wrapping_add 64 n 1 |>
  else BLACKLIST s' = BLACKLIST s /\ blocked e' = blocked e /\ stats' = stats.
Proof using clock_ticks window_nonneg.
  intros He Hc Hlt Hwatch. pose proof Hwatch as (Hcfg & Hn & Hst & Hb). cbv zeta.
  assert (Hd : under_block (second s) w = match blocked e !! src with Some until => until >? second s | None => false end).
  { destruct (blocked e !! src); [|by apply Hb]. unfold under_block. by rewrite Hb, Z.gtb_ltb. }
  unfold on_events. rewrite Hcfg, He, (proj2 (Z.eqb_neq count 0)) by lia. cbn [orb negb].
  unfold monotonic_secs, monotonic_ns, bind, get_ktime_ns, ret. cbn [fst snd]. fold (second s). rewrite <- Hd.
  unfold observe in *. destruct (under_block (second s) w) eqn:Hu; [split; [by apply (watched_later e stats s); [cbn; lia|]|done]|].
  cbn [seen] in Hlt. rewrite weight_cat in Hlt. cbn [weight fst snd] in Hlt.
  pose proof (recent_weight (second s) (AdaptiveConfig.window_s cfg) _ Hn) as Hrw.
  destruct (slide_stands_for (AdaptiveConfig.window_s cfg) (second s) (second s) count
    (default [] (windows e !! src)) (seen w)) as [Hw Ht]; [done|done|done|done|lia|].
  assert (Hn' : Forall (fun tc => 0 <= snd tc) (seen w ++ [(second s, count)]))
    by (apply Forall_app; split; [done|by constructor; [cbn; lia|]]).
  cbv zeta. rewrite Ht, Z.geb_leb.
  assert (Hk : forall e' stats' s' w', config e' = cfg -> seen w' = seen w ++ [(second s, count)] ->
    (ktime_calls s <= ktime_calls s')%nat -> windows e' !! src = Some (slide (second s) (AdaptiveConfig.window_s cfg) count
      (default [] (windows e !! src))) ->
    match blocked e' !! src with
    | Some until => ends w' = Some until
    | None => forall now, second s <= now -> under_block now w' = false
    end -> watched (e', stats', s', w')).
  { intros e' stats' s' w' H1 H2 H3 H4 H5. apply (watched_later e' stats' s); [done|].
    split; [done|]. rewrite H2, H4. split; [done|]. by split. }
  destruct (AdaptiveConfig.threshold cfg <=? _).
  - unfold engine_entry, deadline, block_end in *.
    destruct (AdaptiveConfig.block_duration_s cfg =? 0); cbn -[watched]; (split; [|done]);
      apply Hk; cbn; rewrite ?lookup_insert_eq; (done || lia).
  - cbn -[watched]. split; [|done]. apply Hk; cbn; rewrite ?lookup_insert_eq; (done || lia).
Qed.

Definition watch : AdaptiveEngine.t * Stats.t * KState * Watch -> Watch := snd.

Lemma observe_weight now_s count w : 0 < count -> weight (seen w) <= weight (seen (observe cfg now_s count w)) <= weight (seen w) + count.
Proof.
  intros Hc. unfold observe. destruct (under_block now_s w); [lia|]. cbn [seen]. rewrite weight_cat. cbn. lia.
Qed.

Lemma step_weight x y : engine_step x y -> weight (seen (watch x)) <= weight (seen (watch y)).
Proof using Type.
  intros [e stats s w any count Hc| |]; cbn; [|lia..]. case_decide; [|lia]. by apply (observe_weight (second s) count w).
Qed.

Lemma watched_new stats s : watched (engine_new cfg, stats, s, mkWatch [] None).
Proof using Type.
  split; [done|]. split; [constructor|]. cbn. rewrite !lookup_empty. split; [by split|done].
Qed.

Lemma step_watched x y : AdaptiveConfig.enabled cfg = true -> engine_step x y ->
  weight (seen (watch y)) < 2 ^ 64 -> watched x -> watched y.
Proof using clock_ticks window_nonneg.
  intros He [e stats s w any count Hc|e stats s w Hl|e stats s w stats' s' Hle] Hlt Hx.
  - cbn [watch snd] in Hlt. case_decide as Heq; [subst any|].
    + pose proof (batch_result e stats s w count He Hc Hlt Hx) as H.
      destruct (on_events src count (e, stats, s)) as [? [[e' stats'] s']]. by destruct H.
    + pose proof (batch_other any count e stats s Heq) as H.
      destruct (on_events any count (e, stats, s)) as [? [[e' stats'] s']]. destruct H as (H1 & H2 & H3 & H4).
      apply (watched_later e' stats' s); [done|]. unfold watched in *. cbn [snd]. by rewrite H1, H2, H3.
  - apply (watched_later _ stats s); [cbn; lia|]. unfold prune, evict_fuel. cbn [evict]. rewrite Hl. by apply watched_prune.
  - by apply (watched_later e stats s).
Qed.

Lemma run_watched x y : AdaptiveConfig.enabled cfg = true -> rtc engine_step x y ->
  weight (seen (watch y)) < 2 ^ 64 -> watched x -> watched y.
Proof using clock_ticks window_nonneg.
  intros He Hxy. induction Hxy as [|x y z Hxy Hyz IH]; [done|]. intros Hlt Hx. apply IH; [done|].
  apply (step_watched x); [done|done| |done]. revert Hlt. clear -Hyz.
  induction Hyz as [|x y z Hxy _ IH]; [done|]. apply step_weight in Hxy. intros Hlt. specialize (IH Hlt). lia.
Qed.
End Watched.

(** C11: the engine counts exactly.  Let the engine run with one configuration
    from its start: batches of any sources in any order, prunings within the memory
    limit, and anything else that may happen to the statistics and to the maps.
    What it has kept of a source is then enough to know every batch of the source
    that did not fall under a block of the engine ([observe] says which those are,
    with the whole history at hand): the next batch does nothing but read the clock
    while the engine's block of the source lasts; otherwise it is compared with the
    threshold together with all counted events of the source that are at most
    [window_s] seconds old; at the threshold exactly this source is put on the data
    plane's black list, with the configured duration counted from the clock (for
    ever, for duration 0), merged with the entry that is there at the time of the
    write, and one more block is counted; below it nothing but the window changes. *)
Theorem adaptive_counts_window cfg src stats0 s0 e stats s w count :
  (forall n, ktime_get_ns n <= ktime_get_ns (S n)) ->
  AdaptiveConfig.enabled cfg = true -> 0 <= AdaptiveConfig.window_s cfg ->
  rtc (engine_step cfg src) (engine_new cfg, stats0, s0, mkWatch [] None) (e, stats, s, w) ->
  0 < count ->
  let now_s := second s in
  let w' := observe cfg now_s count w in
  weight (seen w') < 2 ^ 64 ->
  let '(_, (e', stats', s')) := on_events src count (e, stats, s) in
  if under_block now_s w then e' = e /\ stats' = stats /\ BLACKLIST s' = BLACKLIST s
  else if AdaptiveConfig.threshold cfg <=? recent now_s (AdaptiveConfig.window_s cfg) (seen w ++ [(now_s, count)]) then
    BLACKLIST s' = lru_insert (BLACKLIST s) src (engine_entry cfg src s) /\
    blocked e' = <[src := block_end cfg now_s]> (blocked e) /\
    stats' = stats <| Stats.adaptive_blocked ::= fun n => wrapping_add 64 n 1 |>
  else BLACKLIST s' = BLACKLIST s /\ blocked e' = blocked e /\ stats' = stats.
Proof.
  intros Ht He HW Hrun Hc now_s w' Hlt.
  assert (Hw : watched cfg src (e, stats, s, w)).
  { apply (run_watched cfg src Ht HW _ _ He Hrun); [|apply watched_new].
    pose proof (observe_weight cfg now_s count w Hc). cbn [watch snd]. fold w' in H. lia. }
  pose proof (batch_result cfg src Ht HW e stats s w count He Hc Hlt Hw) as H. cbv zeta in H. fold now_s in H.
  destruct (on_events src count (e, stats, s)) as [? [[e' stats'] s']]. by destruct H.
Qed.

(** *** Pruning *)
Lemma hash_head {V} (m : gmap IpKey.t V) : (0 < size m)%nat ->
  exists k, head (hash_list (dom m)) = Some k /\ is_Some (m !! k).
Proof.
  intros Hs. destruct (hash_list (dom m)) as [|k l] eqn:E.
  - exfalso. assert (size (dom m) = 0%nat) as Hz.
    { unfold size, set_size. cbn. pose proof (hash_list_spec (dom m)) as Hp. rewrite E in Hp.
      symmetry in Hp. by apply Permutation_nil_r in Hp as ->. }
    rewrite size_dom in Hz. lia.
  - exists k. split; [done|]. apply elem_of_dom. apply elem_of_hash_list. rewrite E. by left.
Qed.

Lemma size_delete_lt {V} (m : gmap IpKey.t V) k : is_Some (m !! k) -> (size (delete k m) < size m)%nat.
Proof.
  intros [v Hk]. rewrite map_size_delete_Some by done. pose proof (map_size_ne_0_lookup_2 m k).
  destruct (size m) eqn:E; [|cbn; lia]. destruct H; [by eexists|done].
Qed.

Lemma size_delete_le {V} (m : gmap IpKey.t V) k : (size (delete k m) <= size m)%nat.
Proof.
  destruct (m !! k) eqn:E; [pose proof (size_delete_lt m k ltac:(by eexists)); lia|].
  by rewrite delete_id.
Qed.

Lemma evict_within fuel : forall e, (size (windows e) + size (blocked e) < fuel)%nat ->
  over_limit (evict fuel e) = false.
Proof.
  induction fuel as [|fuel IH]; intros e Hf; [lia|]. cbn [evict].
  destruct (over_limit e) eqn:Ho; [|done].
  unfold over_limit in Ho. rewrite !Z.gtb_ltb in Ho. apply orb_true_iff in Ho. rewrite !Z.ltb_lt in Ho.
  assert (Hmax : 0 <= MAX_ENTRIES) by done.
  destruct (size (blocked e) <=? size (windows e))%nat eqn:Hcmp.
  - apply Nat.leb_le in Hcmp. destruct (hash_head (windows e)) as (k & -> & Hk); [lia|].
    apply IH. cbn. pose proof (size_delete_lt _ _ Hk). pose proof (size_delete_le (blocked e) k). lia.
  - apply Nat.leb_gt in Hcmp. destruct (hash_head (blocked e)) as (k & -> & Hk); [lia|].
    apply IH. cbn. pose proof (size_delete_lt _ _ Hk). pose proof (size_delete_le (windows e) k). lia.
Qed.

(** C20: pruning ends, and bounds the engine's memory.  Whatever sources an
    attacker has invented, the eviction loop comes to an end with both maps
    within the limit; when the live entries fit, exactly they are kept: the
    windows with an event that still counts and the blocks that have not ended. *)
Theorem prune_bounded now_s e :
  let live := e <| AdaptiveEngine.windows ::= filter (fun kw =>
                     alive now_s (AdaptiveConfig.window_s (config e)) (snd kw) = true) |>
                <| AdaptiveEngine.blocked ::= filter (fun ku => now_s < snd ku) |> in
  over_limit (prune now_s e) = false /\ (over_limit live = false -> prune now_s e = live).
Proof.
  intros live. unfold prune. change (prune_live now_s e) with live. split.
  - apply evict_within. unfold evict_fuel. lia.
  - intros Hl. unfold evict_fuel. cbn [evict]. by rewrite Hl.
Qed.
End Properties.

Module AdaptiveWitness.
Import Samples MapSamples.
Definition cfg : AdaptiveConfig.t := AdaptiveConfig.mk true 10 5 300.
Definition stats : Stats.t := Stats_default.
Definition engine : AdaptiveEngine.t := AdaptiveEngine.mk cfg {[ alice := [(1, 4); (4, 6)] ]} ∅.

(** Six events of one source, one of another, and a pruning. *)
Definition later : AdaptiveEngine.t * Stats.t * KState :=
  let '(_, st) := on_events alice 6 (engine_new cfg, stats, state []) in
  let '(_, (e, stats, s)) := on_events bob 1 st in
  (prune (second s) e, stats, snd (monotonic_secs s)).

Lemma later_run :
  rtc (engine_step cfg alice) (engine_new cfg, stats, state [], mkWatch [] None) (later, mkWatch [(5, 6)] None).
Proof.
  eapply rtc_l; [apply (step_batch cfg alice _ _ _ _ alice 6); lia|].
  eapply rtc_l; [apply (step_batch cfg alice _ _ _ _ bob 1); lia|].
  eapply rtc_l; [apply step_prune; vm_compute; reflexivity|]. match goal with |- rtc _ ?x ?y => replace x with y by (vm_compute; reflexivity) end. done.
Qed.

(** The clock stands at second 5; with four more events of the first source there
    are ten, the threshold. *)
Lemma adaptive_counts_window_witness :
  let '(_, (e', stats', s')) := on_events alice 4 later in
  BLACKLIST s' = lru_insert (BLACKLIST (snd later)) alice (engine_entry cfg alice (snd later)) /\
  blocked e' = <[alice := 305]> (blocked (fst (fst later))) /\
  stats' = snd (fst later) <| Stats.adaptive_blocked ::= fun n => wrapping_add 64 n 1 |>.
Proof.
  exact (adaptive_counts_window cfg alice stats (state []) (fst (fst later)) (snd (fst later)) (snd later)
    (mkWatch [(5, 6)] None) 4 (fun _ => Z.le_refl _) eq_refl ltac:(done) later_run ltac:(done) eq_refl).
Defined.

(** At second 8 the older of the two counts no longer keeps the window alive. *)
Lemma prune_bounded_witness :
  let live := engine <| AdaptiveEngine.windows ::= filter (fun kw =>
                     alive 8 (AdaptiveConfig.window_s (AdaptiveEngine.config engine)) (snd kw) = true) |>
                <| AdaptiveEngine.blocked ::= filter (fun ku => 8 < snd ku) |> in
  over_limit (prune 8 engine) = false /\ (over_limit live = false -> prune 8 engine = live).
Proof. exact (prune_bounded 8 engine). Defined.
End AdaptiveWitness.
