(* ===== verification/AuditLog.v ===== *)
(** * AuditLog: the audit log and its hash chain

    [eshield/src/audit.rs]: the in-memory and the file back end.  Each record
    of the file carries a sequence number, the hash of the record before and
    its own hash; [verify_chain] checks a file.  JSON and SHA-256 come from
    libraries ([Class AuditLib]); a file is the list of its lines and what
    follows the last line feed, and the paths are numbered: 0 is the log, [i] is
    the backup [.log.i].  What the file system refuses ([IoError]) is an argument
    of [append].  Reopening the append handle is implicit in writing by path. *)
From Stdlib Require Import Ascii.
From stdpp Require Import strings gmap pretty countable.
From S2P Require Import Prelude Words.
#[local] Open Scope Z_scope.

Inductive AuditAction :=
  BlockIp | UnblockIp | AllowCidr | DisallowCidr | ReloadConfig | PatchConfig | Start | Stop
  | Login | ResetToken.

Module AuditEntry.
Record t (detail_t : Type) := mk {
  timestamp : string;
  actor : string;
  action : AuditAction;
  detail : detail_t;
  source_ip : option string;
}.
#[global] Arguments mk {_}.
#[global] Arguments timestamp {_}.
#[global] Arguments actor {_}.
#[global] Arguments action {_}.
#[global] Arguments detail {_}.
#[global] Arguments source_ip {_}.
End AuditEntry.

(** A line read back: the chain fields as [as_u64] and [as_str] find them, and
    the entry if the object is one. *)
Module Value.
Record t (entry_t : Type) := mk {
  seq : option Z;
  prev_hash : option string;
  hash : option string;
  entry : option entry_t;
}.
#[global] Arguments mk {_}.
#[global] Arguments seq {_}.
#[global] Arguments prev_hash {_}.
#[global] Arguments hash {_}.
#[global] Arguments entry {_}.
End Value.

Class AuditLib := {
  json_value : Type;
  (** [serde_json::to_string] *)
  action_json : AuditAction -> option string;
  detail_json : json_value -> option string;
  (** the line of an entry with its sequence number, previous hash and hash *)
  to_line : AuditEntry.t json_value -> Z -> string -> string -> option string;
  from_str : string -> option (Value.t (AuditEntry.t json_value));
  sha256 : string -> list Z;
}.

(** [line.trim().is_empty()] *)
Definition is_space (c : Ascii.ascii) : bool :=
  let n := Ascii.N_of_ascii c in ((9 <=? n)%N && (n <=? 13)%N) || (n =? 32)%N.
Definition blank (line : string) : bool := forallb is_space (String.list_ascii_of_string line).

(** [{:02x}] *)
Definition hex_digit (n : Z) : Ascii.ascii :=
  Ascii.ascii_of_N (Z.to_N (if n <? 10 then 48 + n else 87 + n)).
Definition hex_byte (b : Z) : string :=
  String (hex_digit (Z.shiftr b 4)) (String (hex_digit (Z.land b 15)) EmptyString).

Section Audit.
Context {L : AuditLib}.
Definition sha256_hex (input : string) : string :=
  foldr (fun b s => hex_byte b +:+ s) ""%string (sha256 input).

Abbreviation entry_t := (AuditEntry.t json_value).

(** [None] is an error of the serialiser. *)
Definition canonical_entry (e : entry_t) : option string :=
  action ← action_json (AuditEntry.action e);
  detail ← detail_json (AuditEntry.detail e);
  Some (AuditEntry.timestamp e +:+ "|" +:+ AuditEntry.actor e +:+ "|" +:+ action +:+ "|" +:+
        detail +:+ "|" +:+ default "" (AuditEntry.source_ip e))%string.

Definition chain_hash (seq : Z) (prev canonical : string) : string :=
  sha256_hex (pretty seq +:+ "|" +:+ prev +:+ "|" +:+ canonical).

(** ** The memory back end *)
Record MemoryAuditBackend := mkMemory { entries : list entry_t; max_entries : nat }.

Definition memory_append (e : entry_t) (b : MemoryAuditBackend) : MemoryAuditBackend :=
  let entries := entries b ++ [e] in
  mkMemory (drop (length entries - max_entries b) entries) (max_entries b).

Definition memory_list (limit : nat) (b : MemoryAuditBackend) : list entry_t :=
  reverse (take limit (reverse (entries b))).

(** ** Resuming and verifying a file *)
Fixpoint resume_lines (lines : list string) : Z * string :=
  match lines with
  | [] => (0, "")
  | line :: lines =>
      if blank line then resume_lines lines
      else match from_str line with
           | Some v => (default 0 (Value.seq v), default "" (Value.hash v))
           | None => resume_lines lines
           end
  end.

(** From the end of the file; a file that can not be read starts a new chain. *)
Definition resume_chain (file : option (list string)) : Z * string :=
  match file with
  | None => (0, "")
  | Some lines => resume_lines (reverse lines)
  end.

Inductive Verdict :=
  | Intact (checked : Z) (last_hash : string)
  | BrokenAt (checked seq : Z).

(** [None]: a line that is not JSON, or not an entry. *)
Fixpoint verify_lines (lines : list string) (prev : string) (checked : Z) : option Verdict :=
  match lines with
  | [] => Some (Intact checked prev)
  | line :: lines =>
      if blank line then verify_lines lines prev checked
      else
        let checked := checked + 1 in
        v ← from_str line;
        let seq := default 0 (Value.seq v) in
        let recorded_prev := default "" (Value.prev_hash v) in
        let recorded_hash := default "" (Value.hash v) in
        if String.eqb recorded_hash "" then verify_lines lines "" checked
        else
          e ← Value.entry v;
          canonical ← canonical_entry e;
          let expected := chain_hash seq recorded_prev canonical in
          if negb (String.eqb recorded_prev prev) || negb (String.eqb expected recorded_hash)
          then Some (BrokenAt checked seq)
          else verify_lines lines recorded_hash checked
  end.

(** The report: whether the chain holds, the lines checked, the first bad one. *)
Definition verify_chain (file : option (list string)) : option (bool * Z * option Z) :=
  lines ← file;
  verdict ← verify_lines lines "" 0;
  Some (match verdict with
        | Intact checked _ => (true, checked, None)
        | BrokenAt checked seq => (false, checked, Some seq)
        end).

(** ** The file back end *)

(** A file as its lines, and what follows the last line feed. *)
Record LogFile := mkLog { whole : list string; rest : string }.

Definition log_lines (f : LogFile) : list string :=
  whole f ++ (if String.eqb (rest f) "" then [] else [rest f]).

(** The log (0) and its backups *)
Abbreviation Files := (gmap nat LogFile).

Record FileAuditBackend := mkFile {
  max_size : Z;
  max_backups : nat;
  chain_seq : Z;
  chain_prev : string;
}.

Definition file_new (max_size_mb : Z) (files : Files) : FileAuditBackend :=
  let '(seq, prev) := resume_chain (log_lines <$> files !! 0%nat) in
  mkFile (saturating_mul 64 max_size_mb (1024 * 1024)) 3 seq prev.

(** What the file system may refuse: the size of the log, one of the renames, the
    opening of the log, or the end of a write after some of its bytes. *)
Inductive IoError :=
  | MetadataFails
  | RenameFails (n : nat)
  | OpenFails
  | WriteFails (written : nat).

(** [meta.len()]; every line with its line feed. *)
Definition file_len (f : LogFile) : Z :=
  foldr (fun line n => Z.of_nat (String.length line) + 1 + n) 0 (whole f) + Z.of_nat (String.length (rest f)).

(** The renames of a rotation in order, of the files that exist; [fails] is the
    number of the one that is refused. *)
Fixpoint rename_each (fails : option nat) (renames : list (nat * nat)) (files : Files) : bool * Files :=
  match renames with
  | [] => (true, files)
  | (src, dst) :: renames =>
      match files !! src with
      | None => rename_each fails renames files
      | Some f =>
          match fails with
          | Some O => (false, files)
          | _ => rename_each (pred <$> fails) renames (<[dst := f]> (delete src files))
          end
      end
  end.

Definition rotation (max_backups : nat) : list (nat * nat) :=
  map (fun i => (i, S i)) (reverse (seq 1 (max_backups - 1))) ++ [(0%nat, 1%nat)].

(** Whether the log was rotated; [None] is an error. *)
Definition maybe_rotate (error : option IoError) (b : FileAuditBackend) (files : Files) : option bool * Files :=
  if max_size b =? 0 then (Some false, files)
  else
    match error with
    | Some MetadataFails => (None, files)
    | _ =>
        match files !! 0%nat with
        | None => (Some false, files)
        | Some f =>
            if file_len f <=? max_size b then (Some false, files)
            else
              let fails := match error with Some (RenameFails n) => Some n | _ => None end in
              let '(done, files) := rename_each fails (rotation (max_backups b)) files in
              (if done then Some true else None, files)
        end
    end.

(** The first [n] bytes of a line and its line feed. *)
Definition write_bytes (n : nat) (line : string) (f : LogFile) : LogFile :=
  if (n <=? String.length line)%nat then mkLog (whole f) (rest f +:+ String.substring 0 n line)
  else mkLog (whole f ++ [rest f +:+ line]) "".

(** Opening creates the file.  Whether the handle of the last write is still good
    does not matter: opening again goes on at the end of the same file. *)
Definition write_line (error : option IoError) (line : string) (files : Files) : bool * Files :=
  match error with
  | Some OpenFails => (false, files)
  | _ =>
      let f := default (mkLog [] "") (files !! 0%nat) in
      match error with
      | Some (WriteFails n) => (false, <[0%nat := write_bytes n line f]> files)
      | _ => (true, <[0%nat := write_bytes (S (String.length line)) line f]> files)
      end
  end.

(** [false] is an error, of the serialiser or of the file system. *)
Definition append (error : option IoError) (e : entry_t) (b : FileAuditBackend) (files : Files)
    : bool * (FileAuditBackend * Files) :=
  let seq := wrap 64 (chain_seq b + 1) in
  let b := mkFile (max_size b) (max_backups b) seq (chain_prev b) in
  let prev := chain_prev b in
  match canonical_entry e with
  | None => (false, (b, files))
  | Some canonical =>
      let hash := chain_hash seq prev canonical in
      match to_line e seq prev hash with
      | None => (false, (b, files))
      | Some line =>
          let b := mkFile (max_size b) (max_backups b) seq hash in
          match maybe_rotate error b files with
          | (None, files) => (false, (b, files))
          | (Some rotated, files) =>
              let b := if rotated then mkFile (max_size b) (max_backups b) 0 "" else b in
              let '(written, files) := write_line error line files in
              (written, (b, files))
          end
      end
  end.
End Audit.

(** What the log relies on: a written line reads back and is not blank,
    and a digest has 32 bytes. *)
Class AuditLaws (L : AuditLib) : Prop := {
  line_reads : forall e seq prev hash line, to_line e seq prev hash = Some line ->
    from_str line = Some (Value.mk (Some seq) (Some prev) (Some hash) (Some e));
  line_not_blank : forall e seq prev hash line, to_line e seq prev hash = Some line ->
    blank line = false;
  digest_length : forall s, length (sha256 s) = 32%nat;
}.

Section AuditProperties.
Context {L : AuditLib} {AL : AuditLaws L}.

Abbreviation Files := (gmap nat LogFile).

Lemma hash_not_empty s : sha256_hex s <> ""%string.
Proof. unfold sha256_hex. pose proof (digest_length s). by destruct (sha256 s). Qed.

Lemma verify_lines_app l1 l2 prev n :
  verify_lines (l1 ++ l2) prev n =
  match verify_lines l1 prev n with
  | Some (Intact m q) => verify_lines l2 q m
  | r => r
  end.
Proof.
  revert prev n. induction l1 as [|line l1 IH]; intros prev n; [done|]. cbn [app verify_lines].
  destruct (blank line); [apply IH|]. destruct (from_str line) as [v|]; [|done]. cbn.
  destruct (String.eqb _ ""); [apply IH|]. destruct (Value.entry v) as [e|]; [|done]. cbn.
  destruct (canonical_entry e) as [c|]; [|done]. cbn.
  destruct (negb _ || negb _); [done|]. apply IH.
Qed.

(** What a restart resumes with is the hash the verification ends with. *)
Lemma resume_verified lines n m q :
  verify_lines lines "" n = Some (Intact m q) -> snd (resume_lines (reverse lines)) = q.
Proof.
  revert m q. induction lines as [|line lines IH] using rev_ind; intros m q.
  - cbn. by intros [= _ <-].
  - rewrite verify_lines_app. destruct (verify_lines lines "" n) as [[m' q'|]|]; try done.
    specialize (IH m' q' eq_refl). rewrite reverse_snoc. cbn.
    destruct (blank line); [by intros [= _ <-]|].
    destruct (from_str line) as [v|]; [|done]. cbn.
    destruct (String.eqb_spec (default "" (Value.hash v)) "") as [E|E]; [by intros [= _ <-]|].
    destruct (Value.entry v) as [e|]; [|done]. cbn. destruct (canonical_entry e); [|done]. cbn.
    destruct (negb _ || negb _); [done|]. by intros [= _ <-].
Qed.

(** A line of [append] after a chain that ends in [prev]. *)
Lemma verify_line e seq prev canonical line n :
  canonical_entry e = Some canonical ->
  to_line e seq prev (chain_hash seq prev canonical) = Some line ->
  verify_lines [line] prev n = Some (Intact (n + 1) (chain_hash seq prev canonical)).
Proof.
  intros Hc Hl. cbn. rewrite (line_not_blank _ _ _ _ _ Hl), (line_reads _ _ _ _ _ Hl). cbn.
  rewrite (proj2 (String.eqb_neq _ _)) by apply hash_not_empty. rewrite Hc. cbn.
  by rewrite !String.eqb_refl.
Qed.

(** *** The life of a log *)

(** The log verifies, and ends with a line feed. *)
Definition sound_log (files : Files) : Prop :=
  forall f, files !! 0%nat = Some f ->
    rest f = ""%string /\ exists checked, verify_chain (Some (log_lines f)) = Some (true, checked, None).

(** The chain in memory continues the chain in the file. *)
Definition chained (b : FileAuditBackend) (files : Files) : Prop :=
  match files !! 0%nat with
  | None => chain_prev b = ""%string
  | Some f => rest f = ""%string /\ exists n, verify_lines (log_lines f) "" 0 = Some (Intact n (chain_prev b))
  end.

(** The error left the bytes of the log as they were. *)
Definition nothing_written (files files' : Files) : Prop :=
  default (mkLog [] "") (files' !! 0%nat) = default (mkLog [] "") (files !! 0%nat).

(** No rotation is due. *)
Definition fits (b : FileAuditBackend) (files : Files) : Prop := forall error, fst (maybe_rotate error b files) <> Some true.

(** Entries appended, the agent restarted; [fresh] is false between an append that
    the file system refused before anything was written and the restart. *)
Inductive audit_step : FileAuditBackend * Files * bool -> FileAuditBackend * Files * bool -> Prop :=
  | step_append e b files : fits b files ->
      audit_step (b, files, true) (snd (append None e b files), true)
  | step_refused error e b files fresh :
      nothing_written files (snd (snd (append (Some error) e b files))) ->
      audit_step (b, files, fresh) (snd (append (Some error) e b files), false)
  | step_restart max_size_mb b files fresh :
      audit_step (b, files, fresh) (file_new max_size_mb files, files, true).

Lemma fits_none b files : fits b files -> maybe_rotate None b files = (Some false, files).
Proof.
  intros H. specialize (H None). revert H. unfold maybe_rotate. destruct (_ =? _); [done|].
  destruct (files !! 0%nat) as [f|]; [|done]. destruct (_ <=? _); [done|].
  assert (Hd : forall l fs, fst (rename_each None l fs) = true).
  { induction l as [|[src dst] l IH]; intros fs; [done|]. cbn. by destruct (fs !! src). }
  specialize (Hd (rotation (max_backups b)) files). destruct (rename_each _ _ _) as [done' fs]. cbn in Hd. by subst.
Qed.

(** Whether to rotate does not depend on the chain. *)
Lemma maybe_rotate_chain error b seq prev files :
  maybe_rotate error (mkFile (max_size b) (max_backups b) seq prev) files = maybe_rotate error b files.
Proof. reflexivity. Qed.

Lemma chained_sound b files : chained b files -> sound_log files.
Proof.
  unfold chained. intros H f E. rewrite E in H. destruct H as [Hr [n Hv]]. split; [done|]. exists n. cbn. by rewrite Hv.
Qed.

Lemma file_new_chained mb files : sound_log files -> chained (file_new mb files) files.
Proof.
  intros H. unfold chained, file_new, resume_chain.
  destruct (files !! 0%nat) as [f|] eqn:E; [|done]. destruct (H f E) as [Hr [n Hv]]. cbn [fmap option_fmap option_map].
  cbn in Hv. destruct (verify_lines (log_lines f) "" 0) as [[m q|]|] eqn:El; [|done|done].
  pose proof (resume_verified _ _ _ _ El) as Hq. destruct (resume_lines _) as [seq prev]. cbn in *. subst q. eauto.
Qed.

Lemma sound_same files files' : nothing_written files files' -> sound_log files -> sound_log files'.
Proof.
  unfold nothing_written. intros E H f Ef. rewrite Ef in E. cbn in E. subst f.
  destruct (files !! 0%nat) as [f|] eqn:E0; [by apply H|]. split; [done|]. by exists 0.
Qed.

Lemma write_whole line f : rest f = ""%string -> write_bytes (S (String.length line)) line f = mkLog (whole f ++ [line]) "".
Proof. intros Hr. unfold write_bytes. rewrite (proj2 (Nat.leb_gt _ _)) by lia. by rewrite Hr. Qed.

Lemma log_lines_terminated f : rest f = ""%string -> log_lines f = whole f.
Proof. intros Hr. unfold log_lines. rewrite Hr. apply app_nil_r. Qed.

(** A good append to a log that ends with a line feed. *)
Lemma append_lines e b files canonical line :
  fits b files -> canonical_entry e = Some canonical ->
  let seq := wrap 64 (chain_seq b + 1) in
  to_line e seq (chain_prev b) (chain_hash seq (chain_prev b) canonical) = Some line ->
  let f := default (mkLog [] "") (files !! 0%nat) in rest f = ""%string ->
  append None e b files =
    (true, (mkFile (max_size b) (max_backups b) seq (chain_hash seq (chain_prev b) canonical),
            <[0%nat := mkLog (log_lines f ++ [line]) ""]> files)).
Proof.
  intros Hfit Hc seq Hl f Hr. unfold append. rewrite Hc. cbn [max_size max_backups chain_prev]. fold seq. rewrite Hl.
  rewrite maybe_rotate_chain, (fits_none _ _ Hfit). unfold write_line. fold f. by rewrite write_whole, log_lines_terminated.
Qed.

Lemma append_chained e b files : fits b files -> chained b files ->
  chained (fst (snd (append None e b files))) (snd (snd (append None e b files))).
Proof.
  intros Hfit Hc. destruct (canonical_entry e) as [c|] eqn:Ec; [|unfold append; by rewrite Ec].
  destruct (to_line e (wrap 64 (chain_seq b + 1)) (chain_prev b) (chain_hash (wrap 64 (chain_seq b + 1)) (chain_prev b) c))
    as [line|] eqn:El; [|unfold append; rewrite Ec; cbn [max_size max_backups chain_prev]; by rewrite El].
  rewrite (append_lines e b files c line Hfit Ec El).
  - unfold chained in *. cbn [fst snd chain_prev]. rewrite lookup_insert_eq. split; [done|].
    rewrite log_lines_terminated by done. cbn [whole].
    destruct (files !! 0%nat) as [f|]; cbn [default from_option].
    + destruct Hc as [Hr [n Hv]]. exists (n + 1). unfold id. rewrite verify_lines_app, Hv. by eapply verify_line.
    + exists 1. rewrite Hc in El |- *. by apply (verify_line e _ "" c line 0).
  - unfold chained in Hc. by destruct (files !! 0%nat); [apply Hc|].
Qed.

Definition life_ok : FileAuditBackend * Files * bool -> Prop := fun '(b, files, fresh) =>
  if fresh then chained b files else sound_log files.

Lemma audit_step_ok s s' : audit_step s s' -> life_ok s -> life_ok s'.
Proof.
  intros [e b files Hfit|error e b files fresh Hn|mb b files fresh] Hok; cbn [life_ok] in *.
  - pose proof (append_chained e b files Hfit Hok) as H. by destruct (snd (append None e b files)).
  - assert (Hs : sound_log files) by (destruct fresh; [by eapply chained_sound|done]).
    pose proof (sound_same _ _ Hn Hs) as H. by destruct (snd (append (Some error) e b files)).
  - apply file_new_chained. destruct fresh; [by eapply chained_sound|done].
Qed.

(** C34: the log the agent writes verifies.  Starting from no log, or from one
    that verifies and ends with a line feed, and without a rotation, the log
    verifies after any sequence of appended entries, restarts, and entries that
    the file system refuses before a byte of them is written, as long as the agent
    is restarted between such a refusal and the next entry that is written. *)
Theorem audit_log_verifies max_size_mb (files files' : Files) b' fresh :
  sound_log files ->
  rtc audit_step (file_new max_size_mb files, files, true) (b', files', fresh) ->
  sound_log files'.
Proof.
  intros H Hsteps.
  assert (Hok : life_ok (b', files', fresh)).
  { revert Hsteps. generalize (b', files', fresh). intros s' Hsteps.
    assert (H0 : life_ok (file_new max_size_mb files, files, true)) by by apply file_new_chained.
    induction Hsteps as [|s1 s2 s3 Hstep _ IH]; [done|]. apply IH. by eapply audit_step_ok. }
  cbn in Hok. destruct fresh; [by eapply chained_sound|done].
Qed.

(** a refused write breaks the chain.  The hash of an entry is remembered
    before the entry is written.  When the file system refuses the entry, the next
    one that is written refers to an entry that is not in the log, and the
    verification fails at that line. *)
Theorem refused_write_breaks_chain error e e' b (files : Files) b1 files1 b2 files2 canonical line :
  chained b files -> append (Some error) e b files = (false, (b1, files1)) -> nothing_written files files1 ->
  canonical_entry e = Some canonical ->
  let seq := wrap 64 (chain_seq b + 1) in
  to_line e seq (chain_prev b) (chain_hash seq (chain_prev b) canonical) = Some line ->
  chain_hash seq (chain_prev b) canonical <> chain_prev b -> fst (maybe_rotate (Some error) b files) <> Some true ->
  fits b1 files1 -> append None e' b1 files1 = (true, (b2, files2)) ->
  exists checked, verify_chain (log_lines <$> files2 !! 0%nat) = Some (false, checked + 1, Some (wrap 64 (seq + 1))).
Proof.
  intros Hc E1 Hn Ec seq El Hne Hrot Hfit E2.
  assert (Hb1 : chain_seq b1 = seq /\ chain_prev b1 = chain_hash seq (chain_prev b) canonical).
  { unfold append in E1. rewrite Ec in E1. cbn [max_size max_backups chain_prev] in E1. fold seq in E1. rewrite El in E1.
    rewrite maybe_rotate_chain in E1. destruct (maybe_rotate (Some error) b files) as [[[|]|] fs]; [done| |by injection E1 as <- _].
    destruct (write_line _ _ _) as [w fs']. by injection E1 as _ <- _. }
  destruct Hb1 as [Hseq Hprev].
  destruct (canonical_entry e') as [c'|] eqn:Ec'; [|unfold append in E2; by rewrite Ec' in E2].
  destruct (to_line e' (wrap 64 (chain_seq b1 + 1)) (chain_prev b1) (chain_hash (wrap 64 (chain_seq b1 + 1)) (chain_prev b1) c'))
    as [line'|] eqn:El'; [|unfold append in E2; rewrite Ec' in E2; cbn [max_size max_backups chain_prev] in E2; by rewrite El' in E2].
  set (f := default (mkLog [] "") (files1 !! 0%nat)).
  assert (Hf : rest f = ""%string /\ exists n, verify_lines (log_lines f) "" 0 = Some (Intact n (chain_prev b))).
  { unfold f. rewrite Hn. unfold chained in Hc. destruct (files !! 0%nat); [done|]. rewrite Hc. split; [done|]. by exists 0. }
  destruct Hf as [Hr [n Hv]]. rewrite (append_lines e' b1 files1 c' line' Hfit Ec' El' Hr) in E2. injection E2 as _ <-.
  exists n. rewrite lookup_insert_eq. cbn [fmap option_fmap option_map]. rewrite log_lines_terminated by done. cbn [whole verify_chain].
  cbn. fold f. rewrite verify_lines_app, Hv. cbn. rewrite (line_not_blank _ _ _ _ _ El'), (line_reads _ _ _ _ _ El'). cbn.
  rewrite (proj2 (String.eqb_neq _ _)) by apply hash_not_empty. rewrite Ec'. cbn. rewrite Hprev, (proj2 (String.eqb_neq _ _)) by done.
  cbn. by rewrite Hseq.
Qed.

(** a rotation breaks the chain.  The entry that makes the log rotate
    was linked to the old file before the rotation and is written to the new
    one: the verification of the new file fails at its first line. *)
Theorem rotation_breaks_chain e b (files : Files) b' files' :
  fst (maybe_rotate None b files) = Some true -> chain_prev b <> ""%string ->
  append None e b files = (true, (b', files')) ->
  verify_chain (log_lines <$> files' !! 0%nat) = Some (false, 1, Some (wrap 64 (chain_seq b + 1))).
Proof.
  intros Hrot Hprev. unfold append.
  destruct (canonical_entry e) as [c|] eqn:Ec; [|done]. destruct (to_line _ _ _ _) as [line|] eqn:El; [|done].
  cbn [max_size max_backups chain_prev] in El |- *. rewrite maybe_rotate_chain.
  assert (Hnone : snd (maybe_rotate None b files) !! 0%nat = None).
  { revert Hrot. unfold maybe_rotate. destruct (_ =? _); [done|]. destruct (files !! 0%nat) as [f|] eqn:E0; [|done].
    destruct (_ <=? _); [done|]. unfold rotation.
    assert (H : forall l fs, fs !! 0%nat = Some f -> Forall (fun p => fst p <> 0%nat /\ snd p <> 0%nat) l ->
      snd (rename_each None (l ++ [(0%nat, 1%nat)]) fs) !! 0%nat = None).
    { induction l as [|[src dst] l IH]; intros fs Hf Hl.
      - cbn. rewrite Hf. cbn. by rewrite lookup_insert_ne, lookup_delete_eq.
      - apply list.Forall_cons in Hl as [[H1 H2] Hl]. cbn in *. destruct (fs !! src); [|by apply IH].
        apply IH; [|done]. by rewrite lookup_insert_ne, lookup_delete_ne. }
    specialize (H (map (fun i => (i, S i)) (reverse (seq 1 (max_backups b - 1)))) files E0).
    destruct (rename_each _ _ _) as [done' fs]. intros _. apply H.
    apply list.Forall_forall. intros x (i & -> & Hi)%list_elem_of_fmap. rewrite elem_of_reverse in Hi.
    apply list_elem_of_In, in_seq in Hi. cbn. lia. }
  destruct (maybe_rotate None b files) as [rotated f1]. cbn in Hrot, Hnone. subst rotated. unfold write_line. rewrite Hnone.
  cbn [default from_option]. rewrite write_whole by done.
  intros [= _ <-]. rewrite lookup_insert_eq. cbn.
  rewrite (line_not_blank _ _ _ _ _ El), (line_reads _ _ _ _ _ El). cbn.
  rewrite (proj2 (String.eqb_neq _ _)) by apply hash_not_empty. rewrite Ec. cbn.
  by rewrite (proj2 (String.eqb_neq _ _)) by exact Hprev.
Qed.

(** Lines without a hash are skipped: a log stripped of its hashes verifies,
    whatever it says. *)
Theorem stripped_log_verifies lines :
  Forall (fun line => blank line = false /\ exists v, from_str line = Some v /\
            default ""%string (Value.hash v) = ""%string) lines ->
  verify_chain (Some lines) = Some (true, Z.of_nat (length lines), None).
Proof.
  intros H. cbn. assert (Hv : forall n prev, verify_lines lines prev n =
      Some (Intact (n + Z.of_nat (length lines)) (if decide (lines = []) then prev else ""%string))).
  { induction H as [|line lines (Hb&v&Hv&Hh) _ IH]; intros n prev; cbn.
    - by rewrite Z.add_0_r.
    - rewrite Hb, Hv. cbn. rewrite Hh. cbn. rewrite IH. do 2 f_equal; [lia|by case_match]. }
  by rewrite Hv.
Qed.

(** The memory back end keeps the newest entries.  After any entries it
    holds the last [max_entries] of them in order, and a listing returns the
    last [limit] of those. *)
Theorem memory_keeps_last max es limit :
  let b := foldl (fun b e => memory_append e b) (mkMemory [] max) es in
  entries b = drop (length es - max) es /\
  memory_list limit b = drop (length (entries b) - limit) (entries b).
Proof.
  cbv zeta. split.
  - assert (H : forall es0, foldl (fun b e => memory_append e b) (mkMemory (drop (length es0 - max) es0) max) es
        = mkMemory (drop (length (es0 ++ es) - max) (es0 ++ es)) max).
    { induction es as [|e es IH]; intros es0; cbn; [by rewrite app_nil_r|].
      unfold memory_append at 2. cbn [entries max_entries].
      replace (drop _ (drop _ es0 ++ [e])) with (drop (length (es0 ++ [e]) - max) (es0 ++ [e])).
      - rewrite IH. by rewrite <- app_assoc.
      - rewrite !length_app, length_drop. cbn [length].
        destruct (le_lt_dec (length es0 + 1) max).
        + replace (length es0 - max)%nat with 0%nat by lia. rewrite drop_0. f_equal. lia.
        + rewrite <- drop_app_le by lia. rewrite drop_drop. f_equal. lia. }
    specialize (H []). rewrite drop_nil in H. by rewrite H.
  - unfold memory_list. set (l := entries _). rewrite take_reverse. by rewrite reverse_involutive.
Qed.
End AuditProperties.

(** ** A concrete library and log *)
Module AuditSample.
#[local] Open Scope string_scope.

Fixpoint bits (p : positive) : string :=
  match p with
  | xH => "1"
  | xO p => String "0"%char (bits p)
  | xI p => String "i"%char (bits p)
  end.

Fixpoint of_bits (s : string) : option positive :=
  match s with
  | EmptyString => None
  | String c EmptyString => Some xH
  | String c s => p ← of_bits s; Some (if Ascii.eqb c "0"%char then xO p else xI p)
  end.

Lemma of_bits_bits p : of_bits (bits p) = Some p.
Proof.
  induction p as [p IH|p IH|]; [| |done]; cbn; rewrite IH; by destruct (bits p) eqn:E; [destruct p|].
Qed.

Definition action_code (a : AuditAction) : string :=
  match a with
  | BlockIp => "block_ip" | UnblockIp => "unblock_ip" | AllowCidr => "allow_cidr"
  | DisallowCidr => "disallow_cidr" | ReloadConfig => "reload_config" | PatchConfig => "patch_config"
  | Start => "start" | Stop => "stop" | Login => "login" | ResetToken => "reset_token"
  end.

Definition actions : list AuditAction :=
  [BlockIp; UnblockIp; AllowCidr; DisallowCidr; ReloadConfig; PatchConfig; Start; Stop; Login;
   ResetToken].

Definition action_of (s : string) : AuditAction :=
  default BlockIp (head (filter (fun a => action_code a = s) actions)).

Lemma action_of_code a : action_of (action_code a) = a.
Proof. by destruct a. Qed.

Abbreviation row := (string * string * string * string * option string * (Z * string * string))%type.

Definition row_of (e : AuditEntry.t string) (seq : Z) (prev hash : string) : row :=
  (AuditEntry.timestamp e, AuditEntry.actor e, action_code (AuditEntry.action e),
   AuditEntry.detail e, AuditEntry.source_ip e, (seq, prev, hash)).

Definition value_of (r : row) : Value.t (AuditEntry.t string) :=
  let '(ts, actor, action, detail, ip, (seq, prev, hash)) := r in
  Value.mk (Some seq) (Some prev) (Some hash)
    (Some (AuditEntry.mk ts actor (action_of action) detail ip)).

#[global] Instance lib : AuditLib := {
  json_value := string;
  action_json a := Some (action_code a);
  detail_json d := Some d;
  to_line e seq prev hash := Some (String "{"%char (bits (encode (row_of e seq prev hash))));
  from_str s := match s with
                | String _ s => p ← of_bits s; r ← decode p; Some (value_of r)
                | EmptyString => None
                end;
  sha256 s := take 32 (map (fun c => Z.of_N (Ascii.N_of_ascii c)) (String.list_ascii_of_string s)
                       ++ replicate 32 0%Z);
}.

#[global] Instance laws : AuditLaws lib.
Proof.
  split.
  - intros e seq prev hash line [= <-]. cbv beta iota delta [from_str lib].
    rewrite of_bits_bits. cbn [mbind option_bind]. rewrite decode_encode. cbn.
    rewrite action_of_code. by destruct e.
  - by intros e seq prev hash line [= <-].
  - intros s. cbn [sha256 lib]. rewrite length_take, length_app, length_replicate. lia.
Qed.

Definition entry (actor : string) : AuditEntry.t (@json_value lib) :=
  AuditEntry.mk "2026-01-01T00:00:00Z" actor Login "{}" None.

(** Two entries, one that the disk refuses, a restart, another entry. *)
Definition started : FileAuditBackend * gmap nat LogFile := (file_new 0 ∅, ∅).
Definition add (error : option IoError) (actor : string) (s : FileAuditBackend * gmap nat LogFile)
    : FileAuditBackend * gmap nat LogFile := snd (append error (entry actor) (fst s) (snd s)).
Definition two : FileAuditBackend * gmap nat LogFile := add None "b" (add None "a" started).
Definition refused : FileAuditBackend * gmap nat LogFile := add (Some (WriteFails 0)) "x" two.
Definition three : FileAuditBackend * gmap nat LogFile := add None "c" (file_new 0 (snd refused), snd refused).

Lemma unlimited b files : max_size b = 0%Z -> fits b files.
Proof. intros H error. unfold maybe_rotate. by rewrite H. Qed.

Lemma audit_log_verifies_witness :
  verify_chain (log_lines <$> snd three !! 0%nat) = Some (true, 3%Z, None) /\ sound_log (snd three).
Proof.
  split; [vm_compute; reflexivity|].
  apply (audit_log_verifies 0 ∅ (snd three) (fst three) true); [intros f; discriminate|].
  eapply rtc_l; [apply (step_append (entry "a")), unlimited; reflexivity|].
  eapply rtc_l; [apply (step_append (entry "b")), unlimited; reflexivity|].
  eapply rtc_l; [apply (step_refused (WriteFails 0) (entry "x")); vm_compute; reflexivity|].
  eapply rtc_l; [apply (step_restart 0)|].
  eapply rtc_l; [apply (step_append (entry "c")), unlimited; reflexivity|].
  apply rtc_refl.
Defined.

(** Without the restart the entry after the refused one does not verify. *)
Example refused_write_breaks_two :
  verify_chain (log_lines <$> snd (add None "c" refused) !! 0%nat) = Some (false, 3%Z, Some 4%Z).
Proof. vm_compute. reflexivity. Qed.

(** A log of one byte is over the limit as soon as it has an entry. *)
Definition small : FileAuditBackend := mkFile 1 3 7 "#h".
Definition full : gmap nat LogFile := {[0%nat := mkLog ["old"] ""]}.

Lemma rotation_breaks_chain_witness :
  verify_chain (log_lines <$> snd (snd (append None (entry "a") small full)) !! 0%nat) = Some (false, 1%Z, Some 8%Z).
Proof.
  apply (rotation_breaks_chain (entry "a") small full (fst (snd (append None (entry "a") small full))));
    [reflexivity|discriminate|reflexivity].
Defined.
End AuditSample.
