(* ===== verification/AuditTail.v ===== *)
(** * AuditTail: reading the audit log back

    [list_tail] of [eshield/src/audit.rs], which reads a file of JSON lines in
    chunks from its end, and [audit_handler] of [web.rs], which filters and
    pages the result.  A file is the list of its bytes. *)
From Stdlib Require Import Ascii.
From stdpp Require Import strings gmap.
From S2P Require Import Prelude Words RustStd AuditLog.
#[local] Open Scope Z_scope.

(** ** [String::from_utf8_lossy] *)
Definition between (lo hi : Z) (c : ascii) : bool := (lo <=? code c) && (code c <=? hi).
Definition cont (c : ascii) : bool := between 0x80 0xBF c.

(** The second byte of a sequence of three or four bytes. *)
Definition second3 (b c : ascii) : bool :=
  if code b =? 0xE0 then between 0xA0 0xBF c else if code b =? 0xED then between 0x80 0x9F c else cont c.
Definition second4 (b c : ascii) : bool :=
  if code b =? 0xF0 then between 0x90 0xBF c else if code b =? 0xF4 then between 0x80 0x8F c else cont c.

(** U+FFFD *)
Definition replacement : list ascii := map of_code [0xEF; 0xBF; 0xBD].

(** A maximal prefix of a sequence that ends too early is one replacement. *)
Fixpoint from_utf8_lossy (l : list ascii) : list ascii :=
  match l with
  | [] => []
  | b :: l1 =>
      if code b <? 128 then b :: from_utf8_lossy l1
      else if between 0xC2 0xDF b then
        match l1 with
        | c1 :: l2 => if cont c1 then b :: c1 :: from_utf8_lossy l2 else replacement ++ from_utf8_lossy l1
        | [] => replacement
        end
      else if between 0xE0 0xEF b then
        match l1 with
        | c1 :: l2 =>
            if second3 b c1 then
              match l2 with
              | c2 :: l3 => if cont c2 then b :: c1 :: c2 :: from_utf8_lossy l3 else replacement ++ from_utf8_lossy l2
              | [] => replacement
              end
            else replacement ++ from_utf8_lossy l1
        | [] => replacement
        end
      else if between 0xF0 0xF4 b then
        match l1 with
        | c1 :: l2 =>
            if second4 b c1 then
              match l2 with
              | c2 :: l3 =>
                  if cont c2 then
                    match l3 with
                    | c3 :: l4 =>
                        if cont c3 then b :: c1 :: c2 :: c3 :: from_utf8_lossy l4
                        else replacement ++ from_utf8_lossy l3
                    | [] => replacement
                    end
                  else replacement ++ from_utf8_lossy l2
              | [] => replacement
              end
            else replacement ++ from_utf8_lossy l1
        | [] => replacement
        end
      else replacement ++ from_utf8_lossy l1
  end.

Definition newline : ascii := of_code 10.

Lemma second3_newline b : second3 b newline = false.
Proof. unfold second3. by repeat case_match. Qed.
Lemma second4_newline b : second4 b newline = false.
Proof. unfold second4. by repeat case_match. Qed.

(** A line feed is never part of a longer sequence. *)
Lemma lossy_newline a b : from_utf8_lossy (a ++ newline :: b) = from_utf8_lossy a ++ newline :: from_utf8_lossy b.
Proof.
  remember (length a) as n eqn:Hn. revert a Hn. induction n as [n IH] using lt_wf_ind. intros a ->.
  assert (Hnl : from_utf8_lossy (newline :: b) = newline :: from_utf8_lossy b) by done.
  assert (Hc : cont newline = false) by done.
  destruct a as [|x a]; [done|].
  assert (IH1 : from_utf8_lossy (a ++ newline :: b) = from_utf8_lossy a ++ newline :: from_utf8_lossy b)
    by (apply (IH (length a)); cbn; lia || done).
  change ((x :: a) ++ newline :: b) with (x :: (a ++ newline :: b)).
  cbn [from_utf8_lossy]. destruct (code x <? 128); [by rewrite IH1|].
  destruct (between 0xC2 0xDF x).
  { destruct a as [|y a]; [cbn [app]; by rewrite Hc, Hnl|]. cbn [app] in *. destruct (cont y); [|by rewrite IH1, app_assoc].
    by rewrite (IH (length a)) by (cbn; lia || done). }
  destruct (between 0xE0 0xEF x).
  { destruct a as [|y a]; [cbn [app]; by rewrite second3_newline, Hnl|]. cbn [app] in *.
    destruct (second3 x y); [|by rewrite IH1, app_assoc]. destruct a as [|z a]; [cbn [app]; by rewrite Hc, Hnl|].
    cbn [app] in *. destruct (cont z).
    - by rewrite (IH (length a)) by (cbn; lia || done).
    - change (z :: a ++ newline :: b) with ((z :: a) ++ newline :: b).
      rewrite (IH (length (z :: a))) by (cbn; lia || done). by rewrite app_assoc. }
  destruct (between 0xF0 0xF4 x); [|by rewrite IH1, app_assoc].
  destruct a as [|y a]; [cbn [app]; by rewrite second4_newline, Hnl|]. cbn [app] in *.
  destruct (second4 x y); [|by rewrite IH1, app_assoc]. destruct a as [|z a]; [cbn [app]; by rewrite Hc, Hnl|].
  cbn [app] in *. destruct (cont z).
  - destruct a as [|w a]; [cbn [app]; by rewrite Hc, Hnl|]. cbn [app] in *. destruct (cont w).
    + by rewrite (IH (length a)) by (cbn; lia || done).
    + change (w :: a ++ newline :: b) with ((w :: a) ++ newline :: b).
      rewrite (IH (length (w :: a))) by (cbn; lia || done). by rewrite app_assoc.
  - change (z :: a ++ newline :: b) with ((z :: a) ++ newline :: b).
    rewrite (IH (length (z :: a))) by (cbn; lia || done). by rewrite app_assoc.
Qed.

(** ** [list_tail] *)
Definition count_newlines (buf : list ascii) : nat := length (filter (fun c => c = newline) buf).

(** Where the chunks read from the end begin: enough line feeds, or the start
    of the file. *)
Fixpoint tail_start (chunk limit : nat) (file : list ascii) (fuel pos newlines : nat) : nat :=
  match fuel with
  | O => pos
  | S fuel =>
      if (0 <? pos)%nat && (newlines <? limit + 1)%nat then
        let read_len := Nat.min chunk pos in
        let pos := (pos - read_len)%nat in
        tail_start chunk limit file fuel pos (newlines + count_newlines (slice pos read_len file))
      else pos
  end.

Section Tail.
Context {L : AuditLib}.

Abbreviation entry_t := (AuditEntry.t json_value).

(** A line of the file: blank ones and ones that do not parse are skipped. *)
Definition parse_line (line : string) : option entry_t :=
  let line := trim line in
  if String.eqb line "" then None else v ← from_str line; Value.entry v.

(** The loop over the lines from the last one on, until there are [limit]. *)
Fixpoint newest_entries (limit : nat) (rev_lines : list string) (entries : list entry_t) : list entry_t :=
  match rev_lines with
  | [] => entries
  | line :: rev_lines =>
      match parse_line line with
      | Some e =>
          let entries := e :: entries in
          if (limit <=? length entries)%nat then entries else newest_entries limit rev_lines entries
      | None => newest_entries limit rev_lines entries
      end
  end.

Definition text_of (l : list ascii) : string := String.string_of_list_ascii l.

Definition tail_chunked (chunk limit : nat) (file : option (list ascii)) : list entry_t :=
  match file with
  | None => []
  | Some file =>
      if (limit =? 0)%nat then []
      else
        let pos := tail_start chunk limit file (length file) (length file) 0 in
        newest_entries limit (rev (lines (text_of (from_utf8_lossy (drop pos file))))) []
  end.

Definition CHUNK : Z := 64 * 1024.
Definition list_tail (limit : nat) (file : option (list ascii)) : list entry_t :=
  tail_chunked (Z.to_nat CHUNK) limit file.

(** *** The reference: parse the whole file, keep the end *)
Definition all_lines (file : list ascii) : list string := lines (text_of (from_utf8_lossy file)).
Definition all_entries (file : list ascii) : list entry_t := omap parse_line (all_lines file).
Definition last_entries {A} (n : nat) (l : list A) : list A := drop (length l - n) l.

Lemma newest_entries_spec limit ls acc : (length acc < limit)%nat ->
  newest_entries limit ls acc = rev (take (limit - length acc) (omap parse_line ls)) ++ acc.
Proof.
  revert acc. induction ls as [|line ls IH]; intros acc Hacc; cbn [newest_entries omap list_omap].
  - by rewrite take_nil.
  - destruct (parse_line line) as [e|]; [|by apply IH]. destruct (Nat.leb_spec limit (length (e :: acc))) as [H|H].
    + cbn [length] in H. replace (limit - length acc)%nat with 1%nat by lia. cbn [take]. by rewrite take_0.
    + cbn [length] in H. rewrite IH by (cbn [length]; lia). cbn [length].
      replace (limit - length acc)%nat with (S (limit - S (length acc))) by lia. cbn [take rev].
      by rewrite <- app_assoc.
Qed.

Lemma omap_rev {A B} (f : A -> option B) l : omap f (rev l) = rev (omap f l).
Proof.
  induction l as [|x l IH]; [done|]. cbn [rev]. rewrite omap_app, IH. cbn. by destruct (f x); cbn; rewrite ?app_nil_r.
Qed.

Lemma rev_take_rev {A} n (l : list A) : rev (take n (rev l)) = last_entries n l.
Proof.
  unfold last_entries. rewrite <- (rev_involutive (drop _ l)). f_equal.
  rewrite <- (take_drop (length l - n) l) at 1. rewrite rev_app_distr.
  assert (Hl : length (rev (drop (length l - n) l)) = Nat.min n (length l)) by (rewrite length_rev, length_drop; lia).
  destruct (Nat.le_ge_cases n (length l)).
  - rewrite take_app_le by lia. apply take_ge. lia.
  - replace (length l - n)%nat with 0%nat in * by lia. rewrite take_0. cbn [rev]. rewrite app_nil_r.
    apply take_ge. rewrite length_rev, length_drop. lia.
Qed.

Lemma newest_is_last limit ls : (0 < limit)%nat -> newest_entries limit (rev ls) [] = last_entries limit (omap parse_line ls).
Proof.
  intros Hl. rewrite newest_entries_spec by done. cbn [length]. rewrite Nat.sub_0_r, app_nil_r, omap_rev.
  apply rev_take_rev.
Qed.

(** *** Lines *)
Lemma terminated_app ls ls' : ls' <> [] -> terminated_lines (ls ++ ls') = map strip_cr ls ++ terminated_lines ls'.
Proof.
  intros Hne. induction ls as [|l ls IH]; [done|]. cbn [app map]. rewrite <- IH.
  destruct (ls ++ ls') eqn:E; [|done]. by apply app_nil in E as [_ ->].
Qed.

Lemma text_of_app a b : text_of (a ++ b) = text_of a +:+ text_of b.
Proof. unfold text_of. induction a as [|c a IH]; [done|]. cbn. rewrite IH. done. Qed.

Lemma all_lines_app a b : exists ls, ls <> [] /\ all_lines (a ++ newline :: b) = ls ++ all_lines b.
Proof.
  unfold all_lines, lines. rewrite lossy_newline, text_of_app.
  exists (map strip_cr (split newline (text_of (from_utf8_lossy a)))). split.
  - pose proof (split_not_nil newline (text_of (from_utf8_lossy a))). by destruct (split _ _).
  - rewrite <- terminated_app by apply split_not_nil. by rewrite <- split_append_sep.
Qed.

Lemma first_newline l : (0 < count_newlines l)%nat ->
  exists a b, l = a ++ newline :: b /\ count_newlines l = S (count_newlines b).
Proof.
  unfold count_newlines. induction l as [|c l IH]; [cbn; lia|]. rewrite filter_cons. case_decide as Hc; intros H.
  - subst c. by exists [], l.
  - destruct (IH H) as (a & b & -> & E). by exists (c :: a), b.
Qed.

Lemma all_lines_count l : (count_newlines l <= length (all_lines l))%nat.
Proof.
  remember (count_newlines l) as n eqn:Hn. revert l Hn. induction n as [|n IH]; intros l Hn; [lia|].
  destruct (first_newline l) as (a & b & -> & E); [lia|]. destruct (all_lines_app a b) as (ls & Hls & ->).
  rewrite length_app. specialize (IH b ltac:(lia)). destruct ls; [done|]. cbn. lia.
Qed.

(** *** The chunks *)
Lemma count_newlines_app a b : count_newlines (a ++ b) = (count_newlines a + count_newlines b)%nat.
Proof. unfold count_newlines. by rewrite list.filter_app, length_app. Qed.

Lemma tail_start_spec chunk limit file fuel pos newlines :
  (0 < chunk)%nat -> (pos <= fuel)%nat -> (pos <= length file)%nat -> newlines = count_newlines (drop pos file) ->
  let p := tail_start chunk limit file fuel pos newlines in
  (p <= length file)%nat /\ (p = 0%nat \/ (limit < count_newlines (drop p file))%nat).
Proof.
  intros Hc. revert pos newlines. induction fuel as [|fuel IH]; intros pos newlines Hf Hp Hn; cbn [tail_start]; [lia|].
  destruct (Nat.ltb_spec 0 pos); [|cbn [andb]; lia].
  destruct (Nat.ltb_spec newlines (limit + 1)); cbn [andb]; [|subst; split; [done|]; right; lia].
  apply IH; [lia|lia|]. subst newlines. set (q := (pos - Nat.min chunk pos)%nat).
  assert (Hq : pos = (q + Nat.min chunk pos)%nat) by lia.
  rewrite <- (take_drop (Nat.min chunk pos) (drop q file)) at 1. rewrite count_newlines_app, drop_drop.
  rewrite <- Hq. unfold slice. lia.
Qed.

Lemma last_entries_app {A} n (l l' : list A) : (n <= length l')%nat -> last_entries n (l ++ l') = last_entries n l'.
Proof.
  intros H. unfold last_entries. rewrite length_app, drop_app_ge by lia. f_equal. lia.
Qed.

Lemma omap_all {A B} (f : A -> option B) l : Forall (fun x => is_Some (f x)) l -> length (omap f l) = length l.
Proof. induction 1 as [|x l [y Hx] _ IH]; [done|]. cbn. rewrite Hx. cbn. by rewrite IH. Qed.

Lemma list_tail_chunked chunk limit file :
  (0 < chunk)%nat -> Forall (fun line => is_Some (parse_line line)) (all_lines file) ->
  tail_chunked chunk limit (Some file) = last_entries limit (all_entries file).
Proof.
  intros Hc Hwf. unfold tail_chunked. destruct (Nat.eqb_spec limit 0) as [->|Hl].
  { unfold last_entries. rewrite Nat.sub_0_r. by rewrite drop_all. }
  destruct (tail_start_spec chunk limit file (length file) (length file) 0) as [Hp Hor]; [done|done|done|by rewrite drop_all|].
  set (p := tail_start _ _ _ _ _ _) in *. cbv zeta. rewrite newest_is_last by lia. fold (all_lines (drop p file)).
  unfold all_entries. destruct Hor as [->|Hcount]; [by rewrite drop_0|].
  destruct (first_newline (drop p file)) as (a & b & E & Ecount); [lia|].
  assert (EF : file = (take p file ++ a) ++ newline :: b) by (rewrite <- app_assoc, <- E; by rewrite take_drop).
  destruct (all_lines_app (take p file ++ a) b) as (ls & _ & El). rewrite <- EF in El.
  destruct (all_lines_app a b) as (ls' & _ & El'). rewrite E, El, El', !omap_app.
  rewrite El in Hwf. apply List.Forall_app in Hwf as [_ Hwf].
  pose proof (all_lines_count b). apply omap_all in Hwf. rewrite !last_entries_app by lia. done.
Qed.

(** C35: reading the tail is reading the file.  On a log in which every line is
    an entry, the listing that reads chunks of 64 KiB from the end, cuts the
    first line and possibly a character in two and stops as soon as it has
    enough, answers the last [limit] entries of the whole file. *)
Theorem list_tail_last limit file :
  Forall (fun line => is_Some (parse_line line)) (all_lines file) ->
  list_tail limit (Some file) = last_entries limit (all_entries file).
Proof. intros Hwf. apply list_tail_chunked; [unfold CHUNK; lia|done]. Qed.
End Tail.

(** ** The page of the console *)
Module AuditQuery.
Record t := mk {
  limit : nat;
  offset : nat;
  filter : option string;
  ip : option string;
  action : option string;
  from : option string;
  to : option string;
}.
End AuditQuery.

(** The name serde gives an action. *)
Definition action_name (a : AuditAction) : string :=
  match a with
  | BlockIp => "block_ip" | UnblockIp => "unblock_ip" | AllowCidr => "allow_cidr"
  | DisallowCidr => "disallow_cidr" | ReloadConfig => "reload_config" | PatchConfig => "patch_config"
  | Start => "start" | Stop => "stop" | Login => "login" | ResetToken => "reset_token"
  end.

Section Page.
Context {L : AuditLib}.

Abbreviation entry_t := (AuditEntry.t json_value).

(** A given condition. *)
Definition given {A} (o : option A) (P : A -> bool) : bool := match o with Some x => P x | None => true end.

Definition audit_matches (q : AuditQuery.t) (e : entry_t) : bool :=
  let detail := default ""%string (detail_json (AuditEntry.detail e)) in
  given (AuditQuery.filter q) (fun text =>
    contains (to_lowercase text) (to_lowercase (AuditEntry.timestamp e +:+ " " +:+ AuditEntry.actor e +:+ " " +:+
      default ""%string (action_json (AuditEntry.action e)) +:+ " " +:+ detail))) &&
  given (AuditQuery.ip q) (fun ip =>
    contains (to_lowercase ip) (to_lowercase (default ""%string (AuditEntry.source_ip e) +:+ " " +:+
      AuditEntry.actor e +:+ " " +:+ detail))) &&
  given (AuditQuery.action q) (fun a => String.eqb (action_name (AuditEntry.action e)) (to_lowercase a)) &&
  given (AuditQuery.from q) (fun from => negb (String.ltb (AuditEntry.timestamp e) from)) &&
  given (AuditQuery.to q) (fun to => negb (String.ltb to (AuditEntry.timestamp e))).

(** The page and the number of matches in the last 10,000 entries. *)
Definition audit_handler (q : AuditQuery.t) (entries : list entry_t) : list entry_t * nat :=
  let filtered := filter (fun e => audit_matches q e = true) entries in
  (take (AuditQuery.limit q) (drop (AuditQuery.offset q) (rev filtered)), length filtered).

Definition AUDIT_LIST : Z := 10000.
Definition audit_page (q : AuditQuery.t) (file : option (list ascii)) : list entry_t * nat :=
  audit_handler q (list_tail (Z.to_nat AUDIT_LIST) file).

(** The query for the page after [n] pages. *)
Definition nth_page (q : AuditQuery.t) (n : nat) : AuditQuery.t :=
  AuditQuery.mk (AuditQuery.limit q) (n * AuditQuery.limit q) (AuditQuery.filter q) (AuditQuery.ip q)
    (AuditQuery.action q) (AuditQuery.from q) (AuditQuery.to q).

Lemma concat_pages {A} limit n (l : list A) :
  concat (map (fun i => take limit (drop (i * limit) l)) (seq 0 n)) = take (n * limit) l.
Proof.
  induction n as [|n IH]; [done|]. rewrite seq_S, map_app, concat_app, IH. cbn [Nat.add map concat]. rewrite app_nil_r.
  rewrite <- (take_drop (n * limit) (take (S n * limit) l)). rewrite take_take, skipn_firstn_comm.
  f_equal; [f_equal; lia|f_equal; lia].
Qed.

(** the pages of the audit list show every match once.  On a log in which
    every line is an entry, leafing through the pages of a query until [total]
    is reached shows exactly the matching ones of the last 10,000 entries,
    newest first. *)
Theorem audit_pages_complete q file n :
  Forall (fun line => is_Some (parse_line line)) (all_lines file) ->
  (snd (audit_page q (Some file)) <= n * AuditQuery.limit q)%nat ->
  concat (map (fun i => fst (audit_page (nth_page q i) (Some file))) (seq 0 n)) =
  rev (filter (fun e => audit_matches q e = true) (last_entries (Z.to_nat AUDIT_LIST) (all_entries file))).
Proof.
  intros Hwf Hn. unfold audit_page in *.
  assert (E : list_tail (Z.to_nat AUDIT_LIST) (Some file) = last_entries (Z.to_nat AUDIT_LIST) (all_entries file))
    by (apply list_tail_chunked; [unfold CHUNK; lia|done]).
  rewrite E in *. set (es := last_entries _ _) in *. clearbody es. unfold audit_handler in *. cbn [fst snd] in *.
  etransitivity; [exact (concat_pages (AuditQuery.limit q) n (rev (filter (fun e => audit_matches q e = true) es)))|].
  apply take_ge. by rewrite length_rev.
Qed.
End Page.

Module AuditTailWitness.
#[local] Existing Instance AuditSample.lib.

Definition written : list (AuditEntry.t string) := map AuditSample.entry ["ann"%string; "bob"%string; "cyd"%string].
Definition log : list ascii :=
  concat (map (fun e => String.list_ascii_of_string (default ""%string (to_line e 0 "" "")) ++ [newline]) written).

(** The same through chunks of 100 bytes, which cut lines in two. *)
Lemma list_tail_last_witness :
  list_tail 2 (Some log) = drop 1 written /\ tail_chunked 100 2 (Some log) = drop 1 written.
Proof.
  assert (Hwf : Forall (fun line => is_Some (parse_line line)) (all_lines log))
    by (apply (bool_decide_eq_true_1 _); vm_compute; reflexivity).
  split; [rewrite (list_tail_last 2 log Hwf)|]; vm_compute; reflexivity.
Defined.

Definition by_actor : AuditQuery.t := AuditQuery.mk 1 0 (Some "B"%string) None (Some "LOGIN"%string) None None.

Lemma audit_pages_complete_witness :
  map AuditEntry.actor (concat (map (fun i => fst (audit_page (nth_page by_actor i) (Some log))) (seq 0 2))) = ["bob"%string].
Proof.
  assert (Hwf : Forall (fun line => is_Some (parse_line line)) (all_lines log))
    by (apply (bool_decide_eq_true_1 _); vm_compute; reflexivity).
  rewrite (audit_pages_complete by_actor log 2 Hwf) by (apply (bool_decide_eq_true_1 _); vm_compute; reflexivity).
  vm_compute. reflexivity.
Defined.
End AuditTailWitness.
