(* ===== verification/AuditStream.v ===== *)
(** * AuditStream: the auditor and the pages that listen to it

    [Auditor] of [eshield/src/audit.rs], which sends every record to the open
    pages and then to its back end, and [audit_stream_handler] of [web.rs], the
    event stream of one page.  The broadcast channel is tokio's: [Class
    Broadcast] has its operations, [BroadcastLaws] what its documentation says. *)
From stdpp Require Import strings gmap.
From S2P Require Import Prelude Words RustStd AuditLog AuditTail.
#[local] Open Scope Z_scope.

(** ** [tokio::sync::broadcast] *)

(** [recv]: nothing yet, a value, or the news that values were missed. *)
Inductive Received (A : Type) := Pending | Lagged | Got (a : A).
#[global] Arguments Pending {_}.
#[global] Arguments Lagged {_}.
#[global] Arguments Got {_} a.

Class Broadcast := {
  sender : Type -> Type;
  receiver : Type;
  channel : forall {A}, nat -> sender A;
  send : forall {A}, A -> sender A -> sender A;
  subscribe : forall {A}, sender A -> receiver;
  recv : forall {A}, sender A -> receiver -> Received A * receiver;
}.

(** A receiver sees the values sent after it subscribed, in order; one that has
    fallen behind by more than the capacity is told so once and goes on with the
    oldest value that is kept. *)
Class BroadcastLaws (BC : Broadcast) := {
  history : forall {A}, sender A -> list A;
  capacity : forall {A}, sender A -> nat;
  position : receiver -> nat;
  channel_history {A} n : history (channel (A := A) n) = [];
  channel_capacity {A} n : (1 <= n)%nat -> (n <= capacity (channel (A := A) n))%nat;
  send_history {A} (a : A) t : history (send a t) = history t ++ [a];
  send_capacity {A} (a : A) t : capacity (send a t) = capacity t;
  subscribe_position {A} (t : sender A) : position (subscribe t) = length (history t);
  recv_spec {A} (t : sender A) x : (position x <= length (history t))%nat ->
    let '(r, x') := recv t x in
    match r with
    | Pending => position x = length (history t) /\ position x' = position x
    | Lagged => (capacity t < length (history t) - position x)%nat /\ position x' = (length (history t) - capacity t)%nat
    | Got a => (length (history t) - position x <= capacity t)%nat /\
               history t !! position x = Some a /\ position x' = S (position x)
    end;
}.

(** ** The auditor *)

(** [trait AuditBackend]; an error of [append] is logged by the auditor. *)
Class AuditBackend {L : AuditLib} (B : Type) := {
  backend_append : AuditEntry.t json_value -> B -> option unit * B;
  backend_list : nat -> B -> list (AuditEntry.t json_value);
}.

#[export] Instance memory_backend {L : AuditLib} : AuditBackend MemoryAuditBackend := {|
  backend_append e b := (Some tt, memory_append e b);
  backend_list limit b := memory_list limit b;
|}.

(** The bytes of a file that is kept as its lines. *)
Definition file_bytes (f : LogFile) : list Ascii.ascii :=
  flat_map (fun line => String.list_ascii_of_string line ++ [AuditTail.newline]) (whole f) ++
  String.list_ascii_of_string (rest f).

(** The back end, its files, and what the file system will answer to the coming
    entries. *)
#[export] Instance file_backend {L : AuditLib} :
    AuditBackend (FileAuditBackend * gmap nat LogFile * list (option IoError)) := {|
  backend_append e b :=
    let '(b, files, answers) := b in
    let '(kept, b) := append (default None (head answers)) e b files in
    (if kept then Some tt else None, (b, tail answers));
  backend_list limit b := list_tail limit (file_bytes <$> snd (fst b) !! 0%nat);
|}.

(** [serde_json::to_string] of a record *)
Class EntryJson {L : AuditLib} := { entry_json : AuditEntry.t json_value -> option string }.

Section Auditor.
Context {L : AuditLib} {BC : Broadcast} {EJ : EntryJson} {B : Type} {AB : AuditBackend B}.

Abbreviation entry_t := (AuditEntry.t json_value).

Record Auditor := mkAuditor {
  backend : B;
  tx : sender entry_t;
}.

Definition auditor_new (backend : B) : Auditor := mkAuditor backend (channel 256).
Definition auditor_subscribe (a : Auditor) : receiver := subscribe (tx a).

(** The pages first, whether or not the record can be kept. *)
Definition auditor_log (now actor : string) (action : AuditAction) (detail : json_value) (source_ip : option string)
    (a : Auditor) : Auditor :=
  let entry := AuditEntry.mk now actor action detail source_ip in
  let tx := send entry (tx a) in
  mkAuditor (snd (backend_append entry (backend a))) tx.

Definition auditor_list (limit : nat) (a : Auditor) : list entry_t := backend_list limit (backend a).

(** *** The stream of a page *)
Inductive SseEvent :=
  | AuditEvent (data : string)
  | PingEvent.

Definition entry_event (e : entry_t) : SseEvent := AuditEvent (default ""%string (entry_json e)).

(** One poll of the stream: its next event, if there is one. *)
Definition audit_stream_poll (a : Auditor) (rx : receiver) : option SseEvent * receiver :=
  let '(r, rx) := recv (tx a) rx in
  (match r with
   | Pending => None
   | Lagged => Some PingEvent
   | Got e => Some (entry_event e)
   end, rx).

(** *** A page that is open while records are written *)
Inductive StreamStep :=
  | Log (now actor : string) (action : AuditAction) (detail : json_value) (source_ip : option string)
  | Poll.

Definition logged (step : StreamStep) : list entry_t :=
  match step with
  | Log now actor action detail source_ip => [AuditEntry.mk now actor action detail source_ip]
  | Poll => []
  end.

(** The auditor, the page's receiver, and what the page has been sent. *)
Definition stream_step (st : Auditor * receiver * list SseEvent) (step : StreamStep) : Auditor * receiver * list SseEvent :=
  let '(a, rx, shown) := st in
  match step with
  | Log now actor action detail source_ip => (auditor_log now actor action detail source_ip a, rx, shown)
  | Poll => let '(event, rx) := audit_stream_poll a rx in (a, rx, shown ++ option_list event)
  end.

Definition open_page (a : Auditor) : Auditor * receiver * list SseEvent := (a, auditor_subscribe a, []).
End Auditor.

(** ** What a page sees *)
Section Seen.
Context {L : AuditLib} {BC : Broadcast} {BL : BroadcastLaws BC} {EJ : EntryJson} {B : Type} {AB : AuditBackend B}.

Abbreviation entry_t := (AuditEntry.t json_value).

(** The events tell the records in order, and every gap is marked by one ping. *)
Inductive gapped : list SseEvent -> list entry_t -> Prop :=
  | gapped_nil : gapped [] []
  | gapped_entry es l e : gapped es l -> gapped (es ++ [entry_event e]) (l ++ [e])
  | gapped_ping es l missed : missed <> [] -> gapped es l -> gapped (es ++ [PingEvent]) (l ++ missed).

Definition all_logged (steps : list StreamStep) : list entry_t := concat (map logged steps).

Lemma all_logged_cons step steps : all_logged (step :: steps) = logged step ++ all_logged steps.
Proof. reflexivity. Qed.

(** The records before the page was opened are [old]; [seen] is what its receiver
    has passed. *)
Definition page_ok (old : list entry_t) (st : Auditor (B := B) * receiver * list SseEvent) (news : list entry_t) : Prop :=
  let '(a, rx, shown) := st in
  (256 <= capacity (tx a))%nat /\ history (tx a) = old ++ news /\
  exists seen, seen = take (length seen) news /\ position rx = (length old + length seen)%nat /\
    gapped shown seen /\ ((length news <= 256)%nat -> shown = map entry_event seen).

Lemma take_ext {A} (seen news more : list A) : seen = take (length seen) news -> (length seen <= length news)%nat.
Proof. intros E. rewrite E, length_take. lia. Qed.

Lemma page_log old st news now actor action detail source_ip :
  page_ok old st news -> page_ok old (stream_step st (Log now actor action detail source_ip))
    (news ++ logged (Log now actor action detail source_ip)).
Proof.
  destruct st as [[a rx] shown]. intros (Hc & Hh & seen & Hs & Hp & Hg & Hm). cbn [stream_step page_ok logged auditor_log tx].
  split; [by rewrite send_capacity|]. split; [by rewrite send_history, Hh, app_assoc|].
  exists seen. split; [|split; [done|]]; [|split; [done|]].
  - rewrite take_app_le; [done|]. by apply (take_ext seen news []).
  - rewrite length_app. cbn [length]. intros H. apply Hm. lia.
Qed.

Lemma page_poll old st news : page_ok old st news -> page_ok old (stream_step st Poll) news.
Proof.
  destruct st as [[a rx] shown]. intros (Hc & Hh & seen & Hs & Hp & Hg & Hm). cbn [stream_step]. unfold audit_stream_poll.
  pose proof (take_ext seen news [] Hs) as Hle.
  assert (Hlen : length (history (tx a)) = (length old + length news)%nat) by (by rewrite Hh, length_app).
  pose proof (recv_spec (tx a) rx ltac:(lia)) as H. destruct (recv (tx a) rx) as [[| |e] rx'].
  - destruct H as [_ Hp']. cbn [option_list]. rewrite app_nil_r. split; [done|]. split; [done|].
    exists seen. split; [done|]. split; [by rewrite Hp'|done].
  - destruct H as [Hlag Hp']. cbn [option_list]. split; [done|]. split; [done|].
    set (k := (length news - capacity (tx a))%nat).
    exists (take k news). assert (Hk : (length seen < k)%nat) by (unfold k; lia). rewrite length_take.
    split; [f_equal; lia|]. split; [unfold k in *; lia|]. split.
    + rewrite <- (take_drop (length seen) (take k news)). rewrite take_take, (Nat.min_l (length seen)), <- Hs by lia.
      apply gapped_ping; [|done]. intros E. apply (f_equal length) in E. rewrite length_drop, length_take in E. cbn in E. unfold k in *. lia.
    + intros H. unfold k in *. lia.
  - destruct H as (Hin & Hget & Hp'). cbn [option_list]. split; [done|]. split; [done|].
    rewrite Hh, Hp, lookup_app_r in Hget by lia. replace (_ - _)%nat with (length seen) in Hget by lia.
    exists (seen ++ [e]). rewrite length_app. cbn [length]. split; [|split; [lia|]].
    + rewrite Nat.add_1_r, (take_S_r _ _ e) by done. by rewrite <- Hs.
    + split; [by apply gapped_entry|]. intros H. by rewrite map_app, (Hm H).
Qed.

Lemma page_run old steps : forall st news, page_ok old st news ->
  page_ok old (foldl stream_step st steps) (news ++ all_logged steps).
Proof.
  induction steps as [|step steps IH]; intros st news H; [by rewrite app_nil_r|].
  rewrite all_logged_cons, app_assoc. cbn [foldl]. apply IH. destruct step; [by apply page_log|].
  cbn [logged]. rewrite app_nil_r. by apply page_poll.
Qed.

Lemma page_opens st : (256 <= capacity (tx st))%nat -> page_ok (history (tx st)) (open_page st) [].
Proof.
  intros Hc. split; [done|]. split; [by rewrite app_nil_r|]. exists []. split; [done|].
  split; [cbn; unfold auditor_subscribe; rewrite subscribe_position; lia|]. split; [constructor|done].
Qed.

(** a page that is open misses nothing without saying so.  However many
    records were written before it was opened and however writing and polling
    interleave, the events sent to the page are the records written since, in
    order and without repetition, up to some point; where records were dropped
    because more than 256 were waiting, one ping stands in their place; with at
    most 256 records there is no gap; and the stream is silent only when the page
    has been sent everything. *)
Theorem audit_stream_in_order b before steps :
  let '(a0, _, _) := foldl stream_step (open_page (auditor_new (b : B))) before in
  let '(a, rx, shown) := foldl stream_step (open_page a0) steps in
  exists seen waiting, all_logged steps = seen ++ waiting /\ gapped shown seen /\
    ((length (all_logged steps) <= 256)%nat -> shown = map entry_event seen) /\
    (fst (audit_stream_poll a rx) = None <-> waiting = []).
Proof.
  pose proof (page_run [] before (open_page (auditor_new (b : B))) []) as H0.
  destruct (foldl stream_step (open_page (auditor_new (b : B))) before) as [[a0 rx0] shown0].
  destruct H0 as (Hc0 & _).
  { pose proof (page_opens (auditor_new b)) as H. cbn [tx auditor_new] in H. rewrite channel_history in H. apply H.
    apply channel_capacity. lia. }
  pose proof (page_run _ steps _ [] (page_opens a0 Hc0)) as H.
  destruct (foldl stream_step (open_page a0) steps) as [[a rx] shown].
  destruct H as (Hc & Hh & seen & Hs & Hp & Hg & Hm). cbn [app] in *.
  exists seen, (drop (length seen) (all_logged steps)). split; [by rewrite Hs at 1; rewrite take_drop|].
  split; [done|]. split; [done|]. pose proof (take_ext seen _ [] Hs) as Hle.
  assert (Hlen : length (history (tx a)) = (length (history (tx a0)) + length (all_logged steps))%nat) by (by rewrite Hh, length_app).
  pose proof (recv_spec (tx a) rx ltac:(lia)) as Hr. unfold audit_stream_poll. destruct (recv (tx a) rx) as [[| |e] rx']; cbn [fst].
  - split; [intros _|done]. apply drop_ge. lia.
  - split; [done|]. intros E. apply (f_equal length) in E. rewrite length_drop in E. cbn in E. lia.
  - split; [done|]. intros E. apply (f_equal length) in E. rewrite length_drop in E. cbn in E.
    destruct Hr as (_ & Hget & _). apply lookup_lt_Some in Hget. lia.
Qed.
End Seen.

(** ** A channel, for the evaluated examples *)
Module AuditStreamWitness.
Import AuditSample.

(** All values sent with the capacity, and a receiver as its position. *)
#[export] Instance ring : Broadcast := {|
  sender A := (nat * list A)%type;
  receiver := nat;
  channel A n := (n, []);
  send A a t := (fst t, snd t ++ [a]);
  subscribe A t := length (snd t);
  recv A t x :=
    if (fst t <? length (snd t) - x)%nat then (Lagged, (length (snd t) - fst t)%nat)
    else match snd t !! x with Some a => (Got a, S x) | None => (Pending, x) end;
|}.

#[export, refine] Instance ring_laws : BroadcastLaws ring := {|
  history A t := snd t;
  capacity A t := fst t;
  position x := x;
|}.
Proof.
  - done.
  - intros A n _. cbn. lia.
  - done.
  - done.
  - done.
  - intros A [cap l] x Hx. cbn [fst snd recv ring] in *. destruct (Nat.ltb_spec cap (length l - x)) as [H|H]; [by split|].
    match goal with |- context [match ?o with Some _ => _ | None => _ end] => destruct o eqn:E end.
    + by split.
    + apply (lookup_ge_None (A := A)) in E. split; [by apply Nat.le_antisymm|done].
Defined.

#[export] Instance texts : EntryJson := {| entry_json e := Some (AuditEntry.actor e) |}.

Definition write (actor : string) : StreamStep := Log "2026-01-01T00:00:00Z" actor Login "{}" None.

(** The page is opened after one record; it polls too late for the first two. *)
Definition late : Auditor (B := MemoryAuditBackend) * receiver * list SseEvent :=
  foldl (stream_step (AB := memory_backend))
    (open_page (auditor_log (AB := memory_backend) "t" "ann" Start "{}" None (auditor_new (mkMemory [] 100))))
    (repeat (write "bob") 257 ++ [write "cyd"; Poll; Poll]).

Example late_page :
  snd late = [PingEvent; AuditEvent "bob"] /\ gapped (snd late) (repeat (entry "bob") 3).
Proof.
  assert (E : snd late = [PingEvent; AuditEvent "bob"]) by (vm_compute; reflexivity). split; [exact E|]. rewrite E.
  apply (gapped_entry (L := lib) (EJ := texts) [PingEvent] (repeat (entry "bob") 2) (entry "bob")).
  apply (gapped_ping (L := lib) (EJ := texts) [] [] (repeat (entry "bob") 2)); [done|constructor].
Qed.
End AuditStreamWitness.
