(* ===== verification/AgentControl.v ===== *)
(** * AgentControl: the operations of the agent

    [eshield/src/control.rs]: blocking and releasing addresses, the white list,
    the runtime configuration, rule sets, the rules kept on disk, and what is
    sent to and taken from the hub.  [ControlState] is the state the web
    interface, the signal handlers and the background tasks share; every
    operation here holds the locks it needs for its whole effect on the maps,
    so that the operations run one after another.  An error ([None]) keeps what
    was done before it.  The configuration file, the files of the GeoIP lists
    and the package version are the environment. *)
From Stdlib Require Import Ascii.
From stdpp Require Import strings gmap.
From S2P Require Import Prelude Words Common Pure RustStd IpText Config TimeSeries Redb RuleStore Maps AgentMaps Geoip Adaptive AuditLog.
#[local] Open Scope Z_scope.

Module RateLimitParams.
Record t := mk {
  enabled : bool;
  threshold : Z;
  tick_ms : Z;
  decay_num : Z;
  decay_den : Z;
  block_duration_s : Z;
  dport_grouping : bool;
}.
#[global] Instance eta_t : Eta t := fun r =>
  mk (enabled r) (threshold r) (tick_ms r) (decay_num r) (decay_den r) (block_duration_s r)
    (dport_grouping r).
End RateLimitParams.

Module RuntimeConfigSnapshot.
Record t := mk {
  version : string;
  interface : string;
  web_port : Z;
  web_bind : option string;
  log_level : string;
  log_json : bool;
  store_path : string;
  alert_webhook_url : option string;
  alert_threshold_dps : Z;
  alert_cooldown_s : Z;
  rate_limit_enabled : bool;
  syn_proxy_enabled : bool;
  l7_scan_enabled : bool;
  udp_flood_enabled : bool;
  icmp_flood_enabled : bool;
  geoip_enabled : bool;
  tcp_reset_on_drop : bool;
  trust_enabled : bool;
  conn_track_enabled : bool;
  conn_track_threshold : Z;
  conn_track_window_ms : Z;
  trust_add_divisor : Z;
  trust_sub_divisor : Z;
  geoip_default_action : Z;
  danger_level : Z;
  rate_limit : RateLimitParams.t;
  port_rate_limit : RateLimitParams.t;
  adaptive : AdaptiveConfig.t;
  port_acl : list PortAclItem.t;
  protection_projects : list ProtectionProject.t;
  l7_scan : L7ScanConfig.t;
  geoip : GeoIpConfig.t;
  threat_intel_feeds : list ThreatFeed.t;
  whitelist_entries : list string;
  blacklist_entries : list string;
  hub_enabled : bool;
  hub_node_name : string;
  hub_urls : list string;
  packet_log_enabled : bool;
  packet_log_sample_rate : Z;
  protection_projects_enabled : bool;
  fragment_policy : string;
  rate_limit_block_mode : string;
  audit_path : string;
  audit_enabled : bool;
}.
#[global] Instance eta_t : Eta t := fun r =>
  mk (version r) (interface r) (web_port r) (web_bind r) (log_level r) (log_json r)
    (store_path r) (alert_webhook_url r) (alert_threshold_dps r) (alert_cooldown_s r)
    (rate_limit_enabled r) (syn_proxy_enabled r) (l7_scan_enabled r) (udp_flood_enabled r)
    (icmp_flood_enabled r) (geoip_enabled r) (tcp_reset_on_drop r) (trust_enabled r)
    (conn_track_enabled r) (conn_track_threshold r) (conn_track_window_ms r)
    (trust_add_divisor r) (trust_sub_divisor r) (geoip_default_action r) (danger_level r)
    (rate_limit r) (port_rate_limit r) (adaptive r) (port_acl r) (protection_projects r)
    (l7_scan r) (geoip r) (threat_intel_feeds r) (whitelist_entries r) (blacklist_entries r)
    (hub_enabled r) (hub_node_name r) (hub_urls r) (packet_log_enabled r)
    (packet_log_sample_rate r) (protection_projects_enabled r) (fragment_policy r)
    (rate_limit_block_mode r) (audit_path r) (audit_enabled r).
End RuntimeConfigSnapshot.

(** Every field of [RuntimeConfigPatch] is optional. *)
Module RuntimeConfigPatch.
Record t := mk {
  rate_limit_enabled : option bool;
  syn_proxy_enabled : option bool;
  l7_scan_enabled : option bool;
  udp_flood_enabled : option bool;
  icmp_flood_enabled : option bool;
  geoip_enabled : option bool;
  tcp_reset_on_drop : option bool;
  trust_enabled : option bool;
  conn_track_enabled : option bool;
  conn_track_threshold : option Z;
  conn_track_window_ms : option Z;
  trust_add_divisor : option Z;
  trust_sub_divisor : option Z;
  geoip_default_action : option Z;
  rate_limit : option RateLimitParams.t;
  port_rate_limit : option RateLimitParams.t;
  adaptive : option AdaptiveConfig.t;
  fragment_policy : option string;
  rate_limit_block_mode : option string;
}.
#[global] Instance eta_t : Eta t := fun r =>
  mk (rate_limit_enabled r) (syn_proxy_enabled r) (l7_scan_enabled r) (udp_flood_enabled r)
    (icmp_flood_enabled r) (geoip_enabled r) (tcp_reset_on_drop r) (trust_enabled r)
    (conn_track_enabled r) (conn_track_threshold r) (conn_track_window_ms r)
    (trust_add_divisor r) (trust_sub_divisor r) (geoip_default_action r) (rate_limit r)
    (port_rate_limit r) (adaptive r) (fragment_policy r) (rate_limit_block_mode r).
End RuntimeConfigPatch.

(** ** What the hub and the agent exchange ([hub_client.rs]) *)
Module NodePolicy.
Record t := mk {
  ip : IpKey.t;
  reason : Z;
  hit_count : Z;
  trust_score : Z;
  blocked_until_ns : Z;
  ttl_s : Z;
}.
End NodePolicy.

Module SharedPolicy.
Record t := mk {
  ip : IpKey.t;
  reason : Z;
  hit_count : Z;
  trust_score : Z;
  first_seen_ns : Z;
  last_seen_ns : Z;
  source_nodes : list string;
  ttl_s : Z;
}.
End SharedPolicy.

Module RuleBundle.
Record t := mk {
  port_acl : list PortAclItem.t;
  l7_patterns : list L7PatternConfig.t;
  protection_projects : list ProtectionProject.t;
  updated_at_ns : Z;
}.
End RuleBundle.

(** ** The audit trail: the values the [json!] detail of a record is made of *)
Inductive AuditDetail :=
  | DBlock (ip : string) (duration_s : Z) (origin : BlockOrigin)
  | DBlockMany (count : nat) (duration_s : Z) (origin : BlockOrigin)
  | DIp (ip : string)
  | DCidr (cidr : string)
  | DPatch (patch : RuntimeConfigPatch.t)
  | DGeoip (geoip : GeoIpConfig.t)
  | DL7 (patterns : list L7PatternConfig.t)
  | DAcl (items : list PortAclItem.t)
  | DProjects (projects : list ProtectionProject.t)
  | DHubRules
  | DLogin (ip result : string)
  | DToken (prefix : string)
  | DEmpty.

Module AuditCall.
Record t := mk {
  actor : string;
  action : AuditAction;
  detail : AuditDetail;
}.
End AuditCall.

Definition origin_actor (origin : BlockOrigin) : string :=
  match origin with
  | Api => "api"
  | Config.Adaptive => "adaptive"
  | ThreatIntel => "threat_intel"
  | Hub => "hub"
  | Local => "local"
  end.

(** ** The environment *)
Class AgentEnv := {
  (** the configuration file as it is now; [None] when it can not be read *)
  config_file : option Config.t;
  interface_exists : string -> bool;
  store_dir_ok : string -> bool;
  files : FileSystem;
  package_version : string;
}.

Section AgentControl.
Context {KN : Kernel} {MO : MapOps} {HO : HashOrder} {R : Redb} {J : RuleJson} {CL : CsvLib} {EN : AgentEnv}.

(** [auditor] holds the calls made on it, oldest first. *)
Record ControlState := mkControl {
  ebpf : KState;
  runtime : RuntimeConfigSnapshot.t;
  whitelist : list (IpKey.t * Z);
  blacklist : list IpKey.t;
  geoip_blocks : list (IpKey.t * Z);
  geoip_allows : list (IpKey.t * Z);
  auditor : option (list AuditCall.t);
  store : option RuleStore;
  hub_connected : bool;
  hub_active_url : string;
  hub_config : HubConfig.t;
  adaptive : option AdaptiveEngine.t;
  geoip_cache : list (CacheKey.t * list GeoIpBlock.t);
}.
#[global] Instance eta_ControlState : Eta ControlState := fun r =>
  mkControl (ebpf r) (runtime r) (whitelist r) (blacklist r) (geoip_blocks r) (geoip_allows r)
    (auditor r) (store r) (hub_connected r) (hub_active_url r) (hub_config r) (adaptive r)
    (geoip_cache r).

Abbreviation Control := (Try ControlState).

Definition on_ebpf {A} (m : Try KState A) : Control A := fun c =>
  let '(r, s) := m (ebpf c) in (r, c <| ebpf := s |>).

Definition update (f : ControlState -> ControlState) : Control unit := run (modify f).
Definition now : Control Z := on_ebpf (run monotonic_ns).

(** A transaction on the store, when there is one. *)
Definition on_store (f : RuleStore -> option RuleStore) : Control unit := fun c =>
  match store c with
  | None => (Some tt, c)
  | Some st =>
      match f st with
      | Some st => (Some tt, c <| store := Some st |>)
      | None => (None, c)
      end
  end.

Definition audit (actor : string) (action : AuditAction) (detail : AuditDetail) : Control unit :=
  update (fun c => c <| auditor ::= fmap (fun log => log ++ [AuditCall.mk actor action detail]) |>).

(** ** Blocking *)
Definition block_merged (key : IpKey.t) (now_ns blocked_until_ns reason : Z) (explicit : bool)
    : Try KState unit :=
  run (modify (fun s =>
    let entry := merge_block_entry (lru_get (BLACKLIST s) key) now_ns blocked_until_ns reason explicit in
    s <| BLACKLIST ::= fun m => lru_insert m key entry |>)).

Definition block_ip_raw (key : IpKey.t) (duration_s reason : Z) : Control unit :=
  let! now_ns := now in
  let blocked_until_ns := deadline now_ns duration_s in
  let explicit := (reason =? rules.API_BLOCK) || (reason =? rules.BLACKLIST) in
  on_ebpf (block_merged key now_ns blocked_until_ns reason explicit).

(** The row of a block: the store stamps it with the time of the write. *)
Definition save_block (key : IpKey.t) (duration_s reason : Z) (origin : BlockOrigin) : Control unit :=
  fun c => match store c with
  | None => ok tt c
  | Some _ =>
      (let! now_ns := now in
       let! stamp := now in
       on_store (save_blacklist stamp key (deadline now_ns duration_s) reason now_ns origin)) c
  end.

Definition block_ip_key (key : IpKey.t) (duration_s reason : Z) (origin : BlockOrigin) : Control unit :=
  let! _ := block_ip_raw key duration_s reason in
  let! _ := save_block key duration_s reason origin in
  audit (origin_actor origin) BlockIp (DBlock (format_ip_key key) duration_s origin).

Definition block_ip (ip_str : string) (duration_s : Z) : Control unit :=
  let! key := of_option (parse_ip_or_cidr ip_str) in
  block_ip_key key duration_s rules.API_BLOCK Api.

Definition save_block_many (keys : list IpKey.t) (now_ns blocked_until_ns reason : Z)
    (origin : BlockOrigin) : Control unit :=
  fun c => match store c with
  | None => ok tt c
  | Some _ =>
      (let! stamp := now in
       on_store (save_blacklist_many stamp keys blocked_until_ns reason now_ns origin)) c
  end.

Definition block_ip_keys_batch (keys : list IpKey.t) (duration_s reason : Z) (origin : BlockOrigin)
    : Control Z :=
  if bool_decide (keys = []) then ok 0
  else
    let! now_ns := now in
    let blocked_until_ns := deadline now_ns duration_s in
    let! _ := on_ebpf (for_each (fun key => block_merged key now_ns blocked_until_ns reason false) keys) in
    let! _ := save_block_many keys now_ns blocked_until_ns reason origin in
    let! _ := audit (origin_actor origin) BlockIp (DBlockMany (length keys) duration_s origin) in
    ok (Z.of_nat (length keys)).

(** ** Releasing *)
Definition unblock_ip_key (key : IpKey.t) (actor : string) : Control unit :=
  let! _ := update (fun c => c <| ebpf := (ebpf c) <| BLACKLIST ::= fun m => lru_remove m key |> |>) in
  let! _ := update (fun c => c <| blacklist ::= filter (fun x => x <> key) |>) in
  let! _ := on_store (remove_blacklist key) in
  audit actor UnblockIp (DIp (format_ip_key key)).

Definition unblock_ip (ip_str : string) : Control unit :=
  let! key := of_option (parse_ip_or_cidr ip_str) in
  unblock_ip_key key "api".

(** ** The white list *)
Definition allow_cidr_raw (key : IpKey.t) (prefix : Z) : Control unit := on_ebpf (whitelist_add key prefix).

Definition allow_cidr_key (key : IpKey.t) (prefix : Z) (actor : string) : Control unit :=
  let! _ := allow_cidr_raw key prefix in
  let! _ := on_store (save_whitelist key prefix) in
  audit actor AllowCidr (DCidr (format_ip_key key +:+ "/" +:+ pretty.pretty prefix)).

Definition allow_cidr (cidr : string) : Control unit :=
  let! r := of_option (parse_cidr cidr) in
  allow_cidr_key (fst r) (snd r) "api".

Definition disallow_cidr (cidr : string) : Control unit :=
  let! r := of_option (parse_cidr cidr) in
  let '(key, prefix) := r in
  let! _ := on_ebpf (whitelist_del key prefix) in
  let! _ := update (fun c => c <| whitelist ::= filter (fun x => x <> (key, prefix)) |>) in
  let! _ := on_store (remove_whitelist key prefix) in
  audit "api" DisallowCidr (DCidr cidr).

(** ** The runtime configuration *)
Definition validate_runtime_patch (patch : RuntimeConfigPatch.t) : bool :=
  let given {A} (o : option A) (P : A -> bool) := match o with Some x => P x | None => true end in
  given (RuntimeConfigPatch.rate_limit patch) (fun rl =>
    negb (RateLimitParams.enabled rl) ||
    ((RateLimitParams.threshold rl >? 0) && (RateLimitParams.tick_ms rl >? 0) &&
     (RateLimitParams.decay_den rl >? 0))) &&
  given (RuntimeConfigPatch.port_rate_limit patch) (fun prl =>
    negb (RateLimitParams.enabled prl) ||
    ((RateLimitParams.threshold prl >? 0) && (RateLimitParams.tick_ms prl >? 0))) &&
  given (RuntimeConfigPatch.adaptive patch) (fun ad =>
    (AdaptiveConfig.window_s ad >? 0) &&
    (negb (AdaptiveConfig.enabled ad) || (AdaptiveConfig.threshold ad >? 0))) &&
  given (RuntimeConfigPatch.conn_track_threshold patch) (fun n => n >? 0) &&
  given (RuntimeConfigPatch.conn_track_window_ms patch) (fun n => n >? 0) &&
  given (RuntimeConfigPatch.trust_add_divisor patch) (fun n => n >? 0) &&
  given (RuntimeConfigPatch.trust_sub_divisor patch) (fun n => n >? 0) &&
  given (RuntimeConfigPatch.geoip_default_action patch) (fun n => n <=? 1) &&
  given (RuntimeConfigPatch.fragment_policy patch) (fun p =>
    one_of ["pass"; "rate_limit"; "drop"]%string (to_lowercase p)) &&
  given (RuntimeConfigPatch.rate_limit_block_mode patch) (fun m =>
    one_of ["hard"; "soft"]%string (to_lowercase m)).

(** The snapshot with the fields of the patch. *)
Definition patched {A} (o : option A) (f : A -> RuntimeConfigSnapshot.t -> RuntimeConfigSnapshot.t)
    (snapshot : RuntimeConfigSnapshot.t) : RuntimeConfigSnapshot.t :=
  match o with Some x => f x snapshot | None => snapshot end.

Definition patch_snapshot (patch : RuntimeConfigPatch.t) (s : RuntimeConfigSnapshot.t)
    : RuntimeConfigSnapshot.t :=
  let s := patched (RuntimeConfigPatch.rate_limit_enabled patch) (fun x s =>
    s <| RuntimeConfigSnapshot.rate_limit_enabled := x |>
      <| RuntimeConfigSnapshot.rate_limit ::= fun r => r <| RateLimitParams.enabled := x |> |>) s in
  let s := patched (RuntimeConfigPatch.syn_proxy_enabled patch) (fun x s => s <| RuntimeConfigSnapshot.syn_proxy_enabled := x |>) s in
  let s := patched (RuntimeConfigPatch.l7_scan_enabled patch) (fun x s => s <| RuntimeConfigSnapshot.l7_scan_enabled := x |>) s in
  let s := patched (RuntimeConfigPatch.udp_flood_enabled patch) (fun x s => s <| RuntimeConfigSnapshot.udp_flood_enabled := x |>) s in
  let s := patched (RuntimeConfigPatch.icmp_flood_enabled patch) (fun x s => s <| RuntimeConfigSnapshot.icmp_flood_enabled := x |>) s in
  let s := patched (RuntimeConfigPatch.geoip_enabled patch) (fun x s => s <| RuntimeConfigSnapshot.geoip_enabled := x |>) s in
  let s := patched (RuntimeConfigPatch.tcp_reset_on_drop patch) (fun x s => s <| RuntimeConfigSnapshot.tcp_reset_on_drop := x |>) s in
  let s := patched (RuntimeConfigPatch.trust_enabled patch) (fun x s => s <| RuntimeConfigSnapshot.trust_enabled := x |>) s in
  let s := patched (RuntimeConfigPatch.conn_track_enabled patch) (fun x s => s <| RuntimeConfigSnapshot.conn_track_enabled := x |>) s in
  let s := patched (RuntimeConfigPatch.conn_track_threshold patch) (fun x s => s <| RuntimeConfigSnapshot.conn_track_threshold := x |>) s in
  let s := patched (RuntimeConfigPatch.conn_track_window_ms patch) (fun x s => s <| RuntimeConfigSnapshot.conn_track_window_ms := x |>) s in
  let s := patched (RuntimeConfigPatch.trust_add_divisor patch) (fun x s => s <| RuntimeConfigSnapshot.trust_add_divisor := x |>) s in
  let s := patched (RuntimeConfigPatch.trust_sub_divisor patch) (fun x s => s <| RuntimeConfigSnapshot.trust_sub_divisor := x |>) s in
  let s := patched (RuntimeConfigPatch.geoip_default_action patch) (fun x s => s <| RuntimeConfigSnapshot.geoip_default_action := x |>) s in
  let s := patched (RuntimeConfigPatch.fragment_policy patch) (fun x s => s <| RuntimeConfigSnapshot.fragment_policy := to_lowercase x |>) s in
  let s := patched (RuntimeConfigPatch.rate_limit_block_mode patch) (fun x s => s <| RuntimeConfigSnapshot.rate_limit_block_mode := to_lowercase x |>) s in
  let s := patched (RuntimeConfigPatch.adaptive patch) (fun x s => s <| RuntimeConfigSnapshot.adaptive := x |>) s in
  let s := patched (RuntimeConfigPatch.rate_limit patch) (fun x s =>
    s <| RuntimeConfigSnapshot.rate_limit := x |>
      <| RuntimeConfigSnapshot.rate_limit_enabled := RateLimitParams.enabled x |>) s in
  patched (RuntimeConfigPatch.port_rate_limit patch) (fun x s =>
    s <| RuntimeConfigSnapshot.port_rate_limit := x |>) s.

(** The map value: counts and the danger level stay as they are. *)
Definition config_of_snapshot (s : RuntimeConfigSnapshot.t) (cfg : RuntimeConfig.t) : RuntimeConfig.t :=
  cfg <| RuntimeConfig.rate_limit_enabled := u8_from (RuntimeConfigSnapshot.rate_limit_enabled s) |>
      <| RuntimeConfig.syn_proxy_enabled := u8_from (RuntimeConfigSnapshot.syn_proxy_enabled s) |>
      <| RuntimeConfig.l7_scan_enabled := u8_from (RuntimeConfigSnapshot.l7_scan_enabled s) |>
      <| RuntimeConfig.udp_flood_enabled := u8_from (RuntimeConfigSnapshot.udp_flood_enabled s) |>
      <| RuntimeConfig.icmp_flood_enabled := u8_from (RuntimeConfigSnapshot.icmp_flood_enabled s) |>
      <| RuntimeConfig.geoip_enabled := u8_from (RuntimeConfigSnapshot.geoip_enabled s) |>
      <| RuntimeConfig.geoip_default_action := RuntimeConfigSnapshot.geoip_default_action s |>
      <| RuntimeConfig.tcp_reset_on_drop := u8_from (RuntimeConfigSnapshot.tcp_reset_on_drop s) |>
      <| RuntimeConfig.trust_enabled := u8_from (RuntimeConfigSnapshot.trust_enabled s) |>
      <| RuntimeConfig.conn_track_enabled := u8_from (RuntimeConfigSnapshot.conn_track_enabled s) |>
      <| RuntimeConfig.conn_track_threshold := Z.max (RuntimeConfigSnapshot.conn_track_threshold s) 1 |>
      <| RuntimeConfig.conn_track_window_ms := Z.max (RuntimeConfigSnapshot.conn_track_window_ms s) 1 |>
      <| RuntimeConfig.trust_add_divisor := Z.max (RuntimeConfigSnapshot.trust_add_divisor s) 1 |>
      <| RuntimeConfig.trust_sub_divisor := Z.max (RuntimeConfigSnapshot.trust_sub_divisor s) 1 |>
      <| RuntimeConfig.packet_log_enabled := u8_from (RuntimeConfigSnapshot.packet_log_enabled s) |>
      <| RuntimeConfig.packet_log_sample_rate := RuntimeConfigSnapshot.packet_log_sample_rate s |>
      <| RuntimeConfig.project_enabled := u8_from (RuntimeConfigSnapshot.protection_projects_enabled s) |>
      <| RuntimeConfig.port_rate_limit_enabled := u8_from (RateLimitParams.enabled (RuntimeConfigSnapshot.port_rate_limit s)) |>
      <| RuntimeConfig.rate_limit_dport_grouping := u8_from (RateLimitParams.dport_grouping (RuntimeConfigSnapshot.rate_limit s)) |>
      <| RuntimeConfig.fragment_policy := fragment_policy_to_u8 (RuntimeConfigSnapshot.fragment_policy s) |>
      <| RuntimeConfig.rate_limit_soft := u8_from (String.eqb (RuntimeConfigSnapshot.rate_limit_block_mode s) "soft") |>.

Definition map_of_params (rl : RateLimitParams.t) : RateLimitConfig.t :=
  RateLimitConfig.mk (RateLimitParams.threshold rl) (RateLimitParams.tick_ms rl)
    (RateLimitParams.decay_num rl) (RateLimitParams.decay_den rl) (RateLimitParams.block_duration_s rl).

Definition given {S A} (o : option A) (f : A -> Try S unit) : Try S unit :=
  match o with Some x => f x | None => ok tt end.

Definition write_patch (patch : RuntimeConfigPatch.t) (snapshot : RuntimeConfigSnapshot.t) : Try KState unit :=
  let! _ := given (RuntimeConfigPatch.rate_limit patch) (fun rl =>
    array_write RATE_LIMIT_CFG 0 (map_of_params rl)) in
  let! _ := given (RuntimeConfigPatch.port_rate_limit patch) (fun prl =>
    array_write PORT_RATE_LIMIT_CFG 0 (RateLimitConfig.mk (RateLimitParams.threshold prl)
      (RateLimitParams.tick_ms prl) 0 1 0)) in
  let! cfg := run (gets (fun s => default RuntimeConfig_default (array_get (CONFIG s) 0))) in
  CONFIG_set (config_of_snapshot snapshot cfg).

Definition patch_runtime (patch : RuntimeConfigPatch.t) : Control unit :=
  let! _ := ensure (validate_runtime_patch patch) in
  let! snapshot := run (gets (fun c => patch_snapshot patch (runtime c))) in
  let! _ := given (RuntimeConfigPatch.adaptive patch) (fun cfg =>
    update (fun c => c <| adaptive ::= fmap (update_config cfg) |>)) in
  let! _ := on_ebpf (write_patch patch snapshot) in
  let! _ := update (fun c => c <| runtime := snapshot |>) in
  audit "api" PatchConfig (DPatch patch).

Definition set_danger_level (level : Z) : Control unit :=
  let level := Z.min level 2 in
  let! _ := update (fun c => c <| runtime ::= fun r => r <| RuntimeConfigSnapshot.danger_level := level |> |>) in
  on_ebpf (
    let! cfg := run (gets (fun s => default RuntimeConfig_default (array_get (CONFIG s) 0))) in
    CONFIG_set (cfg <| RuntimeConfig.danger_level := level |>)).

(** [RuntimeConfigSnapshot::from_config] *)
Definition from_config (config : Config.t) : RuntimeConfigSnapshot.t :=
  let rl := Config.rate_limit config in
  let prl := Config.port_rate_limit config in
  RuntimeConfigSnapshot.mk package_version (Config.interface config) (Config.web_port config)
    (Config.web_bind config) (Config.log_level config) (Config.log_json config)
    (Config.store_path config) (Config.alert_webhook_url config) (Config.alert_threshold_dps config)
    (Config.alert_cooldown_s config) (RateLimitSection.enabled rl) (Config.syn_proxy_enabled config)
    (L7ScanConfig.enabled (Config.l7_scan config)) (Config.udp_flood_enabled config)
    (Config.icmp_flood_enabled config) (GeoIpConfig.enabled (Config.geoip config))
    (Config.tcp_reset_on_drop config) (TrustScoreConfig.enabled (Config.trust_score config))
    (ConnTrackConfig.enabled (Config.conn_track config))
    (Z.max (ConnTrackConfig.threshold (Config.conn_track config)) 1)
    (Z.max (ConnTrackConfig.window_ms (Config.conn_track config)) 1)
    (Z.max (TrustScoreConfig.add_divisor (Config.trust_score config)) 1)
    (Z.max (TrustScoreConfig.sub_divisor (Config.trust_score config)) 1)
    (default_action_to_u8 (GeoIpConfig.default_action (Config.geoip config)))
    0
    (RateLimitParams.mk (RateLimitSection.enabled rl) (RateLimitSection.threshold rl)
       (RateLimitSection.tick_ms rl) (RateLimitSection.decay_num rl) (RateLimitSection.decay_den rl)
       (RateLimitSection.block_duration_s rl) (RateLimitSection.dport_grouping rl))
    (RateLimitParams.mk (PortRateLimitConfig.enabled prl) (PortRateLimitConfig.threshold prl)
       (PortRateLimitConfig.tick_ms prl) 0 0 0 false)
    (Config.adaptive config) (Config.port_acl config) (Config.protection_projects config)
    (Config.l7_scan config) (Config.geoip config) (ThreatIntelConfig.feeds (Config.threat_intel config))
    (Config.whitelist config) (Config.blacklist config) (HubConfig.enabled (Config.hub config))
    (HubConfig.node_name (Config.hub config)) (HubConfig.urls (Config.hub config))
    (PacketLogConfig.enabled (Config.packet_log config))
    (PacketLogConfig.sample_rate (Config.packet_log config))
    (negb (bool_decide (Config.protection_projects config = [])))
    (XdpConfig.fragment_policy (Config.xdp config)) (RateLimitSection.block_mode rl)
    (AuditConfig.path (Config.audit config)) (AuditConfig.enabled (Config.audit config)).

(** ** Rule sets *)
Definition set_l7_patterns (patterns : list L7PatternConfig.t) : Control unit :=
  let! _ := ensure (validate_l7_patterns patterns) in
  let! _ := on_ebpf (init_l7_patterns_map patterns) in
  let! _ := update (fun c => c <| runtime ::= fun r =>
    r <| RuntimeConfigSnapshot.l7_scan ::= fun l => l <| L7ScanConfig.patterns := patterns |> |> |>) in
  let! _ := on_store (save_l7_patterns patterns) in
  audit "api" PatchConfig (DL7 patterns).

Definition set_port_acl (items : list PortAclItem.t) : Control unit :=
  let! _ := ensure (validate_port_acl_items items) in
  let! _ := on_ebpf (init_port_acl_map items) in
  let! _ := update (fun c => c <| runtime ::= fun r => r <| RuntimeConfigSnapshot.port_acl := items |> |>) in
  let! _ := on_store (save_port_acl_items items) in
  audit "api" PatchConfig (DAcl items).

Definition set_protection_projects (projects : list ProtectionProject.t) : Control unit :=
  let! _ := ensure (validate_protection_projects_list projects) in
  let! _ := on_ebpf (init_protection_projects_map projects) in
  let! _ := update (fun c => c <| runtime ::= fun r =>
    r <| RuntimeConfigSnapshot.protection_projects := projects |>
      <| RuntimeConfigSnapshot.protection_projects_enabled := negb (bool_decide (projects = [])) |> |>) in
  let! _ := on_store (save_protection_projects projects) in
  audit "api" PatchConfig (DProjects projects).

(** ** The rules kept on disk *)

(** What is left of a block, in whole seconds; 0 stands for a permanent one. *)
Definition remaining_s (blocked_until_ns now_ns : Z) : Z :=
  if blocked_until_ns =? BLOCK_PERMANENT then 0
  else saturating_sub blocked_until_ns now_ns / 1000000000.

Definition expired (blocked_until_ns now_ns : Z) : bool :=
  negb (blocked_until_ns =? BLOCK_PERMANENT) && (blocked_until_ns <=? now_ns).

Definition restore_block (now_ns : Z) (row : IpKey.t * BlacklistRow.t) : Control unit :=
  let '(key, r) := row in
  let reason := BlacklistRow.block_reason r in
  let blocked_until_ns := BlacklistRow.blocked_until_ns r in
  if (reason =? rules.BLACKLIST) || expired blocked_until_ns now_ns then ok tt
  else block_ip_raw key (remaining_s blocked_until_ns now_ns) reason.

(** [if let Ok(rules) = load { if !rules.is_empty() { set(rules)? } }] *)
Definition restore_rules {A} (loaded : option (list A)) (set : list A -> Control unit) : Control unit :=
  match loaded with
  | Some (x :: l) => set (x :: l)
  | _ => ok tt
  end.

(** The rule sets are read one after the other, from the store as it then is. *)
Definition restore_from {A} (load : RuleStore -> option (list A)) (set : list A -> Control unit)
    : Control unit :=
  let! st := run (gets store) in
  match st with Some st => restore_rules (load st) set | None => ok tt end.

Definition load_persisted_rules : Control unit :=
  let! st := run (gets store) in
  match st with
  | None => ok tt
  | Some st =>
      let! now_ns := now in
      let! rows := of_option (load_blacklist st) in
      let! _ := for_each (restore_block now_ns) rows in
      let! nets := of_option (load_whitelist st) in
      let! _ := for_each (fun kp => allow_cidr_raw (fst kp) (snd kp)) nets in
      let! _ := restore_from load_port_acl_items set_port_acl in
      let! _ := restore_from load_l7_patterns set_l7_patterns in
      restore_from load_protection_projects set_protection_projects
  end.

(** ** The hub *)
Definition lookup_trust_score (key : IpKey.t) (s : KState) : Z :=
  match lru_get (TRUST_MAP s) key with
  | Some entry => Z.min (TrustEntry.trust_score entry / 10) 100
  | None => 0
  end.

(** The candidates that may be published and are in the map, with their hits. *)
Fixpoint with_hits (s : KState) (rows : list (IpKey.t * BlacklistRow.t))
    : list (IpKey.t * BlacklistRow.t * Z) :=
  match rows with
  | [] => []
  | (key, r) :: rows =>
      if negb (publishable (BlacklistRow.origin r)) then with_hits s rows
      else match lru_get (BLACKLIST s) key with
           | Some entry => (key, r, BlockEntry.hit_count entry) :: with_hits s rows
           | None => with_hits s rows
           end
  end.

(** The loop that builds the batch: [out] holds the policies so far. *)
Fixpoint select_policies (s : KState) (now_ns min_hits min_trust limit : Z)
    (hits : list (IpKey.t * BlacklistRow.t * Z)) (out : list NodePolicy.t) : list NodePolicy.t :=
  match hits with
  | [] => out
  | (key, r, hit_count) :: hits =>
      let blocked_until_ns := BlacklistRow.blocked_until_ns r in
      if (hit_count <? min_hits) && expired blocked_until_ns now_ns then
        select_policies s now_ns min_hits min_trust limit hits out
      else
        let trust_score := lookup_trust_score key s in
        if trust_score >? min_trust then select_policies s now_ns min_hits min_trust limit hits out
        else
          let out := out ++ [NodePolicy.mk key (BlacklistRow.block_reason r) hit_count trust_score
                               blocked_until_ns (remaining_s blocked_until_ns now_ns)] in
          if Z.of_nat (length out) >=? limit then out
          else select_policies s now_ns min_hits min_trust limit hits out
  end.

Definition collect_hub_publishable_policies (since_ns min_hits min_trust limit : Z)
    : Control (list NodePolicy.t) :=
  let! st := run (gets store) in
  match st with
  | None => ok []
  | Some st =>
      let! candidates := of_option (load_blacklist_since since_ns st) in
      if bool_decide (candidates = []) then ok []
      else
        let! s := run (gets ebpf) in
        let hits := with_hits s candidates in
        let! now_ns := now in
        let! s := run (gets ebpf) in
        ok (select_policies s now_ns min_hits min_trust limit hits [])
  end.

(** A score as the trust map keeps it. *)
Definition trust_entry (trust_score last_update_ns : Z) : TrustEntry.t :=
  let score := Z.min trust_score 1000 in
  let level := if score >=? 700 then 1 else if score >=? 300 then 2 else if score >=? 100 then 3 else 4 in
  TrustEntry.mk last_update_ns score 0 0 level.

Definition set_trust_score (key : IpKey.t) (trust_score : Z) : Control unit :=
  let! enabled := run (gets (fun c => RuntimeConfigSnapshot.trust_enabled (runtime c))) in
  if negb enabled then ok tt
  else
    let! t := now in
    update (fun c => c <| ebpf := (ebpf c) <| TRUST_MAP ::= fun m =>
      lru_insert m key (trust_entry trust_score t) |> |>).

(** One policy pulled from the hub: whether it was applied. *)
Definition apply_policy (existing : list IpKey.t) (node_name : string) (policy : SharedPolicy.t)
    : Control bool :=
  if bool_decide (SharedPolicy.ip policy ∈ existing) then ok false
  else if negb (String.eqb node_name "") &&
          existsb (String.eqb node_name) (SharedPolicy.source_nodes policy) then ok false
  else
    let! _ := block_ip_key (SharedPolicy.ip policy) (SharedPolicy.ttl_s policy)
                (SharedPolicy.reason policy) Hub in
    let! _ := (if SharedPolicy.trust_score policy >? 0
               then set_trust_score (SharedPolicy.ip policy)
                      (wrapping_mul 32 (SharedPolicy.trust_score policy) 10)
               else ok tt) in
    ok true.

Fixpoint apply_policies (existing : list IpKey.t) (node_name : string) (policies : list SharedPolicy.t)
    (applied : Z) : Control Z :=
  match policies with
  | [] => ok applied
  | policy :: policies =>
      let! done := apply_policy existing node_name policy in
      apply_policies existing node_name policies (if (done : bool) then applied + 1 else applied)
  end.

Definition apply_hub_policies (policies : list SharedPolicy.t) : Control Z :=
  if bool_decide (policies = []) then ok 0
  else
    let! existing := run (gets (fun c => lru_keys (BLACKLIST (ebpf c)))) in
    let! node_name := run (gets (fun c => HubConfig.node_name (hub_config c))) in
    apply_policies existing node_name policies 0.

Fixpoint unblock_each (hub_set : list IpKey.t) (ips : list IpKey.t) (unblocked : Z) : Control Z :=
  match ips with
  | [] => ok unblocked
  | ip :: ips =>
      if bool_decide (ip ∈ hub_set) then
        let! _ := unblock_ip_key ip "hub" in unblock_each hub_set ips (unblocked + 1)
      else unblock_each hub_set ips unblocked
  end.

Definition unblock_hub_policies (ips : list IpKey.t) : Control Z :=
  let! st := run (gets store) in
  match st with
  | None => ok 0
  | Some st =>
      let! rows := of_option (load_blacklist st) in
      let hub_set := map fst (filter (fun row => BlacklistRow.origin (snd row) = Hub) rows) in
      unblock_each hub_set ips 0
  end.

Definition apply_hub_rules (bundle : RuleBundle.t) : Control unit :=
  let! _ := set_port_acl (RuleBundle.port_acl bundle) in
  let! _ := set_l7_patterns (RuleBundle.l7_patterns bundle) in
  let! _ := set_protection_projects (RuleBundle.protection_projects bundle) in
  audit "hub" PatchConfig DHubRules.

(** ** The lists of the configuration file *)
Definition v4_of (l : list (IpKey.t * Z)) : list (Z * Z) :=
  omap (fun kp => if bool_decide (IpKey_family (fst kp) = Some Ipv4)
                  then Some (ipv4 (fst kp), snd kp) else None) l.
Definition v6_of (l : list (IpKey.t * Z)) : list (list Z * Z) :=
  omap (fun kp => if bool_decide (IpKey_family (fst kp) = Some Ipv6)
                  then Some (IpKey.addr (fst kp), snd kp) else None) l.

Definition apply_whitelist_map (config : Config.t) : Control unit :=
  let! entries := of_option (collect parse_cidr (Config.whitelist config)) in
  let new : gset (IpKey.t * Z) := list_to_set entries in
  let! current := run (gets whitelist) in
  let removed := filter (fun e => e ∉ new) current in
  let added := filter (fun e => e ∉ current) (hash_list new) in
  let! _ := on_ebpf (for_each (fun ap => WHITELIST_V4_remove (fst ap) (snd ap)) (v4_of removed)) in
  let! _ := on_ebpf (for_each (fun ap => WHITELIST_V4_insert (fst ap) (snd ap)) (v4_of added)) in
  let! _ := on_ebpf (for_each (fun ap => WHITELIST_V6_remove (fst ap) (snd ap)) (v6_of removed)) in
  let! _ := on_ebpf (for_each (fun ap => WHITELIST_V6_insert (fst ap) (snd ap)) (v6_of added)) in
  update (fun c => c <| whitelist := hash_list new |>).

(** A static entry that has left the file goes only if its cause is the file. *)
Definition remove_static (key : IpKey.t) : Try KState unit :=
  run (modify (fun s =>
    match lru_get (BLACKLIST s) key with
    | Some entry =>
        if BlockEntry.block_reason entry =? rules.BLACKLIST
        then s <| BLACKLIST ::= fun m => lru_remove m key |> else s
    | None => s
    end)).

Definition static_entry : BlockEntry.t := BlockEntry.mk BLOCK_PERMANENT 0 0 rules.BLACKLIST 0.

Definition insert_static (key : IpKey.t) : Try KState unit :=
  run (modify (fun s => s <| BLACKLIST ::= fun m => lru_insert m key static_entry |>)).

Definition apply_blacklist_map (config : Config.t) : Control unit :=
  let! entries := of_option (collect parse_ip_or_cidr (Config.blacklist config)) in
  let new : gset IpKey.t := list_to_set entries in
  let! current := run (gets blacklist) in
  let! _ := on_ebpf (for_each remove_static (filter (fun key => key ∉ new) current)) in
  let! _ := on_ebpf (for_each insert_static (filter (fun key => key ∉ current) (hash_list new))) in
  update (fun c => c <| blacklist := hash_list new |>).

(** The networks of the two families, as the tries and the lists hold them. *)
Definition known_networks (blocks : list GeoIpBlock.t) : list (IpKey.t * Z) :=
  filter (fun kp => IpKey_family (fst kp) <> None)
    (map (fun b => (GeoIpBlock.key b, GeoIpBlock.prefix b)) blocks).

Definition load_geoip (load : Try (list (CacheKey.t * list GeoIpBlock.t)) (list GeoIpBlock.t))
    : Control (list GeoIpBlock.t) := fun c =>
  let '(r, cache) := load (geoip_cache c) in (r, c <| geoip_cache := cache |>).

Definition insert_networks (v4 v6 : KState -> list LpmEntry.t) `{!Setter v4} `{!Setter v6}
    (nets : list (IpKey.t * Z)) : Try KState unit :=
  let! _ := for_each (fun ap => trie_insert v4 GEOIP_ENTRIES (entry_v4 (fst ap) (snd ap))) (v4_of nets) in
  for_each (fun ap => trie_insert v6 GEOIP_ENTRIES (entry_v6 (fst ap) (snd ap))) (v6_of nets).

(** [remove_geoip_entries]: an absent entry is not an error. *)
Definition remove_networks (v4 v6 : KState -> list LpmEntry.t) `{!Setter v4} `{!Setter v6}
    (stale_v4 : list (Z * Z)) (stale_v6 : list (list Z * Z)) : Try KState unit :=
  let! _ := for_each (fun ap => ignore (trie_remove v4 (snd ap) (GeoIpKeyV4 (bswap 4 (fst ap))))) stale_v4 in
  for_each (fun ap => ignore (trie_remove v6 (snd ap) (GeoIpKeyV6 (fst ap)))) stale_v6.

Definition apply_geoip_map (config : Config.t) : Control unit :=
  let! old_blocks := run (gets geoip_blocks) in
  let! old_allows := run (gets geoip_allows) in
  let! _ := update (fun c => c <| geoip_blocks := [] |> <| geoip_allows := [] |>) in
  let! blocks := load_geoip (load_geoip_blocks files (Config.geoip config)) in
  let! allows := load_geoip (load_geoip_allows files (Config.geoip config)) in
  let new_blocks := known_networks blocks in
  let new_allows := known_networks allows in
  let! _ := update (fun c => c <| geoip_blocks := new_blocks |> <| geoip_allows := new_allows |>) in
  let! _ := on_ebpf (insert_networks GEOIP_BLOCKED_V4 GEOIP_BLOCKED_V6 new_blocks) in
  let! _ := on_ebpf (insert_networks GEOIP_ALLOWED_V4 GEOIP_ALLOWED_V6 new_allows) in
  let! _ := on_ebpf (remove_networks GEOIP_BLOCKED_V4 GEOIP_BLOCKED_V6
    (filter (fun x => x ∉ v4_of new_blocks) (v4_of old_blocks))
    (filter (fun x => x ∉ v6_of new_blocks) (v6_of old_blocks))) in
  on_ebpf (remove_networks GEOIP_ALLOWED_V4 GEOIP_ALLOWED_V6
    (filter (fun x => x ∉ v4_of new_allows) (v4_of old_allows))
    (filter (fun x => x ∉ v6_of new_allows) (v6_of old_allows))).

(** ** The whole configuration file *)
Definition init_maps (config : Config.t) : Try KState unit :=
  let! _ := init_rate_limit_map config in
  let! _ := init_port_rate_map config in
  let! _ := init_l7_patterns_map (L7ScanConfig.patterns (Config.l7_scan config)) in
  let! _ := init_port_acl_map (Config.port_acl config) in
  init_protection_projects_map (Config.protection_projects config).

Definition read_config : Control Config.t :=
  let! config := of_option config_file in
  let! _ := ensure (validate interface_exists store_dir_ok config) in
  ok config.

Definition reload_config_file : Control unit :=
  let! config := read_config in
  let! _ := on_ebpf (init_maps config) in
  let! _ := apply_whitelist_map config in
  let! _ := apply_blacklist_map config in
  let! _ := apply_geoip_map config in
  let! _ := on_ebpf (init_config_map config) in
  let! prev_danger := run (gets (fun c => RuntimeConfigSnapshot.danger_level (runtime c))) in
  let! _ := update (fun c => c <| runtime :=
    (from_config config) <| RuntimeConfigSnapshot.danger_level := prev_danger |> |>) in
  let! _ := update (fun c => c <| adaptive ::= fmap (update_config (Config.adaptive config)) |>) in
  let! _ := ignore load_persisted_rules in
  audit "system" ReloadConfig DEmpty.

Definition reload_geoip : Control unit :=
  let! config := read_config in
  let! _ := apply_geoip_map config in
  let! _ := update (fun c => c <| runtime ::= fun r =>
    r <| RuntimeConfigSnapshot.geoip := Config.geoip config |> |>) in
  audit "api" PatchConfig (DGeoip (Config.geoip config)).

(** [ControlState::new] on the maps of the loaded program. *)
Definition control_new (s : KState) (config : Config.t) (auditor : option (list AuditCall.t))
    (store : option RuleStore) (adaptive : option AdaptiveEngine.t) : option ControlState :=
  let state := mkControl s (from_config config) [] [] [] [] auditor store false "" (Config.hub config)
                 adaptive [] in
  match (let! _ := on_ebpf (init_maps config) in
         let! _ := apply_blacklist_map config in
         let! _ := apply_whitelist_map config in
         let! _ := apply_geoip_map config in
         on_ebpf (init_config_map config)) state with
  | (Some _, c) => Some c
  | (None, _) => None
  end.
End AgentControl.
Abbreviation Control := (Try ControlState).
