(* ===== verification/ControlSample.v ===== *)
(** * ControlSample: a concrete agent for the evaluated examples *)
From Stdlib Require Import Ascii.
From stdpp Require Import strings gmap.
From S2P Require Import Prelude Words Common RustStd Config Danger TimeSeries Redb RuleStore Maps AgentMaps Geoip Adaptive AuditLog AgentControl.
#[local] Open Scope Z_scope.

Module ControlSample.
#[export] Existing Instances Samples.kernel_laws MapSamples.ops MapSamples.laws MapSamples.order
  MapSamples.order_laws SortedTable.redb SortedTable.redb_laws RuleSample.json RuleSample.json_laws.

(** Comma-separated lines after a header. *)
#[export] Instance csv : CsvLib := {|
  records text := map (fun l => Some (split ","%char l)) (tail (lines text))
|}.

Definition acl : list PortAclItem.t :=
  [PortAclItem.mk "tcp" "22" "allow"; PortAclItem.mk "TCP" "1-1023" "drop"].
Definition patterns : list L7PatternConfig.t :=
  [L7PatternConfig.mk "GET /x" None].
Definition projects : list ProtectionProject.t :=
  [ProtectionProject.mk "web" "" "tcp" "80" ["192.0.2.0/30"] ["rate_limit"] "defend"].

Definition config : Config.t :=
  Config.mk "eth0" ["10.1.0.0/16"] ["203.0.113.9"] "info" false true true false
    RateLimitSection_default PortRateLimitConfig_default false (L7ScanConfig.mk true patterns)
    AdaptiveConfig_default acl projects
    (GeoIpConfig.mk true None (Some "c.csv") None ["CN"] [] [] [] "pass")
    (ThreatIntelConfig.mk false []) 8080 None None None false "/var/lib/eshield" 7 10 None "generic"
    0 0 (AuditConfig.mk true "/var/log/audit" 10) (TrustScoreConfig.mk true 100 3)
    (DangerSignalConfig.mk false 5 (f64_of 3)) (ConnTrackConfig.mk true 128 1000)
    (HubConfig.mk false [] "node1" "" 30 10 1 30 100 false 60 (HubTlsConfig.mk false None None None true))
    (PacketLogConfig.mk false 1 1000 false) XdpConfig_default (LimitsConfig.mk 0 0).

#[export] Instance env : AgentEnv := {|
  config_file := Some config;
  interface_exists := String.eqb "eth0";
  store_dir_ok _ := true;
  files := {[ "c.csv" := FileMeta.mk 1 ("network,country" +:+ String (of_code 10) "198.51.100.0/24,CN") ]};
  package_version := "0.5.0";
|}.

Definition machine : @KState Samples.kernel := Samples.state [].

(** The agent after start, and the same under danger level 2. *)
Definition started : option (@ControlState Samples.kernel SortedTable.redb) :=
  control_new machine config (Some []) (Some RuleStore_empty) (Some (engine_new AdaptiveConfig_default)).
Definition bare : @ControlState Samples.kernel SortedTable.redb :=
  mkControl machine (from_config config) [] [] [] [] None (Some RuleStore_empty) false "" (Config.hub config)
    None [].
Definition agent : @ControlState Samples.kernel SortedTable.redb := default bare started.
Definition alarmed : @ControlState Samples.kernel SortedTable.redb := snd (set_danger_level 2 agent).

Example agent_starts : match started with Some _ => true | None => false end = true.
Proof. vm_compute. reflexivity. Qed.

Lemma run_ok {S A} (m : Try S A) s a : fst (m s) = Some a -> m s = (Some a, snd (m s)).
Proof. destruct (m s). cbn. by intros ->. Qed.
End ControlSample.
