(* ===== verification/AgentControlProps.v ===== *)
(** * AgentControlProps: what the agent's operations achieve

    Theorems that join the control plane with the packet program: a block or an
    allowed network takes effect in the checks of [DataPlane], rule sets reach
    the tables the checks read, and the errors found in the control plane. *)
From Stdlib Require Import Ascii.
From stdpp Require Import strings gmap.
From S2P Require Import Prelude Words Common Pure RustStd IpText Config TimeSeries Redb RuleStore RuleStoreProps Maps Footprint Blacklist RateCounter Limits Filters DataPlane AgentMaps Geoip Adaptive AuditLog AgentControl ControlSample.
#[local] Open Scope Z_scope.

(** ** Running the error monad *)
Lemma try_bind_ok {S A B} (m : Try S A) (k : A -> Try S B) s a s' :
  m s = (Some a, s') -> try_bind m k s = k a s'.
Proof. intros H. unfold try_bind. by rewrite H. Qed.

Lemma try_bind_inv {S A B} (m : Try S A) (k : A -> Try S B) s b s' :
  try_bind m k s = (Some b, s') -> exists a s1, m s = (Some a, s1) /\ k a s1 = (Some b, s').
Proof. unfold try_bind. destruct (m s) as [[a|] s1] eqn:E; [|done]. intros H. by exists a, s1. Qed.

Lemma try_gets {S A B} (f : S -> A) (k : A -> Try S B) s : try_bind (run (gets f)) k s = k (f s) s.
Proof. reflexivity. Qed.
Lemma try_modify {S B} (f : S -> S) (k : unit -> Try S B) s : try_bind (run (modify f)) k s = k tt (f s).
Proof. reflexivity. Qed.
Lemma try_some {S A B} (a : A) (k : A -> Try S B) s : try_bind (of_option (Some a)) k s = k a s.
Proof. reflexivity. Qed.
Lemma try_ensure {S B} (k : unit -> Try S B) s : try_bind (ensure true) k s = k tt s.
Proof. reflexivity. Qed.

(** [keeps P m]: whatever [m] does, successful or not, keeps [P]. *)
Definition keeps {S A} (P : S -> Prop) (m : Try S A) : Prop := forall s, P s -> P (snd (m s)).

Section Keeps.
Context {S : Type} (P : S -> Prop).

Lemma keeps_bind {A B} (m : Try S A) (k : A -> Try S B) :
  keeps P m -> (forall a, keeps P (k a)) -> keeps P (try_bind m k).
Proof.
  intros Hm Hk s Hs. unfold try_bind. specialize (Hm s Hs). destruct (m s) as [[a|] s1]; [|done].
  cbn in *. by apply Hk.
Qed.
Lemma keeps_ok {A} (a : A) : keeps P (ok a).
Proof. by intros s. Qed.
Lemma keeps_of_option {A} (o : option A) : keeps P (of_option o).
Proof. by intros s. Qed.
Lemma keeps_ensure b : keeps P (ensure b).
Proof. by intros s. Qed.
Lemma keeps_gets {A} (f : S -> A) : keeps P (run (gets f)).
Proof. by intros s. Qed.
Lemma keeps_ignore {A} (m : Try S A) : keeps P m -> keeps P (ignore m).
Proof. intros Hm s Hs. unfold ignore. cbn. by apply Hm. Qed.
Lemma keeps_modify (f : S -> S) : (forall s, P s -> P (f s)) -> keeps P (run (modify f)).
Proof. intros Hf s Hs. by apply Hf. Qed.
Lemma keeps_for_each {A} (f : A -> Try S unit) l : (forall x, keeps P (f x)) -> keeps P (for_each f l).
Proof. intros Hf. induction l; [apply keeps_ok|]. apply keeps_bind; [apply Hf|done]. Qed.
Lemma keeps_for_each_from {A} (f : Z -> A -> Try S unit) l : forall i,
  (forall i x, keeps P (f i x)) -> keeps P (for_each_from f i l).
Proof. intros i Hf. revert i. induction l; intros i; [apply keeps_ok|]. apply keeps_bind; [apply Hf|done]. Qed.
End Keeps.

Ltac keeps_tac :=
  repeat lazymatch goal with
  | |- keeps _ (try_bind _ _) => apply keeps_bind; [|intros ?]
  | |- keeps _ (ok _) => apply keeps_ok
  | |- keeps _ (of_option _) => apply keeps_of_option
  | |- keeps _ (ensure _) => apply keeps_ensure
  | |- keeps _ (run (gets _)) => apply keeps_gets
  | |- keeps _ (for_each _ _) => apply keeps_for_each; intros ?
  | |- keeps _ (for_each_from _ _ _) => apply keeps_for_each_from; intros ? ?
  | |- keeps _ (ignore _) => apply keeps_ignore
  | |- keeps _ (run (modify _)) => apply keeps_modify; intros ? ?
  | |- keeps _ (update _) => apply keeps_modify; intros ? ?
  | |- keeps _ (audit _ _ _) => apply keeps_modify; intros ? ?
  end.

Section Blocking.
Context {KN : Kernel} {KL : KernelLaws} {MO : MapOps} {ML : MapLaws MO} {HO : HashOrder}
  {R : Redb} {RL : RedbLaws R} {J : RuleJson} {JL : RuleJsonLaws J} {CL : CsvLib} {EN : AgentEnv}.

(** The agent's deadline is the data plane's. *)
Lemma deadline_agrees now_ns d : 0 <= d -> deadline now_ns d = block_deadline now_ns d.
Proof.
  intros Hd. unfold deadline, block_deadline, saturating_mul, wrapping_mul, wrap.
  case_match; [done|]. f_equal. rewrite Z.gtb_ltb. change u64_MAX with 18446744073709551615.
  change (2 ^ 64) with 18446744073709551616. change (18446744073709551615 / 1000000000) with 18446744073.
  destruct (18446744073 <? d) eqn:E; bool_to_prop.
  - rewrite Z.min_r; lia.
  - rewrite Z.min_l, Z.mod_small by lia. done.
Qed.

Lemma deadline_live now_ns d t :
  0 <= now_ns -> 0 <= d -> d = 0 \/ t < deadline now_ns d -> live_until (deadline now_ns d) t = true.
Proof.
  intros Hn Hd [->|Ht]; unfold live_until; [done|]. apply orb_true_iff. right. by apply Z.ltb_lt.
Qed.

Lemma on_ebpf_run {A} (m : State KState A) c :
  on_ebpf (run m) c = (Some (fst (m (ebpf c))), c <| ebpf := snd (m (ebpf c)) |>).
Proof. unfold on_ebpf, run. by destruct (m (ebpf c)). Qed.

(** What blocking leaves of the state. *)
Definition blocked_state (key : IpKey.t) (d reason : Z) (c : ControlState) : ControlState :=
  let t := ktime_get_ns (ktime_calls (ebpf c)) in
  c <| ebpf := (ebpf c) <| ktime_calls ::= S |>
       <| BLACKLIST ::= fun m => lru_insert m key (merge_block_entry (lru_get (BLACKLIST (ebpf c)) key) t
            (deadline t d) reason ((reason =? rules.API_BLOCK) || (reason =? rules.BLACKLIST))) |> |>.

Lemma block_ip_raw_eq key d reason c : block_ip_raw key d reason c = (Some tt, blocked_state key d reason c).
Proof. reflexivity. Qed.

(** What the [n]-th next reading of the monotonic clock will be. *)
Definition reading (n : nat) (c : ControlState) : Z := ktime_get_ns (n + ktime_calls (ebpf c)).

Lemma save_block_ok key d reason origin c : key_ok key ->
  exists c', save_block key d reason origin c = (Some tt, c') /\
    BLACKLIST (ebpf c') = BLACKLIST (ebpf c) /\ runtime c' = runtime c /\
    (forall st, store c = Some st -> exists st' v, store c' = Some st' /\
       tbl_get (RuleStore.BLACKLIST st') (ip_key_bytes key) = Some v /\
       row_from_slice v = Some (BlacklistRow.mk (deadline (reading 0 c) d) reason (reading 0 c) origin (reading 1 c))).
Proof.
  intros Hk. unfold save_block. destruct (store c) as [st|] eqn:Hst; [|by exists c].
  unfold try_bind, now, on_ebpf, run, monotonic_ns, get_ktime_ns, on_store. cbn. rewrite Hst.
  unfold save_blacklist.
  match goal with |- context [row_to_vec ?r] => destruct (row_from_to r) as (v & -> & Hv) end.
  cbn [mbind option_bind]. eexists. split; [reflexivity|]. split; [done|]. split; [done|].
  intros ? [= <-]. eexists _, v. split; [reflexivity|]. cbn. by rewrite get_insert.
Qed.

(** A block through any operation: the merged entry, and the row. *)
Lemma block_ip_key_entry key d reason origin c : key_ok key ->
  let t0 := ktime_get_ns (ktime_calls (ebpf c)) in
  exists c', block_ip_key key d reason origin c = (Some tt, c') /\
    lru_get (BLACKLIST (ebpf c')) key = Some (merge_block_entry (lru_get (BLACKLIST (ebpf c)) key) t0
      (deadline t0 d) reason ((reason =? rules.API_BLOCK) || (reason =? rules.BLACKLIST))) /\
    (forall st, store c = Some st -> exists st' v, store c' = Some st' /\
       tbl_get (RuleStore.BLACKLIST st') (ip_key_bytes key) = Some v /\
       row_from_slice v = Some (BlacklistRow.mk (deadline (reading 1 c) d) reason (reading 1 c) origin (reading 2 c))).
Proof.
  intros Hk t0. unfold block_ip_key.
  rewrite (try_bind_ok _ _ _ tt _ (block_ip_raw_eq key d reason c)).
  destruct (save_block_ok key d reason origin (blocked_state key d reason c) Hk) as (c1 & E & Hb & _ & Hst).
  rewrite (try_bind_ok _ _ _ tt _ E). eexists. split; [reflexivity|]. cbn [ebpf store]. split.
  - cbn. rewrite Hb. cbn. by rewrite lru_get_insert_eq.
  - exact Hst.
Qed.

(** The end of a block of [d] seconds from [now_ns], in nanoseconds of the clock: the
    sum as far as 64 bits go, and 0, which stands for "never", for duration 0. *)
Definition end_of_block (now_ns d : Z) : Z :=
  if d =? 0 then 0 else Z.min (now_ns + d * 1000000000) (2 ^ 64 - 1).

Lemma deadline_end now_ns d : 0 <= now_ns -> 0 <= d -> deadline now_ns d = end_of_block now_ns d.
Proof.
  intros Hn Hd. unfold deadline, end_of_block, saturating_add, saturating_mul. case_match; [done|].
  change (2 ^ 64) with 18446744073709551616. lia.
Qed.

(** A time in the span that was asked for: before the end of the block, or any. *)
Definition within (t0 d t : Z) : Prop := d = 0 \/ t < end_of_block t0 d.

(** C3: a block takes effect and is kept.  The operation behind every
    request to block an address succeeds; from then on the data plane's black-list
    check answers yes for it at every time before the requested end (every
    time, for duration 0), and as long as an earlier block would have; with a
    store, the row is the one of the request: its end is the duration counted
    from the clock's next reading after the block itself, which is also the time of
    its first sighting, its cause and origin are those asked for, and its stamp is
    the reading after that. *)
Theorem block_takes_effect key d reason origin c :
  let t0 := reading 0 c in
  key_ok key -> (forall n, 0 <= ktime_get_ns n) -> 0 <= d ->
  exists c', block_ip_key key d reason origin c = (Some tt, c') /\
    (forall t, within t0 d t -> fst (is_blacklisted key t (ebpf c')) = true) /\
    (forall t, t0 <= t -> blocked_at (ebpf c) key t = true ->
       fst (is_blacklisted key t (ebpf c')) = true) /\
    (forall st, store c = Some st -> exists st' v, store c' = Some st' /\
       tbl_get (RuleStore.BLACKLIST st') (ip_key_bytes key) = Some v /\
       row_from_slice v =
         Some (BlacklistRow.mk (end_of_block (reading 1 c) d) reason (reading 1 c) origin (reading 2 c))).
Proof.
  intros t0 Hk Hn Hd. assert (Ht0 : 0 <= t0) by apply Hn.
  destruct (block_ip_key_entry key d reason origin c Hk) as (c' & E & Hg & Hst). change (ktime_get_ns _) with t0 in Hg.
  exists c'. split; [exact E|]. split; [|split; [|by rewrite <- deadline_end by (done || apply Hn)]].
  - intros t Ht. unfold within in Ht. rewrite <- deadline_end in Ht by done. rewrite is_blacklisted_result. unfold blocked_at. rewrite Hg, merge_block_entry_live_eq.
    fold t0. rewrite deadline_live by done. case_match; [by rewrite orb_true_r|done].
  - intros t Ht. unfold blocked_at at 1. destruct (lru_get (BLACKLIST (ebpf c)) key) as [p|] eqn:Hp; [|done].
    intros Hl. rewrite is_blacklisted_result. unfold blocked_at. rewrite Hg, merge_block_entry_live_eq.
    fold t0. rewrite Hl. assert (block_live p t0 = true) as ->; [|done].
    unfold block_live in *. apply orb_true_iff in Hl. apply orb_true_iff. rewrite Z.ltb_lt in *.
    destruct Hl; [by left|right; lia].
Qed.

(** releasing an address is final.  After [unblock_ip_key] the data plane's
    check answers no at every time, the store holds no row and the list of
    static entries does not name the address, so that neither a restart nor a
    reload of the same list state brings the block back; blocks of other
    addresses are as they were. *)
Theorem unblock_takes_effect key actor c :
  exists c', unblock_ip_key key actor c = (Some tt, c') /\
    (forall t, fst (is_blacklisted key t (ebpf c')) = false) /\
    (forall other t, other <> key -> blocked_at (ebpf c') other t = blocked_at (ebpf c) other t) /\
    (key ∉ blacklist c') /\
    (forall st, store c' = Some st -> tbl_get (RuleStore.BLACKLIST st) (ip_key_bytes key) = None).
Proof.
  unfold unblock_ip_key, update, on_store, run, modify, try_bind, remove_blacklist. cbn.
  assert (Hrest : forall c0, ebpf c0 = setter BLACKLIST (fun m => lru_remove m key) (ebpf c) ->
    (forall t, fst (is_blacklisted key t (ebpf c0)) = false) /\
    (forall other t, other <> key -> blocked_at (ebpf c0) other t = blocked_at (ebpf c) other t)).
  { intros c0 ->. split.
    - intros t. rewrite is_blacklisted_result. unfold blocked_at. cbn. by rewrite lru_get_remove_eq.
    - intros other t Hne. unfold blocked_at. cbn. by rewrite lru_get_remove_ne. }
  destruct (store c) as [st|] eqn:Hst; cbn; rewrite ?Hst.
  - eexists. split; [reflexivity|].
    match goal with |- context [ebpf ?c0] => destruct (Hrest c0 eq_refl) as [H1 H2] end.
    split; [exact H1|]. split; [exact H2|]. cbn. rewrite list_elem_of_filter.
    split; [by intros []|]. intros ? [= <-]. cbn. by rewrite get_remove.
  - eexists. split; [reflexivity|].
    match goal with |- context [ebpf ?c0] => destruct (Hrest c0 eq_refl) as [H1 H2] end.
    split; [exact H1|]. split; [exact H2|]. cbn. rewrite list_elem_of_filter.
    split; [by intros []|]. by rewrite Hst.
Qed.

(** ** The hub's deletions *)
Lemma unblock_ip_key_eq key actor c : exists c', unblock_ip_key key actor c = (Some tt, c') /\
  ebpf c' = setter BLACKLIST (fun m => lru_remove m key) (ebpf c) /\
  store c' = setter RuleStore.BLACKLIST (tbl_remove (ip_key_bytes key)) <$> store c.
Proof.
  unfold unblock_ip_key, update, on_store, run, modify, try_bind, remove_blacklist. cbn.
  destruct (store c) as [st|] eqn:Hst; cbn; eexists; (split; [reflexivity|]); by rewrite ?Hst.
Qed.

Lemma unblock_each_spec hub_set ips : forall c n,
  exists m c', unblock_each hub_set ips n c = (Some m, c') /\
    (forall key t, blocked_at (ebpf c') key t =
       if decide (key ∈ ips /\ key ∈ hub_set) then false else blocked_at (ebpf c) key t).
Proof.
  induction ips as [|ip ips IH]; intros c n; cbn [unblock_each].
  - eexists _, _. split; [reflexivity|]. intros key t. rewrite decide_False; [done|].
    intros [H _]. by apply not_elem_of_nil in H.
  - case_bool_decide as Hin.
    + destruct (unblock_ip_key_eq ip "hub" c) as (c1 & E & He & _). rewrite (try_bind_ok _ _ _ _ _ E).
      destruct (IH c1 (n + 1)) as (m & c' & E' & Hc). exists m, c'. split; [done|]. intros key t.
      rewrite Hc. assert (Hb : blocked_at (ebpf c1) key t = if decide (key = ip) then false
                               else blocked_at (ebpf c) key t).
      { unfold blocked_at. rewrite He. cbn. case_decide as Hk; [by rewrite Hk, lru_get_remove_eq|].
        by rewrite lru_get_remove_ne. }
      rewrite Hb. repeat case_decide; try done; rewrite elem_of_cons in *; intuition (subst; tauto).
    + destruct (IH c n) as (m & c' & E' & Hc). exists m, c'. split; [done|]. intros key t.
      rewrite Hc. repeat case_decide; try done; rewrite elem_of_cons in *; intuition (subst; tauto).
Qed.

(** the hub can only take back what it gave.  Whatever addresses the hub
    reports as deleted, exactly those whose row in the store came from the hub
    are released; a block of the administrator, of a detector or of a feed
    stays in force, and so does every address that is not named. *)
Theorem hub_releases_own ips c st m :
  store c = Some st -> repr (RuleStore.BLACKLIST st) m ->
  exists n c', unblock_hub_policies ips c = (Some n, c') /\
    forall key t, blocked_at (ebpf c') key t =
      if decide (key ∈ ips /\ BlacklistRow.origin <$> m !! key = Some Hub) then false
      else blocked_at (ebpf c) key t.
Proof.
  intros Hst Hm. unfold unblock_hub_policies. rewrite try_gets, Hst. destruct (load_repr st m Hm) as (rows & Hl & Hrows). rewrite Hl, try_some. cbv zeta. set (hub_set := map fst _).
  assert (Hhub : forall key, key ∈ hub_set <-> BlacklistRow.origin <$> m !! key = Some Hub).
  { intros key. subst hub_set. rewrite list_elem_of_fmap. split.
    - intros ([key' r] & -> & [Ho Hin]%list_elem_of_filter). apply Hrows in Hin. cbn in *.
      rewrite Hin. cbn. by rewrite Ho.
    - destruct (m !! key) as [r|] eqn:E; [|done]. cbn. intros [= Ho]. exists (key, r).
      split; [done|]. apply list_elem_of_filter. split; [done|]. by apply Hrows. }
  destruct (unblock_each_spec hub_set ips c 0) as (n & c' & E & Hc). exists n, c'. split; [exact E|].
  intros key t. rewrite Hc. destruct (decide (key ∈ ips /\ key ∈ hub_set)) as [Hd|Hd].
  - rewrite decide_True; [done|]. by rewrite <- Hhub.
  - rewrite decide_False; [done|]. by rewrite <- Hhub.
Qed.

(** ** The hub's policies *)

(** An entry is kept, unless the kernel evicts it to make room. *)
Definition kept (key : IpKey.t) (s s' : KState) : Prop :=
  lru_get (BLACKLIST s') key = lru_get (BLACKLIST s) key \/ lru_get (BLACKLIST s') key = None.

Lemma kept_trans key s1 s2 s3 : kept key s1 s2 -> kept key s2 s3 -> kept key s1 s3.
Proof. unfold kept. intros [E1|E1] [E2|E2]; rewrite E2, ?E1; auto. Qed.

Lemma block_ip_key_kept key other d reason origin c : other <> key ->
  kept other (ebpf c) (ebpf (snd (block_ip_key key d reason origin c))).
Proof.
  intros Hne. unfold block_ip_key.
  rewrite (try_bind_ok _ _ _ tt _ (block_ip_raw_eq key d reason c)).
  assert (Hb : kept other (ebpf c) (ebpf (blocked_state key d reason c))).
  { unfold kept. cbn. destruct (lru_get_insert_ne (BLACKLIST (ebpf c)) key other
      (merge_block_entry (lru_get (BLACKLIST (ebpf c)) key) (ktime_get_ns (ktime_calls (ebpf c)))
        (deadline (ktime_get_ns (ktime_calls (ebpf c))) d) reason
        ((reason =? rules.API_BLOCK) || (reason =? rules.BLACKLIST)))) as [E|E]; [done|by left|by right]. }
  set (c1 := blocked_state key d reason c) in *. clearbody c1. revert Hb. generalize (ebpf c) as s0.
  intros s0 Hb. unfold save_block, try_bind, now, on_ebpf, run, monotonic_ns, get_ktime_ns, on_store, save_blacklist.
  destruct (store c1) as [st|] eqn:Hst; cbn; [|exact Hb]. rewrite Hst.
  destruct (row_to_vec _); exact Hb.
Qed.

(** a pull never overrides what the node decided.  However many policies
    are pulled, and whether or not the operation succeeds, the entry of an
    address that is already on the black list, or that every policy naming it
    attributes to this node, is not written: it stays as it was unless the
    kernel evicts it. *)
Theorem hub_policies_keep_local policies c key :
  (is_Some (lru_get (BLACKLIST (ebpf c)) key) \/
   (HubConfig.node_name (hub_config c) <> EmptyString /\
    forall p, p ∈ policies -> SharedPolicy.ip p = key ->
      HubConfig.node_name (hub_config c) ∈ SharedPolicy.source_nodes p)) ->
  kept key (ebpf c) (ebpf (snd (apply_hub_policies policies c))).
Proof.
  intros Hkey. unfold apply_hub_policies. case_bool_decide; [by left|].
  rewrite !try_gets.
  set (existing := lru_keys _). set (node := HubConfig.node_name (hub_config c)) in *.
  assert (Hskip : forall p, p ∈ policies -> SharedPolicy.ip p = key ->
    key ∈ existing \/ (node <> EmptyString /\ node ∈ SharedPolicy.source_nodes p)).
  { intros p Hp Hip. destruct Hkey as [Hk|[Hn Hall]]; [left; by apply lru_keys_spec|right; by auto]. }
  clear Hkey H. clearbody existing node. generalize 0 as n. revert c.
  induction policies as [|p policies IH]; intros c n; [by left|]. cbn [apply_policies].
  assert (Hstep : kept key (ebpf c) (ebpf (snd (apply_policy existing node p c)))).
  { unfold apply_policy. case_bool_decide as Hin; [by left|].
    destruct (negb (String.eqb node "") && existsb (String.eqb node) (SharedPolicy.source_nodes p)) eqn:Hown;
      [by left|].
    assert (Hne : key <> SharedPolicy.ip p).
    { intros ->. destruct (Hskip p ltac:(by left) eq_refl) as [?|[Hn Hs]]; [done|].
      apply andb_false_iff in Hown as [Ho|Ho].
      - apply negb_false_iff, String.eqb_eq in Ho. done.
      - apply not_true_iff_false in Ho. apply Ho, existsb_exists. exists node.
        split; [by apply list_elem_of_In|apply String.eqb_refl]. }
    pose proof (block_ip_key_kept (SharedPolicy.ip p) key (SharedPolicy.ttl_s p) (SharedPolicy.reason p) Hub c Hne) as Hb.
    unfold try_bind at 1. destruct (block_ip_key _ _ _ _ c) as [[[]|] c1]; [|exact Hb]. cbn [snd] in Hb.
    eapply kept_trans; [exact Hb|].
    destruct (SharedPolicy.trust_score p >? 0); [|by left].
    unfold set_trust_score, try_bind, update, now, on_ebpf, run, modify, gets. cbn.
    destruct (RuntimeConfigSnapshot.trust_enabled (runtime c1)); by left. }
  unfold try_bind. destruct (apply_policy existing node p c) as [[b|] c1]; [|exact Hstep].
  cbn [snd] in Hstep. eapply kept_trans; [exact Hstep|]. apply IH. intros q Hq. apply Hskip. by right.
Qed.

(** ** Restoring blocks *)

(** a block with less than a second to go becomes permanent.  Restoring a
    row that is in force turns what is left of it into whole seconds, and 0
    seconds means for ever: after a restart or a reload the address stays
    blocked at every time, and the hub is told a life time of 0.  With a second
    or more to go the block ends with the whole seconds left, counted from the
    restoration. *)
Theorem restore_makes_permanent now_ns key r c :
  let til := BlacklistRow.blocked_until_ns r in
  let t0 := ktime_get_ns (ktime_calls (ebpf c)) in
  BlacklistRow.block_reason r <> rules.BLACKLIST -> til <> BLOCK_PERMANENT -> now_ns < til ->
  lru_get (BLACKLIST (ebpf c)) key = None -> 0 <= t0 ->
  exists c', restore_block now_ns (key, r) c = (Some tt, c') /\
    (til - now_ns < 1000000000 -> remaining_s til now_ns = 0 /\
       forall t, fst (is_blacklisted key t (ebpf c')) = true) /\
    (1000000000 <= til - now_ns -> til < 2 ^ 64 -> 0 <= now_ns ->
     t0 + (til - now_ns) / 1000000000 * 1000000000 < 2 ^ 64 -> forall t,
       fst (is_blacklisted key t (ebpf c')) =
       (t <? t0 + (til - now_ns) / 1000000000 * 1000000000)).
Proof.
  intros til t0 Hr Hp Hlt Hnone Ht0. unfold restore_block.
  assert (Hexp : expired til now_ns = false)
    by (unfold expired; rewrite (proj2 (Z.leb_gt til now_ns)); [apply andb_false_r|lia]).
  fold til. rewrite Hexp, (proj2 (Z.eqb_neq _ _)) by done. cbn [orb].
  rewrite block_ip_raw_eq. eexists. split; [reflexivity|].
  assert (Hrem : remaining_s til now_ns = (til - now_ns) / 1000000000).
  { unfold remaining_s, saturating_sub. rewrite (proj2 (Z.eqb_neq _ _)) by done. rewrite Z.max_l; [done|lia]. }
  assert (Hblk : forall t d, fst (is_blacklisted key t (ebpf (blocked_state key d (BlacklistRow.block_reason r) c))) =
    live_until (deadline t0 d) t).
  { intros t d. rewrite is_blacklisted_result. unfold blocked_at. cbn. rewrite lru_get_insert_eq.
    by rewrite merge_block_entry_live_eq, Hnone. }
  rewrite Hrem. split.
  - intros Hs. rewrite Z.div_small by lia. split; [done|]. intros t. by rewrite Hblk.
  - intros Hs Hu Hn Hov t. rewrite Hblk. set (d := (til - now_ns) / 1000000000) in *.
    assert (Hd : 1 <= d) by (apply Z.div_le_lower_bound; lia).
    assert (Hd2 : d * 1000000000 <= til - now_ns)
      by (subst d; rewrite Z.mul_comm; apply Z.mul_div_le; lia).
    unfold live_until, deadline, saturating_mul, saturating_add.
    rewrite (proj2 (Z.eqb_neq d 0)) by lia. rewrite (Z.min_l (d * 1000000000)) by lia.
    rewrite Z.min_l by lia. rewrite (proj2 (Z.eqb_neq _ BLOCK_PERMANENT)) by (unfold BLOCK_PERMANENT; lia).
    done.
Qed.

(** ** The runtime configuration *)
Lemma array_set_0 {A} (x : A) l v : array_set (x :: l) 0 v = Some (v :: l).
Proof. reflexivity. Qed.

Lemma write_patch_eq patch snapshot s cfg rest rl rrest prl prest :
  CONFIG s = cfg :: rest -> RATE_LIMIT_CFG s = rl :: rrest -> PORT_RATE_LIMIT_CFG s = prl :: prest ->
  exists s', write_patch patch snapshot s = (Some tt, s') /\
    CONFIG s' = config_of_snapshot snapshot cfg :: rest /\
    RATE_LIMIT_CFG s' = match RuntimeConfigPatch.rate_limit patch with
                        | Some p => map_of_params p | None => rl end :: rrest /\
    PORT_RATE_LIMIT_CFG s' =
      match RuntimeConfigPatch.port_rate_limit patch with
      | Some p => RateLimitConfig.mk (RateLimitParams.threshold p) (RateLimitParams.tick_ms p) 0 1 0
      | None => prl end :: prest.
Proof.
  intros Hc Hr Hp. unfold write_patch, given, CONFIG_set.
  destruct (RuntimeConfigPatch.rate_limit patch) as [r|], (RuntimeConfigPatch.port_rate_limit patch) as [p|];
    unfold try_bind, array_write, run, gets, ok; cbn [setter];
    repeat (progress (rewrite ?Hc, ?Hr, ?Hp, ?array_set_0; cbn));
    (eexists; split; [reflexivity|]); cbn; by rewrite ?Hc, ?Hr, ?Hp.
Qed.

(** The path of a valid patch. *)
Lemma patch_runtime_ok patch c cfg rest rl rrest prl prest :
  CONFIG (ebpf c) = cfg :: rest -> RATE_LIMIT_CFG (ebpf c) = rl :: rrest ->
  PORT_RATE_LIMIT_CFG (ebpf c) = prl :: prest -> validate_runtime_patch patch = true ->
  exists c', patch_runtime patch c = (Some tt, c') /\
    runtime c' = patch_snapshot patch (runtime c) /\
    CONFIG (ebpf c') = config_of_snapshot (runtime c') cfg :: rest /\
    RATE_LIMIT_CFG (ebpf c') = match RuntimeConfigPatch.rate_limit patch with
                               | Some p => map_of_params p | None => rl end :: rrest /\
    PORT_RATE_LIMIT_CFG (ebpf c') =
      match RuntimeConfigPatch.port_rate_limit patch with
      | Some p => RateLimitConfig.mk (RateLimitParams.threshold p) (RateLimitParams.tick_ms p) 0 1 0
      | None => prl end :: prest /\
    adaptive c' = match RuntimeConfigPatch.adaptive patch with
                  | Some a => update_config a <$> adaptive c | None => adaptive c end.
Proof.
  intros Hc Hr Hp Hv. unfold patch_runtime. rewrite Hv.
  rewrite try_ensure, try_gets.
  assert (Had : exists c1, given (RuntimeConfigPatch.adaptive patch) (fun cfg : AdaptiveConfig.t =>
      update (fun c => c <| adaptive ::= fmap (update_config cfg) |>)) c = (Some tt, c1) /\ ebpf c1 = ebpf c /\
      adaptive c1 = match RuntimeConfigPatch.adaptive patch with
                    | Some a => update_config a <$> adaptive c | None => adaptive c end).
  { unfold given. destruct (RuntimeConfigPatch.adaptive patch); [|by exists c].
    eexists. by split; [reflexivity|]. }
  destruct Had as (c1 & E1 & Eb & Ea). rewrite (try_bind_ok _ _ _ _ _ E1).
  destruct (write_patch_eq patch (patch_snapshot patch (runtime c)) (ebpf c1) cfg rest rl rrest prl prest)
    as (s' & E2 & Hc' & Hr' & Hp'); [by rewrite Eb..|].
  assert (E3 : on_ebpf (write_patch patch (patch_snapshot patch (runtime c))) c1 = (Some tt, c1 <| ebpf := s' |>))
    by (unfold on_ebpf; by rewrite E2).
  rewrite (try_bind_ok _ _ _ _ _ E3). unfold update at 1. rewrite try_modify.
  eexists. split; [reflexivity|]. cbn. by rewrite Hc', Hr', Hp'.
Qed.

(** a change of the configuration is all or nothing and reaches the data
    plane.  A patch that fails validation changes nothing at all; one that
    passes replaces the snapshot by the patched one, makes every switch and
    limit in the [CONFIG] map the snapshot's, with the divisors and windows at
    least 1, and leaves the rule counts and the danger level the other tasks
    maintain as they were. *)
Theorem patch_runtime_agrees patch c cfg rest rl rrest prl prest :
  CONFIG (ebpf c) = cfg :: rest -> RATE_LIMIT_CFG (ebpf c) = rl :: rrest ->
  PORT_RATE_LIMIT_CFG (ebpf c) = prl :: prest ->
  if validate_runtime_patch patch then
    exists c', patch_runtime patch c = (Some tt, c') /\
      runtime c' = patch_snapshot patch (runtime c) /\
      CONFIG (ebpf c') = config_of_snapshot (runtime c') cfg :: rest /\
      RuntimeConfig.danger_level (config_of_snapshot (runtime c') cfg) = RuntimeConfig.danger_level cfg /\
      RuntimeConfig.port_acl_count (config_of_snapshot (runtime c') cfg) = RuntimeConfig.port_acl_count cfg /\
      RuntimeConfig.l7_pattern_count (config_of_snapshot (runtime c') cfg) = RuntimeConfig.l7_pattern_count cfg /\
      RATE_LIMIT_CFG (ebpf c') = match RuntimeConfigPatch.rate_limit patch with
                                 | Some p => map_of_params p | None => rl end :: rrest
  else patch_runtime patch c = (None, c).
Proof.
  intros Hc Hr Hp. destruct (validate_runtime_patch patch) eqn:Hv.
  - destruct (patch_runtime_ok patch c cfg rest rl rrest prl prest Hc Hr Hp Hv) as (c' & E & Hrt & Hc' & Hr' & _).
    exists c'. done.
  - unfold patch_runtime. by rewrite Hv.
Qed.

(** A field that a step of the patch does not set. *)
Lemma patched_proj {A B} (p : RuntimeConfigSnapshot.t -> B) (o : option A) f s :
  (forall x s, p (f x s) = p s) -> p (patched o f s) = p s.
Proof. intros H. destruct o; [apply H|done]. Qed.

Definition patch_none : RuntimeConfigPatch.t :=
  RuntimeConfigPatch.mk None None None None None None None None None None None None None None
    None None None None None.

(** any later change of the configuration hardens a soft mode that is not
    written in lower case.  The configuration file may say [Soft] or [SOFT]:
    validation accepts it and the data plane starts in soft mode, where an
    over-limit source only loses packets.  A patch of an unrelated field then
    switches to hard mode, in which the source is put on the black list. *)
Theorem patch_hardens_soft_mode config patch c rest rl rrest prl prest :
  let mode := RateLimitSection.block_mode (Config.rate_limit config) in
  eq_ignore_ascii_case mode "soft" = true -> mode <> "soft"%string ->
  runtime c = from_config config -> CONFIG (ebpf c) = runtime_of config :: rest ->
  RATE_LIMIT_CFG (ebpf c) = rl :: rrest -> PORT_RATE_LIMIT_CFG (ebpf c) = prl :: prest ->
  validate_runtime_patch patch = true -> RuntimeConfigPatch.rate_limit_block_mode patch = None ->
  RuntimeConfig.rate_limit_soft (runtime_of config) = 1 /\
  exists c' cfg, patch_runtime patch c = (Some tt, c') /\ CONFIG (ebpf c') = cfg :: rest /\
    RuntimeConfig.rate_limit_soft cfg = 0.
Proof.
  intros mode Hs Hne Hrt Hc Hr Hp Hv Hm. split; [cbn; fold mode; by rewrite Hs|].
  destruct (patch_runtime_ok patch c _ rest rl rrest prl prest Hc Hr Hp Hv) as (c' & E & Hrt' & Hc' & _).
  exists c', (config_of_snapshot (runtime c') (runtime_of config)). split; [done|]. split; [done|].
  assert (Hmode : RuntimeConfigSnapshot.rate_limit_block_mode (runtime c') = mode).
  { rewrite Hrt', Hrt. unfold patch_snapshot. rewrite Hm.
    assert (Hno : forall f s, patched (A := string) None f s = s) by done. rewrite Hno. clear Hno.
    repeat (rewrite (patched_proj RuntimeConfigSnapshot.rate_limit_block_mode); [|done]). done. }
  cbn. rewrite Hmode. by rewrite (proj2 (String.eqb_neq _ _)).
Qed.

(** the limits of a disabled rate limiter are not checked, and enabling it
    afterwards is not checked either.  A patch that enables the limiter with a
    tick of 0 is refused; the same limits with the switch off, and then the
    switch alone, are both accepted: the configuration says that rate limiting
    is on, and the data plane never limits any source. *)
Theorem patch_disables_limiter rl0 c cfg rest rl rrest prl prest :
  RateLimitParams.tick_ms rl0 = 0 -> RateLimitParams.enabled rl0 = false ->
  CONFIG (ebpf c) = cfg :: rest -> RATE_LIMIT_CFG (ebpf c) = rl :: rrest ->
  PORT_RATE_LIMIT_CFG (ebpf c) = prl :: prest ->
  let limits p := patch_none <| RuntimeConfigPatch.rate_limit := Some p |> in
  let switch := patch_none <| RuntimeConfigPatch.rate_limit_enabled := Some true |> in
  patch_runtime (limits (rl0 <| RateLimitParams.enabled := true |>)) c = (None, c) /\
  exists c1 c2 cfg2, patch_runtime (limits rl0) c = (Some tt, c1) /\
    patch_runtime switch c1 = (Some tt, c2) /\ CONFIG (ebpf c2) = cfg2 :: rest /\
    RuntimeConfig.rate_limit_enabled cfg2 = 1 /\
    RuntimeConfigSnapshot.rate_limit_enabled (runtime c2) = true /\
    forall src dport now_ns, fst (check_rate_limit src dport now_ns (ebpf c2)) = false.
Proof.
  intros Ht He Hc Hr Hp limits switch. split.
  { unfold patch_runtime. assert (validate_runtime_patch (limits (rl0 <| RateLimitParams.enabled := true |>)) = false) as ->;
      [|done]. unfold validate_runtime_patch, limits. cbn. rewrite Ht. by rewrite andb_false_r. }
  destruct (patch_runtime_ok (limits rl0) c cfg rest rl rrest prl prest Hc Hr Hp) as (c1 & E1 & Hrt1 & Hc1 & Hr1 & Hp1 & _).
  { unfold validate_runtime_patch, limits. cbn. by rewrite He. }
  destruct (patch_runtime_ok switch c1 _ rest _ rrest _ prest Hc1 Hr1 Hp1 eq_refl) as (c2 & E2 & Hrt2 & Hc2 & Hr2 & _).
  eexists c1, c2, _. split; [exact E1|]. split; [exact E2|]. split; [exact Hc2|].
  split; [by rewrite Hrt2|]. split; [by rewrite Hrt2|]. intros src dport now_ns.
  unfold check_rate_limit, update_rate_counter, update_rate_counter_port, bind, gets, array_get, ret.
  change (RATE_LIMIT_CFG (ebpf c2) = map_of_params rl0 :: rrest) in Hr2.
  change (Z.to_nat 0) with 0%nat. rewrite Hc2. cbn [lookup list_lookup].
  destruct (_ =? 0); [done|]. destruct (nz _); cbv beta iota; rewrite Hr2; cbn [lookup list_lookup];
    unfold map_of_params; cbn [RateLimitConfig.tick_ms]; by rewrite Ht.
Qed.

(** *** A reload and the danger level *)
Definition map_danger (level : Z) (s : KState) : Prop :=
  match CONFIG s with cfg :: _ => RuntimeConfig.danger_level cfg = level | [] => False end.

Definition shown_danger (level : Z) (c : ControlState) : Prop :=
  RuntimeConfigSnapshot.danger_level (runtime c) = level.

Lemma keeps_trie_insert (P : KState -> Prop) p `{!Setter p} cap e :
  (forall f s, P s -> P (setter p f s)) -> keeps P (trie_insert p cap e).
Proof. intros Hp s Hs. unfold trie_insert. destruct (lpm_insert _ _ _); [|done]. by apply Hp. Qed.

Lemma keeps_array_write (P : KState -> Prop) {A} (p : KState -> list A) `{!Setter p} i v :
  (forall f s, P s -> P (setter p f s)) -> keeps P (array_write p i v).
Proof. intros Hp s Hs. unfold array_write. destruct (array_set _ _ _); [|done]. by apply Hp. Qed.

(** A property that writing the rule tables and their counts leaves alone. *)
Record rule_blind (P : KState -> Prop) : Prop := {
  blind_acl f s : P s -> P (setter PORT_ACL f s);
  blind_l7 f s : P s -> P (setter L7_PATTERNS f s);
  blind_policy f s : P s -> P (setter PROJECT_POLICY f s);
  blind_count f : (forall cfg, RuntimeConfig.danger_level (f cfg) = RuntimeConfig.danger_level cfg) ->
    keeps P (sync_config_count f);
}.

Lemma keeps_init_acl P items : rule_blind P -> keeps P (init_port_acl_map items).
Proof.
  intros Hb. unfold init_port_acl_map. keeps_tac; [apply keeps_array_write, Hb..|by apply (blind_count _ Hb)].
Qed.

Lemma keeps_init_l7 P patterns : rule_blind P -> keeps P (init_l7_patterns_map patterns).
Proof.
  intros Hb. unfold init_l7_patterns_map. keeps_tac; [apply keeps_array_write, Hb..|by apply (blind_count _ Hb)].
Qed.

Lemma keeps_init_projects P projects : rule_blind P -> keeps P (init_protection_projects_map projects).
Proof.
  intros Hb. unfold init_protection_projects_map. keeps_tac; [by apply (blind_policy _ Hb)|by apply (blind_count _ Hb)].
Qed.

(** The common shape of the operations on rule sets. *)
Lemma keeps_set_rules (P : ControlState -> Prop) valid (init : Try KState unit)
    (show : RuntimeConfigSnapshot.t -> RuntimeConfigSnapshot.t) (save : RuleStore -> option RuleStore) actor action detail :
  keeps P (on_ebpf init) -> (forall c, P c -> P (c <| runtime ::= show |>)) -> keeps P (on_store save) ->
  (forall c f, P c -> P (c <| auditor ::= f |>)) ->
  keeps P (let! _ := ensure valid in let! _ := on_ebpf init in
           let! _ := update (fun c => c <| runtime ::= show |>) in
           let! _ := on_store save in audit actor action detail).
Proof. intros Hi Hs Hst Ha. keeps_tac; by auto. Qed.

Lemma danger_blind level : rule_blind (map_danger level).
Proof.
  split; [done..|]. intros f Hf s Hs. unfold sync_config_count. rewrite try_gets. unfold array_get.
  change (Z.to_nat 0) with 0%nat. unfold map_danger in *. destruct (CONFIG s) as [|cfg rest] eqn:E; [done|].
  cbn [lookup list_lookup]. unfold ignore, CONFIG_set, array_write. rewrite E, array_set_0. cbn. by rewrite Hf.
Qed.

Lemma keeps_on_ebpf {A} lm ls (m : Try KState A) : keeps (map_danger lm) m ->
  keeps (fun c => map_danger lm (ebpf c) /\ shown_danger ls c) (on_ebpf m).
Proof. intros Hm c [H1 H2]. unfold on_ebpf. specialize (Hm _ H1). by destruct (m (ebpf c)). Qed.

Lemma keeps_on_store lm ls f : keeps (fun c => map_danger lm (ebpf c) /\ shown_danger ls c) (on_store f).
Proof. intros c H. unfold on_store. destruct (store c) as [st|]; [|done]. by destruct (f st). Qed.

(** What is restored from the store is restored by the operations themselves. *)
Lemma keeps_load_persisted (P : ControlState -> Prop) :
  keeps P now -> (forall key d reason, keeps P (block_ip_raw key d reason)) ->
  (forall key prefix, keeps P (allow_cidr_raw key prefix)) -> (forall items, keeps P (set_port_acl items)) ->
  (forall patterns, keeps P (set_l7_patterns patterns)) -> (forall projects, keeps P (set_protection_projects projects)) ->
  keeps P load_persisted_rules.
Proof.
  intros Hn Hb Hw Ha Hl Hp.
  assert (Hr : forall A (load : RuleStore -> option (list A)) set, (forall l, keeps P (set l)) -> keeps P (restore_from load set)).
  { intros A load set Hset. unfold restore_from. keeps_tac. destruct a as [st|]; [|apply keeps_ok].
    unfold restore_rules. destruct (load st) as [[|x l]|]; [apply keeps_ok|apply Hset|apply keeps_ok]. }
  unfold load_persisted_rules. keeps_tac. destruct a as [st|]; [|apply keeps_ok]. keeps_tac; [done| |apply Hw|by apply Hr..].
  destruct x as [key r]. unfold restore_block. destruct (_ || _); [apply keeps_ok|apply Hb].
Qed.

Lemma danger_load_persisted lm ls :
  keeps (fun c => map_danger lm (ebpf c) /\ shown_danger ls c) load_persisted_rules.
Proof.
  apply keeps_load_persisted.
  - by apply keeps_on_ebpf; intros s.
  - intros key d reason. unfold block_ip_raw. keeps_tac; by apply keeps_on_ebpf; intros s.
  - intros key prefix. apply keeps_on_ebpf. unfold whitelist_add.
    destruct (IpKey_family _) as [[|]|]; [by apply keeps_trie_insert..|by intros s].
  - intros items. apply keeps_set_rules; try done; [apply keeps_on_ebpf, keeps_init_acl, danger_blind|apply keeps_on_store].
  - intros patterns. apply keeps_set_rules; try done; [apply keeps_on_ebpf, keeps_init_l7, danger_blind|apply keeps_on_store].
  - intros projects. apply keeps_set_rules; try done; [apply keeps_on_ebpf, keeps_init_projects, danger_blind|apply keeps_on_store].
Qed.

(** What the lists of the file write is not the configuration. *)
Lemma keeps_shown {A} ls (m : Try KState A) : keeps (shown_danger ls) (on_ebpf m).
Proof. intros c H. unfold on_ebpf. by destruct (m (ebpf c)). Qed.

Lemma keeps_load ls load : keeps (shown_danger ls) (load_geoip load).
Proof. intros c H. unfold load_geoip. by destruct (load (geoip_cache c)). Qed.

Ltac shown_tac :=
  repeat first [ apply keeps_shown | apply keeps_load | apply keeps_of_option | apply keeps_gets
               | by (apply keeps_modify; intros ? ?) | apply keeps_bind; [|intros ?] ].

Lemma keeps_lists ls config :
  keeps (shown_danger ls) (apply_whitelist_map config) /\
  keeps (shown_danger ls) (apply_blacklist_map config) /\
  keeps (shown_danger ls) (apply_geoip_map config).
Proof.
  unfold apply_whitelist_map, apply_blacklist_map, apply_geoip_map, update.
  split; [|split]; cbv zeta; shown_tac.
Qed.

Lemma keeps_step {S A} (P : S -> Prop) (m : Try S A) s r s' : keeps P m -> m s = (r, s') -> P s -> P s'.
Proof. intros Hm E Hs. specialize (Hm s Hs). by rewrite E in Hm. Qed.

(** a reload tells the data plane that there is no danger.  After a
    successful reload of the configuration file the snapshot still shows the
    danger level it showed before, while the [CONFIG] map, from which the
    packet program modulates its thresholds, has level 0. *)
Theorem reload_clears_danger c c' :
  reload_config_file c = (Some tt, c') ->
  RuntimeConfigSnapshot.danger_level (runtime c') = RuntimeConfigSnapshot.danger_level (runtime c) /\
  match CONFIG (ebpf c') with cfg :: _ => RuntimeConfig.danger_level cfg = 0 | [] => False end.
Proof.
  unfold reload_config_file. set (ls := RuntimeConfigSnapshot.danger_level (runtime c)).
  intros (config & c0 & E0 & H)%try_bind_inv.
  assert (Hs : shown_danger ls c0).
  { apply (keeps_step _ read_config c (Some config) c0); [|done|done]. unfold read_config. shown_tac; apply keeps_ensure. }
  destruct (keeps_lists ls config) as (Kw & Kb & Kg).
  apply try_bind_inv in H as (? & c1 & E1 & H). apply (keeps_step _ _ _ _ _ (keeps_shown ls _) E1) in Hs.
  apply try_bind_inv in H as (? & c2 & E2 & H). apply (keeps_step _ _ _ _ _ Kw E2) in Hs.
  apply try_bind_inv in H as (? & c3 & E3 & H). apply (keeps_step _ _ _ _ _ Kb E3) in Hs.
  apply try_bind_inv in H as (? & c4 & E4 & H). apply (keeps_step _ _ _ _ _ Kg E4) in Hs.
  apply try_bind_inv in H as ([] & c5 & E5 & H). apply (keeps_step _ _ _ _ _ (keeps_shown ls _) E5) in Hs.
  assert (Hm : map_danger 0 (ebpf c5)).
  { unfold on_ebpf, init_config_map, CONFIG_set, array_write in E5. revert E5. unfold map_danger.
    destruct (CONFIG (ebpf c4)) as [|cfg rest] eqn:Hc; [done|]. rewrite array_set_0. by intros [= <-]. }
  rewrite try_gets in H. unfold update in H. rewrite !try_modify in H.
  apply try_bind_inv in H as (? & c6 & E6 & H).
  match type of E6 with ignore _ ?cc = _ => assert (Hcc : map_danger 0 (ebpf cc) /\ shown_danger ls cc) end.
  { split; [exact Hm|]. exact Hs. }
  apply (keeps_step _ _ _ _ _ (keeps_ignore _ _ (danger_load_persisted 0 ls)) E6) in Hcc as [Hm' Hs'].
  unfold audit, update in H. injection H as <-. split; [exact Hs'|exact Hm'].
Qed.
End Blocking.

Module AgentControlWitness.
Import Samples ControlSample.ControlSample.

Lemma block_takes_effect_witness :
  exists c', block_ip_key alice 60 6 Api agent = (Some tt, c') /\
    fst (is_blacklisted alice 64000000000 (ebpf c')) = true.
Proof.
  destruct (block_takes_effect alice 60 6 Api agent) as (c' & E & H & _);
    [by split|intros n; vm_compute; discriminate|lia|].
  exists c'. split; [exact E|]. apply H. right. vm_compute. reflexivity.
Defined.

Lemma unblock_takes_effect_witness :
  exists c', unblock_ip_key alice "api" (snd (block_ip_key alice 0 6 Api agent)) = (Some tt, c') /\
    fst (is_blacklisted alice 7 (ebpf c')) = false.
Proof.
  destruct (unblock_takes_effect alice "api" (snd (block_ip_key alice 0 6 Api agent))) as (c' & E & H & _).
  exists c'. split; [exact E|]. apply H.
Defined.

(** A row of the hub and one of the administrator. *)
Definition rows_of (origin : BlockOrigin) : BlacklistRow.t := BlacklistRow.mk 0 6 5 origin 5.
Definition rows : gmap IpKey.t BlacklistRow.t := {[ alice := rows_of Hub; bob := rows_of Api ]}.
Definition two_blocks : ControlState :=
  snd (block_ip_key bob 0 6 Api (snd (block_ip_key alice 0 6 Hub agent))).

Lemma hub_releases_own_witness :
  let st := default RuleStore_empty
    (save_blacklist 5 alice 0 6 5 Hub RuleStore_empty ≫= save_blacklist 5 bob 0 6 5 Api) in
  let c := two_blocks <| store := Some st |> in
  exists n c', unblock_hub_policies [alice; bob] c = (Some n, c') /\
    blocked_at (ebpf c') alice 9 = false /\ blocked_at (ebpf c') bob 9 = true.
Proof.
  intros st c.
  assert (Hr : repr (RuleStore.BLACKLIST st) rows).
  { assert (Ha : key_ok alice) by done. assert (Hb : key_ok bob) by done.
    destruct (impl_refines (Save 5 alice 0 6 5 Hub) RuleStore_empty ∅ repr_empty Ha) as (s1 & E1 & H1 & _).
    destruct (impl_refines (Save 5 bob 0 6 5 Api) s1 _ H1 Hb) as (s2 & E2 & H2 & _).
    cbn [impl_op spec_op] in *. subst st. rewrite E1. cbn [mbind option_bind]. rewrite E2. exact H2. }
  destruct (hub_releases_own [alice; bob] c st rows eq_refl Hr) as (n & c' & E & H).
  exists n, c'. split; [exact E|]. rewrite !H. split; [reflexivity|]. vm_compute. reflexivity.
Defined.

Definition own : SharedPolicy.t := SharedPolicy.mk bob 2 5 10 0 0 ["node1"] 0.

Lemma hub_policies_keep_local_witness :
  let c := snd (block_ip_key alice 0 6 Api agent) in
  let pulled := [SharedPolicy.mk alice 2 5 10 0 0 ["node2"] 60; own] in
  kept alice (ebpf c) (ebpf (snd (apply_hub_policies pulled c))) /\
  kept bob (ebpf c) (ebpf (snd (apply_hub_policies pulled c))).
Proof.
  intros c pulled. split.
  - apply (hub_policies_keep_local pulled c alice). left. vm_compute. eauto.
  - apply (hub_policies_keep_local pulled c bob). right. split; [vm_compute; discriminate|].
    intros p Hp Hb. subst pulled. apply elem_of_cons in Hp as [->|Hp]; [discriminate Hb|].
    apply list_elem_of_singleton in Hp as ->. vm_compute. left.
Defined.

Lemma restore_makes_permanent_witness :
  let r := BlacklistRow.mk 5900000000 6 0 Api 0 in
  exists c', restore_block 5000000000 (alice, r) agent = (Some tt, c') /\
    fst (is_blacklisted alice 99000000000000 (ebpf c')) = true.
Proof.
  destruct (restore_makes_permanent 5000000000 alice (BlacklistRow.mk 5900000000 6 0 Api 0) agent)
    as (c' & E & H & _); [done|done|done|vm_compute; reflexivity|vm_compute; discriminate|].
  exists c'. split; [exact E|]. apply H. done.
Defined.

Definition soft_config : Config.t :=
  config <| Config.rate_limit := RateLimitSection.mk true 2000 100 7 8 120 false "Soft" |>.
Definition soft_agent : ControlState :=
  agent <| runtime := from_config soft_config |>
        <| ebpf ::= fun s => s <| CONFIG := [runtime_of soft_config] |> |>.

Lemma patch_runtime_agrees_witness :
  let patch := patch_none <| RuntimeConfigPatch.trust_add_divisor := Some 50 |> in
  validate_runtime_patch patch = true /\
  exists c', patch_runtime patch alarmed = (Some tt, c') /\
    map RuntimeConfig.trust_add_divisor (CONFIG (ebpf c')) = [50] /\
    map RuntimeConfig.danger_level (CONFIG (ebpf c')) = [2].
Proof.
  intros patch. split; [reflexivity|].
  destruct (CONFIG (ebpf alarmed)) as [|cfg rest] eqn:Hc; [vm_compute in Hc; discriminate|].
  destruct (RATE_LIMIT_CFG (ebpf alarmed)) as [|rl rrest] eqn:Hr; [vm_compute in Hr; discriminate|].
  destruct (PORT_RATE_LIMIT_CFG (ebpf alarmed)) as [|prl prest] eqn:Hp; [vm_compute in Hp; discriminate|].
  destruct (patch_runtime_agrees patch alarmed cfg rest rl rrest prl prest Hc Hr Hp)
    as (c' & E & _ & Hc' & Hd & _).
  exists c'. split; [exact E|]. rewrite Hc'. vm_compute in Hc. injection Hc as <- <-.
  cbn [map]. rewrite Hd. split; [|reflexivity].
  assert (Hrt : runtime c' = runtime (snd (patch_runtime patch alarmed))) by (by rewrite E).
  rewrite Hrt. vm_compute. reflexivity.
Defined.

Lemma patch_hardens_soft_mode_witness :
  exists c' cfg, patch_runtime patch_none soft_agent = (Some tt, c') /\ CONFIG (ebpf c') = [cfg] /\
    RuntimeConfig.rate_limit_soft (runtime_of soft_config) = 1 /\ RuntimeConfig.rate_limit_soft cfg = 0.
Proof.
  destruct (RATE_LIMIT_CFG (ebpf soft_agent)) as [|rl rrest] eqn:Hr; [vm_compute in Hr; discriminate|].
  destruct (PORT_RATE_LIMIT_CFG (ebpf soft_agent)) as [|prl prest] eqn:Hp; [vm_compute in Hp; discriminate|].
  destruct (patch_hardens_soft_mode soft_config patch_none soft_agent [] rl rrest prl prest)
    as (H1 & c' & cfg & E & Hc & H0); [reflexivity|discriminate|reflexivity|reflexivity|exact Hr|exact Hp|reflexivity|reflexivity|].
  exists c', cfg. split; [exact E|]. split; [exact Hc|]. split; [exact H1|exact H0].
Defined.

Lemma patch_disables_limiter_witness :
  let rl0 := RateLimitParams.mk false 0 0 0 0 0 false in
  exists c1 c2, patch_runtime (patch_none <| RuntimeConfigPatch.rate_limit := Some rl0 |>) agent = (Some tt, c1) /\
    patch_runtime (patch_none <| RuntimeConfigPatch.rate_limit_enabled := Some true |>) c1 = (Some tt, c2) /\
    fst (check_rate_limit alice 80 7 (ebpf c2)) = false.
Proof.
  intros rl0.
  destruct (CONFIG (ebpf agent)) as [|cfg rest] eqn:Hc; [vm_compute in Hc; discriminate|].
  destruct (RATE_LIMIT_CFG (ebpf agent)) as [|rl rrest] eqn:Hr; [vm_compute in Hr; discriminate|].
  destruct (PORT_RATE_LIMIT_CFG (ebpf agent)) as [|prl prest] eqn:Hp; [vm_compute in Hp; discriminate|].
  destruct (patch_disables_limiter rl0 agent cfg rest rl rrest prl prest eq_refl eq_refl Hc Hr Hp)
    as (_ & c1 & c2 & cfg2 & E1 & E2 & _ & _ & _ & H).
  exists c1, c2. split; [exact E1|]. split; [exact E2|]. apply H.
Defined.

Lemma reload_clears_danger_witness :
  exists c', reload_config_file alarmed = (Some tt, c') /\
    RuntimeConfigSnapshot.danger_level (runtime c') = 2 /\
    map RuntimeConfig.danger_level (CONFIG (ebpf c')) = [0].
Proof.
  assert (E : reload_config_file alarmed = (Some tt, snd (reload_config_file alarmed)))
    by (apply run_ok; vm_compute; reflexivity).
  exists (snd (reload_config_file alarmed)). split; [exact E|].
  destruct (reload_clears_danger alarmed _ E) as [H1 _]. split; [|vm_compute; reflexivity].
  rewrite H1. vm_compute. reflexivity.
Defined.
End AgentControlWitness.
