(* ===== verification/ModulePage.v ===== *)
(** * ModulePage: the protection modules the console shows

    [protection_modules_handler] of [eshield/src/web.rs]: a list computed from
    the snapshot of the configuration, with the values its forms are filled
    with.  The packet program works from the maps; that both agree is an
    invariant of the changes the console makes ([in_step]). *)
From stdpp Require Import strings gmap.
From S2P Require Import Prelude Words Common RustStd Config Redb RuleStore Maps AgentMaps Geoip Adaptive AuditLog AgentControl ControlSample AgentControlProps.
#[local] Open Scope Z_scope.

(** ** The page *)
Inductive FieldValue := Switch (b : bool) | Number (n : Z) | Readonly (n : Z).

Module Field.
Record t := mk {
  id : string;
  label : string;
  value : FieldValue;
}.
End Field.

Definition field_switch (id label : string) (value : bool) : Field.t := Field.mk id label (Switch value).
Definition field_number (id label : string) (value : Z) : Field.t := Field.mk id label (Number value).
Definition field_readonly (id label : string) (value : Z) : Field.t := Field.mk id label (Readonly value).

Module ProtectionModule.
Record t := mk {
  id : string;
  name : string;
  category : string;
  description : string;
  enabled : bool;
  stats_key : option string;
  editable_fields : list Field.t;
}.
End ProtectionModule.

(** A module with one switch. *)
Definition switch_module (id name category description : string) (enabled : bool) (stats_key : option string)
    (label : string) : ProtectionModule.t :=
  ProtectionModule.mk id name category description enabled stats_key [field_switch "enabled" label enabled].

Definition rate_limit_fields (rl : RateLimitParams.t) : list Field.t :=
  [field_switch "enabled" "启用限速" (RateLimitParams.enabled rl);
   field_number "threshold" "阈值（包/窗口）" (RateLimitParams.threshold rl);
   field_number "tick_ms" "窗口 Tick (ms)" (RateLimitParams.tick_ms rl);
   field_number "decay_num" "衰减分子" (RateLimitParams.decay_num rl);
   field_number "decay_den" "衰减分母" (RateLimitParams.decay_den rl);
   field_number "block_duration_s" "封禁时长 (s)" (RateLimitParams.block_duration_s rl);
   field_switch "dport_grouping" "按目的端口分别计数" (RateLimitParams.dport_grouping rl)].

Definition port_rate_limit_fields (prl : RateLimitParams.t) : list Field.t :=
  [field_switch "enabled" "启用限速" (RateLimitParams.enabled prl);
   field_number "threshold" "阈值（包/窗口）" (RateLimitParams.threshold prl);
   field_number "tick_ms" "窗口大小 (ms)" (RateLimitParams.tick_ms prl)].

Definition adaptive_fields (a : AdaptiveConfig.t) : list Field.t :=
  [field_switch "enabled" "启用自适应" (AdaptiveConfig.enabled a);
   field_number "threshold" "触发阈值（次）" (AdaptiveConfig.threshold a);
   field_number "window_s" "统计窗口 (s)" (AdaptiveConfig.window_s a);
   field_number "block_duration_s" "封禁时长 (s)" (AdaptiveConfig.block_duration_s a)].

Definition protection_modules (rt : RuntimeConfigSnapshot.t) : list ProtectionModule.t :=
  let rl := RuntimeConfigSnapshot.rate_limit rt in
  let prl := RuntimeConfigSnapshot.port_rate_limit rt in
  let ad := RuntimeConfigSnapshot.adaptive rt in
  [switch_module "syn_flood" "SYN Flood 防护（实验特性）" "DDoS"
     "基于 SYN 代理 / Cookie 抵御 SYN Flood（实验特性，默认关闭）：仅支持 IPv4；Cookie 校验位 30 位；被挑战源在 30s 内合法连接也会失败，面向真实客户端的高流量服务建议用 SYN Flood 检测 + 限速替代。"
     (RuntimeConfigSnapshot.syn_proxy_enabled rt) (Some "syn_flood_blocked") "启用防护";
   switch_module "udp_flood" "UDP Flood 防护" "DDoS" "检测并丢弃异常 UDP 泛洪流量。"
     (RuntimeConfigSnapshot.udp_flood_enabled rt) (Some "udp_flood_blocked") "启用防护";
   switch_module "icmp_flood" "ICMP Flood 防护" "DDoS" "检测并丢弃异常 ICMP/ICMPv6 泛洪流量。"
     (RuntimeConfigSnapshot.icmp_flood_enabled rt) (Some "icmp_flood_blocked") "启用防护";
   ProtectionModule.mk "rate_limit" "速率限制 / CC 防护" "访问控制" "基于令牌桶对每个源 IP 进行速率限制。"
     (RateLimitParams.enabled rl) (Some "rate_limited") (rate_limit_fields rl);
   ProtectionModule.mk "port_rate_limit" "按目的端口限速" "DDoS"
     "按 协议+目的端口 维度限速，防换源 IP 绕过 per-IP 限速；超限仅丢弃，不加黑名单。"
     (RateLimitParams.enabled prl) None (port_rate_limit_fields prl);
   ProtectionModule.mk "adaptive" "自适应黑名单" "访问控制" "对短时间窗口内多次触发规则的源 IP 自动追加黑名单。"
     (AdaptiveConfig.enabled ad) (Some "adaptive_blocked") (adaptive_fields ad);
   switch_module "l7_scan" "L7 指纹扫描" "应用层" "匹配应用层指纹特征，识别扫描/探测行为。"
     (RuntimeConfigSnapshot.l7_scan_enabled rt) (Some "l7_blocked") "启用 L7 扫描";
   switch_module "geoip" "GeoIP 地区封禁" "访问控制" "根据国家/地区或 ASN 放行或封禁流量。"
     (RuntimeConfigSnapshot.geoip_enabled rt) (Some "geoip_blocked") "启用 GeoIP";
   switch_module "conn_track" "连接跟踪 / CC 防御" "智能防御"
     "按源统计未完成握手 SYN 数，超过阈值即 DROP；默认关闭，仅对启用项目生效。"
     (RuntimeConfigSnapshot.conn_track_enabled rt) (Some "conn_track_blocked") "启用连接跟踪";
   switch_module "tcp_reset" "TCP RST 回包" "网络层" "对丢弃的 TCP 连接回复 RST，加速客户端失败重连。"
     (RuntimeConfigSnapshot.tcp_reset_on_drop rt) None "启用 RST 回包";
   switch_module "trust_score" "Trust Score 信誉引擎" "智能防御"
     "IP 双向信誉评估——PASS 加分、DROP 减分，动态调制速率阈值。高信誉 IP 自动放宽限速。"
     (RuntimeConfigSnapshot.trust_enabled rt) None "启用 Trust Score";
   ProtectionModule.mk "danger_signal" "Danger Signal 危险监测" "智能防御"
     "实时监测 CPU/内存/DPS 异常，自动提高全局防御等级（正常→警戒→危险）。"
     (RuntimeConfigSnapshot.danger_level rt >? 0) None
     [field_readonly "danger_level" "当前等级" (RuntimeConfigSnapshot.danger_level rt)];
   ProtectionModule.mk "port_acl" "端口 ACL" "访问控制" "基于协议和目的端口的显式 allow/drop 规则。"
     (negb (bool_decide (RuntimeConfigSnapshot.port_acl rt = []))) None
     [field_readonly "rules_count" "已配置规则数" (Z.of_nat (length (RuntimeConfigSnapshot.port_acl rt)))]]%string.

(** What a reader of the page sees. *)
Definition shown (id : string) (page : list ProtectionModule.t) : option ProtectionModule.t :=
  find (fun m => String.eqb (ProtectionModule.id m) id) page.
Definition shown_enabled (id : string) (page : list ProtectionModule.t) : option bool :=
  ProtectionModule.enabled <$> shown id page.
Definition shown_value (id field : string) (page : list ProtectionModule.t) : option FieldValue :=
  m ← shown id page;
  Field.value <$> find (fun f => String.eqb (Field.id f) field) (ProtectionModule.editable_fields m).

(** ** Agreement of the snapshot with the maps *)

(** The modules the packet program reads a switch for in [CONFIG]. *)
Definition switches : list (string * (RuntimeConfig.t -> Z)) :=
  [("syn_flood"%string, RuntimeConfig.syn_proxy_enabled);
   ("udp_flood"%string, RuntimeConfig.udp_flood_enabled);
   ("icmp_flood"%string, RuntimeConfig.icmp_flood_enabled);
   ("rate_limit"%string, RuntimeConfig.rate_limit_enabled);
   ("port_rate_limit"%string, RuntimeConfig.port_rate_limit_enabled);
   ("l7_scan"%string, RuntimeConfig.l7_scan_enabled);
   ("geoip"%string, RuntimeConfig.geoip_enabled);
   ("conn_track"%string, RuntimeConfig.conn_track_enabled);
   ("tcp_reset"%string, RuntimeConfig.tcp_reset_on_drop);
   ("trust_score"%string, RuntimeConfig.trust_enabled)].

Definition port_map_of_params (prl : RateLimitParams.t) : RateLimitConfig.t :=
  RateLimitConfig.mk (RateLimitParams.threshold prl) (RateLimitParams.tick_ms prl) 0 1 0.

Section InStep.
Context {KN : Kernel} {MO : MapOps} {HO : HashOrder} {R : Redb} {J : RuleJson} {CL : CsvLib} {EN : AgentEnv}.

(** The maps the packet program reads and the adaptive engine are what the
    snapshot says. *)
Record in_step (c : ControlState) (cfg : RuntimeConfig.t) (rl prl : RateLimitConfig.t) : Prop := {
  step_config : array_get (CONFIG (ebpf c)) 0 = Some cfg;
  step_rate_limit : array_get (RATE_LIMIT_CFG (ebpf c)) 0 = Some rl;
  step_port_rate_limit : array_get (PORT_RATE_LIMIT_CFG (ebpf c)) 0 = Some prl;
  step_switches : config_of_snapshot (runtime c) cfg = cfg;
  step_one_switch : RateLimitParams.enabled (RuntimeConfigSnapshot.rate_limit (runtime c)) =
                    RuntimeConfigSnapshot.rate_limit_enabled (runtime c);
  step_limits : map_of_params (RuntimeConfigSnapshot.rate_limit (runtime c)) = rl;
  step_port_limits : port_map_of_params (RuntimeConfigSnapshot.port_rate_limit (runtime c)) = prl;
  step_adaptive : forall e, adaptive c = Some e -> AdaptiveEngine.config e = RuntimeConfigSnapshot.adaptive (runtime c);
}.

Definition patch_all (patches : list RuntimeConfigPatch.t) (c : ControlState) : ControlState :=
  foldl (fun c patch => snd (patch_runtime patch c)) c patches.

Lemma array_head {A} (l : list A) x : array_get l 0 = Some x -> exists rest, l = x :: rest.
Proof. destruct l as [|y l]; [done|]. intros [= ->]. by exists l. Qed.

(** The configuration of a snapshot does not depend on the switches it replaces. *)
Lemma config_of_snapshot_again s s' cfg :
  config_of_snapshot s (config_of_snapshot s' cfg) = config_of_snapshot s cfg.
Proof. reflexivity. Qed.

Ltac skip_patched p := repeat (rewrite (patched_proj p); [|done]).

(** What a patch does to the parts of the snapshot the maps repeat. *)
Lemma patch_snapshot_parts patch s :
  let s' := patch_snapshot patch s in
  RuntimeConfigSnapshot.port_rate_limit s' =
    default (RuntimeConfigSnapshot.port_rate_limit s) (RuntimeConfigPatch.port_rate_limit patch) /\
  RuntimeConfigSnapshot.adaptive s' =
    default (RuntimeConfigSnapshot.adaptive s) (RuntimeConfigPatch.adaptive patch) /\
  map_of_params (RuntimeConfigSnapshot.rate_limit s') =
    map_of_params (default (RuntimeConfigSnapshot.rate_limit s) (RuntimeConfigPatch.rate_limit patch)) /\
  (RateLimitParams.enabled (RuntimeConfigSnapshot.rate_limit s) = RuntimeConfigSnapshot.rate_limit_enabled s ->
   RateLimitParams.enabled (RuntimeConfigSnapshot.rate_limit s') = RuntimeConfigSnapshot.rate_limit_enabled s').
Proof.
  unfold patch_snapshot. cbv zeta. split_and!.
  - destruct (RuntimeConfigPatch.port_rate_limit patch); [done|]. cbn [patched default].
    skip_patched RuntimeConfigSnapshot.port_rate_limit. done.
  - rewrite !(patched_proj RuntimeConfigSnapshot.adaptive _ (fun x s => s <| RuntimeConfigSnapshot.port_rate_limit := x |>)) by done.
    rewrite (patched_proj RuntimeConfigSnapshot.adaptive) by done.
    destruct (RuntimeConfigPatch.adaptive patch); [done|]. cbn [patched default].
    skip_patched RuntimeConfigSnapshot.adaptive. done.
  - rewrite (patched_proj RuntimeConfigSnapshot.rate_limit) by done.
    destruct (RuntimeConfigPatch.rate_limit patch); [done|]. cbn [patched default].
    skip_patched RuntimeConfigSnapshot.rate_limit. by destruct (RuntimeConfigPatch.rate_limit_enabled patch).
  - intros H. rewrite (patched_proj RuntimeConfigSnapshot.rate_limit), (patched_proj RuntimeConfigSnapshot.rate_limit_enabled) by done.
    destruct (RuntimeConfigPatch.rate_limit patch); [done|]. cbn [patched default].
    skip_patched RuntimeConfigSnapshot.rate_limit. skip_patched RuntimeConfigSnapshot.rate_limit_enabled.
    by destruct (RuntimeConfigPatch.rate_limit_enabled patch).
Qed.

Lemma patch_step patch c cfg rl prl : validate_runtime_patch patch = true -> in_step c cfg rl prl ->
  exists c' rl' prl', patch_runtime patch c = (Some tt, c') /\ runtime c' = patch_snapshot patch (runtime c) /\
    in_step c' (config_of_snapshot (runtime c') cfg) rl' prl'.
Proof.
  intros Hv [Hc Hr Hp Hs H1 Hl Hpl Ha].
  destruct (array_head _ _ Hc) as [rest Ec], (array_head _ _ Hr) as [rrest Er], (array_head _ _ Hp) as [prest Ep].
  destruct (patch_runtime_ok patch c cfg rest rl rrest prl prest Ec Er Ep Hv)
    as (c' & E & Hrt & Hc' & Hr' & Hp' & Ha').
  pose proof (patch_snapshot_parts patch (runtime c)) as Q. rewrite <- Hrt in Q. destruct Q as (Q1 & Q2 & Q3 & Q4).
  do 3 eexists. split; [exact E|]. split; [exact Hrt|].
  constructor; [by rewrite Hc'|by rewrite Hr'|by rewrite Hp'|apply config_of_snapshot_again|exact (Q4 H1)| | |].
  - rewrite Q3. by destruct (RuntimeConfigPatch.rate_limit patch).
  - rewrite Q1. by destruct (RuntimeConfigPatch.port_rate_limit patch).
  - intros e. rewrite Ha', Q2. destruct (RuntimeConfigPatch.adaptive patch) as [a|]; [|apply Ha].
    destruct (adaptive c) as [e0|]; [|done]. by intros [= <-].
Qed.

Lemma patch_in_step patch c cfg rl prl : in_step c cfg rl prl ->
  exists cfg' rl' prl', in_step (snd (patch_runtime patch c)) cfg' rl' prl'.
Proof.
  intros H. destruct (validate_runtime_patch patch) eqn:Hv.
  - destruct (patch_step _ _ _ _ _ Hv H) as (c' & rl' & prl' & -> & _ & H'). by do 3 eexists.
  - exists cfg, rl, prl. unfold patch_runtime. by rewrite Hv.
Qed.

Lemma shown_switch id flag c cfg rl prl : in_step c cfg rl prl -> (id, flag) ∈ switches ->
  exists b, shown_enabled id (protection_modules (runtime c)) = Some b /\ flag cfg = u8_from b.
Proof.
  intros [_ _ _ Hs H1 _ _ _] Hin. rewrite <- Hs. unfold switches in Hin.
  repeat (apply elem_of_cons in Hin as [[= -> ->]|Hin]; [eexists; split; [reflexivity|]; cbn; by rewrite ?H1|]).
  by apply not_elem_of_nil in Hin.
Qed.

(** The page of the modules shows what is in force.  If maps and snapshot agree,
    then after any sequence of patches, accepted or refused, every switch on the
    page is the one the packet program reads, and the numbers of the two rate
    limits and of the adaptive engine are those they work with. *)
Theorem modules_in_force patches c cfg rl prl : in_step c cfg rl prl ->
  let c' := patch_all patches c in
  let page := protection_modules (runtime c') in
  exists cfg' rl' prl', array_get (CONFIG (ebpf c')) 0 = Some cfg' /\
    array_get (RATE_LIMIT_CFG (ebpf c')) 0 = Some rl' /\ array_get (PORT_RATE_LIMIT_CFG (ebpf c')) 0 = Some prl' /\
    (forall id flag, (id, flag) ∈ switches -> exists b, shown_enabled id page = Some b /\ flag cfg' = u8_from b) /\
    shown_value "rate_limit" "threshold" page = Some (Number (RateLimitConfig.threshold rl')) /\
    shown_value "rate_limit" "tick_ms" page = Some (Number (RateLimitConfig.tick_ms rl')) /\
    shown_value "rate_limit" "decay_num" page = Some (Number (RateLimitConfig.decay_num rl')) /\
    shown_value "rate_limit" "decay_den" page = Some (Number (RateLimitConfig.decay_den rl')) /\
    shown_value "rate_limit" "block_duration_s" page = Some (Number (RateLimitConfig.block_duration_s rl')) /\
    shown_value "port_rate_limit" "threshold" page = Some (Number (RateLimitConfig.threshold prl')) /\
    shown_value "port_rate_limit" "tick_ms" page = Some (Number (RateLimitConfig.tick_ms prl')) /\
    (forall e, adaptive c' = Some e ->
       shown_enabled "adaptive" page = Some (is_enabled e) /\
       shown_value "adaptive" "threshold" page = Some (Number (AdaptiveConfig.threshold (AdaptiveEngine.config e))) /\
       shown_value "adaptive" "window_s" page = Some (Number (AdaptiveConfig.window_s (AdaptiveEngine.config e)))).
Proof.
  intros H0. assert (H : exists cfg' rl' prl', in_step (patch_all patches c) cfg' rl' prl').
  { revert c cfg rl prl H0. induction patches as [|p patches IH]; intros c cfg rl prl H0; [by exists cfg, rl, prl|].
    destruct (patch_in_step p c cfg rl prl H0) as (cfg' & rl' & prl' & H). by apply (IH _ _ _ _ H). }
  destruct H as (cfg' & rl' & prl' & H). exists cfg', rl', prl'. cbv zeta.
  pose proof H as [Hc Hr Hp _ _ <- <- Ha]. split_and!; [done..| |reflexivity|reflexivity|reflexivity|reflexivity|reflexivity|reflexivity|reflexivity|].
  - intros id flag Hin. by apply (shown_switch _ _ _ _ _ _ H).
  - intros e He. unfold is_enabled. rewrite (Ha e He). by split_and!.
Qed.

(** A start whose block mode is written in lower case begins with agreement. *)
Lemma config_of_snapshot_start config :
  RateLimitSection.block_mode (Config.rate_limit config) =
    to_lowercase (RateLimitSection.block_mode (Config.rate_limit config)) ->
  config_of_snapshot (from_config config) (runtime_of config) = runtime_of config.
Proof.
  intros Hb. unfold config_of_snapshot, runtime_of, from_config, eq_ignore_ascii_case. cbn. rewrite <- Hb.
  assert (Hm : forall a, (a `max` 1) `max` 1 = a `max` 1) by lia. rewrite !Hm.
  reflexivity.
Qed.
End InStep.

Module ModulePageWitness.
Import Samples ControlSample.ControlSample AgentControlWitness.

Definition lower : RuntimeConfigPatch.t :=
  patch_none <| RuntimeConfigPatch.rate_limit := Some (RateLimitParams.mk true 500 50 3 4 60 false) |>.
Definition refused : RuntimeConfigPatch.t := patch_none <| RuntimeConfigPatch.trust_add_divisor := Some 0 |>.

Lemma agent_in_step : exists cfg rl prl, in_step agent cfg rl prl.
Proof.
  do 3 eexists. constructor; try (vm_compute; reflexivity).
  intros e He. vm_compute in He. by injection He as <-.
Qed.

Lemma modules_in_force_witness :
  let c := patch_all [lower; refused; patch_none <| RuntimeConfigPatch.udp_flood_enabled := Some true |>] agent in
  shown_value "rate_limit" "threshold" (protection_modules (runtime c)) = Some (Number 500) /\
  exists cfg, array_get (CONFIG (ebpf c)) 0 = Some cfg /\ RuntimeConfig.udp_flood_enabled cfg = 1.
Proof.
  intros c.
  destruct agent_in_step as (cfg & rl & prl & H).
  destruct (modules_in_force [lower; refused; patch_none <| RuntimeConfigPatch.udp_flood_enabled := Some true |>]
    agent cfg rl prl H) as (cfg' & rl' & prl' & Hc & Hr & _ & Hs & Ht & _).
  fold c in Hc, Hr, Hs, Ht. split.
  - rewrite Ht. vm_compute in Hr. by injection Hr as <-.
  - exists cfg'. split; [exact Hc|]. destruct (Hs "udp_flood"%string RuntimeConfig.udp_flood_enabled) as (b & Hb & ->);
      [right; by left|]. vm_compute in Hb. by injection Hb as <-.
Defined.
End ModulePageWitness.
