(* ===== verification/AgentRules.v ===== *)
(** * AgentRules: rule sets and networks from their text to the packet checks

    The port ACL and the allowed networks, end to end: what the administrator
    writes, what the agent stores in the kernel maps, and what the checks of the
    packet program then answer; and the GeoIP lists when a reload fails. *)
From Stdlib Require Import Ascii.
From stdpp Require Import strings gmap.
From S2P Require Import Prelude Words Common Pure RustStd IpText Config TimeSeries Redb RuleStore RuleStoreProps Maps Footprint Filters DataPlane AgentMaps Geoip Adaptive AuditLog AgentControl ControlSample AgentControlProps.
#[local] Open Scope Z_scope.

(** ** Writing an array map *)
Section Arrays.
Context {KN : Kernel}.

(** A projection of the state that is an array, with its setter. *)
Record ArrayField {A} (p : KState -> list A) `{!Setter p} : Prop := {
  field_get : forall f s, p (setter p f s) = f (p s);
  field_set : forall l l' s, setter p (fun _ => l') (setter p (fun _ => l) s) = setter p (fun _ => l') s;
  field_id : forall s, setter p (fun _ => p s) s = s;
}.

Context {A : Type} (p : KState -> list A) `{!Setter p} (PF : ArrayField p).

Lemma array_write_eq i v s : (i < length (p s))%nat ->
  array_write p (Z.of_nat i) v s = (Some tt, setter p (fun _ => <[i := v]> (p s)) s).
Proof.
  intros Hi. unfold array_write, array_set. rewrite (proj2 (Z.ltb_lt _ _)) by lia. by rewrite Nat2Z.id.
Qed.

Lemma take_S_insert (l : list A) i v : (i < length l)%nat -> take (S i) (<[i := v]> l) = take i l ++ [v].
Proof.
  intros Hi. rewrite (take_S_r _ _ v); [|by apply list_lookup_insert_eq]. rewrite take_insert_ge; [done|lia].
Qed.

(** The loop that writes [map f l] from index [i] on. *)
Lemma write_from {B} (g : Z -> B -> Try KState unit) (f : B -> A) (l : list B) : forall (i : nat) s,
  (forall j x s, x ∈ l -> (j < i + length l)%nat ->
     g (Z.of_nat j) x s = array_write p (Z.of_nat j) (f x) s) ->
  (i + length l <= length (p s))%nat ->
  for_each_from g (Z.of_nat i) l s =
    (Some tt, setter p (fun _ => take i (p s) ++ map f l ++ drop (i + length l) (p s)) s).
Proof.
  induction l as [|x l IH]; intros i s Hg Hlen; cbn [for_each_from map length].
  - rewrite Nat.add_0_r, app_nil_l, take_drop, (field_id _ PF). reflexivity.
  - cbn [length] in Hlen. pose proof (Hg i x s ltac:(by left) ltac:(cbn [length]; lia)) as E.
    rewrite array_write_eq in E by lia. rewrite (try_bind_ok _ _ _ _ _ E).
    replace (Z.of_nat i + 1) with (Z.of_nat (S i)) by lia.
    rewrite IH; [|intros j y s' Hy Hj; apply Hg; [by right|cbn [length]; lia]|].
    + rewrite (field_get _ PF), (field_set _ PF). do 2 f_equal. rewrite take_S_insert by lia.
      rewrite <- app_assoc. cbn [app]. rewrite drop_insert_lt by lia. do 2 f_equal.
      replace (S i + length l)%nat with (i + S (length l))%nat by lia. done.
    + rewrite (field_get _ PF), length_insert. lia.
Qed.

(** The loop that clears the slots from [i] on. *)
Lemma clear_from v n : forall (i : nat) s, (i + n <= length (p s))%nat ->
  for_each (fun i => ignore (array_write p i v)) (seqZ (Z.of_nat i) (Z.of_nat n)) s =
    (Some tt, setter p (fun _ => take i (p s) ++ replicate n v ++ drop (i + n) (p s)) s).
Proof.
  induction n as [|n IH]; intros i s Hlen.
  - cbn [replicate]. rewrite Nat.add_0_r, app_nil_l, take_drop, (field_id _ PF). reflexivity.
  - rewrite seqZ_cons by lia. cbn [for_each].
    assert (E : ignore (array_write p (Z.of_nat i) v) s = (Some tt, setter p (fun _ => <[i := v]> (p s)) s))
      by (unfold ignore; by rewrite array_write_eq by lia).
    rewrite (try_bind_ok _ _ _ _ _ E). replace (Z.succ (Z.of_nat i)) with (Z.of_nat (S i)) by lia.
    replace (Z.pred (Z.of_nat (S n))) with (Z.of_nat n) by lia. rewrite IH.
    + rewrite (field_get _ PF), (field_set _ PF). do 2 f_equal. rewrite take_S_insert by lia.
      rewrite <- app_assoc. cbn [app replicate]. rewrite drop_insert_lt by lia. do 2 f_equal.
      replace (S i + n)%nat with (i + S n)%nat by lia. done.
    + rewrite (field_get _ PF), length_insert. lia.
Qed.
End Arrays.

Lemma acl_field {KN : Kernel} : ArrayField PORT_ACL.
Proof. split; [done|done|by intros []]. Qed.
Lemma l7_field {KN : Kernel} : ArrayField L7_PATTERNS.
Proof. split; [done|done|by intros []]. Qed.

(** ** The port ACL *)

(** What an item of the list says about a packet to port [dport]. *)
Definition item_decision (protocol dport : Z) (item : PortAclItem.t) : option AclMatch :=
  match protocol_number (PortAclItem.protocol item), parse_port_range (PortAclItem.dport item) with
  | Some number, Some (low, high) =>
      if ((number =? 0) || (number =? protocol)) &&
         ((low =? 0) || ((low <=? dport) && (dport <=? high))) then
        Some (if String.eqb (to_lowercase (PortAclItem.action item)) "allow" then Allow else Drop)
      else None
  | _, _ => None
  end.

(** The first item that says something decides; a packet no item speaks of
    passes. *)
Fixpoint acl_drops (items : list PortAclItem.t) (protocol dport : Z) : bool :=
  match items with
  | [] => false
  | item :: items =>
      match item_decision protocol dport item with
      | Some Drop => true
      | Some Allow => false
      | None => acl_drops items protocol dport
      end
  end.

Lemma one_of_spec names s : one_of names s = true <-> s ∈ names.
Proof.
  unfold one_of. rewrite existsb_exists. setoid_rewrite <- list_elem_of_In. split.
  - by intros (x & Hx & ->%String.eqb_eq).
  - intros Hs. exists s. split; [done|apply String.eqb_refl].
Qed.

Lemma parse_port_range_ok text low high : parse_port_range text = Some (low, high) ->
  0 <= low <= high /\ high < 65536.
Proof.
  unfold parse_port_range. destruct (_ || _); [intros [= <- <-]; lia|].
  assert (Hu : forall s n, parse_uint 16 s = Some n -> 0 <= n < 65536)
    by (intros s n Hn; by apply parse_uint_range in Hn).
  destruct (split_once _ _) as [[a b]|].
  - destruct (parse_uint 16 a) as [l|] eqn:Ha; [|done]. destruct (parse_uint 16 b) as [h|] eqn:Hb; [|done].
    cbn [mbind option_bind]. rewrite Z.gtb_ltb. destruct (h <? l) eqn:E; [done|]. intros [= <- <-].
    apply Z.ltb_ge in E. apply Hu in Ha, Hb. lia.
  - destruct (parse_uint 16 text) as [n|] eqn:Hn; [|done]. cbn. intros [= <- <-]. apply Hu in Hn. lia.
Qed.

Lemma protocol_number_ok text : one_of protocols (to_lowercase text) = true ->
  is_Some (protocol_number text).
Proof.
  rewrite one_of_spec. unfold protocol_number, protocols. rewrite !elem_of_cons.
  intros [->|[->|[->|[->|[->|H]]]]]; try (by eexists). by apply not_elem_of_nil in H.
Qed.

(** The entry of a valid item decides what the item says. *)
Lemma to_entry_decides item : valid_port_acl_item item = true ->
  exists e, to_entry item = Some e /\
    forall protocol dport, acl_decision protocol dport e = item_decision protocol dport item.
Proof.
  unfold valid_port_acl_item. rewrite !andb_true_iff, bool_decide_eq_true.
  intros [[Hp Ha] [[low high] Hr]]. apply protocol_number_ok in Hp as [number Hp].
  destruct (parse_port_range_ok _ _ _ Hr) as [Hl Hh]. unfold to_entry. rewrite Hp, Hr.
  rewrite one_of_spec, !elem_of_cons in Ha. cbn [mbind option_bind].
  assert (Hb : forall x, 0 <= x < 65536 -> bswap 2 (bswap 2 x) = x) by (intros x Hx; by apply bswap_involutive).
  assert (Hact : exists a, (if String.eqb (to_lowercase (PortAclItem.action item)) "allow" then Some 1
      else if String.eqb (to_lowercase (PortAclItem.action item)) "drop" then Some 2 else None) = Some a /\
      a = (if String.eqb (to_lowercase (PortAclItem.action item)) "allow" then 1 else 2)).
  { destruct Ha as [->|[->|Ha]]; [by eexists..|]. by apply not_elem_of_nil in Ha. }
  destruct Hact as (a & -> & Ea). cbn [mbind option_bind fst snd]. eexists. split; [reflexivity|].
  intros protocol dport. unfold acl_decision, item_decision. rewrite Hp, Hr.
  cbn [PortAclEntry.dport_low PortAclEntry.dport_high PortAclEntry.protocol PortAclEntry.action].
  rewrite !Hb by lia. unfold match_port_acl_entry. rewrite Ea. clear Ha Ea a.
  destruct (number =? 0) eqn:E0, (number =? protocol) eqn:E1, (String.eqb _ "allow");
    cbn [negb andb orb Z.eqb Pos.eqb]; try done;
    (destruct (low =? 0) eqn:E2; cbn [negb orb]; [done|]);
    apply Z.eqb_neq in E2; rewrite (proj2 (Z.eqb_neq high 0)) by lia; cbn [negb];
    rewrite Z.gtb_ltb, negb_orb, <- !Z.leb_antisym; done.
Qed.

Lemma loop_decides (es pre post : list PortAclEntry.t) protocol dport :
  check_port_acl_loop (pre ++ es ++ post) protocol dport (Z.of_nat (length pre)) (length es) =
  (fix go es := match es with
                | [] => false
                | e :: es => match acl_decision protocol dport e with
                             | Some Drop => true | Some Allow => false | None => go es end
                end) es.
Proof.
  revert pre. induction es as [|e es IH]; intros pre; [done|]. cbn [check_port_acl_loop length].
  unfold array_get. rewrite Nat2Z.id, lookup_app_r, Nat.sub_diag by lia. cbn [lookup list_lookup app].
  fold (acl_decision protocol dport e). destruct (acl_decision protocol dport e) as [[|]|]; [done|done|].
  replace (Z.of_nat (length pre) + 1) with (Z.of_nat (length (pre ++ [e]))) by (rewrite length_app; cbn; lia).
  rewrite <- (IH (pre ++ [e])), <- app_assoc. done.
Qed.

Section Acl.
Context {KN : Kernel} {MO : MapOps} {HO : HashOrder} {R : Redb} {J : RuleJson} {JL : RuleJsonLaws J}
  {CL : CsvLib} {EN : AgentEnv}.

Lemma sync_count_eq f s cfg rest : CONFIG s = cfg :: rest ->
  sync_config_count f s = (Some tt, s <| CONFIG := f cfg :: rest |>).
Proof.
  intros Hc. unfold sync_config_count. rewrite try_gets. unfold array_get. change (Z.to_nat 0) with 0%nat.
  rewrite Hc. cbn [lookup list_lookup]. unfold ignore, CONFIG_set, array_write. by rewrite Hc, array_set_0.
Qed.

Lemma valid_entries items : forallb valid_port_acl_item items = true ->
  exists f, (forall item, item ∈ items -> to_entry item = Some (f item)) /\
    forall item, item ∈ items -> forall protocol dport,
      acl_decision protocol dport (f item) = item_decision protocol dport item.
Proof.
  intros Hv. exists (fun item => default PortAclEntry_default (to_entry item)).
  rewrite forallb_forall in Hv. setoid_rewrite <- list_elem_of_In in Hv.
  split; intros item Hin; destruct (to_entry_decides item (Hv _ Hin)) as (e & -> & He); [done|exact He].
Qed.

(** The table after the items have been installed. *)
Lemma init_port_acl_eq items s cfg rest : validate_port_acl_items items = true ->
  length (PORT_ACL s) = Z.to_nat MAX_PORT_ACL -> CONFIG s = cfg :: rest ->
  exists s' f, init_port_acl_map items s = (Some tt, s') /\
    CONFIG s' = cfg <| RuntimeConfig.port_acl_count := Z.of_nat (length items) |> :: rest /\
    PORT_ACL s' = map f items ++ replicate (Z.to_nat MAX_PORT_ACL - length items) PortAclEntry_default /\
    forall item, item ∈ items -> forall protocol dport,
      acl_decision protocol dport (f item) = item_decision protocol dport item.
Proof.
  unfold validate_port_acl_items. rewrite andb_true_iff, negb_true_iff, Z.gtb_ltb, Z.ltb_ge.
  intros [Hn Hv] Hlen Hc. destruct (valid_entries items Hv) as (f & Hf & Hd). unfold init_port_acl_map.
  pose proof (clear_from PORT_ACL acl_field PortAclEntry_default (Z.to_nat MAX_PORT_ACL) 0 s) as Hclear.
  rewrite Z2Nat.id in Hclear by done. rewrite (try_bind_ok _ _ _ _ _ (Hclear ltac:(lia))).
  rewrite take_0, drop_ge by lia. cbn [app]. rewrite app_nil_r.
  set (s1 := setter PORT_ACL _ s).
  assert (H1 : PORT_ACL s1 = replicate (Z.to_nat MAX_PORT_ACL) PortAclEntry_default) by done.
  assert (Hn' : (length items <= Z.to_nat MAX_PORT_ACL)%nat) by lia.
  pose proof (write_from PORT_ACL acl_field (fun i item => let! _ := ensure (i <? MAX_PORT_ACL) in
      let! entry := of_option (to_entry item) in array_write PORT_ACL i entry) f items 0 s1) as Hw.
  rewrite H1, length_replicate in Hw. specialize (fun H => Hw H Hn'). rewrite (try_bind_ok _ _ _ _ _ (Hw ltac:(
    intros j item s' Hin Hj; rewrite (proj2 (Z.ltb_lt _ MAX_PORT_ACL)) by lia;
    rewrite try_ensure, (Hf _ Hin), try_some; reflexivity))).
  rewrite take_0, Nat.add_0_l, drop_replicate. cbn [app].
  rewrite (sync_count_eq _ _ cfg rest) by done. eexists _, f. split; [reflexivity|].
  split; [|split; [done|exact Hd]]. cbn. unfold count_u8, wrap. rewrite Z.mod_small by (unfold MAX_PORT_ACL in *; lia).
  by rewrite Z.min_l by lia.
Qed.

Lemma acl_drops_map f items protocol dport :
  (forall item, item ∈ items -> acl_decision protocol dport (f item) = item_decision protocol dport item) ->
  (fix go es := match es with
                | [] => false
                | e :: es => match acl_decision protocol dport e with
                             | Some Drop => true | Some Allow => false | None => go es end
                end) (map f items) = acl_drops items protocol dport.
Proof.
  induction items as [|item items IH]; intros H; [done|]. cbn [map acl_drops].
  rewrite H by (by left). rewrite IH; [done|]. intros i Hi. apply H. by right.
Qed.

Lemma on_store_save {A} (to_vec : A -> option bytes) put (x : A) c :
  is_Some (to_vec x) ->
  exists c', on_store (fun s => v ← to_vec x; Some (put v s)) c = (Some tt, c') /\ ebpf c' = ebpf c /\
    runtime c' = runtime c.
Proof.
  intros [v E]. unfold on_store. destruct (store c) as [st|]; [|by exists c]. rewrite E.
  cbn [mbind option_bind]. eexists. by split; [reflexivity|].
Qed.

(** C5: the port ACL means what it says.  A list that fails validation changes
    nothing.  A valid one is installed: from then on the packet program drops a
    packet exactly if the first item that speaks of its protocol and port says
    drop, for every protocol and port; names are read in any case, and an item
    whose range begins at 0 speaks of every port. *)
Theorem port_acl_enforced items c cfg rest :
  length (PORT_ACL (ebpf c)) = Z.to_nat MAX_PORT_ACL -> CONFIG (ebpf c) = cfg :: rest ->
  if validate_port_acl_items items then
    exists c' cfg', set_port_acl items c = (Some tt, c') /\ CONFIG (ebpf c') = cfg' :: rest /\
      cfg' = cfg <| RuntimeConfig.port_acl_count := Z.of_nat (length items) |> /\
      RuntimeConfigSnapshot.port_acl (runtime c') = items /\
      forall protocol dport,
        fst (check_port_acl protocol dport (RuntimeConfig.port_acl_count cfg') (ebpf c')) =
        acl_drops items protocol dport
  else set_port_acl items c = (None, c).
Proof.
  intros Hlen Hc. unfold set_port_acl. destruct (validate_port_acl_items items) eqn:Hv; [|done].
  destruct (init_port_acl_eq items (ebpf c) cfg rest Hv Hlen Hc) as (s' & f & E & Hc' & Hacl & Hd).
  rewrite try_ensure. assert (E1 : on_ebpf (init_port_acl_map items) c = (Some tt, c <| ebpf := s' |>))
    by (unfold on_ebpf; by rewrite E).
  rewrite (try_bind_ok _ _ _ _ _ E1). unfold update at 1. rewrite try_modify.
  set (c1 := setter runtime _ _). destruct (acl_from_to items) as (v & Hto & _).
  destruct (on_store_save acl_to_vec (fun v s => setter RuleStore.PORT_ACL (fun _ => Some v) s) items c1)
    as (c2 & E2 & Heb & Hrt); [by rewrite Hto|].
  change (on_store (save_port_acl_items items) c1 = (Some tt, c2)) in E2.
  rewrite (try_bind_ok _ _ _ _ _ E2). eexists _, _. split; [reflexivity|].
  change (ebpf (setter auditor _ c2)) with (ebpf c2). change (runtime (setter auditor _ c2)) with (runtime c2).
  rewrite Heb, Hrt. split; [exact Hc'|]. split; [reflexivity|]. split; [reflexivity|].
  intros protocol dport. unfold check_port_acl, bind, gets, ret. cbn [fst].
  change (PORT_ACL (ebpf c1)) with (PORT_ACL s'). rewrite Hacl. cbn [RuntimeConfig.port_acl_count setter].
  cbn. rewrite Nat2Z.id.
  pose proof (loop_decides (map f items) [] (replicate (Z.to_nat MAX_PORT_ACL - length items)
    PortAclEntry_default) protocol dport) as Hl.
  rewrite length_map in Hl. cbn [length app] in Hl. change (Z.of_nat 0) with 0 in Hl.
  etransitivity; [exact Hl|]. apply acl_drops_map. intros i Hi. by apply Hd.
Qed.

(** a range that begins at port 0 is no range.  The item [0-1023 drop]
    passes validation, and with it the packet program drops every port of the
    protocol, 8080 and 65535 as well; so does an item for port 0 alone. *)
Theorem acl_zero_is_any protocol dport :
  let low_ports := PortAclItem.mk "any" "0-1023" "drop" in
  let port_0 := PortAclItem.mk "any" "0" "drop" in
  validate_port_acl_items [low_ports] = true /\ validate_port_acl_items [port_0] = true /\
  acl_drops [low_ports] protocol dport = true /\ acl_drops [port_0] protocol dport = true.
Proof. repeat split; reflexivity. Qed.
End Acl.

(** ** Allowed networks *)
Section Networks.
Context {KN : Kernel} {KL : KernelLaws} {MO : MapOps} {ML : MapLaws MO} {HO : HashOrder} {R : Redb}
  {J : RuleJson} {CL : CsvLib} {EN : AgentEnv}.

Definition white (s : KState) (b : IpAddr) : bool := fst (is_whitelisted (key_of_addr b) s).

Definition trie_of (b : IpAddr) (s : KState) : list LpmEntry.t :=
  match b with V4 _ => WHITELIST_V4 s | V6 _ => WHITELIST_V6 s end.

(** Some stored network covers the address. *)
Definition covered (t : list LpmEntry.t) (b : IpAddr) : Prop :=
  exists e, e ∈ t /\ lpm_matches e (width b) (octets b) = true.

Lemma white_covered s b : ip_addr_ok b -> white s b = true <-> covered (trie_of b s) b.
Proof.
  intros Hok. unfold white, is_whitelisted, gets, lpm_member, covered. cbn [fst].
  assert (Hex : forall t plen data, bool_decide (is_Some (lpm_get t plen data)) = true <->
    exists e, e ∈ t /\ lpm_matches e plen data = true).
  { intros t plen data. rewrite bool_decide_eq_true, lpm_get_spec, Exists_exists.
    by setoid_rewrite <- list_elem_of_In. }
  destruct b as [o|o]; destruct Hok as [Hlen Ho]; cbn [key_of_addr trie_of width octets].
  - change (IpKey_family (from_ipv4 o)) with (Some Ipv4). cbv iota. rewrite ipv4_from_ipv4 by done.
    unfold WhitelistKeyV4. rewrite le_bytes_bswap, <- Hlen, be_bytes_be_val by done. apply Hex.
  - change (IpKey_family (from_ipv6 o)) with (Some Ipv6). cbv iota. apply Hex.
Qed.

(** Entries of one network match the same addresses. *)
Lemma same_prefix_matches plen data e w bs :
  same_prefix plen data e = true -> plen <= w -> length data = length bs ->
  lpm_matches e w bs = lpm_matches (LpmEntry.mk plen data 1) w bs.
Proof.
  unfold same_prefix, lpm_matches. cbn [LpmEntry.prefix_len LpmEntry.data].
  rewrite !andb_true_iff, !Z.eqb_eq, Nat.eqb_eq. intros [Hp [[_ Hl] Hs]] Hw Hd. rewrite Hp in *.
  rewrite Hd in Hs. by rewrite Hl, Hd, Hs.
Qed.

Lemma insert_covered cap plen data t t' b :
  lpm_insert cap (LpmEntry.mk plen data 1) t = Some t' -> plen <= width b ->
  length data = length (octets b) ->
  covered t' b <-> lpm_matches (LpmEntry.mk plen data 1) (width b) (octets b) = true \/ covered t b.
Proof.
  intros Hi Hw Hl. pose proof (lpm_insert_spec _ _ _ _ Hi) as Hs. cbn [LpmEntry.prefix_len LpmEntry.data] in Hs.
  unfold covered. setoid_rewrite Hs. split.
  - intros (e & [->|[He _]] & Hm); [by left|right; by exists e].
  - intros [Hm|(e & He & Hm)]; [eexists; split; [by left|done]|].
    destruct (same_prefix plen data e) eqn:Hsp.
    + eexists. split; [by left|]. by rewrite <- (same_prefix_matches _ _ _ _ _ Hsp Hw Hl).
    + exists e. split; [by right|done].
Qed.

(** The trie key of a parsed network. *)
Lemma whitelist_add_eq key prefix s s' :
  whitelist_add key prefix s = (Some tt, s') ->
  match IpKey_family key with
  | Some Ipv4 => lpm_insert WHITELIST_ENTRIES (LpmEntry.mk prefix (trie_key key) 1) (WHITELIST_V4 s) =
                   Some (WHITELIST_V4 s') /\ WHITELIST_V6 s' = WHITELIST_V6 s
  | Some Ipv6 => lpm_insert WHITELIST_ENTRIES (LpmEntry.mk prefix (trie_key key) 1) (WHITELIST_V6 s) =
                   Some (WHITELIST_V6 s') /\ WHITELIST_V4 s' = WHITELIST_V4 s
  | None => False
  end.
Proof.
  unfold whitelist_add, WHITELIST_V4_insert, WHITELIST_V6_insert, trie_insert, entry_v4, entry_v6, trie_key.
  destruct (IpKey_family key) as [[|]|]; [..|done]; destruct (lpm_insert _ _ _) eqn:E; intros [= <-];
    by rewrite ?E.
Qed.

Lemma parsed_family text key prefix a : parse_cidr text = Some (key, prefix) ->
  forall addr plen, split "/"%char text = [addr; plen] -> parse_ip_addr addr = Some a ->
  IpKey_family key = Some (match a with V4 _ => Ipv4 | V6 _ => Ipv6 end) /\
  (ip_addr_ok a -> length (trie_key key) = length (octets a)).
Proof.
  intros Hp addr plen Hs Ha. destruct (parse_cidr_inv _ _ _ Hp) as (addr' & plen' & a' & Hs' & Ha' & _ & Hw & Hok & ->).
  rewrite Hs in Hs'. injection Hs' as <- <-. rewrite Ha in Ha'. injection Ha' as <-.
  destruct a as [o|o].
  - split; [done|]. intros [Hlen _]. unfold trie_key. change (IpKey_family (from_ipv4 _)) with (Some Ipv4).
    cbn [octets]. by rewrite Hlen.
  - split; [done|]. intros [Hlen Ho]. cbn [width] in Hw.
    destruct (mask_v6_shift prefix o) as (Hl & _ & _); [done..|]. cbn [octets]. rewrite Hlen. exact Hl.
Qed.

(** What a successful [allow_cidr] did: one insertion; the list of the networks
    from the configuration is not touched. *)
Lemma allow_cidr_run text c c' : allow_cidr text c = (Some tt, c') ->
  exists key prefix, parse_cidr text = Some (key, prefix) /\
    whitelist_add key prefix (ebpf c) = (Some tt, ebpf c') /\ whitelist c' = whitelist c.
Proof.
  unfold allow_cidr. destruct (parse_cidr text) as [[key prefix]|]; [|done]. rewrite try_some.
  cbn [fst snd]. unfold allow_cidr_key. intros ([] & c1 & E1 & H)%try_bind_inv.
  apply try_bind_inv in H as ([] & c2 & E2 & H). injection H as <-.
  unfold allow_cidr_raw, on_ebpf in E1. destruct (whitelist_add key prefix (ebpf c)) as [r s'] eqn:Ew.
  injection E1 as -> <-. exists key, prefix. rewrite Ew. split; [done|].
  unfold on_store in E2.
  destruct (store _) as [st|]; [|by injection E2 as <-].
  destruct (save_whitelist _ _ _); [by injection E2 as <-|done].
Qed.

Lemma allow_cidr_network text c c' :
  allow_cidr text c = (Some tt, c') ->
  exists addr plen a prefix, split "/"%char text = [addr; plen] /\ parse_ip_addr addr = Some a /\
    parse_uint 32 plen = Some prefix /\ 0 <= prefix <= width a /\
    forall b, ip_addr_ok b -> white (ebpf c') b = true <->
      white (ebpf c) b = true \/
      (same_family a b = true /\ Z.shiftr (be_val (octets b)) (width b - prefix) =
                                 Z.shiftr (be_val (octets a)) (width a - prefix)).
Proof.
  intros (key & prefix & Hp & Ew & _)%allow_cidr_run. revert Ew. generalize (ebpf c'). intros s' Ew.
  apply whitelist_add_eq in Ew.
  destruct (parse_cidr_selects _ _ _ Hp) as (addr & plen & a & Hs & Ha & Hpr & Hsel).
  destruct (parse_cidr_inv _ _ _ Hp) as (addr' & plen' & a' & Hs' & _ & Hpl & _).
  rewrite Hs in Hs'. injection Hs' as <- <-.
  exists addr, plen, a, prefix. do 4 (split; [done|]).
  destruct (parsed_family _ _ _ a Hp _ _ Hs Ha) as [Hf Hlen]. specialize (Hlen (parse_ip_addr_ok _ _ Ha)).
  rewrite Hf in Ew. intros b Hb. rewrite !white_covered by done.
  assert (Hkl : same_family a b = true -> length (trie_key key) = length (octets b)).
  { intros Hsf. rewrite Hlen. pose proof (parse_ip_addr_ok _ _ Ha) as Hoa.
    destruct a as [o1|o1], b as [o2|o2]; try done; cbn [octets]; destruct Hoa as [-> _], Hb as [-> _]; done. }
  assert (Hins : same_family a b = true -> lpm_insert WHITELIST_ENTRIES (LpmEntry.mk prefix (trie_key key) 1)
      (trie_of b (ebpf c)) = Some (trie_of b s')) by (destruct a, b; try done; by destruct Ew).
  destruct (same_family a b) eqn:Hsf.
  - assert (Hwb : width b = width a) by (by destruct a, b).
    rewrite (insert_covered _ _ _ _ _ b (Hins eq_refl)) by (auto; lia). rewrite Hsel by done. tauto.
  - assert (trie_of b s' = trie_of b (ebpf c)) as -> by (destruct a, b; try done; by destruct Ew).
    intuition discriminate.
Qed.

(** C16: allowing a network lets in exactly its addresses.  When [allow_cidr]
    succeeds on a text [address/prefix], the packet program's white-list check
    accepts an address, of either family, exactly if it accepted it before or
    the address agrees with the one in the text on the first [prefix] bits. *)
Theorem allow_cidr_exact text c c' :
  allow_cidr text c = (Some tt, c') ->
  exists addr plen a prefix, split "/"%char text = [addr; plen] /\ parse_ip_addr addr = Some a /\
    parse_uint 32 plen = Some prefix /\ 0 <= prefix <= width a /\
    forall b, ip_addr_ok b -> white (ebpf c') b = true <->
      white (ebpf c) b = true \/
      (same_family a b = true /\ Z.shiftr (be_val (octets b)) (width b - prefix) =
                                 Z.shiftr (be_val (octets a)) (width a - prefix)).
Proof. apply allow_cidr_network. Qed.

(** ** GeoIP lists *)
Definition geo_trie (b : IpAddr) (s : KState) : list LpmEntry.t :=
  match b with V4 _ => GEOIP_BLOCKED_V4 s | V6 _ => GEOIP_BLOCKED_V6 s end.

Lemma geo_covered s b : ip_addr_ok b ->
  fst (is_geoip_blocked (key_of_addr b) s) = true <-> covered (geo_trie b s) b.
Proof.
  intros Hok. pose proof (white_covered (s <| WHITELIST_V4 := GEOIP_BLOCKED_V4 s |>
                                          <| WHITELIST_V6 := GEOIP_BLOCKED_V6 s |>) b Hok) as H.
  destruct b; exact H.
Qed.

Lemma insert_keeps_covered cap e t t' b : lpm_insert cap e t = Some t' -> covered t b -> covered t' b.
Proof.
  intros Hi (e0 & He0 & Hm). unfold covered. setoid_rewrite (lpm_insert_spec _ _ _ _ Hi).
  destruct (same_prefix (LpmEntry.prefix_len e) (LpmEntry.data e) e0) eqn:Hsp.
  - exists e. split; [by left|].
    assert (Hside : LpmEntry.prefix_len e <= width b /\ length (LpmEntry.data e) = length (octets b)).
    { clear -Hsp Hm. unfold same_prefix, lpm_matches in *. rewrite !andb_true_iff, ?Z.eqb_eq, ?Nat.eqb_eq, ?Z.leb_le in *.
      destruct Hsp as [Hp [[_ Hl] _]], Hm as [[Hw Hlb] _]. split; [lia|congruence]. }
    rewrite (same_prefix_matches _ _ _ _ _ Hsp) in Hm by tauto. exact Hm.
  - exists e0. split; [by right|done].
Qed.

Lemma keeps_insert_network b p `{!Setter p} cap e :
  (forall f s, geo_trie b (setter p f s) = geo_trie b s \/ (p s = geo_trie b s /\
                 geo_trie b (setter p f s) = f (geo_trie b s))) ->
  keeps (fun s => covered (geo_trie b s) b) (trie_insert p cap e).
Proof.
  intros Hp s Hs. unfold trie_insert. destruct (lpm_insert cap e (p s)) as [t|] eqn:E; [|done]. cbn [snd].
  destruct (Hp (fun _ => t) s) as [->|[Eq ->]]; [done|]. rewrite Eq in E. by eapply insert_keeps_covered.
Qed.

Lemma keeps_insert_networks b nets :
  keeps (fun s => covered (geo_trie b s) b) (insert_networks GEOIP_BLOCKED_V4 GEOIP_BLOCKED_V6 nets) /\
  keeps (fun s => covered (geo_trie b s) b) (insert_networks GEOIP_ALLOWED_V4 GEOIP_ALLOWED_V6 nets).
Proof.
  split; apply keeps_bind; try intros _; apply keeps_for_each; intros ap; apply keeps_insert_network;
    intros f s; destruct b; (by left) || (by right).
Qed.

(** Without old lists nothing is removed. *)
Lemma apply_geoip_adds config c r c' b :
  geoip_blocks c = [] -> geoip_allows c = [] -> apply_geoip_map config c = (r, c') ->
  covered (geo_trie b (ebpf c)) b -> covered (geo_trie b (ebpf c')) b.
Proof.
  intros Hb Ha. unfold apply_geoip_map. rewrite !try_gets, Hb, Ha. unfold update at 1. rewrite try_modify.
  set (P := fun c => covered (geo_trie b (ebpf c)) b).
  assert (Hon : forall m : Try KState unit, keeps (fun s => covered (geo_trie b s) b) m -> keeps P (on_ebpf m)).
  { intros m Hm c0 H0. unfold on_ebpf. specialize (Hm _ H0). by destruct (m (ebpf c0)). }
  assert (Hld : forall load, keeps P (load_geoip load))
    by (intros load c0 H0; unfold load_geoip; by destruct (load (geoip_cache c0))).
  intros E Hc. revert E. match goal with |- ?m ?s = _ -> _ => enough (K : keeps P m) end.
  { intros E. by apply (keeps_step P _ _ _ _ K E). }
  apply keeps_bind; [apply Hld|]. intros blocks. apply keeps_bind; [apply Hld|]. intros allows. cbv zeta.
  apply keeps_bind; [by intros c0|]. intros _.
  apply keeps_bind; [apply Hon, keeps_insert_networks|]. intros _.
  apply keeps_bind; [apply Hon, keeps_insert_networks|]. intros _.
  apply keeps_bind; [apply Hon; by intros s|]. intros _. apply Hon. by intros s.
Qed.
End Networks.

(** a GeoIP reload that fails is never made good.  When the lists can not
    be read, the operation fails with the tries as they were, but the agent has
    already forgotten what it put there.  Whatever the lists say in a later
    reload, every address that was blocked by country or network before the
    failure stays blocked. *)
Theorem geoip_failure_sticks {KN : Kernel} {KL : KernelLaws} {MO : MapOps} {ML : MapLaws MO} {HO : HashOrder}
    {R : Redb} {J : RuleJson} {CL : CsvLib} (broken repaired : AgentEnv) config c cache config' r c2 b :
  load_geoip_blocks (@files broken) (Config.geoip config) (geoip_cache c) = (None, cache) ->
  exists c1, apply_geoip_map (EN := broken) config c = (None, c1) /\ ebpf c1 = ebpf c /\
    (apply_geoip_map (EN := repaired) config' c1 = (r, c2) -> ip_addr_ok b ->
     fst (is_geoip_blocked (key_of_addr b) (ebpf c)) = true ->
     fst (is_geoip_blocked (key_of_addr b) (ebpf c2)) = true).
Proof.
  intros Hload. eexists. split; [|split].
  - unfold apply_geoip_map. rewrite !try_gets. unfold update at 1. rewrite try_modify.
    unfold try_bind at 1, load_geoip at 1. cbn. rewrite Hload. reflexivity.
  - reflexivity.
  - intros E Hb Hg. rewrite geo_covered in * by done.
    by eapply (apply_geoip_adds (EN := repaired)); [..|exact E|exact Hg].
Qed.

(** ** Protection projects *)
Section Projects.
Context {KN : Kernel} {KL : KernelLaws} {MO : MapOps} {ML : MapLaws MO} {HO : HashOrder} {R : Redb}
  {J : RuleJson} {JL : RuleJsonLaws J} {CL : CsvLib} {EN : AgentEnv}.

Lemma get_removed {K V} `{EqDecision K} (m : lru K V) ks k :
  lru_get (foldl (fun m key => lru_remove m key) m ks) k = if decide (k ∈ ks) then None else lru_get m k.
Proof.
  revert m. induction ks as [|k' ks IH]; intros m; cbn [foldl].
  - by rewrite decide_False by apply not_elem_of_nil.
  - rewrite IH. destruct (decide (k = k')) as [->|Hne].
    + rewrite lru_get_remove_eq. repeat case_decide; try done; rewrite elem_of_cons in *; tauto.
    + rewrite lru_get_remove_ne by done. repeat case_decide; try done; rewrite elem_of_cons in *; tauto.
Qed.

Lemma get_cleared m k : lru_get (clear_policies m) k = None.
Proof.
  unfold clear_policies. rewrite get_removed. case_decide as Hk; [done|]. rewrite lru_keys_spec in Hk.
  destruct (lru_get m k); [destruct Hk; by eexists|done].
Qed.

(** The policy of the last row for the key. *)
Definition last_policy (k : ProjectPolicyKey.t) (rows : list (ProjectPolicyKey.t * ProjectPolicy.t))
    : option ProjectPolicy.t :=
  snd <$> list.last (filter (fun row => fst row = k) rows).

Lemma get_policies rows m k p : lru_get (insert_policies rows m) k = Some p ->
  last_policy k rows = Some p \/ lru_get m k = Some p.
Proof.
  unfold insert_policies, last_policy. induction rows as [|[k' p'] rows IH] using rev_ind; [by right|].
  rewrite foldl_snoc, list.filter_app, filter_cons. cbn [fst snd]. destruct (decide (k' = k)) as [->|Hne].
  - rewrite lru_get_insert_eq, filter_nil. intros [= ->]. left. rewrite ?decide_True by done.
    by rewrite last_snoc.
  - rewrite ?decide_False, filter_nil, app_nil_r by done. intros [[-> _]|Hg]%lru_insert_inv; [done|]. by apply IH.
Qed.

Lemma last_policy_snoc k rows row :
  last_policy k (rows ++ [row]) = if decide (fst row = k) then Some (snd row) else last_policy k rows.
Proof.
  unfold last_policy. rewrite list.filter_app, filter_cons, filter_nil. case_decide; [by rewrite last_snoc|].
  by rewrite app_nil_r.
Qed.

(** The kernel drops the policy of [k], inserted before, to make room for a later
    row. *)
Definition displaced (k : ProjectPolicyKey.t) (policy : ProjectPolicy.t)
    (rows : list (ProjectPolicyKey.t * ProjectPolicy.t)) (m : lru ProjectPolicyKey.t ProjectPolicy.t) : Prop :=
  exists before row after, rows = before ++ row :: after /\ k ∉ map fst (row :: after) /\
    let m := insert_policies before m in
    lru_get m k = Some policy /\ lru_get (lru_insert m (fst row) (snd row)) k = None.

Lemma policies_installed rows m k policy : last_policy k rows = Some policy ->
  lru_get (insert_policies rows m) k = Some policy \/ displaced k policy rows m.
Proof.
  induction rows as [|row rows IH] using rev_ind; [done|]. rewrite last_policy_snoc. unfold insert_policies at 1.
  rewrite foldl_snoc. fold (insert_policies rows m). case_decide as Hk.
  { intros [= <-]. left. by rewrite <- Hk, lru_get_insert_eq. }
  intros [Hg|(before & other & after & -> & Hafter & Hg)]%IH.
  - destruct (lru_get_insert_ne (insert_policies rows m) (fst row) k (snd row) Hk) as [E|E]; [by left; rewrite E|].
    right. exists rows, row, []. split; [done|]. split; [cbn; by intros Hin%list_elem_of_singleton|done].
  - right. exists before, other, (after ++ [row]). split; [by rewrite <- app_assoc|]. split; [|done].
    rewrite app_comm_cons, map_app, elem_of_app. by intros [?|Hin%list_elem_of_singleton].
Qed.

Lemma expand_bounded protocol dport action flags ips : forall entries entries',
  Z.of_nat (length entries) <= POLICY_ENTRIES ->
  expand_targets protocol dport action flags entries ips = Some entries' ->
  Z.of_nat (length entries') <= POLICY_ENTRIES.
Proof.
  induction ips as [|ip ips IH]; intros entries entries' Hl; cbn [expand_targets]; [by intros [= <-]|].
  destruct (expand_target _ _ _ _ entries ip) as [e1|] eqn:E; [|done]. cbn [mbind option_bind].
  apply IH. revert E. unfold expand_target. destruct (match parse_ip ip with Some k => _ | None => _ end) as [[key prefix]|];
    [|done]. cbn [mbind option_bind]. destruct (negb _); [by intros [= <-]|]. destruct (prefix <? 24); [done|].
  rewrite Z.gtb_ltb. destruct (POLICY_ENTRIES <? _) eqn:Eb; [done|]. apply Z.ltb_ge in Eb. intros [= <-].
  rewrite length_app, length_map, length_seqZ. lia.
Qed.

Lemma expand_projects_bounded projects : forall entries entries',
  Z.of_nat (length entries) <= POLICY_ENTRIES ->
  expand_projects entries projects = Some entries' -> Z.of_nat (length entries') <= POLICY_ENTRIES.
Proof.
  induction projects as [|proj projects IH]; intros entries entries' Hl; cbn [expand_projects]; [by intros [= <-]|].
  destruct (protocol_number _) as [n|]; [|done]. destruct (project_dport _) as [d|]; [|done].
  destruct (project_action_number _) as [a|]; [|done]. cbn [mbind option_bind].
  destruct (expand_targets _ _ _ _ entries _) as [e1|] eqn:E; [|done]. cbn [mbind option_bind].
  apply IH. by apply expand_bounded in E.
Qed.

(** C28: protection projects are installed as a whole.  A set that fails
    validation, or whose targets do not fit the 8192 entries of the map, changes
    nothing; otherwise the map has exactly the new set: every policy the packet
    program can find for a destination is the one the last row of the new set
    gives for it, so that nothing of the old set remains; every destination of the
    new set has its policy in the map, unless the kernel itself has dropped it for
    a later row of the set; and the switch in [CONFIG] says whether there is any
    row. *)
Theorem projects_replaced projects c cfg rest :
  CONFIG (ebpf c) = cfg :: rest ->
  match (if validate_protection_projects_list projects then expand_projects [] projects else None) with
  | None => set_protection_projects projects c = (None, c)
  | Some rows =>
      Z.of_nat (length rows) <= POLICY_ENTRIES /\
      exists c' cfg', set_protection_projects projects c = (Some tt, c') /\
        CONFIG (ebpf c') = cfg' :: rest /\
        (RuntimeConfig.project_enabled cfg' = 0 <-> rows = []) /\
        (forall key policy, lru_get (PROJECT_POLICY (ebpf c')) key = Some policy ->
           last_policy key rows = Some policy) /\
        (forall key policy, last_policy key rows = Some policy ->
           lru_get (PROJECT_POLICY (ebpf c')) key = Some policy \/
           displaced key policy rows (clear_policies (PROJECT_POLICY (ebpf c))))
  end.
Proof.
  intros Hc. unfold set_protection_projects. destruct (validate_protection_projects_list projects); [|done].
  rewrite try_ensure. destruct (expand_projects [] projects) as [rows|] eqn:E.
  - split; [apply (expand_projects_bounded projects [] rows); [done|exact E]|].
    set (s1 := setter PROJECT_POLICY (fun m => insert_policies rows (clear_policies m)) (ebpf c)).
    set (f := fun cfg => cfg <| RuntimeConfig.project_enabled := u8_from (0 <? Z.of_nat (length rows)) |>).
    assert (E1 : on_ebpf (init_protection_projects_map projects) c =
                 (Some tt, c <| ebpf := s1 <| CONFIG := f cfg :: rest |> |>)).
    { assert (E0 : init_protection_projects_map projects (ebpf c) = sync_config_count f s1)
        by (unfold init_protection_projects_map; rewrite E, try_some, try_modify; reflexivity).
      unfold on_ebpf. by rewrite E0, (sync_count_eq f s1 cfg rest Hc). }
    rewrite (try_bind_ok _ _ _ _ _ E1). unfold update at 1. rewrite try_modify.
    set (c1 := setter runtime _ _). destruct (projects_from_to projects) as (v & Hto & _).
    destruct (on_store_save projects_to_vec (fun v s => setter RuleStore.PROTECTION_PROJECTS (fun _ => Some v) s)
      projects c1) as (c2 & E2 & Heb & _); [by rewrite Hto|].
    change (on_store (save_protection_projects projects) c1 = (Some tt, c2)) in E2.
    rewrite (try_bind_ok _ _ _ _ _ E2). eexists _, (f cfg). split; [reflexivity|].
    change (ebpf (setter auditor _ c2)) with (ebpf c2). rewrite Heb. split; [reflexivity|]. split.
    + cbn. destruct rows; cbn [length]; [done|]. rewrite (proj2 (Z.ltb_lt _ _)) by lia. done.
    + change (PROJECT_POLICY (ebpf c1)) with (insert_policies rows (clear_policies (PROJECT_POLICY (ebpf c)))).
      split; [|intros key policy; apply policies_installed]. intros key policy Hg.
      apply get_policies in Hg as [?|Hg]; [done|]. by rewrite get_cleared in Hg.
  - unfold try_bind at 1, on_ebpf, init_protection_projects_map. rewrite E. cbn. by destruct c.
Qed.
End Projects.

Module AgentRulesWitness.
Import Samples ControlSample.ControlSample.

(** SSH is allowed, the other low ports are not. *)
Lemma port_acl_enforced_witness :
  validate_port_acl_items acl = true /\
  exists c' cfg', set_port_acl acl agent = (Some tt, c') /\ CONFIG (ebpf c') = [cfg'] /\
    fst (check_port_acl 6 22 (RuntimeConfig.port_acl_count cfg') (ebpf c')) = false /\
    fst (check_port_acl 6 23 (RuntimeConfig.port_acl_count cfg') (ebpf c')) = true /\
    fst (check_port_acl 17 23 (RuntimeConfig.port_acl_count cfg') (ebpf c')) = false.
Proof.
  split; [reflexivity|]. destruct (CONFIG (ebpf agent)) as [|cfg rest] eqn:Hc; [vm_compute in Hc; discriminate|].
  assert (Hlen : length (PORT_ACL (ebpf agent)) = Z.to_nat MAX_PORT_ACL) by (vm_compute; reflexivity).
  destruct (port_acl_enforced acl agent cfg rest Hlen Hc) as (c' & cfg' & E & Hc' & _ & _ & H).
  exists c', cfg'. split; [exact E|]. split; [vm_compute in Hc; injection Hc as _ <-; exact Hc'|].
  rewrite !H. split; [reflexivity|]. split; reflexivity.
Defined.

Lemma allow_cidr_exact_witness :
  exists c', allow_cidr "192.0.2.77/24" agent = (Some tt, c') /\
    white (ebpf c') (V4 [192; 0; 2; 200]) = true.
Proof.
  assert (E : allow_cidr "192.0.2.77/24" agent = (Some tt, snd (allow_cidr "192.0.2.77/24" agent)))
    by (apply run_ok; vm_compute; reflexivity).
  exists (snd (allow_cidr "192.0.2.77/24" agent)). split; [exact E|].
  destruct (allow_cidr_exact _ _ _ E) as (addr & plen & a & prefix & Hs & Ha & Hp & _ & H).
  injection Hs as <- <-. injection Ha as <-. injection Hp as <-. apply H.
  - split; [reflexivity|]. unfold bytes_ok, is_byte. rewrite !list.Forall_cons. repeat split; (lia || constructor).
  - right. split; [reflexivity|]. vm_compute. reflexivity.
Defined.

(** The four addresses of 192.0.2.0/30. *)
Lemma projects_replaced_witness :
  exists rows, expand_projects [] projects = Some rows /\ length rows = 4%nat /\
    Z.of_nat (length rows) <= POLICY_ENTRIES /\
    exists c' cfg', set_protection_projects projects agent = (Some tt, c') /\
      CONFIG (ebpf c') = [cfg'] /\ RuntimeConfig.project_enabled cfg' <> 0.
Proof.
  destruct (CONFIG (ebpf agent)) as [|cfg rest] eqn:Hc; [vm_compute in Hc; discriminate|].
  pose proof (projects_replaced projects agent cfg rest Hc) as H.
  assert (Hv : validate_protection_projects_list projects = true) by (vm_compute; reflexivity).
  rewrite Hv in H. destruct (expand_projects [] projects) as [rows|] eqn:E; [|vm_compute in E; discriminate E].
  destruct H as (Hb & c' & cfg' & E' & Hc' & Hp & _). exists rows. split; [reflexivity|].
  assert (Hl : length rows = 4%nat) by (vm_compute in E; by injection E as <-).
  split; [exact Hl|]. split; [exact Hb|]. exists c', cfg'. split; [exact E'|].
  split; [vm_compute in Hc; injection Hc as _ <-; exact Hc'|]. rewrite Hp. intros ->. discriminate Hl.
Defined.

(** The list of the sample with a row that can not be read, and no list. *)
Definition bad_csv : CsvLib := {| records text := [None] |}.
Definition no_lists : AgentEnv := {|
  config_file := Some config; interface_exists _ := true; store_dir_ok _ := true;
  files := ∅; package_version := "0.5.0"
|}.
Definition new_list : Config.t := config <| Config.geoip :=
  GeoIpConfig.mk true None (Some "c.csv") None ["CN"; "RU"] [] [] [] "pass" |>.

Lemma geoip_failure_sticks_witness :
  let b := V4 [198; 51; 100; 7] in
  exists c1 c2, apply_geoip_map (CL := bad_csv) new_list agent = (None, c1) /\
    apply_geoip_map (CL := bad_csv) (EN := no_lists) new_list c1 = (Some tt, c2) /\
    fst (is_geoip_blocked (key_of_addr b) (ebpf c2)) = true.
Proof.
  intros b.
  assert (Hl : load_geoip_blocks (CL := bad_csv) files (Config.geoip new_list) (geoip_cache agent) =
               (None, geoip_cache agent)) by (vm_compute; reflexivity).
  set (c1 := snd (apply_geoip_map (CL := bad_csv) new_list agent)).
  assert (E2 : apply_geoip_map (CL := bad_csv) (EN := no_lists) new_list c1 =
    (Some tt, snd (apply_geoip_map (CL := bad_csv) (EN := no_lists) new_list c1)))
    by (apply run_ok; vm_compute; reflexivity).
  exists c1, (snd (apply_geoip_map (CL := bad_csv) (EN := no_lists) new_list c1)).
  destruct (geoip_failure_sticks (CL := bad_csv) env no_lists new_list agent _ new_list
    (Some tt) (snd (apply_geoip_map (CL := bad_csv) (EN := no_lists) new_list c1)) b Hl)
    as (c1' & E1 & _ & H).
  assert (c1' = c1) as -> by (unfold c1; by rewrite E1).
  split; [exact E1|]. split; [exact E2|]. apply (H E2).
  - split; [reflexivity|]. unfold bytes_ok, is_byte. rewrite !list.Forall_cons. repeat split; (lia || constructor).
  - vm_compute. reflexivity.
Defined.
End AgentRulesWitness.
