(* ===== verification/ThreatIntel.v ===== *)
(** * ThreatIntel: blocking and allowing the addresses of a feed

    [eshield/src/threat_intel.rs].  Downloading and the JSON parser are
    parameters ([Class FeedLib]; the value of a JSON text is the data type of
    the library).  One round of one feed is modelled, not the timers. *)
From Stdlib Require Import Ascii.
From stdpp Require Import strings gmap.
From S2P Require Import Prelude Words Common Pure RustStd IpText Config TimeSeries Redb RuleStore RuleStoreProps Maps AgentMaps Geoip AuditLog AgentControl AgentControlProps ControlSample.
#[local] Open Scope Z_scope.

(** [serde_json::Value] *)
Inductive Value :=
  | VNull
  | VBool (b : bool)
  | VNumber (digits : string)
  | VString (s : string)
  | VArray (items : list Value)
  | VObject (fields : list (string * Value)).

(** [Value::get] with a string and with a number, [as_array], [as_str] and
    [as_u64]; a number is kept as its text. *)
Definition value_get (name : string) (v : Value) : option Value :=
  match v with
  | VObject fields => snd <$> find (fun f => String.eqb (fst f) name) fields
  | _ => None
  end.
Definition as_array (v : Value) : option (list Value) := match v with VArray l => Some l | _ => None end.
Definition value_index (i : nat) (v : Value) : option Value := l ← as_array v; l !! i.
Definition as_str (v : Value) : option string := match v with VString s => Some s | _ => None end.
Definition as_u64 (v : Value) : option Z := match v with VNumber digits => parse_uint 64 digits | _ => None end.

(** [feed_get] is the response of a URL: whether the status is a success, and
    the text. *)
Class FeedLib := {
  feed_get : string -> option (bool * string);
  json_from_str : string -> option Value;
}.

(** ** Parsing *)

(** [str::starts_with] with a character. *)
Definition starts_with (x : ascii) (s : string) : bool :=
  match s with String c _ => Ascii.eqb c x | EmptyString => false end.

(** Entries that are not one host are left out. *)
Definition add_ip (out : list IpKey.t) (s : string) : list IpKey.t :=
  match parse_ip_or_cidr s with Some key => out ++ [key] | None => out end.

Definition text_line (out : list IpKey.t) (line : string) : list IpKey.t :=
  let line := trim line in
  if String.eqb line "" || starts_with "#" line then out
  else
    let ip_str := trim (default line (head (split "," line))) in
    if String.eqb ip_str "" then out else add_ip out ip_str.

Definition parse_text_feed (text : string) : list IpKey.t := foldl text_line [] (lines text).

Definition data_item (out : list IpKey.t) (item : Value) : list IpKey.t :=
  match value_get "ipAddress" item ≫= as_str with Some ip => add_ip out ip | None => out end.

Definition array_item (out : list IpKey.t) (item : Value) : list IpKey.t :=
  match as_str item with
  | Some ip => add_ip out ip
  | None => match value_get "ip" item ≫= as_str with Some ip => add_ip out ip | None => out end
  end.

(** The key of an IPv4 or IPv6 host as a network. *)
Definition entries_cidr (entries : list IpKey.t) : list (IpKey.t * Z) :=
  map (fun key => (key, match IpKey_family key with Some Ipv4 => 32 | Some Ipv6 | None => 128 end)) entries.

Definition THREAT_TTL (feed : ThreatFeed.t) : Z :=
  Z.max (saturating_mul 64 (ThreatFeed.interval_s feed) 3) 3600.

Section ThreatIntel.
Context {KN : Kernel} {MO : MapOps} {HO : HashOrder} {R : Redb} {J : RuleJson} {CL : CsvLib} {EN : AgentEnv} {FL : FeedLib}.

Definition parse_json_feed (text : string) : option (list IpKey.t) :=
  json ← json_from_str text;
  let result := foldl data_item [] (default [] (value_get "data" json ≫= as_array)) in
  Some (foldl array_item result (default [] (as_array json))).

Definition parse_feed (text : string) : option (list IpKey.t) :=
  let trimmed := trim text in
  if starts_with "[" trimmed || starts_with "{" trimmed then parse_json_feed text
  else Some (parse_text_feed text).

(** An error of blocking or of allowing one network is only logged. *)
Definition sync_feed (feed : ThreatFeed.t) : Try ControlState unit :=
  let! resp := of_option (feed_get (ThreatFeed.url feed)) in
  let! _ := ensure (fst resp) in
  let! entries := of_option (parse_feed (snd resp)) in
  if String.eqb (ThreatFeed.action feed) "drop" then
    ignore (block_ip_keys_batch entries (THREAT_TTL feed) rules.THREAT_INTEL ThreatIntel)
  else if String.eqb (ThreatFeed.action feed) "allow" then
    for_each (fun kp => ignore (allow_cidr_key (fst kp) (snd kp) "threat_intel")) (entries_cidr entries)
  else of_option None.

(** [sync_threat_intel_handler]: one round of every feed; errors are logged. *)
Definition sync_feeds (feeds : list ThreatFeed.t) : Try ControlState unit :=
  for_each (fun feed => ignore (sync_feed feed)) feeds.
End ThreatIntel.

(** ** Reading a text feed *)

(** A character of a first column: neither white space nor a separator. *)
Definition plain_char (c : ascii) : bool :=
  negb (is_whitespace c) && negb (Ascii.eqb c ",") && negb (Ascii.eqb c "#").

Fixpoint plain (s : string) : bool :=
  match s with EmptyString => true | String c s => plain_char c && plain s end.

(** The lines of a feed. *)
Inductive FeedLine :=
  | Entry (host : string) (columns : option string)
  | Comment (text : string)
  | Blank.

Definition line_text (l : FeedLine) : string :=
  match l with
  | Entry host None => host
  | Entry host (Some columns) => host +:+ "," +:+ columns
  | Comment text => "#" +:+ text
  | Blank => ""
  end.

Definition line_ok (l : FeedLine) : Prop :=
  match l with
  | Entry host columns => host <> EmptyString /\ plain host = true /\
      match columns with Some c => avoids (of_code 10) c = true | None => True end
  | Comment text => avoids (of_code 10) text = true
  | Blank => True
  end.

Fixpoint feed_text (ls : list FeedLine) : string :=
  match ls with
  | [] => ""
  | l :: ls => line_text l +:+ String (of_code 10) (feed_text ls)
  end.

Definition entry_key (l : FeedLine) : option IpKey.t :=
  match l with Entry host _ => parse_ip_or_cidr host | _ => None end.

Lemma plain_avoids x s : plain_char x = false -> plain s = true -> avoids x s = true.
Proof.
  intros Hx. induction s as [|c s IH]; [done|]. cbn. intros [Hc Hs]%andb_true_iff.
  rewrite IH by done. destruct (Ascii.eqb_spec c x) as [->|]; [congruence|done].
Qed.

Lemma terminated_cons l ls : ls <> [] -> terminated_lines (l :: ls) = strip_cr l :: terminated_lines ls.
Proof. by destruct ls. Qed.

Lemma lines_cons l s : avoids (of_code 10) l = true -> lines (l +:+ String (of_code 10) s) = strip_cr l :: lines s.
Proof.
  intros Hl. unfold lines. rewrite split_append by done. apply terminated_cons, split_not_nil.
Qed.

Lemma trim_start_plain c s : is_whitespace c = false -> trim_start (String c s) = String c s.
Proof. intros Hc. cbn. by rewrite Hc. Qed.

Lemma trim_end_append s c r : is_whitespace c = false -> trim_end (s +:+ String c r) = s +:+ String c (trim_end r).
Proof.
  intros Hc. induction s as [|x s IH].
  - rewrite !append_empty_l. cbn. rewrite Hc. by destruct (trim_end r).
  - rewrite !append_cons. cbn. rewrite IH. by destruct s.
Qed.

Lemma trim_end_plain s : plain s = true -> trim_end s = s.
Proof.
  induction s as [|c s IH]; [done|]. cbn. intros [Hc Hs]%andb_true_iff. rewrite IH by done.
  unfold plain_char in Hc. destruct s; [|done]. by destruct (is_whitespace c).
Qed.

Lemma strip_cr_append s c r : Ascii.eqb c (of_code 13) = false -> strip_cr (s +:+ String c r) = s +:+ String c (strip_cr r).
Proof.
  intros Hc. induction s as [|x s IH].
  - rewrite !append_empty_l. cbn [strip_cr]. rewrite Hc. by destruct r.
  - rewrite !append_cons. cbn [strip_cr]. rewrite IH. by destruct s.
Qed.

Lemma strip_cr_plain s : plain s = true -> strip_cr s = s.
Proof.
  induction s as [|c s IH]; [done|]. cbn [plain]. intros [Hc Hs]%andb_true_iff. cbn [strip_cr]. rewrite IH by done.
  destruct s; [|done]. destruct (Ascii.eqb c _) eqn:E; [|done]. apply Ascii.eqb_eq in E as ->. done.
Qed.

Lemma plain_head c s : plain (String c s) = true -> is_whitespace c = false /\ Ascii.eqb c "#" = false.
Proof.
  cbn. unfold plain_char. intros [[[H1 H2]%andb_true_iff H3]%andb_true_iff _]%andb_true_iff.
  by rewrite <- !negb_true_iff.
Qed.

(** One line, as [lines] returns it. *)
Lemma text_line_entry out host rest : host <> EmptyString -> plain host = true ->
  (rest = EmptyString \/ exists r, rest = String "," r) ->
  text_line out (host +:+ rest) = add_ip out host.
Proof.
  intros Hne Hp Hr. destruct host as [|c host]; [done|]. destruct (plain_head c host Hp) as [Hw Hh].
  assert (Ht : exists rest', (rest' = EmptyString \/ exists r, rest' = String "," r) /\
     trim (String c host +:+ rest) = String c host +:+ rest').
  { unfold trim. rewrite append_cons, trim_start_plain, <- append_cons by done.
    destruct Hr as [->|[r ->]].
    - exists EmptyString. split; [by left|]. by rewrite append_empty_r, trim_end_plain.
    - exists (String "," (trim_end r)). split; [right; by eexists|]. by rewrite trim_end_append. }
  destruct Ht as (rest' & Hr' & Ht). unfold text_line. rewrite Ht.
  assert (Hs : head (split "," (String c host +:+ rest')) = Some (String c host)).
  { destruct Hr' as [->|[r ->]].
    - rewrite append_empty_r, split_avoids; [done|]. by apply plain_avoids.
    - rewrite split_append; [done|]. by apply plain_avoids. }
  rewrite Hs, append_cons. cbn [String.eqb starts_with orb default]. rewrite Hh. cbn [orb].
  unfold trim, id. rewrite trim_start_plain, trim_end_plain by done. done.
Qed.

Lemma text_line_comment out s : text_line out (String "#" s) = out.
Proof.
  unfold text_line, trim. rewrite trim_start_plain by done.
  pose proof (trim_end_append EmptyString "#" s eq_refl) as E. rewrite !append_empty_l in E. by rewrite E.
Qed.

Lemma line_no_feed l : line_ok l -> avoids (of_code 10) (line_text l) = true.
Proof.
  destruct l as [host [c|]|text|]; cbn [line_ok line_text]; try done.
  - intros (_ & Hp & Hc). rewrite !every_append, Hc, (plain_avoids _ host) by done. done.
  - intros (_ & Hp & _). by apply plain_avoids.
Qed.

Lemma text_line_spec out l : line_ok l ->
  text_line out (strip_cr (line_text l)) = match entry_key l with Some key => out ++ [key] | None => out end.
Proof.
  destruct l as [host [c|]|text|]; cbn [line_ok line_text entry_key].
  - intros (Hn & Hp & _). change ("," +:+ c) with (String "," (EmptyString +:+ c)).
    rewrite append_empty_l, strip_cr_append, text_line_entry by (done || right; by eexists). done.
  - intros (Hn & Hp & _). rewrite strip_cr_plain by done.
    rewrite <- (append_empty_r host) at 1. rewrite text_line_entry by (done || by left). done.
  - intros _. change ("#" +:+ text) with (String "#" (EmptyString +:+ text)). rewrite append_empty_l.
    pose proof (strip_cr_append EmptyString "#" text eq_refl) as E. rewrite !append_empty_l in E. rewrite E.
    apply text_line_comment.
  - intros _. done.
Qed.

(** a text feed is read exactly.  From a file of lines that are each a host
    in the first column, a comment, or empty, the parser returns the hosts that
    are one address, in their order, and nothing else. *)
Theorem text_feed_read ls : Forall line_ok ls -> parse_text_feed (feed_text ls) = omap entry_key ls.
Proof.
  intros Hls. unfold parse_text_feed.
  assert (H : forall out, foldl text_line out (lines (feed_text ls)) = out ++ omap entry_key ls).
  { induction Hls as [|l ls Hl Hls IH]; intros out; [cbn; by rewrite app_nil_r|].
    cbn [feed_text]. rewrite lines_cons by by apply line_no_feed. cbn [foldl]. rewrite text_line_spec by done.
    rewrite IH. cbn. destruct (entry_key l); [by rewrite <- app_assoc|done]. }
  by rewrite H.
Qed.

(** ** What a round leaves on disk *)
Section Properties.
Context {KN : Kernel} {MO : MapOps} {HO : HashOrder} {R : Redb} {RL : RedbLaws R} {J : RuleJson}
  {JL : RuleJsonLaws J} {CL : CsvLib} {EN : AgentEnv} {FL : FeedLib}.

#[local] Abbreviation Rows := (gmap IpKey.t BlacklistRow.t).

Lemma for_each_blocks keys now_ns until reason s :
  exists s', for_each (fun key => block_merged key now_ns until reason false) keys s = (Some tt, s') /\
    ktime_calls s' = ktime_calls s.
Proof.
  revert s. induction keys as [|key keys IH]; intros s; cbn [for_each]; [by exists s|].
  unfold block_merged at 1. rewrite try_modify. destruct (IH (setter BLACKLIST (fun m => lru_insert m key
    (merge_block_entry (lru_get (BLACKLIST s) key) now_ns until reason false)) s)) as (s' & E & Hk).
  by exists s'.
Qed.

Lemma insert_all_lookup (row : BlacklistRow.t) keys : forall (m : Rows) key,
  foldl (fun m key => <[key := row]> m) m keys !! key = if decide (key ∈ keys) then Some row else m !! key.
Proof.
  induction keys as [|k keys IH]; intros m key; cbn [foldl].
  - by rewrite decide_False by apply not_elem_of_nil.
  - rewrite IH. destruct (decide (key ∈ keys)) as [Hin|Hin].
    + by rewrite decide_True by by right.
    + destruct (decide (key = k)) as [->|Hne].
      * rewrite decide_True by by left. by rewrite lookup_insert_eq.
      * rewrite decide_False by by rewrite elem_of_cons; intros [?|?]. by rewrite lookup_insert_ne.
Qed.

Lemma save_many_ok keys now_ns until reason origin c st (m : Rows) :
  store c = Some st -> repr (RuleStore.BLACKLIST st) m -> Forall key_ok keys ->
  exists c' st' stamp, save_block_many keys now_ns until reason origin c = (Some tt, c') /\
    store c' = Some st' /\
    repr (RuleStore.BLACKLIST st')
      (foldl (fun m key => <[key := BlacklistRow.mk until reason now_ns origin stamp]> m) m keys).
Proof.
  intros Hst Hm Hks. unfold save_block_many. rewrite Hst.
  unfold try_bind, now, on_ebpf, run, monotonic_ns, get_ktime_ns, on_store. cbn. rewrite Hst.
  destruct (impl_refines (SaveMany (ktime_get_ns (ktime_calls (ebpf c))) keys until reason now_ns origin) st m Hm Hks)
    as (st' & E & Hm' & _). cbn [impl_op spec_op] in E, Hm'. rewrite E.
  eexists _, st', _. split; [reflexivity|]. split; [done|exact Hm'].
Qed.

(** a blocking feed replaces what is on disk about its addresses.  A round
    of a feed with action [drop] succeeds; afterwards every address of the feed
    has a row that ends after three intervals (one hour at least) and belongs
    to the feed, whatever row it had before -- a permanent one of the
    administrator included -- and every other row is as it was. *)
Theorem feed_rows feed text keys c st (m : Rows) :
  feed_get (ThreatFeed.url feed) = Some (true, text) -> parse_feed text = Some keys ->
  ThreatFeed.action feed = "drop"%string -> store c = Some st -> repr (RuleStore.BLACKLIST st) m ->
  Forall key_ok keys ->
  exists c' st' (m' : Rows), sync_feed feed c = (Some tt, c') /\ store c' = Some st' /\
    repr (RuleStore.BLACKLIST st') m' /\
    (forall key, key ∈ keys -> exists now_ns stamp, m' !! key =
       Some (BlacklistRow.mk (deadline now_ns (THREAT_TTL feed)) rules.THREAT_INTEL now_ns ThreatIntel stamp)) /\
    (forall key, key ∉ keys -> m' !! key = m !! key).
Proof.
  intros Hget Hparse Hact Hst Hm Hks. unfold sync_feed. rewrite Hget, try_some. cbn [fst snd].
  rewrite try_ensure, Hparse, try_some, Hact. cbn [String.eqb Ascii.eqb Bool.eqb].
  unfold ignore, block_ip_keys_batch. case_bool_decide as Hk.
  { subst keys. exists c, st, m. split; [reflexivity|]. split; [done|]. split; [done|]. split; [|done].
    intros key Hin. by apply not_elem_of_nil in Hin. }
  set (now_ns := ktime_get_ns (ktime_calls (ebpf c))).
  unfold try_bind at 1, now, on_ebpf, run, monotonic_ns, get_ktime_ns. cbn [fst snd]. fold now_ns. cbv zeta.
  set (c1 := setter ebpf _ c).
  destruct (for_each_blocks keys now_ns (deadline now_ns (THREAT_TTL feed)) rules.THREAT_INTEL (ebpf c1)) as (s' & E & _).
  unfold try_bind at 1. rewrite E. clear E. set (c2 := setter ebpf _ c1).
  destruct (save_many_ok keys now_ns (deadline now_ns (THREAT_TTL feed)) rules.THREAT_INTEL ThreatIntel c2 st m)
    as (c3 & st' & stamp & E & Hst' & Hm'); [done..|].
  rewrite (try_bind_ok _ _ _ _ _ E). eexists _, st', _. split; [reflexivity|]. split; [exact Hst'|].
  split; [exact Hm'|]. split; intros key Hin; rewrite insert_all_lookup.
  - rewrite decide_True by done. by exists now_ns, stamp.
  - by rewrite decide_False.
Qed.
End Properties.

Module ThreatIntelWitness.
Import Samples ControlSample.ControlSample.

Definition feed : ThreatFeed.t := ThreatFeed.mk "f" "http://f" 60 80 None "drop".
Definition file : list FeedLine :=
  [Comment " bad hosts"; Entry "10.0.0.1" None; Blank; Entry "10.0.0.2/32" (Some "CN, x"); Entry "10.1.0.0/16" None].
#[export] Instance feeds : FeedLib := {|
  feed_get _ := Some (true, feed_text file);
  json_from_str _ := None;
|}.

Lemma text_feed_read_witness : Forall line_ok file /\ parse_text_feed (feed_text file) = [alice; bob].
Proof.
  assert (H : Forall line_ok file) by (repeat constructor; vm_compute; congruence).
  split; [exact H|]. rewrite (text_feed_read file H). vm_compute. reflexivity.
Defined.

(** Alice is blocked for good by the administrator. *)
Definition rows : gmap IpKey.t BlacklistRow.t := {[ alice := BlacklistRow.mk 0 6 5 Api 5 ]}.
Definition before : ControlState :=
  agent <| store := save_blacklist 5 alice 0 6 5 Api RuleStore_empty |>.

Lemma feed_rows_witness :
  exists c' st' (m' : gmap IpKey.t BlacklistRow.t), sync_feed feed before = (Some tt, c') /\ store c' = Some st' /\
    repr (RuleStore.BLACKLIST st') m' /\ (BlacklistRow.origin <$> m' !! alice) = Some ThreatIntel.
Proof.
  assert (Ha : key_ok alice) by done. assert (Hb : key_ok bob) by done.
  destruct (impl_refines (Save 5 alice 0 6 5 Api) RuleStore_empty ∅ repr_empty Ha) as (s1 & E1 & H1 & _).
  cbn [impl_op spec_op] in E1, H1.
  destruct (feed_rows feed (feed_text file) [alice; bob] before s1 rows) as (c' & st' & m' & E & Hst & Hm & Hin & _);
    [reflexivity|vm_compute; reflexivity|reflexivity|exact E1|exact H1|by repeat constructor|].
  exists c', st', m'. split; [exact E|]. split; [exact Hst|]. split; [exact Hm|].
  destruct (Hin alice) as (? & ? & ->); [by left|done].
Defined.
End ThreatIntelWitness.
