(* ===== verification/BlacklistSync.v ===== *)
(** * BlacklistSync: the data plane's blocks on disk

    [eshield/src/blacklist_sync.rs]: the blocks the packet program and the
    adaptive engine have made are copied to the store, from which they are
    restored and published to the hub.  The statistics have one slot, that of
    the modelled CPU. *)
From stdpp Require Import gmap.
From S2P Require Import Prelude Words Common Config TimeSeries Redb IpText RuleStore RuleStoreProps Maps Blacklist AgentMaps AgentControl AgentControlProps.
#[local] Open Scope Z_scope.

Module CachedEntry.
Record t := mk {
  blocked_until_ns : Z;
  hit_count : Z;
  block_reason : Z;
}.
End CachedEntry.
#[export] Instance CachedEntry_eq_dec : EqDecision CachedEntry.t.
Proof. solve_decision. Defined.

Definition block_reason_to_origin (reason : Z) : option BlockOrigin :=
  if (reason =? rules.RATE_LIMIT) || (reason =? rules.SYN_FLOOD) ||
     (reason =? rules.UDP_FLOOD) || (reason =? rules.ICMP_FLOOD) then Some Local
  else if reason =? rules.ADAPTIVE then Some Adaptive
  else if reason =? rules.API_BLOCK then Some Api
  else if reason =? rules.THREAT_INTEL then Some ThreatIntel
  else None.

Section BlacklistSync.
Context {KN : Kernel} {MO : MapOps} {R : Redb} {J : RuleJson}.

Record SyncState := mkSync {
  ebpf : KState;
  store : RuleStore;
  cache : gmap IpKey.t CachedEntry.t;
  last_prune_ns : Z;
  last_gen : Z;
  last_hit_gen : Z;
  last_hit_scan_ns : Z;
}.
#[global] Instance eta_SyncState : Eta SyncState := fun r =>
  mkSync (ebpf r) (store r) (cache r) (last_prune_ns r) (last_gen r) (last_hit_gen r) (last_hit_scan_ns r).

(** [BlacklistSync::new] *)
Definition sync_new (s : KState) (st : RuleStore) : SyncState := mkSync s st ∅ 0 0 0 0.

Definition read_blacklist_gens (s : KState) : option (Z * Z) :=
  match GLOBAL_STATS s with
  | g :: _ => Some (GlobalStats.blacklist_gen g, GlobalStats.blacklist_hit_gen g)
  | [] => None
  end.

Definition MINUTE_NS : Z := 60000000000.

Definition need_scan (now_ns : Z) (c : SyncState) : bool :=
  match read_blacklist_gens (ebpf c) with
  | None => true
  | Some (add, hit) =>
      negb (add =? last_gen c) ||
      (negb (hit =? last_hit_gen c) && (saturating_sub now_ns (last_hit_scan_ns c) >=? MINUTE_NS)) ||
      bool_decide (cache c = ∅)
  end.

(** [blacklist.iter().flatten()] *)
Definition snapshot (s : KState) : list (IpKey.t * BlockEntry.t) :=
  omap (fun key => entry ← lru_get (BLACKLIST s) key; Some (key, entry)) (lru_keys (BLACKLIST s)).

Definition cached_of (entry : BlockEntry.t) : CachedEntry.t :=
  CachedEntry.mk (BlockEntry.blocked_until_ns entry) (BlockEntry.hit_count entry)
    (BlockEntry.block_reason entry).

(** The loop over the snapshot: what differs from the cache, with its origin. *)
Fixpoint changed_of (cache : gmap IpKey.t CachedEntry.t) (entries : list (IpKey.t * BlockEntry.t))
    : list (IpKey.t * BlockEntry.t * BlockOrigin) :=
  match entries with
  | [] => []
  | (key, entry) :: entries =>
      match block_reason_to_origin (BlockEntry.block_reason entry) with
      | None => changed_of cache entries
      | Some origin =>
          if negb (publishable origin) then changed_of cache entries
          else if bool_decide (cache !! key = Some (cached_of entry)) then changed_of cache entries
          else (key, entry, origin) :: changed_of cache entries
      end
  end.

Abbreviation Sync := (Try SyncState).

Definition now : Sync Z := fun c =>
  let '(t, s) := monotonic_ns (ebpf c) in (Some t, c <| ebpf := s |>).

Definition on_store (f : RuleStore -> option RuleStore) : Sync unit := fun c =>
  match f (store c) with
  | Some st => (Some tt, c <| store := st |>)
  | None => (None, c)
  end.

(** A row the hub owns is not taken over by a local detector. *)
Definition save_changed (store_origins : gmap IpKey.t BlockOrigin)
    (change : IpKey.t * BlockEntry.t * BlockOrigin) : Sync unit :=
  let '(key, entry, origin) := change in
  if negb (bool_decide (origin = Hub)) && bool_decide (store_origins !! key = Some Hub) then ok tt
  else
    let! stamp := now in
    let! _ := on_store (save_blacklist stamp key (BlockEntry.blocked_until_ns entry)
      (BlockEntry.block_reason entry) (BlockEntry.first_seen_ns entry) origin) in
    run (modify (fun c => c <| cache ::= insert key (cached_of entry) |>)).

(** The rows that have expired go once a minute; an error is logged. *)
Definition prune_due (now_ns : Z) : Sync unit := fun c =>
  if saturating_sub now_ns (last_prune_ns c) >=? MINUTE_NS then
    let c := match prune_expired_blacklist now_ns (store c) with
             | Some (_, st) => c <| store := st |>
             | None => c
             end in
    (Some tt, c <| last_prune_ns := now_ns |>)
  else (Some tt, c).

Definition sync_once : Sync unit :=
  let! now_ns := now in
  let! c := run (gets (fun c => c)) in
  let gens := read_blacklist_gens (ebpf c) in
  let scanned := need_scan now_ns c in
  let changed := if (scanned : bool) then changed_of (cache c) (snapshot (ebpf c)) else [] in
  let! _ := (if bool_decide (changed = []) then ok tt
             else
               let! store_origins := of_option (load_blacklist_origins (map (fun x => fst (fst x)) changed) (store c)) in
               for_each (save_changed store_origins) changed) in
  let! _ := run (modify (fun c =>
    match gens with
    | Some (add_gen, hit_gen) =>
        if (scanned : bool) then c <| last_gen := add_gen |> <| last_hit_gen := hit_gen |>
                                   <| last_hit_scan_ns := now_ns |> else c
    | None => c
    end)) in
  prune_due now_ns.
End BlacklistSync.

(** ** What a round achieves *)
Section Properties.
Context {KN : Kernel} {MO : MapOps} {ML : MapLaws MO} {R : Redb} {RL : RedbLaws R} {J : RuleJson}
  {JL : RuleJsonLaws J}.

#[local] Abbreviation Rows := (gmap IpKey.t BlacklistRow.t).
#[local] Abbreviation holds c m := (repr (RuleStore.BLACKLIST (store c)) m).

Definition row_of (entry : BlockEntry.t) (origin : BlockOrigin) (stamp : Z) : BlacklistRow.t :=
  BlacklistRow.mk (BlockEntry.blocked_until_ns entry) (BlockEntry.block_reason entry)
    (BlockEntry.first_seen_ns entry) origin stamp.

Definition in_changes (key : IpKey.t) (changed : list (IpKey.t * BlockEntry.t * BlockOrigin)) : Prop :=
  exists entry origin, (key, entry, origin) ∈ changed.

Lemma in_changes_keys key changed : in_changes key changed <-> key ∈ map (fun x => fst (fst x)) changed.
Proof.
  unfold in_changes. rewrite list_elem_of_fmap. split.
  - intros (e & o & Hin). by exists (key, e, o).
  - intros ([[k e] o] & -> & Hin). by exists e, o.
Qed.

#[local] Instance in_changes_dec key changed : Decision (in_changes key changed).
Proof.
  destruct (decide (key ∈ map (fun x => fst (fst x)) changed)) as [H|H];
    [left|right]; by rewrite in_changes_keys.
Defined.

Lemma elem_of_snapshot s key entry : (key, entry) ∈ snapshot s <-> lru_get (BLACKLIST s) key = Some entry.
Proof.
  unfold snapshot. rewrite list_elem_of_omap. split.
  - intros (k & _ & Hk). destruct (lru_get (BLACKLIST s) k) as [e|] eqn:E; [|done].
    cbn in Hk. injection Hk as <- <-. done.
  - intros Hg. exists key. split; [apply lru_keys_spec; by eexists|]. by rewrite Hg.
Qed.

Lemma reason_not_hub reason : block_reason_to_origin reason <> Some Hub.
Proof. unfold block_reason_to_origin. by repeat case_match. Qed.

Lemma elem_of_changed cache entries key entry origin :
  (key, entry, origin) ∈ changed_of cache entries <->
  (key, entry) ∈ entries /\ block_reason_to_origin (BlockEntry.block_reason entry) = Some origin /\
  cache !! key <> Some (cached_of entry).
Proof.
  induction entries as [|[k e] entries IH]; cbn [changed_of].
  { split; [by intros ?%not_elem_of_nil|]. by intros [?%not_elem_of_nil _]. }
  rewrite elem_of_cons.
  destruct (block_reason_to_origin (BlockEntry.block_reason e)) as [o|] eqn:Ho.
  2: { rewrite IH. split; [tauto|]. intros [[[= -> ->]|Hin] [Hr Hc]]; [congruence|done]. }
  assert (Hp : publishable o = true) by (destruct o; try done; by apply reason_not_hub in Ho).
  rewrite Hp. cbn [negb]. case_bool_decide as Hb.
  - rewrite IH. split; [tauto|]. intros [[[= -> ->]|Hin] [Hr Hc]]; [congruence|done].
  - rewrite elem_of_cons, IH. split.
    + intros [[= -> -> ->]|?]; [by auto|tauto].
    + intros [[[= -> ->]|Hin] [Hr Hc]]; [left; congruence|by right].
Qed.

(** One save. *)
Lemma save_one origins key entry origin c (m : Rows) :
  holds c m -> key_ok key -> origin <> Hub ->
  exists c' m', save_changed origins (key, entry, origin) c = (Some tt, c') /\ holds c' m' /\
    BLACKLIST (ebpf c') = BLACKLIST (ebpf c) /\ last_prune_ns c' = last_prune_ns c /\
    if bool_decide (origins !! key = Some Hub) then m' = m
    else exists stamp, m' = <[key := row_of entry origin stamp]> m.
Proof.
  intros Hm Hk Ho. unfold save_changed. rewrite (bool_decide_eq_false_2 _ Ho). cbn [negb andb].
  case_bool_decide as Hh; [by eexists c, m|].
  unfold try_bind at 1, now, monotonic_ns, get_ktime_ns. cbn. unfold on_store, save_blacklist, try_bind. cbn.
  match goal with |- context [row_to_vec ?r] => destruct (row_from_to r) as (v & -> & Hv) end.
  cbn [mbind option_bind]. eexists _, _. split; [reflexivity|]. split; [|split; [done|split; [done|by eexists]]].
  cbn. by apply repr_insert.
Qed.

Lemma save_all origins changed : forall c (m : Rows),
  holds c m -> (forall key entry origin, (key, entry, origin) ∈ changed -> key_ok key /\ origin <> Hub) ->
  exists c' m', for_each (save_changed origins) changed c = (Some tt, c') /\ holds c' m' /\
    BLACKLIST (ebpf c') = BLACKLIST (ebpf c) /\ last_prune_ns c' = last_prune_ns c /\
    (forall key, in_changes key changed -> origins !! key <> Some Hub ->
       exists entry origin stamp, (key, entry, origin) ∈ changed /\ m' !! key = Some (row_of entry origin stamp)) /\
    (forall key, ~ in_changes key changed \/ origins !! key = Some Hub -> m' !! key = m !! key).
Proof.
  induction changed as [|[[key entry] origin] changed IH]; intros c m Hm Hok.
  - exists c, m. split; [reflexivity|]. split; [done|]. do 2 (split; [done|]). split; [|done].
    intros key (? & ? & ?%not_elem_of_nil) _. done.
  - destruct (Hok key entry origin) as [Hk Ho]; [by left|].
    destruct (save_one origins key entry origin c m Hm Hk Ho) as (c1 & m1 & E1 & Hm1 & Hb1 & Hp1 & Hd1).
    destruct (IH c1 m1 Hm1) as (c' & m' & E & Hm' & Hb & Hp & Hin & Hout); [intros; apply (Hok key0 entry0); by right|].
    exists c', m'. cbn [for_each]. rewrite (try_bind_ok _ _ _ _ _ E1).
    split; [exact E|]. split; [done|]. split; [congruence|]. split; [congruence|]. split.
    + intros k (e & o & Hke) Hnh. destruct (decide (in_changes k changed)) as [Hc|Hc].
      * destruct (Hin k Hc Hnh) as (e' & o' & l & He' & Hl). exists e', o', l. split; [by right|done].
      * apply elem_of_cons in Hke as [[= -> -> ->]|Hke]; [|destruct Hc; by exists e, o].
        rewrite (bool_decide_eq_false_2 _ Hnh) in Hd1. destruct Hd1 as [l ->]. exists entry, origin, l.
        split; [by left|]. rewrite Hout by (by left). by rewrite lookup_insert_eq.
    + intros k Hk'. rewrite Hout.
      * case_bool_decide as Hh; [by subst|]. destruct Hd1 as [l ->].
        rewrite lookup_insert_ne; [done|]. intros ->. destruct Hk' as [Hk'|Hk']; [|done].
        apply Hk'. exists entry, origin. by left.
      * destruct Hk' as [Hk'|Hk']; [left|by right]. intros (e & o & Hke). apply Hk'. exists e, o. by right.
Qed.

(** The blocks a round writes: what the map holds, with a published origin,
    that the cache does not have, unless the row is the hub's. *)
Definition selected (c : SyncState) (m : Rows) (key : IpKey.t) (entry : BlockEntry.t) (origin : BlockOrigin) : Prop :=
  lru_get (BLACKLIST (ebpf c)) key = Some entry /\
  block_reason_to_origin (BlockEntry.block_reason entry) = Some origin /\
  cache c !! key <> Some (cached_of entry) /\
  (BlacklistRow.origin <$> m !! key) <> Some Hub.

Definition pruned (due : bool) (now_ns : Z) (m : Rows) : Rows :=
  if due then filter (fun kr => in_force now_ns (snd kr) = true) m else m.

Lemma prune_due_holds now_ns c (m : Rows) : holds c m ->
  exists c', prune_due now_ns c = (Some tt, c') /\ ebpf c' = ebpf c /\
    holds c' (pruned (saturating_sub now_ns (last_prune_ns c) >=? MINUTE_NS) now_ns m).
Proof.
  intros Hm. unfold prune_due, pruned. destruct (_ >=? _); [|by exists c].
  unfold prune_expired_blacklist. eexists. split; [reflexivity|]. split; [done|]. cbn.
  by apply repr_prune.
Qed.

(** The saves of one scan. *)
Lemma save_scan c (m : Rows) changed : holds c m ->
  changed = changed_of (cache c) (snapshot (ebpf c)) ->
  (forall key entry, lru_get (BLACKLIST (ebpf c)) key = Some entry -> key_ok key) ->
  exists c' m',
    (if bool_decide (changed = []) then ok tt
     else let! store_origins := of_option (load_blacklist_origins (map (fun x => fst (fst x)) changed) (store c)) in
          for_each (save_changed store_origins) changed) c = (Some tt, c') /\
    holds c' m' /\ BLACKLIST (ebpf c') = BLACKLIST (ebpf c) /\ last_prune_ns c' = last_prune_ns c /\
    (forall key entry origin, selected c m key entry origin ->
       exists stamp, m' !! key = Some (row_of entry origin stamp)) /\
    (forall key, (forall entry origin, ~ selected c m key entry origin) -> m' !! key = m !! key).
Proof.
  intros Hm -> Hks. set (changed := changed_of _ _).
  assert (Hin : forall key entry origin, (key, entry, origin) ∈ changed <->
    lru_get (BLACKLIST (ebpf c)) key = Some entry /\
    block_reason_to_origin (BlockEntry.block_reason entry) = Some origin /\ cache c !! key <> Some (cached_of entry)).
  { intros. unfold changed. by rewrite elem_of_changed, elem_of_snapshot. }
  case_bool_decide as He.
  { exists c, m. do 4 (split; [done|]). split; [|done]. intros key entry origin (Hg & Hr & Hc & _).
    assert (Hno : (key, entry, origin) ∈ changed) by by apply Hin. rewrite He in Hno. by apply not_elem_of_nil in Hno. }
  assert (Hok : forall key entry origin, (key, entry, origin) ∈ changed -> key_ok key /\ origin <> Hub).
  { intros key entry origin (Hg & Hr & _)%Hin. split; [by eapply Hks|]. intros ->. by apply reason_not_hub in Hr. }
  destruct (origins_repr (store c) m (map (fun x => fst (fst x)) changed)) as (origins & Eo & Ho); [done| |].
  { apply list.Forall_forall. intros key (e & o & Hke)%in_changes_keys. by apply (Hok key e o). }
  assert (Horig : forall key, in_changes key changed -> origins !! key = (BlacklistRow.origin <$> m !! key)).
  { intros key Hk%in_changes_keys. rewrite Ho. by rewrite decide_True. }
  destruct (save_all origins changed c m Hm Hok) as (c' & m' & E & Hm' & Hb & Hp & Hsaved & Hframe).
  exists c', m'. rewrite Eo. split; [exact E|]. do 3 (split; [done|]). split.
  - intros key entry origin (Hg & Hr & Hc & Hh).
    assert (Hk : in_changes key changed) by (exists entry, origin; by apply Hin).
    destruct (Hsaved key Hk) as (e & o & stamp & (Hg' & Hr' & _)%Hin & Hl); [by rewrite Horig|].
    exists stamp. rewrite Hl. rewrite Hg in Hg'. injection Hg' as <-. rewrite Hr in Hr'.
    injection Hr' as <-. done.
  - intros key Hno. apply Hframe. destruct (decide (in_changes key changed)) as [Hk|Hk]; [|by left].
    right. rewrite Horig by done. destruct Hk as (e & o & (Hg & Hr & Hc)%Hin).
    destruct (decide (BlacklistRow.origin <$> m !! key = Some Hub)) as [|Hh]; [done|].
    by destruct (Hno e o).
Qed.

(** C10: a round of the black list sync that scans the map succeeds and leaves
    in the store exactly the rows it had, overwritten by the blocks of the
    map that have a published origin and are not already known, except where
    the row is the hub's, which stays the hub's; once a minute the rows that
    have run out are removed. *)
Theorem sync_persists c (m : Rows) :
  repr (RuleStore.BLACKLIST (store c)) m ->
  (forall key entry, lru_get (BLACKLIST (ebpf c)) key = Some entry -> key_ok key) ->
  let now_ns := ktime_get_ns (ktime_calls (ebpf c)) in
  need_scan now_ns c = true ->
  exists c' m',
    sync_once c = (Some tt, c') /\ BLACKLIST (ebpf c') = BLACKLIST (ebpf c) /\
    repr (RuleStore.BLACKLIST (store c')) (pruned (saturating_sub now_ns (last_prune_ns c) >=? MINUTE_NS) now_ns m') /\
    (forall key entry origin, selected c m key entry origin ->
       exists stamp, m' !! key = Some (row_of entry origin stamp)) /\
    (forall key, (forall entry origin, ~ selected c m key entry origin) -> m' !! key = m !! key).
Proof.
  intros Hm Hks now_ns Hscan. set (c0 := c <| ebpf ::= fun s => s <| ktime_calls ::= S |> |>).
  assert (En : now c = (Some now_ns, c0)) by reflexivity.
  destruct (save_scan c0 m _ Hm eq_refl Hks) as (c1 & m1 & E1 & Hm1 & Hb1 & Hp1 & Hsel & Hfr).
  unfold sync_once. rewrite (try_bind_ok _ _ _ _ _ En), try_gets.
  change (need_scan now_ns c0) with (need_scan now_ns c). rewrite Hscan.
  rewrite (try_bind_ok _ _ _ _ _ E1), try_modify.
  match goal with |- context [prune_due now_ns ?c2] => set (c2' := c2) end.
  assert (H2 : ebpf c2' = ebpf c1 /\ store c2' = store c1 /\ last_prune_ns c2' = last_prune_ns c)
    by (unfold c2'; destruct (read_blacklist_gens _) as [[??]|]; split_and!; done).
  destruct H2 as (He2 & Hs2 & Hp2).
  destruct (prune_due_holds now_ns c2' m1) as (c' & E' & Heb & Hm'); [by rewrite Hs2|].
  exists c', m1. rewrite Hp2 in Hm'. split; [exact E'|]. split; [by rewrite Heb, He2, Hb1|]. split; [exact Hm'|].
  split; [exact Hsel|exact Hfr].
Qed.
End Properties.

Module BlacklistSyncWitness.
Import Samples ControlSample.ControlSample.

(** Bob is blocked by the packet program while the store has a hub row for
    alice, who is blocked as well. *)
Definition rows : gmap IpKey.t BlacklistRow.t := {[ alice := BlacklistRow.mk 0 6 5 Hub 5 ]}.
Definition blocks : @KState Samples.kernel :=
  snd (add_to_blacklist alice 0 0 rules.RATE_LIMIT (snd (add_to_blacklist bob 0 0 rules.SYN_FLOOD machine))).
Definition start : SyncState :=
  sync_new blocks (default RuleStore_empty (save_blacklist 5 alice 0 6 5 Hub RuleStore_empty)).

Lemma sync_persists_witness :
  need_scan (@ktime_get_ns Samples.kernel (ktime_calls (ebpf start))) start = true /\
  exists c' (m' : gmap IpKey.t BlacklistRow.t), sync_once start = (Some tt, c') /\
    (BlacklistRow.origin <$> m' !! bob) = Some Local /\ m' !! alice = rows !! alice.
Proof.
  assert (Hr : repr (RuleStore.BLACKLIST (store start)) rows).
  { assert (Ha : key_ok alice) by done.
    destruct (impl_refines (Save 5 alice 0 6 5 Hub) RuleStore_empty ∅ repr_empty Ha) as (s1 & E1 & H1 & _).
    cbn [impl_op spec_op] in *. unfold start. cbn [store sync_new]. rewrite E1. exact H1. }
  assert (Hs : need_scan (@ktime_get_ns Samples.kernel (ktime_calls (ebpf start))) start = true) by (vm_compute; reflexivity).
  destruct (sync_persists start rows Hr) as (c' & m' & E & _ & _ & Hsel & Hfr); [|exact Hs|].
  - intros key entry Hg. assert (Hin : key ∈ lru_keys (BLACKLIST (ebpf start)))
      by (apply lru_keys_spec; by eexists). vm_compute in Hin.
    repeat (apply elem_of_cons in Hin as [->|Hin]; [by split|]). by apply not_elem_of_nil in Hin.
  - split; [exact Hs|]. exists c', m'. split; [exact E|]. split.
    + destruct (Hsel bob (default (BlockEntry.mk 0 0 0 0 0) (lru_get (BLACKLIST blocks) bob)) Local) as (stamp & ->); [|done].
      split_and!; vm_compute; congruence.
    + apply Hfr. intros entry origin (_ & _ & _ & H). apply H. vm_compute. reflexivity.
Defined.
End BlacklistSyncWitness.
