(* ===== verification/HubClient.v ===== *)
(** * HubClient: the node's side of the hub protocol

    [eshield/src/hub_client.rs].  The HTTP library is not part of the
    repository: [http] answers a request or not, and may answer differently
    each time ([None] is an unreachable hub).  The requests sent are kept in
    order, so that the answers can depend on them.  Each of the loops of [run]
    works on its own copy of the client; one round of a loop is modelled. *)
From Stdlib Require Import Ascii.
From stdpp Require Import strings gmap.
From S2P Require Import Prelude Words Common RustStd Config TimeSeries Redb RuleStore RuleStoreProps Maps Blacklist AgentMaps Geoip AuditLog AgentControl AgentControlProps ControlSample.
#[local] Open Scope Z_scope.

(** [str::trim_end_matches] with a character. *)
Fixpoint trim_end_matches (x : ascii) (s : string) : string :=
  match s with
  | EmptyString => EmptyString
  | String c s =>
      match trim_end_matches x s with
      | EmptyString => if Ascii.eqb c x then EmptyString else String c EmptyString
      | s => String c s
      end
  end.

(** ** The messages *)
Module PolicyPush.
Record t := mk { node_name : string; policies : list NodePolicy.t }.
End PolicyPush.
Module PolicyPull.
Record t := mk {
  policies : list SharedPolicy.t;
  cursor : string;
  deleted : list IpKey.t;
  deleted_cursor : string;
}.
End PolicyPull.
Module DeletedPolicies.
Record t := mk { ips : list IpKey.t; cursor : string }.
End DeletedPolicies.
Module RulesResponse.
Record t := mk { rules : option RuleBundle.t }.
End RulesResponse.

(** The fields of the JSON object [stats_snapshot_json] returns. *)
Module StatsJson.
Record t := mk {
  interface : string;
  rate_limit_enabled : bool;
  adaptive_enabled : bool;
  trust_enabled : bool;
  danger_level : Z;
}.
End StatsJson.
Module NodeHeartbeat.
Record t := mk { node_name : string; stats : option StatsJson.t }.
End NodeHeartbeat.

Inductive Body :=
  | Policies (push : PolicyPush.t)
  | Heartbeat (beat : NodeHeartbeat.t).

Module Request.
Inductive t :=
  | Get (url auth : string)
  | Post (url auth : string) (body : Body).
End Request.
Module Response.
Record t := mk { success : bool; text : string }.
End Response.

Class Http := {
  http : nat -> Request.t -> option Response.t;
  json_pull : string -> option PolicyPull.t;
  json_deleted : string -> option DeletedPolicies.t;
  json_rules : string -> option RulesResponse.t;
}.

Record HubClient := mkClient {
  config : HubConfig.t;
  last_push_ns : Z;
  last_pull_ns : Z;
  last_deleted_ns : Z;
  last_rules_ns : Z;
  current_url_idx : nat;
  connected : bool;
}.
#[export] Instance eta_HubClient : Eta HubClient := fun r =>
  mkClient (config r) (last_push_ns r) (last_pull_ns r) (last_deleted_ns r) (last_rules_ns r)
    (current_url_idx r) (connected r).

(** [HubClient::new], when the HTTP client can be built. *)
Definition client_new (cfg : HubConfig.t) : HubClient := mkClient cfg 0 0 0 0 0 false.

Definition clone_ref (c : HubClient) : HubClient :=
  mkClient (config c) (last_push_ns c) (last_pull_ns c) (last_deleted_ns c) (last_rules_ns c)
    (current_url_idx c) (connected c).

Definition auth_header (c : HubClient) : string := "Bearer " +:+ HubConfig.token (config c).

Definition active_hub_url (c : HubClient) : string :=
  let urls := HubConfig.urls (config c) in
  trim_end_matches "/"%char
    (match urls !! current_url_idx c with
     | Some url => url
     | None => match urls with url :: _ => url | [] => "http://localhost:9930" end
     end).

Definition rotate_hub_url (c : HubClient) : HubClient :=
  c <| current_url_idx := ((current_url_idx c + 1) mod length (HubConfig.urls (config c)))%nat |>.

Section HubClient.
Context {KN : Kernel} {MO : MapOps} {HO : HashOrder} {R : Redb} {J : RuleJson} {CL : CsvLib} {EN : AgentEnv} {HT : Http}.

Record Node := mkNode { client : HubClient; control : ControlState; sent : list Request.t }.
#[global] Instance eta_Node : Eta Node := fun r => mkNode (client r) (control r) (sent r).

Abbreviation Hub := (Try Node).

Definition on_control {A} (m : Try ControlState A) : Hub A := fun c =>
  let '(r, s) := m (control c) in (r, c <| control := s |>).
Definition on_client (f : HubClient -> HubClient) : Hub unit := run (modify (fun c => c <| client ::= f |>)).

Definition mark_connected (url : string) : Hub unit := run (modify (fun c =>
  c <| client ::= fun h => h <| connected := true |> |>
    <| control ::= fun s => s <| hub_connected := true |> <| hub_active_url := url |> |>)).
Definition mark_disconnected : Hub unit := run (modify (fun c =>
  c <| client ::= fun h => h <| connected := false |> |>
    <| control ::= fun s => s <| hub_connected := false |> |>)).

Definition send (q : Request.t) : State Node (option Response.t) := fun c =>
  (http (length (sent c)) q, c <| sent := sent c ++ [q] |>).

(** The attempts that are left; [request] builds the request for a URL. *)
Fixpoint attempts (n : nat) (request : HubClient -> string -> Request.t) (path : string)
    : Hub (string * Response.t) :=
  match n with
  | O => let! _ := mark_disconnected in of_option None
  | S n =>
      let! c := run (gets client) in
      let url := active_hub_url c +:+ path in
      let! r := run (send (request c url)) in
      match r with
      | Some resp => let! _ := mark_connected url in ok (url, resp)
      | None => let! _ := on_client rotate_hub_url in attempts n request path
      end
  end.

Definition with_failover (request : HubClient -> string -> Request.t) (path : string)
    : Hub (string * Response.t) :=
  let! c := run (gets client) in
  attempts (length (HubConfig.urls (config c))) request path.

Definition get_with_failover : string -> Hub (string * Response.t) :=
  with_failover (fun c url => Request.Get url (auth_header c)).
Definition post_with_failover (path : string) (body : Body) : Hub (string * Response.t) :=
  with_failover (fun c url => Request.Post url (auth_header c) body) path.

Definition push_once : Hub unit :=
  let! c := run (gets client) in
  let cfg := config c in
  let! policies := on_control (collect_hub_publishable_policies (last_push_ns c)
    (HubConfig.push_min_hit_count cfg) (HubConfig.push_min_trust cfg) (HubConfig.push_max_batch_size cfg)) in
  if bool_decide (policies = []) then ok tt
  else
    let! r := post_with_failover "/api/v1/policies"
      (Policies (PolicyPush.mk (HubConfig.node_name cfg) policies)) in
    let! _ := ensure (Response.success (snd r)) in
    let! now_ns := on_control now in
    on_client (fun h => h <| last_push_ns := now_ns |>).

Definition since_path (path : string) (since_ns : Z) : string :=
  path +:+ "?since=" +:+ print_u64 since_ns +:+ "&limit=100".

Definition pull_deleted_once : Hub unit :=
  let! c := run (gets client) in
  let! r := get_with_failover (since_path "/api/v1/policies/deleted" (last_deleted_ns c)) in
  let! _ := ensure (Response.success (snd r)) in
  let! deleted := of_option (json_deleted (Response.text (snd r))) in
  let! _ := on_control (unblock_hub_policies (DeletedPolicies.ips deleted)) in
  match parse_uint 64 (DeletedPolicies.cursor deleted) with
  | Some cursor => on_client (fun h => h <| last_deleted_ns := cursor |>)
  | None => ok tt
  end.

(** The policies first, then the deletions, whose failure is only logged. *)
Definition pull_once : Hub unit :=
  let! c := run (gets client) in
  let! r := get_with_failover (since_path "/api/v1/policies" (last_pull_ns c)) in
  let! _ := ensure (Response.success (snd r)) in
  let! pull := of_option (json_pull (Response.text (snd r))) in
  let! _ := on_control (apply_hub_policies (PolicyPull.policies pull)) in
  let! _ := (match parse_uint 64 (PolicyPull.cursor pull) with
             | Some cursor => on_client (fun h => h <| last_pull_ns := cursor |>)
             | None => ok tt
             end) in
  ignore pull_deleted_once.

Definition sync_rules_once : Hub unit :=
  let! r := get_with_failover "/api/v1/rules" in
  let! _ := ensure (Response.success (snd r)) in
  let! body := of_option (json_rules (Response.text (snd r))) in
  match RulesResponse.rules body with
  | None => ok tt
  | Some bundle =>
      let! c := run (gets client) in
      if RuleBundle.updated_at_ns bundle <=? last_rules_ns c then ok tt
      else
        let! _ := on_control (apply_hub_rules bundle) in
        on_client (fun h => h <| last_rules_ns := RuleBundle.updated_at_ns bundle |>)
  end.

(** [control.rs]: the summary a heartbeat carries. *)
Definition stats_snapshot_json (s : ControlState) : StatsJson.t :=
  let rt := runtime s in
  StatsJson.mk (RuntimeConfigSnapshot.interface rt) (RuntimeConfigSnapshot.rate_limit_enabled rt)
    (AdaptiveConfig.enabled (RuntimeConfigSnapshot.adaptive rt)) (RuntimeConfigSnapshot.trust_enabled rt)
    (RuntimeConfigSnapshot.danger_level rt).

Definition heartbeat_once : Hub unit :=
  let! c := run (gets (fun c => c)) in
  let body := NodeHeartbeat.mk (HubConfig.node_name (config (client c))) (Some (stats_snapshot_json (control c))) in
  let! r := post_with_failover "/api/v1/nodes/heartbeat" (Heartbeat body) in
  ensure (Response.success (snd r)).
End HubClient.

(** ** Failover *)
Section Failover.
Context {KN : Kernel} {R : Redb} {HT : Http}.
Implicit Types c : Node.

Definition urls_of (c : Node) : list string := HubConfig.urls (config (client c)).

(** The request for URL number [i]. *)
Definition request_to (request : HubClient -> string -> Request.t) (path : string) (c : Node) (i : nat)
    : Request.t :=
  let h := client c <| current_url_idx := i |> in request h (active_hub_url h +:+ path).

(** [k] URLs have been tried in vain, from number [i] on. *)
Definition tried (request : HubClient -> string -> Request.t) (path : string) (c : Node) (k : nat) : list Request.t :=
  map (fun j => request_to request path c ((current_url_idx (client c) + j) mod length (urls_of c))%nat) (seq 0 k).

Definition in_vain (c : Node) (qs : list Request.t) : Prop :=
  forall j q, qs !! j = Some q -> http (length (sent c) + j) q = None.

Lemma send_eq c q : run (send q) c = (Some (http (length (sent c)) q), c <| sent := sent c ++ [q] |>).
Proof. reflexivity. Qed.

(** The client after [k] failures. *)
Definition after (request : HubClient -> string -> Request.t) (path : string) (c : Node) (k : nat) : Node :=
  mkNode (client c <| current_url_idx := ((current_url_idx (client c) + k) mod length (urls_of c))%nat |>)
    (control c) (sent c ++ tried request path c k).

Lemma after_0 request path c : (current_url_idx (client c) < length (urls_of c))%nat ->
  after request path c 0 = c.
Proof.
  intros Hi. unfold after, tried. cbn [seq map]. rewrite Nat.add_0_r, Nat.mod_small, app_nil_r by done.
  destruct c as [[] ? ?]. reflexivity.
Qed.

Lemma request_after request path c k :
  request (client (after request path c k)) (active_hub_url (client (after request path c k)) +:+ path) =
  request_to request path c ((current_url_idx (client c) + k) mod length (urls_of c))%nat.
Proof. reflexivity. Qed.

Lemma after_step request path c k :
  (current_url_idx (client c) < length (urls_of c))%nat ->
  let q := request_to request path c ((current_url_idx (client c) + k) mod length (urls_of c))%nat in
  on_client rotate_hub_url (after request path c k <| sent := sent (after request path c k) ++ [q] |>) =
  (Some tt, after request path c (S k)).
Proof.
  intros Hi q. unfold after, tried. rewrite (seq_S k 0), map_app, app_assoc.
  fold (tried request path c k). fold q.
  replace (current_url_idx (client c) + S k)%nat with (current_url_idx (client c) + k + 1)%nat by lia.
  rewrite <- (Nat.Div0.add_mod_idemp_l (current_url_idx (client c) + k) 1). reflexivity.
Qed.

Lemma tried_length request path c k : length (tried request path c k) = k.
Proof. unfold tried. by rewrite length_map, length_seq. Qed.

Lemma in_vain_step request path c k : in_vain c (tried request path c k) ->
  http (length (sent c) + k) (request_to request path c ((current_url_idx (client c) + k) mod length (urls_of c))%nat) = None ->
  in_vain c (tried request path c (S k)).
Proof.
  intros Hv Hn j q. unfold tried. rewrite seq_S, map_app, lookup_app.
  fold (tried request path c k). destruct (tried request path c k !! j) eqn:E; [intros [= <-]; by apply Hv|].
  rewrite tried_length. apply lookup_ge_None in E. rewrite tried_length in E. intros Hl.
  apply list_lookup_singleton_Some in Hl as [H0 <-]. replace j with k by lia. exact Hn.
Qed.

(** The loop, from the state after [k] failures, with [n] attempts left. *)
Lemma attempts_spec request path c n : forall k,
  (current_url_idx (client c) < length (urls_of c))%nat -> in_vain c (tried request path c k) ->
  exists k' r c', attempts n request path (after request path c k) = (r, c') /\ (k' <= k + n)%nat /\
    in_vain c (tried request path c k') /\
    match r with
    | None => k' = (k + n)%nat /\ client c' = client (after request path c k') <| connected := false |> /\
        sent c' = sent c ++ tried request path c k' /\ hub_connected (control c') = false
    | Some (url, resp) => (k' < k + n)%nat /\ url = active_hub_url (client c') +:+ path /\
        client c' = client (after request path c k') <| connected := true |> /\
        sent c' = sent c ++ tried request path c k' ++
          [request_to request path c ((current_url_idx (client c) + k') mod length (urls_of c))%nat] /\
        http (length (sent c) + k')
          (request_to request path c ((current_url_idx (client c) + k') mod length (urls_of c))%nat) = Some resp /\
        hub_connected (control c') = true /\ hub_active_url (control c') = url
    end.
Proof.
  induction n as [|n IH]; intros k Hi Hv; cbn [attempts].
  - exists k, None. eexists. split; [reflexivity|]. cbn. split; [lia|]. split; [done|]. split_and!; [lia|done..].
  - rewrite try_gets. cbv zeta. rewrite request_after.
    set (q := request_to request path c _). unfold try_bind at 1. rewrite send_eq.
    replace (length (sent (after request path c k))) with (length (sent c) + k)%nat
      by (cbn [after sent]; rewrite length_app, tried_length; lia).
    destruct (http _ q) as [resp|] eqn:E.
    + exists k. eexists (Some (_, resp)), _. split; [reflexivity|]. split; [lia|]. split; [done|].
      split; [lia|]. split; [done|]. split; [done|]. split; [cbn; by rewrite <- app_assoc|]. by split_and!.
    + rewrite (try_bind_ok _ _ _ _ _ (after_step request path c k Hi)).
      destruct (IH (S k) Hi) as (k' & r & c' & E' & Hk & Hv' & Hr); [by apply in_vain_step|].
      exists k', r, c'. rewrite E'. split; [done|]. split; [lia|]. split; [done|].
      destruct r as [[url resp]|].
      * destruct Hr as (? & Hr). split; [lia|exact Hr].
      * destruct Hr as (? & Hr). split; [lia|exact Hr].
Qed.

Lemma request_to_nth path c i u : urls_of c !! i = Some u ->
  request_to (fun h url => Request.Get url (auth_header h)) path c i =
  Request.Get (trim_end_matches "/"%char u +:+ path) (auth_header (client c)).
Proof.
  intros Hu. unfold request_to, active_hub_url. cbn. unfold urls_of in Hu. by rewrite Hu.
Qed.

(** Every URL comes up within one turn. *)
Lemma turn_covers i n j : (i < n)%nat -> (j < n)%nat -> exists k, (k < n)%nat /\ ((i + k) mod n = j)%nat.
Proof.
  intros Hi Hj. destruct (decide (i <= j)%nat).
  - exists (j - i)%nat. split; [lia|]. replace (i + (j - i))%nat with j by lia. by apply Nat.mod_small.
  - exists (n - i + j)%nat. split; [lia|]. replace (i + (n - i + j))%nat with (j + 1 * n)%nat by lia.
    rewrite Nat.Div0.mod_add. by apply Nat.mod_small.
Qed.

(** C12: failover terminates and finds a hub when there is one.  A request is
    sent to at most as many URLs as are configured; if one of them can be
    reached, however the others behave, it succeeds, and the client stays on
    the URL that answered; if it fails the node is marked disconnected and the
    next request starts where this one did.  The URL index stays in range. *)
Theorem failover_reaches path c :
  (current_url_idx (client c) < length (urls_of c))%nat ->
  let '(r, c') := get_with_failover path c in
  (length (sent c') <= length (sent c) + length (urls_of c))%nat /\
  (current_url_idx (client c') < length (urls_of c))%nat /\
  (Exists (fun u => forall n, http n (Request.Get (trim_end_matches "/"%char u +:+ path) (auth_header (client c))) <> None)
     (urls_of c) -> is_Some r) /\
  hub_connected (control c') = bool_decide (is_Some r) /\
  match r with
  | Some (url, _) => url = active_hub_url (client c') +:+ path /\ hub_active_url (control c') = url
  | None => current_url_idx (client c') = current_url_idx (client c)
  end.
Proof.
  intros Hi. set (req := fun h url => Request.Get url (auth_header h)).
  unfold get_with_failover, with_failover. rewrite try_gets.
  destruct (attempts_spec req path c (length (urls_of c)) 0 Hi) as (k & r & c' & E & Hk & Hv & Hr);
    [by intros j q ?|].
  rewrite after_0 in E by done. fold (urls_of c). fold req. rewrite E. clear E.
  destruct r as [[url resp]|].
  - destruct Hr as (Hk' & -> & Hc & Hs & _ & Hon & Hu). rewrite Hs, Hc, Hon, !length_app, tried_length. cbn -[Nat.modulo].
    split; [lia|]. split; [apply Nat.mod_upper_bound; lia|]. split; [by eexists|].
    rewrite Hc in Hu. done.
  - destruct Hr as (-> & Hc & Hs & Hoff). rewrite Hs, Hc, Hoff, !length_app, tried_length. cbn -[Nat.modulo].
    split; [lia|]. split; [apply Nat.mod_upper_bound; lia|].
    split; [|split; [done|]].
    + intros (u & Hu & Hup)%list.Exists_exists. apply list_elem_of_lookup_1 in Hu as [j Hj].
      destruct (turn_covers (current_url_idx (client c)) (length (urls_of c)) j Hi) as (i & Hin & Hij);
        [by eapply lookup_lt_Some|].
      destruct (Hup (length (sent c) + i)%nat). apply Hv. unfold tried. rewrite Nat.add_0_l.
      rewrite list_lookup_fmap, lookup_seq_lt by done. cbn -[Nat.modulo]. rewrite Hij. f_equal.
      unfold req. by apply request_to_nth.
    + replace (_ + _)%nat with (current_url_idx (client c) + 1 * length (urls_of c))%nat by lia.
      rewrite Nat.Div0.mod_add. by apply Nat.mod_small.
Qed.
End Failover.

(** ** What a round keeps *)
Section Rounds.
Context {KN : Kernel} {KL : KernelLaws} {MO : MapOps} {HO : HashOrder} {R : Redb} {RL : RedbLaws R} {J : RuleJson}
  {JL : RuleJsonLaws J} {CL : CsvLib} {EN : AgentEnv} {HT : Http}.
Implicit Types c : Node.

Lemma keeps_on_control {A} (P : ControlState -> Prop) (m : Try ControlState A) :
  keeps P m -> keeps (fun c => P (control c)) (on_control m).
Proof. intros Hm c Hc. unfold on_control. specialize (Hm _ Hc). by destruct (m (control c)). Qed.

(** The failover loop only touches the connection state and the requests. *)
Lemma keeps_attempts (P : Node -> Prop) n request path :
  (forall c h s, P c -> config h = config (client c) -> last_push_ns h = last_push_ns (client c) ->
     last_rules_ns h = last_rules_ns (client c) -> ebpf s = ebpf (control c) -> store s = store (control c) ->
     runtime s = runtime (control c) -> P (mkNode h s (sent c))) ->
  (forall c h url, P c -> P (mkNode (client c) (control c) (sent c ++ [request h url]))) ->
  keeps P (attempts n request path).
Proof.
  intros Hk Hs. induction n as [|n IH]; cbn [attempts].
  - apply keeps_bind; [|intros; apply keeps_of_option]. apply keeps_modify. intros c Hc. by apply (Hk c).
  - apply keeps_bind; [apply keeps_gets|]. intros h. apply keeps_bind; [intros c Hc; by apply Hs|].
    intros [resp|]; (apply keeps_bind; [|intros _]); try apply keeps_ok; try done;
      apply keeps_modify; intros c Hc; by apply (Hk c).
Qed.

Lemma keeps_failover (P : Node -> Prop) request path :
  (forall c h s, P c -> config h = config (client c) -> last_push_ns h = last_push_ns (client c) ->
     last_rules_ns h = last_rules_ns (client c) -> ebpf s = ebpf (control c) -> store s = store (control c) ->
     runtime s = runtime (control c) -> P (mkNode h s (sent c))) ->
  (forall c h url, P c -> P (mkNode (client c) (control c) (sent c ++ [request h url]))) ->
  keeps P (with_failover request path).
Proof. intros Hk Hs. apply keeps_bind; [apply keeps_gets|]. intros h. by apply keeps_attempts. Qed.

(** rules from the hub are never applied twice or out of order.  A round
    of the rule synchronisation either leaves the rules and the time stamp as
    they were, or has applied a bundle that is newer than the last one in full
    and recorded its time stamp; when it fails the time stamp stays, so that
    the next round tries the bundle again. *)
Theorem rules_fresh c :
  let '(r, c') := sync_rules_once c in
  match r with
  | None => last_rules_ns (client c') = last_rules_ns (client c)
  | Some _ =>
      (last_rules_ns (client c') = last_rules_ns (client c) /\ ebpf (control c') = ebpf (control c)) \/
      exists bundle s, last_rules_ns (client c) < RuleBundle.updated_at_ns bundle /\
        last_rules_ns (client c') = RuleBundle.updated_at_ns bundle /\
        ebpf s = ebpf (control c) /\ apply_hub_rules bundle s = (Some tt, control c')
  end.
Proof.
  unfold sync_rules_once.
  assert (Hf : keeps (fun c1 => last_rules_ns (client c1) = last_rules_ns (client c) /\
      ebpf (control c1) = ebpf (control c)) (get_with_failover "/api/v1/rules")).
  { apply keeps_failover; [|done]. intros c1 h s [H1 H2] _ _ E1 E2 _ _. cbn. by rewrite E1, E2. }
  specialize (Hf c ltac:(done)). unfold try_bind at 1.
  destruct (get_with_failover "/api/v1/rules" c) as [[[url resp]|] c1]; cbn [fst snd] in Hf; destruct Hf as [Hr He]; [|done].
  unfold try_bind at 1, ensure. cbn [fst snd]. destruct (Response.success resp); [|done].
  unfold try_bind at 1, of_option. destruct (json_rules (Response.text resp)) as [body|]; [|done].
  destruct (RulesResponse.rules body) as [bundle|]; [|by left]. rewrite try_gets.
  destruct (Z.leb_spec (RuleBundle.updated_at_ns bundle) (last_rules_ns (client c1))) as [Hle|Hlt]; [by left|].
  unfold try_bind at 1, on_control. destruct (apply_hub_rules bundle (control c1)) as [[[]|] s'] eqn:E; [|done].
  right. exists bundle, (control c1). split; [by rewrite <- Hr|]. by split_and!.
Qed.

(** *** Pushes *)
Lemma select_limit s now_ns min_hits min_trust limit hits : forall out,
  Z.of_nat (length out) < Z.max 1 limit ->
  Z.of_nat (length (select_policies s now_ns min_hits min_trust limit hits out)) <= Z.max 1 limit.
Proof.
  induction hits as [|[[key r] h] hits IH]; intros out Ho; cbn [select_policies]; [lia|].
  destruct (_ && _); [by apply IH|]. cbv zeta. destruct (_ >? min_trust); [by apply IH|].
  destruct (Z.geb_spec (Z.of_nat (length (out ++ [NodePolicy.mk key (BlacklistRow.block_reason r) h
    (lookup_trust_score key s) (BlacklistRow.blocked_until_ns r)
    (remaining_s (BlacklistRow.blocked_until_ns r) now_ns)]))) limit) as [Hge|Hlt];
    rewrite length_app in *; cbn [length] in *; [lia|].
  apply IH. rewrite length_app. cbn [length]. lia.
Qed.

Lemma collect_small since min_hits min_trust limit s policies s' :
  collect_hub_publishable_policies since min_hits min_trust limit s = (Some policies, s') ->
  Z.of_nat (length policies) <= Z.max 1 limit /\ store s' = store s.
Proof.
  unfold collect_hub_publishable_policies. rewrite try_gets. destruct (store s) as [st|] eqn:Est; [|intros [= <- <-]; split; [cbn; lia|done]].
  unfold try_bind at 1, of_option. destruct (load_blacklist_since since st) as [rows|]; [|done].
  case_bool_decide; [intros [= <- <-]; split; [cbn; lia|done]|]. rewrite try_gets.
  unfold try_bind, now, on_ebpf, run, gets, monotonic_ns, get_ktime_ns. cbv zeta. intros [= <- <-].
  split; [|done]. apply select_limit. cbn. lia.
Qed.

Lemma collect_none since min_hits min_trust limit s st m :
  store s = Some st -> repr (RuleStore.BLACKLIST st) m ->
  (forall key r, m !! key = Some r -> BlacklistRow.last_updated_ns r <= since) ->
  collect_hub_publishable_policies since min_hits min_trust limit s = (Some [], s).
Proof.
  intros Hst Hm Hold. unfold collect_hub_publishable_policies. rewrite try_gets, Hst.
  destruct (load_repr st m Hm) as (rows & Hl & Hrows).
  assert (E : load_blacklist_since since st = Some []).
  { unfold load_blacklist_since. unfold load_blacklist in Hl. rewrite Hl. cbn [mbind option_bind]. f_equal.
    destruct (filter _ rows) as [|[key r] l] eqn:Ef; [done|].
    assert (Hin : (key, r) ∈ (key, r) :: l) by by left. rewrite <- Ef in Hin.
    apply list_elem_of_filter in Hin as [Hlt Hin%Hrows%Hold]. cbn in Hlt. lia. }
  rewrite E, try_some. by rewrite bool_decide_eq_true_2.
Qed.

(** what does not fit into a push is lost.  A push sends at most
    [push_max_batch_size] policies (one, if that is zero) and then moves the
    time stamp to the present; when no row of the store is newer than that, a
    push made right after it sends nothing, however many policies the first
    one left out. *)
Theorem push_drops_excess c c' st m :
  store (control c) = Some st -> repr (RuleStore.BLACKLIST st) m ->
  push_once c = (Some tt, c') ->
  (forall key r, m !! key = Some r -> BlacklistRow.last_updated_ns r <= last_push_ns (client c')) ->
  (forall url auth push, Request.Post url auth (Policies push) ∈ sent c' ->
     Request.Post url auth (Policies push) ∈ sent c \/
     Z.of_nat (length (PolicyPush.policies push)) <= Z.max 1 (HubConfig.push_max_batch_size (config (client c)))) /\
  push_once c' = (Some tt, c').
Proof.
  intros Hst Hm Hp Hold.
  set (small := fun c1 : Node => forall url auth push, Request.Post url auth (Policies push) ∈ sent c1 ->
     Request.Post url auth (Policies push) ∈ sent c \/
     Z.of_nat (length (PolicyPush.policies push)) <= Z.max 1 (HubConfig.push_max_batch_size (config (client c)))).
  assert (H : small c' /\ store (control c') = Some st).
  { unfold push_once in Hp. rewrite try_gets in Hp.
    apply try_bind_inv in Hp as (policies & c1 & E & Hp). unfold on_control in E.
    destruct (collect_hub_publishable_policies _ _ _ _ (control c)) as [r s1] eqn:Ec. injection E as -> <-.
    destruct (collect_small _ _ _ _ _ _ _ Ec) as [Hl Hs1]. case_bool_decide as He.
    { injection Hp as <-. split; [by intros ? ? ? ?; left|]. cbn. congruence. }
    apply try_bind_inv in Hp as (r & c2 & E2 & Hp).
    assert (Hk : small c2 /\ store (control c2) = Some st).
    { change c2 with (snd (Some r, c2)). rewrite <- E2. apply (keeps_failover (fun c1 => small c1 /\ store (control c1) = Some st)).
      - intros c3 h s [H3 H4] _ _ _ _ Es. split; [exact H3|]. cbn. congruence.
      - intros c3 h url [H3 H4]. split; [|exact H4]. intros u a b Hin. cbn in Hin.
        apply elem_of_app in Hin as [Hin|Hin]; [by apply (H3 u a)|].
        apply list_elem_of_singleton in Hin as [= _ _ ->]. by right.
      - split; [by intros ? ? ? ?; left|]. cbn. congruence. }
    apply try_bind_inv in Hp as ([] & c3 & E3 & Hp). injection E3 as _ <-.
    apply try_bind_inv in Hp as (t & c4 & E4 & Hp). injection E4 as _ <-. injection Hp as <-. exact Hk. }
  split; [apply H|]. unfold push_once. rewrite try_gets. unfold on_control at 1, try_bind at 1.
  rewrite (collect_none _ _ _ _ (control c') st m); [|apply H|exact Hm|exact Hold].
  rewrite bool_decide_eq_true_2 by done. by destruct c'.
Qed.
End Rounds.

Module HubClientWitness.
Import Samples ControlSample.ControlSample.

(** The first hub is down. *)
#[export] Instance hubs : Http := {|
  http _ q := match q with
              | Request.Get url _ | Request.Post url _ _ =>
                  if String.prefix "http://b" url then Some (Response.mk true url) else None
              end;
  json_pull _ := Some (PolicyPull.mk [SharedPolicy.mk alice 2 5 10 0 0 ["node2"] 60] "9" [] "");
  json_deleted _ := Some (DeletedPolicies.mk [alice] "9");
  json_rules _ := Some (RulesResponse.mk None);
|}.

Definition hub : HubConfig.t :=
  HubConfig.mk true ["http://a/"; "http://b/"] "node1" "t" 30 10 1 30 1 false 60 (HubTlsConfig.mk false None None None true).
Definition fresh : Node := mkNode (client_new hub) agent [].

Lemma failover_reaches_witness :
  let '(r, c') := get_with_failover "/p" fresh in is_Some r /\ (length (sent c') <= 2)%nat.
Proof.
  assert (H := failover_reaches "/p" fresh ltac:(cbn; lia)).
  destruct (get_with_failover "/p" fresh) as [r c']. destruct H as (Hs & _ & Hr & _). split; [|exact Hs].
  apply Hr. apply Exists_cons_tl, Exists_cons_hd. intros n. vm_compute. discriminate.
Defined.

(** Two blocks made by the administrator, and a batch of one. *)
Definition at_5s (origin : BlockOrigin) : BlacklistRow.t := BlacklistRow.mk 0 6 5000000000 origin 5000000000.
Definition rows : gmap IpKey.t BlacklistRow.t := <[bob := at_5s Api]> {[ alice := at_5s Api ]}.
Definition saved : RuleStore := default RuleStore_empty
  (save_blacklist 5000000000 alice 0 6 5000000000 Api RuleStore_empty ≫= save_blacklist 5000000000 bob 0 6 5000000000 Api).
Definition busy : Node :=
  mkNode (client_new hub)
    (snd (block_ip_key bob 0 6 Api (snd (block_ip_key alice 0 6 Api agent))) <| store := Some saved |>) [].

Lemma saved_rows : repr (RuleStore.BLACKLIST saved) rows.
Proof.
  assert (Ha : key_ok alice) by done. assert (Hb : key_ok bob) by done.
  destruct (impl_refines (Save 5000000000 alice 0 6 5000000000 Api) RuleStore_empty ∅ repr_empty Ha) as (s1 & E1 & H1 & _).
  destruct (impl_refines (Save 5000000000 bob 0 6 5000000000 Api) s1 _ H1 Hb) as (s2 & E2 & H2 & _).
  cbn [impl_op spec_op] in *. unfold saved. rewrite E1. cbn [mbind option_bind]. rewrite E2. exact H2.
Qed.

Lemma push_drops_excess_witness :
  let c' := snd (push_once busy) in
  push_once busy = (Some tt, c') /\ last_push_ns (client c') = 5000000000 /\ push_once c' = (Some tt, c').
Proof.
  intros c'.
  assert (Hr := saved_rows).
  assert (Hf : fst (push_once busy) = Some tt) by (vm_compute; reflexivity).
  assert (Hp := run_ok push_once busy tt Hf). fold c' in Hp. clear Hf.
  assert (Ht : last_push_ns (client c') = 5000000000) by (vm_compute; reflexivity).
  split; [exact Hp|]. split; [exact Ht|].
  destruct (push_drops_excess busy c' saved rows) as [_ H]; [reflexivity|exact Hr|exact Hp| |exact H].
  intros key r Hm. rewrite Ht. unfold rows in Hm. apply lookup_insert_Some in Hm as [[_ <-]|[_ Hm]]; [done|].
  apply lookup_singleton_Some in Hm as [_ <-]. done.
Defined.

(** A policy the hub deleted and then received again comes with its deletion:
    a fresh node blocks the address and releases it in the same round. *)
Example deletion_wins :
  let c1 := snd (on_control (apply_hub_policies [SharedPolicy.mk alice 2 5 10 0 0 ["node2"] 60]) fresh) in
  fst (is_blacklisted alice 6000000000 (ebpf (control c1))) = true /\
  fst (pull_once fresh) = Some tt /\
  fst (is_blacklisted alice 6000000000 (ebpf (control (snd (pull_once fresh))))) = false.
Proof. vm_compute. by split_and!. Qed.
End HubClientWitness.
