(* ===== verification/HubTasks.v ===== *)
(** * HubTasks: the loops that talk to the hub

    [HubClient::run] of [eshield/src/hub_client.rs] starts four loops: pushes,
    pulls, heartbeats and rules.  Each has a copy of the client of its own, with
    its own time stamps and its own idea of the URL in use; the control state,
    and here the record of the requests, is shared.  The loops run for ever, one
    round per tick, so that a run is any sequence of ticks.  A round is taken as
    a whole: the black list and its table, which a pull reads and writes after its
    requests, are written by no other loop.

    The theorems are about what a hub, whatever it answers, can do to a block of
    the node. *)
From Stdlib Require Import Ascii.
From stdpp Require Import strings gmap.
From S2P Require Import Prelude Words Common RustStd IpText Config TimeSeries Redb RuleStore RuleStoreProps Maps Blacklist AgentMaps Geoip AuditLog AgentControl AgentControlProps ControlSample HubClient.
#[local] Open Scope Z_scope.

(** ** The loops *)
Inductive Task := PushLoop | PullLoop | HeartbeatLoop | RulesLoop.
#[export] Instance task_eq : EqDecision Task.
Proof. solve_decision. Defined.

Section Tasks.
Context {KN : Kernel} {MO : MapOps} {HO : HashOrder} {R : Redb} {J : RuleJson} {CL : CsvLib} {EN : AgentEnv} {HT : Http}.

Record Tasks := mkTasks {
  clients : Task -> HubClient;
  shared : ControlState;
  requests : list Request.t;
}.

(** Every loop starts with [clone_ref] of the client. *)
Definition tasks_start (c : HubClient) (s : ControlState) : Tasks := mkTasks (fun _ => clone_ref c) s [].

(** A round.  The errors are only logged; the rules are optional. *)
Definition round (task : Task) : Try Node unit :=
  match task with
  | PushLoop => ignore push_once
  | PullLoop => ignore pull_once
  | HeartbeatLoop => ignore heartbeat_once
  | RulesLoop =>
      let! c := run (gets client) in
      if HubConfig.sync_rules_enabled (config c) then ignore sync_rules_once else ok tt
  end.

Definition task_step (ts : Tasks) (task : Task) : Tasks :=
  let c := snd (round task (mkNode (clients ts task) (shared ts) (requests ts))) in
  mkTasks (fun other => if decide (other = task) then client c else clients ts other) (control c) (sent c).

Definition tasks_run : Tasks -> list Task -> Tasks := foldl task_step.
End Tasks.

(** ** What a hub can do to a block of the node *)
Section Reach.
Context {KN : Kernel} {KL : KernelLaws} {MO : MapOps} {ML : MapLaws MO} {HO : HashOrder} {R : Redb} {RL : RedbLaws R}
  {J : RuleJson} {JL : RuleJsonLaws J} {CL : CsvLib} {EN : AgentEnv} {HT : Http}.

(** The store has row [r] for [key]. *)
Definition has_row (key : IpKey.t) (r : BlacklistRow.t) (c : ControlState) : Prop :=
  exists st m, store c = Some st /\ repr (RuleStore.BLACKLIST st) m /\ m !! key = Some r.

Definition entry_of (key : IpKey.t) (c : ControlState) : option BlockEntry.t := lru_get (BLACKLIST (ebpf c)) key.

(** One change of the black list that leaves the entry of [key] to the kernel: an
    insertion or a removal of another address. *)
Inductive elsewhere (key : IpKey.t) : lru IpKey.t BlockEntry.t -> lru IpKey.t BlockEntry.t -> Prop :=
  | insert_other m k v : k <> key -> elsewhere key m (lru_insert m k v)
  | remove_other m k : k <> key -> elsewhere key m (lru_remove m k).

(** The kernel drops entry [e] of [key] to make room for another address; apart
    from that, [b'] comes from [b] by changes of other addresses. *)
Definition evicted (key : IpKey.t) (e : BlockEntry.t) (b b' : lru IpKey.t BlockEntry.t) : Prop :=
  exists m k v, rtc (elsewhere key) b m /\ lru_get m key = Some e /\
    k <> key /\ lru_get (lru_insert m k v) key = None /\ rtc (elsewhere key) (lru_insert m k v) b'.

Lemma kept_or_evicted key e b b' : rtc (elsewhere key) b b' -> lru_get b key = Some e ->
  lru_get b' key = Some e \/ evicted key e b b'.
Proof.
  intros H He. induction H as [b|b m b' Hstep Hrest IH]; [by left|].
  assert (Hm : lru_get m key = Some e \/ evicted key e b b').
  { destruct Hstep as [b k v Hne|b k Hne]; [|left; by rewrite lru_get_remove_ne].
    destruct (lru_get_insert_ne b k key v Hne) as [->|Hn]; [by left|]. right. by exists b, k, v. }
  destruct Hm as [Hm|Hm]; [|by right]. destruct (IH Hm) as [H|(m' & k & v & H1 & H2)]; [by left|].
  right. exists m', k, v. split; [by eapply rtc_l|exact H2].
Qed.

(** Since the black list was [b], only other addresses have been inserted and
    removed, and row [r] is there. *)
Definition held (key : IpKey.t) (b : lru IpKey.t BlockEntry.t) (r : BlacklistRow.t) (c : ControlState) : Prop :=
  rtc (elsewhere key) b (BLACKLIST (ebpf c)) /\ has_row key r c.

(** [held] looks at the black list and its table only. *)
Lemma held_same key b r c c' : BLACKLIST (ebpf c') = BLACKLIST (ebpf c) ->
  (RuleStore.BLACKLIST <$> store c') = (RuleStore.BLACKLIST <$> store c) -> held key b r c -> held key b r c'.
Proof.
  unfold held, has_row. intros -> Hs [He (st & m & Hst & Hm & Hr)]. split; [done|].
  rewrite Hst in Hs. destruct (store c') as [st'|]; [|done]. injection Hs as Hs.
  exists st', m. by rewrite Hs.
Qed.

(** *** Blocking another address *)

(** The table after a block: a row with the given origin under the address,
    whatever the padding of the key. *)
Lemma block_ip_key_table key d reason origin c st : store c = Some st ->
  exists c' v r t, block_ip_key key d reason origin c = (Some tt, c') /\
    store c' = Some (setter RuleStore.BLACKLIST (tbl_insert (ip_key_bytes key) v) st) /\
    row_from_slice v = Some r /\ BlacklistRow.origin r = origin /\
    BLACKLIST (ebpf c') = lru_insert (BLACKLIST (ebpf c)) key t.
Proof.
  intros Hst. unfold block_ip_key. rewrite (try_bind_ok _ _ _ tt _ (block_ip_raw_eq key d reason c)).
  unfold save_block, try_bind, now, on_ebpf, run, monotonic_ns, get_ktime_ns, on_store, save_blacklist.
  cbn. rewrite Hst. cbn.
  match goal with |- context [row_to_vec ?r] => destruct (row_from_to r) as (v & -> & Hv) end.
  cbn. by eexists _, v, _, _.
Qed.

Lemma held_block key b r other d reason : key_ok other -> other <> key ->
  keeps (held key b r) (block_ip_key other d reason Hub).
Proof.
  intros Hk Hne c [He (st & m & Hst & Hm & Hr)].
  destruct (block_ip_key_table other d reason Hub c st Hst) as (c' & v & row & t & E & Hs' & Hv & _ & Hb).
  rewrite E. cbn [snd]. split.
  - rewrite Hb. eapply rtc_r; [exact He|by constructor].
  - eexists _, (<[other := row]> m). split; [exact Hs'|]. split; [by apply repr_insert|].
    by rewrite lookup_insert_ne.
Qed.

Lemma held_trust key b r other score : keeps (held key b r) (set_trust_score other score).
Proof.
  unfold set_trust_score. apply keeps_bind; [apply keeps_gets|]. intros enabled. destruct (negb enabled); [apply keeps_ok|].
  apply keeps_bind; [by intros c; apply held_same|]. intros t. apply keeps_modify. intros c. by apply held_same.
Qed.

(** *** Releasing another address *)
Lemma held_unblock key b r other actor : key_ok other -> other <> key ->
  keeps (held key b r) (unblock_ip_key other actor).
Proof.
  intros Hk Hne c [He (st & m & Hst & Hm & Hr)].
  destruct (unblock_ip_key_eq other actor c) as (c' & E & Hb & Hs). rewrite E. cbn [snd]. split.
  - rewrite Hb. eapply rtc_r; [exact He|by constructor].
  - rewrite Hst in Hs. eexists _, (delete other m). split; [exact Hs|]. split; [by apply repr_delete|].
    by rewrite lookup_delete_ne.
Qed.

(** *** The operations on what the hub sends *)
Lemma held_pull key e r policies : Forall (fun p => key_ok (SharedPolicy.ip p)) policies ->
  forall c, entry_of key c = Some e -> has_row key r c ->
  held key (BLACKLIST (ebpf c)) r (snd (apply_hub_policies policies c)).
Proof.
  intros Hok c He Hr. unfold apply_hub_policies. case_bool_decide; [by split|]. rewrite !try_gets.
  assert (Hin : key ∈ lru_keys (BLACKLIST (ebpf c))) by (apply lru_keys_spec; by exists e).
  revert Hin. generalize (lru_keys (BLACKLIST (ebpf c))) as existing. intros existing Hin.
  generalize (HubConfig.node_name (hub_config c)) as node. intros node.
  assert (Hc : held key (BLACKLIST (ebpf c)) r c) by (by split). clear He Hr H.
  revert Hc. generalize (BLACKLIST (ebpf c)) at 1 2 as b. intros b Hc. revert c Hc. generalize 0 as n.
  induction Hok as [|p policies Hp _ IH]; intros n c Hc; [done|]. cbn [apply_policies].
  eapply (keeps_bind (held key b r)); [|intros done'; intros c1; by apply IH|exact Hc].
  unfold apply_policy. case_bool_decide; [apply keeps_ok|]. destruct (_ && _); [apply keeps_ok|].
  assert (Hne : SharedPolicy.ip p <> key) by (intros E; by rewrite E in *).
  keeps_tac; [by apply held_block|]. destruct (_ >? 0); [apply held_trust|apply keeps_ok].
Qed.

Lemma held_deletions key b r ips : BlacklistRow.origin r <> Hub -> keeps (held key b r) (unblock_hub_policies ips).
Proof.
  intros Ho c Hc. assert (Hc' := Hc). destruct Hc' as [_ (st & m & Hst & Hm & Hr)].
  unfold unblock_hub_policies. rewrite try_gets, Hst. destruct (load_repr st m Hm) as (rows & Hl & Hrows).
  rewrite Hl, try_some. cbv zeta. set (hub_set := map fst _).
  assert (Hset : forall k, k ∈ hub_set -> key_ok k /\ k <> key).
  { intros k. subst hub_set. rewrite list_elem_of_fmap. intros ([k' r'] & -> & [Ho' Hin]%list_elem_of_filter).
    apply Hrows in Hin. cbn in *. split; [by apply (proj2 Hm k' r')|]. intros ->. congruence. }
  clearbody hub_set. clear Hst Hm Hr Hl Hrows. revert c Hc. generalize 0 as n.
  induction ips as [|ip ips IH]; intros n c Hc; [done|]. cbn [unblock_each].
  case_bool_decide as Hin; [|by apply IH]. destruct (Hset ip Hin) as [Hk Hne].
  eapply (keeps_bind (held key b r)); [by apply held_unblock|intros _ c1; by apply IH|exact Hc].
Qed.

Lemma blacklist_blind b : rule_blind (fun s => BLACKLIST s = b).
Proof.
  split; [done..|]. intros f _ s Hs. unfold sync_config_count. rewrite try_gets.
  destruct (array_get _ _); [|done]. unfold ignore, CONFIG_set, array_write. by destruct (array_set _ _ _).
Qed.

Lemma held_on_ebpf key b r (init : Try KState unit) : (forall b, keeps (fun s => BLACKLIST s = b) init) ->
  keeps (held key b r) (on_ebpf init).
Proof.
  intros Hi c. unfold on_ebpf. specialize (Hi _ (ebpf c) eq_refl). destruct (init (ebpf c)). by apply held_same.
Qed.

Lemma held_on_store key b r f : (forall st st', f st = Some st' -> RuleStore.BLACKLIST st' = RuleStore.BLACKLIST st) ->
  keeps (held key b r) (on_store f).
Proof.
  intros Hf c. unfold on_store. destruct (store c) as [st|] eqn:E; [|done].
  destruct (f st) as [st'|] eqn:Ef; [|done]. apply held_same; [done|]. cbn. rewrite E. cbn. by rewrite (Hf _ _ Ef).
Qed.

Lemma held_rules key b r bundle : keeps (held key b r) (apply_hub_rules bundle).
Proof.
  unfold apply_hub_rules. keeps_tac; [..|by apply (held_same key b r s)];
    (apply keeps_set_rules; [apply held_on_ebpf; intros b0|intros c; by apply held_same|apply held_on_store; intros st st'|
       intros c f; by apply held_same]);
    [apply keeps_init_acl|intros (v & _ & [= <-])%bind_Some; done
    |apply keeps_init_l7|intros (v & _ & [= <-])%bind_Some; done
    |apply keeps_init_projects|intros (v & _ & [= <-])%bind_Some; done]; apply blacklist_blind.
Qed.

(** *** The rounds *)
Lemma keeps_get (P : ControlState -> Prop) path :
  (forall s s', ebpf s' = ebpf s -> store s' = store s -> P s -> P s') ->
  keeps (fun c => P (control c)) (get_with_failover path).
Proof. intros HP. apply keeps_failover; [|done]. intros c h s Hc _ _ _ He Hs _. by eapply HP. Qed.

Lemma keeps_post (P : ControlState -> Prop) path body :
  (forall s s', ebpf s' = ebpf s -> store s' = store s -> P s -> P s') ->
  keeps (fun c => P (control c)) (post_with_failover path body).
Proof. intros HP. apply keeps_failover; [|done]. intros c h s Hc _ _ _ He Hs _. by eapply HP. Qed.

Lemma held_moves key b r s s' : ebpf s' = ebpf s -> store s' = store s -> held key b r s -> held key b r s'.
Proof. intros He Hs. apply held_same; by rewrite ?He, ?Hs. Qed.

Lemma keeps_on_client (P : ControlState -> Prop) f : keeps (fun c => P (control c)) (on_client f).
Proof. by intros c. Qed.

Create HintDb rounds.
#[local] Hint Resolve held_moves keeps_get keeps_post keeps_on_client : rounds.

Ltac round_tac := keeps_tac; eauto 3 with rounds.

Lemma held_collect key b r since hits trust limit :
  keeps (held key b r) (collect_hub_publishable_policies since hits trust limit).
Proof.
  unfold collect_hub_publishable_policies. keeps_tac. destruct a as [st|]; [|apply keeps_ok]. keeps_tac.
  case_bool_decide; keeps_tac. intros c. by apply held_same.
Qed.

Lemma held_push key b r : keeps (fun c => held key b r (control c)) push_once.
Proof.
  unfold push_once. keeps_tac; [apply keeps_on_control, held_collect|]. case_bool_decide; round_tac.
  apply keeps_on_control. intros s. by apply held_same.
Qed.

Lemma held_beat key b r : keeps (fun c => held key b r (control c)) heartbeat_once.
Proof. unfold heartbeat_once. round_tac. Qed.

Lemma held_sync_rules key b r : keeps (fun c => held key b r (control c)) sync_rules_once.
Proof.
  unfold sync_rules_once. round_tac. destruct (RulesResponse.rules _) as [bundle|]; round_tac.
  destruct (_ <=? _); round_tac. apply keeps_on_control, held_rules.
Qed.

Lemma held_pull_deleted key b r : BlacklistRow.origin r <> Hub ->
  keeps (fun c => held key b r (control c)) pull_deleted_once.
Proof.
  intros Ho. unfold pull_deleted_once. round_tac; [by apply keeps_on_control, held_deletions|].
  destruct (parse_uint _ _); round_tac.
Qed.

(** Every address a hub sends is one the agent could have made. *)
Definition tidy_hub : Prop :=
  forall body pull, json_pull body = Some pull -> Forall (fun p => key_ok (SharedPolicy.ip p)) (PolicyPull.policies pull).

Lemma held_pull_once key e r c : tidy_hub -> BlacklistRow.origin r <> Hub ->
  entry_of key (control c) = Some e -> has_row key r (control c) ->
  held key (BLACKLIST (ebpf (control c))) r (control (snd (pull_once c))).
Proof.
  intros Htidy Ho He Hr. unfold pull_once. rewrite try_gets. set (b := BLACKLIST (ebpf (control c))).
  assert (Hget := keeps_get (fun s => BLACKLIST (ebpf s) = b /\ has_row key r s)
    (since_path "/api/v1/policies" (last_pull_ns (client c)))).
  specialize (Hget ltac:(unfold has_row; intros s s' -> ->; done) c ltac:(done)).
  assert (Hstay : forall s, BLACKLIST (ebpf s) = b /\ has_row key r s -> held key b r s) by (intros s [Hs ?]; split; [by rewrite Hs|done]).
  unfold try_bind at 1. destruct (get_with_failover _ c) as [[[url resp]|] c1]; cbn [fst snd] in *; [|by apply Hstay].
  unfold try_bind at 1, ensure. destruct (Response.success resp); [|by apply Hstay]. unfold try_bind at 1, of_option.
  destruct (json_pull (Response.text resp)) as [pull|] eqn:Ep; [|by apply Hstay]. destruct Hget as [Hb1 Hr1].
  assert (He1 : entry_of key (control c1) = Some e) by (unfold entry_of in *; by rewrite Hb1).
  pose proof (held_pull key e r _ (Htidy _ _ Ep) (control c1) He1 Hr1) as Hc2. rewrite Hb1 in Hc2.
  unfold try_bind at 1, on_control. destruct (apply_hub_policies _ (control c1)) as [[n|] s2]; [|exact Hc2]. cbn [snd] in Hc2.
  assert (Hrest : keeps (fun c => held key b r (control c))
    (let! _ := (match parse_uint 64 (PolicyPull.cursor pull) with
                | Some cursor => on_client (fun h => h <| last_pull_ns := cursor |>)
                | None => ok tt
                end) in ignore pull_deleted_once)).
  { keeps_tac; [|by apply held_pull_deleted]. destruct (parse_uint _ _); round_tac. }
  by apply (Hrest (c1 <| control := s2 |>)).
Qed.

Lemma held_round key e r task c : tidy_hub -> BlacklistRow.origin r <> Hub ->
  entry_of key (control c) = Some e -> has_row key r (control c) ->
  held key (BLACKLIST (ebpf (control c))) r (control (snd (round task c))).
Proof.
  intros Htidy Ho He Hr. assert (Hc : held key (BLACKLIST (ebpf (control c))) r (control c)) by (by split).
  destruct task; cbn [round]; [by apply keeps_ignore, Hc; apply held_push|by eapply held_pull_once
    |by apply keeps_ignore, Hc; apply held_beat|].
  rewrite try_gets. destruct (HubConfig.sync_rules_enabled _); [|done].
  by apply keeps_ignore, Hc; apply held_sync_rules.
Qed.

(** C18: a hub never undoes what the node decided.  Take an address on the black
    list with a row that did not come from a hub, and let the four loops run
    with any hubs and in any order.  As long as every policy a hub sends names
    its address with the padding the agent uses, the entry and the row are as
    they were after every round, whatever is pulled, deleted and set, until a
    round in which the kernel evicts the entry for the insertion of another
    address; in that round too the loops change the entries of other addresses
    only, and the row stays. *)
Theorem hub_tasks_keep_local key e r ts tasks :
  tidy_hub -> BlacklistRow.origin r <> Hub -> entry_of key (shared ts) = Some e -> has_row key r (shared ts) ->
  (entry_of key (shared (tasks_run ts tasks)) = Some e /\ has_row key r (shared (tasks_run ts tasks))) \/
  exists before task after, tasks = before ++ task :: after /\
    let s := shared (tasks_run ts before) in
    let s' := shared (tasks_run ts (before ++ [task])) in
    entry_of key s = Some e /\ has_row key r s /\
    evicted key e (BLACKLIST (ebpf s)) (BLACKLIST (ebpf s')) /\ has_row key r s'.
Proof.
  intros Htidy Ho. revert ts. induction tasks as [|task tasks IH]; intros ts He Hr; [by left|].
  destruct (held_round key e r task (mkNode (clients ts task) (shared ts) (requests ts)) Htidy Ho He Hr) as [Hb Hr'].
  destruct (kept_or_evicted key e _ _ Hb He) as [He'|Hev].
  - destruct (IH (task_step ts task) He' Hr') as [H|(before & other & after & -> & H)]; [by left|].
    right. by exists (task :: before), other, after.
  - right. by exists [], task, tasks.
Qed.

(** *** A key with another padding *)
Lemma set_trust_score_ok key score c : exists c', set_trust_score key score c = (Some tt, c') /\ store c' = store c.
Proof.
  unfold set_trust_score. rewrite try_gets. destruct (negb _); [by exists c|]. by eexists.
Qed.

(** C39: a padded address takes a block over.  The map of the packet program
    compares addresses with their padding, the table of the store without.  A
    pulled policy that names the address of a block with a padding of its own is
    therefore not recognised as known, and writes its row, with the hub as
    origin, over the row of the block; when the hub then reports the address as
    deleted the node releases it, whoever had blocked it. *)
Theorem padded_policy_takes_over key pad p c st m :
  key_ok key -> store c = Some st -> repr (RuleStore.BLACKLIST st) m ->
  SharedPolicy.ip p = IpKey.mk (IpKey.family key) (IpKey.addr key) pad ->
  entry_of (SharedPolicy.ip p) c = None -> HubConfig.node_name (hub_config c) ∉ SharedPolicy.source_nodes p ->
  exists c1 n c2, apply_hub_policies [p] c = (Some 1, c1) /\ unblock_hub_policies [key] c1 = (Some n, c2) /\
    forall t, fst (is_blacklisted key t (ebpf c2)) = false.
Proof.
  intros Hk Hst Hm Hip Hnone Hsrc.
  assert (Hap : exists c1 r st1, apply_hub_policies [p] c = (Some 1, c1) /\ store c1 = Some st1 /\
    repr (RuleStore.BLACKLIST st1) (<[key := r]> m) /\ BlacklistRow.origin r = Hub).
  { unfold apply_hub_policies. rewrite bool_decide_eq_false_2 by done. rewrite !try_gets. cbn [apply_policies].
    unfold apply_policy. rewrite bool_decide_eq_false_2.
    2: { intros [e He]%lru_keys_spec. unfold entry_of in Hnone. congruence. }
    replace (existsb _ _) with false.
    2: { symmetry. apply not_true_iff_false. by intros (x & Hx%list_elem_of_In & <-%String.eqb_eq)%existsb_exists. }
    rewrite andb_false_r.
    destruct (block_ip_key_table (SharedPolicy.ip p) (SharedPolicy.ttl_s p) (SharedPolicy.reason p) Hub c st Hst)
      as (c0 & v & r & t & E & Hs & Hv & Ho & _).
    assert (Hr : repr (RuleStore.BLACKLIST (setter RuleStore.BLACKLIST (tbl_insert (ip_key_bytes (SharedPolicy.ip p)) v) st))
      (<[key := r]> m)) by (rewrite Hip; by apply (repr_insert _ m key)).
    unfold try_bind at 1. rewrite (try_bind_ok _ _ _ _ _ E). destruct (SharedPolicy.trust_score p >? 0).
    - destruct (set_trust_score_ok (SharedPolicy.ip p) (wrapping_mul 32 (SharedPolicy.trust_score p) 10) c0)
        as (c1 & E1 & Hs1). rewrite (try_bind_ok _ _ _ _ _ E1). eexists c1, r, _. by rewrite Hs1.
    - by eexists c0, r, _. }
  destruct Hap as (c1 & r & st1 & E1 & Hs1 & Hr1 & Ho).
  destruct (hub_releases_own [key] c1 st1 _ Hs1 Hr1) as (n & c2 & E2 & H2).
  exists c1, n, c2. split; [exact E1|]. split; [exact E2|]. intros t. rewrite is_blacklisted_result, H2.
  rewrite decide_True; [done|]. split; [by apply list_elem_of_singleton|]. by rewrite lookup_insert_eq, <- Ho.
Qed.
End Reach.

Module HubTasksWitness.
Import Samples ControlSample.ControlSample HubClientWitness.

(** The node of [busy], whose hub sends a policy for a blocked address and
    reports it as deleted. *)
Definition node : Tasks := tasks_start (client_new hub) (control busy).
Definition alice_entry : BlockEntry.t := default static_entry (entry_of alice (control busy)).

Lemma alice_row : has_row alice (at_5s Api) (shared node).
Proof. exists saved, rows. split; [reflexivity|]. split; [apply saved_rows|]. reflexivity. Qed.

Lemma hubs_tidy : tidy_hub.
Proof. intros body pull [= <-]. by apply list.Forall_singleton. Qed.

Lemma hub_tasks_keep_local_witness :
  let tasks := [PullLoop; PushLoop; HeartbeatLoop; RulesLoop; PullLoop] in
  (entry_of alice (shared (tasks_run node tasks)) = Some alice_entry /\
   has_row alice (at_5s Api) (shared (tasks_run node tasks))) \/
  exists before task after, tasks = before ++ task :: after /\
    let s := shared (tasks_run node before) in
    let s' := shared (tasks_run node (before ++ [task])) in
    entry_of alice s = Some alice_entry /\ has_row alice (at_5s Api) s /\
    evicted alice alice_entry (BLACKLIST (ebpf s)) (BLACKLIST (ebpf s')) /\ has_row alice (at_5s Api) s'.
Proof.
  apply (hub_tasks_keep_local alice alice_entry (at_5s Api) node);
    [exact hubs_tidy|discriminate|vm_compute; reflexivity|exact alice_row].
Defined.

(** Both loops that reached the hub have sent their requests. *)
Example loops_ran :
  entry_of alice (shared (tasks_run node [PullLoop; HeartbeatLoop])) = Some alice_entry /\
  length (requests (tasks_run node [PullLoop; HeartbeatLoop])) = 5%nat.
Proof. vm_compute. by split. Qed.

Definition padded : IpKey.t := IpKey.mk (IpKey.family alice) (IpKey.addr alice) (1 :: replicate 14 0).

Lemma padded_policy_takes_over_witness :
  fst (is_blacklisted alice 6000000000 (ebpf (control busy))) = true /\
  exists c1 n c2, apply_hub_policies [SharedPolicy.mk padded 2 5 10 0 0 ["node2"] 60] (control busy) = (Some 1, c1) /\
    unblock_hub_policies [alice] c1 = (Some n, c2) /\ fst (is_blacklisted alice 6000000000 (ebpf c2)) = false.
Proof.
  split; [vm_compute; reflexivity|].
  destruct (padded_policy_takes_over alice (1 :: replicate 14 0) (SharedPolicy.mk padded 2 5 10 0 0 ["node2"] 60)
    (control busy) saved rows) as (c1 & n & c2 & E1 & E2 & H);
    [done|reflexivity|exact saved_rows|reflexivity|vm_compute; reflexivity|
     change (HubConfig.node_name (hub_config (control busy))) with "node1"; cbn [SharedPolicy.source_nodes]; by rewrite list_elem_of_singleton|].
  exists c1, n, c2. split; [exact E1|]. split; [exact E2|apply H].
Defined.
End HubTasksWitness.
