(* ===== verification/HubStore.v ===== *)
(** * HubStore: the policy store of the hub

    [eshield-hub/src/store.rs] and the data of [models.rs]: policies under the
    key "time of last sighting, address", an index from addresses to keys,
    tombstones for deleted policies, and the paged queries the agents poll.
    Reading and writing a row can fail only in the decoding of its bytes; a
    failed transaction leaves the database as it was. *)
From stdpp Require Import strings.
From S2P Require Import Prelude Words Common Redb.
#[local] Open Scope Z_scope.

(** ** Models *)
Module SharedPolicy.
Record t := mk {
  ip : IpKey.t;
  reason : Z;
  hit_count : Z;
  trust_score : Z;
  first_seen_ns : Z;
  last_seen_ns : Z;
  source_nodes : list string;
  ttl_s : Z;
}.
End SharedPolicy.

Module NodePolicy.
Record t := mk {
  ip : IpKey.t;
  reason : Z;
  hit_count : Z;
  trust_score : Z;
  blocked_until_ns : Z;
  ttl_s : Z;
}.
End NodePolicy.

(** The rules the hub hands to all agents. *)
Module PortAclItem.
Record t := mk {
  protocol : string;
  dport : string;
  action : string;
}.
End PortAclItem.

Module L7PatternConfig.
Record t := mk {
  pattern : string;
  mask : option string;
}.
End L7PatternConfig.

Module ProtectionProject.
Record t := mk {
  name : string;
  description : string;
  protocol : string;
  dport : string;
  target_ips : list string;
  enabled_modules : list string;
  action : string;
}.
End ProtectionProject.

Module RuleBundle.
Record t := mk {
  port_acl : list PortAclItem.t;
  l7_patterns : list L7PatternConfig.t;
  protection_projects : list ProtectionProject.t;
  updated_at_ns : Z;
}.
End RuleBundle.

(** [serde_json] on policies and rule bundles. *)
Class PolicyJson := {
  to_vec : SharedPolicy.t -> option bytes;
  from_slice : bytes -> option SharedPolicy.t;
  bundle_to_vec : RuleBundle.t -> option bytes;
  bundle_from_slice : bytes -> option RuleBundle.t;
}.
Class PolicyJsonLaws (J : PolicyJson) : Prop := {
  from_to : forall p, exists b, to_vec p = Some b /\ from_slice b = Some p;
  bundle_from_to : forall p, exists b, bundle_to_vec p = Some b /\ bundle_from_slice b = Some p;
}.

(** ** Keys *)
Definition composite_key (last_seen_ns : Z) (ip : IpKey.t) : bytes :=
  be_bytes 8 last_seen_ns ++ [IpKey.family ip] ++ IpKey.addr ip.

Definition ip_index_key (ip : IpKey.t) : bytes := [IpKey.family ip] ++ IpKey.addr ip.

#[global] Arguments composite_key : simpl never.
#[global] Arguments ip_index_key : simpl never.

(** [u64::from_be_bytes(key[0..8])] *)
Definition key_time (key : bytes) : Z := be_val (slice 0 8 key).

(** The first key of the scan for rows after [since_ns]. *)
Definition start_key (since_ns : Z) : bytes :=
  be_bytes 8 (saturating_add 64 since_ns 1) ++ replicate 17 0.

(** ** The loops of [query_since] and [query_tombstones_since]

    [parse] is what the loop makes of one row, [limit] the number of results
    from which on only the group of the current timestamp is completed. *)
Section Scan.
Context {A : Type} (parse : bytes * bytes -> option A) (since_ns limit : Z).

Fixpoint scan_rows (rows : list (bytes * bytes)) (cutoff : option Z) (out : list A) (cursor : Z)
    : option (list A * Z) :=
  match rows with
  | [] => Some (out, cursor)
  | row :: rows =>
      let last_seen_ns := key_time (fst row) in
      if last_seen_ns <=? since_ns then scan_rows rows cutoff out cursor
      else
        let push cutoff :=
          item ← parse row;
          scan_rows rows cutoff (out ++ [item]) last_seen_ns in
        match cutoff with
        | Some cutoff_ts =>
            if negb (last_seen_ns =? cutoff_ts) then Some (out, cursor) else push cutoff
        | None =>
            push (if Z.of_nat (length out) >=? limit then Some last_seen_ns else None)
        end
  end.
End Scan.

Section HubStore.
Context {R : Redb} {J : PolicyJson}.

Record Db := mkDb {
  POLICIES_TABLE : table;
  POLICY_INDEX_TABLE : table;
  TOMBSTONES_TABLE : table;
  (** the one row, under key 0 *)
  RULES_TABLE : option bytes;
}.
#[global] Instance eta_Db : Eta Db := fun r =>
  mkDb (POLICIES_TABLE r) (POLICY_INDEX_TABLE r) (TOMBSTONES_TABLE r) (RULES_TABLE r).

Definition Db_empty : Db := mkDb tbl_empty tbl_empty tbl_empty None.

(** ** Merging *)
Definition merge_policy (old : option SharedPolicy.t) (node : NodePolicy.t) (node_name : string)
    (now_ns : Z) : SharedPolicy.t :=
  match old with
  | Some p =>
      SharedPolicy.mk (SharedPolicy.ip p) (NodePolicy.reason node)
        (Z.max (SharedPolicy.hit_count p) (NodePolicy.hit_count node))
        (Z.min (SharedPolicy.trust_score p) (NodePolicy.trust_score node))
        (Z.min (SharedPolicy.first_seen_ns p) now_ns)
        (Z.max (SharedPolicy.last_seen_ns p) now_ns)
        (if existsb (String.eqb node_name) (SharedPolicy.source_nodes p)
         then SharedPolicy.source_nodes p else SharedPolicy.source_nodes p ++ [node_name])
        (if (SharedPolicy.ttl_s p =? 0) || (NodePolicy.ttl_s node =? 0) then 0
         else Z.max (SharedPolicy.ttl_s p) (NodePolicy.ttl_s node))
  | None =>
      SharedPolicy.mk (NodePolicy.ip node) (NodePolicy.reason node) (NodePolicy.hit_count node)
        (NodePolicy.trust_score node) now_ns now_ns [node_name] (NodePolicy.ttl_s node)
  end.

(** The row of a policy; an index entry without a row is an error. *)
Definition stored_policy (policies : table) (old_key : option bytes)
    : option (option SharedPolicy.t) :=
  match old_key with
  | None => Some None
  | Some composite => value ← tbl_get policies composite; p ← from_slice value; Some (Some p)
  end.

Definition merge_one (now_ns : Z) (node_name : string) (tables : table * table)
    (node : NodePolicy.t) : option (table * table) :=
  let '(policies, index) := tables in
  let index_key := ip_index_key (NodePolicy.ip node) in
  let old_key := tbl_get index index_key in
  old ← stored_policy policies old_key;
  let policy := merge_policy old node node_name now_ns in
  let new_key := composite_key (SharedPolicy.last_seen_ns policy) (SharedPolicy.ip policy) in
  let policies :=
    match old_key with
    | Some old_key => if decide (old_key = new_key) then policies else tbl_remove old_key policies
    | None => policies
    end in
  value ← to_vec policy;
  Some (tbl_insert new_key value policies, tbl_insert index_key new_key index).

Fixpoint merge_all (now_ns : Z) (node_name : string) (tables : table * table)
    (policies : list NodePolicy.t) : option (table * table) :=
  match policies with
  | [] => Some tables
  | node :: policies =>
      tables ← merge_one now_ns node_name tables node;
      merge_all now_ns node_name tables policies
  end.

(** A database of an older version has rows but no index. *)
Fixpoint rebuild (index : table) (rows : list (bytes * bytes)) : option table :=
  match rows with
  | [] => Some index
  | (k, v) :: rows =>
      policy ← from_slice v;
      rebuild (tbl_insert (ip_index_key (SharedPolicy.ip policy)) k index) rows
  end.

Definition rebuild_index (policies index : table) : option table :=
  if (tbl_len index =? 0) && (tbl_len policies >? 0) then rebuild index (tbl_iter policies)
  else Some index.

Definition merge_chunk (now_ns : Z) (node_name : string) (policies : list NodePolicy.t) (db : Db)
    : option (Z * Db) :=
  index ← rebuild_index (POLICIES_TABLE db) (POLICY_INDEX_TABLE db);
  tables ← merge_all now_ns node_name (POLICIES_TABLE db, index) policies;
  Some (Z.of_nat (length policies),
        db <| POLICIES_TABLE := fst tables |> <| POLICY_INDEX_TABLE := snd tables |>).

Definition CHUNK : nat := 1000.

(** Each chunk is a transaction of its own and reads the clock; the chunks
    before a failing one stay. *)
Fixpoint merge_chunks (now : nat -> Z) (node_name : string) (chunks : list (list NodePolicy.t))
    (merged : Z) (db : Db) : option Z * Db :=
  match chunks with
  | [] => (Some merged, db)
  | chunk :: chunks =>
      match merge_chunk (now O) node_name chunk db with
      | None => (None, db)
      | Some (n, db) => merge_chunks (fun i => now (S i)) node_name chunks (merged + n) db
      end
  end.

Definition merge (now : nat -> Z) (node_name : string) (policies : list NodePolicy.t) (db : Db)
    : option Z * Db :=
  if (length policies <=? CHUNK)%nat then
    match merge_chunk (now O) node_name policies db with
    | None => (None, db)
    | Some (n, db) => (Some n, db)
    end
  else merge_chunks now node_name (chunks CHUNK policies) 0 db.

(** ** Queries *)
Definition query_since (since_ns limit : Z) (db : Db) : option (list SharedPolicy.t * Z) :=
  if limit =? 0 then Some ([], since_ns)
  else scan_rows (fun row => from_slice (snd row)) since_ns limit
         (tbl_range (start_key since_ns) (POLICIES_TABLE db)) None [] since_ns.

Definition tombstone_ip (row : bytes * bytes) : option IpKey.t :=
  Some (IpKey.mk (nth 8 (fst row) 0) (slice 9 16 (fst row)) (replicate 15 0)).

Definition query_tombstones_since (since_ns limit : Z) (db : Db) : option (list IpKey.t * Z) :=
  if limit =? 0 then Some ([], since_ns)
  else scan_rows tombstone_ip since_ns limit
         (tbl_range (start_key since_ns) (TOMBSTONES_TABLE db)) None [] since_ns.

Definition count (db : Db) : Z := tbl_len (POLICIES_TABLE db).

(** ** Pruning *)
Definition expired (now_ns : Z) (policy : SharedPolicy.t) : bool :=
  negb (SharedPolicy.ttl_s policy =? 0) &&
  (saturating_add 64 (SharedPolicy.last_seen_ns policy)
     (saturating_mul 64 (SharedPolicy.ttl_s policy) 1000000000) <? now_ns).

Fixpoint stale_policies (now_ns : Z) (rows : list (bytes * bytes))
    : option (list (bytes * IpKey.t)) :=
  match rows with
  | [] => Some []
  | (k, v) :: rows =>
      policy ← from_slice v;
      stale ← stale_policies now_ns rows;
      Some (if expired now_ns policy then (k, SharedPolicy.ip policy) :: stale else stale)
  end.

Definition stale_tombstones (now_ns tombstone_ttl_ns : Z) (rows : list (bytes * bytes))
    : list bytes :=
  map fst (filter (fun row =>
    saturating_add 64 (key_time (fst row)) tombstone_ttl_ns < now_ns) rows).

Definition remove_keys (keys : list bytes) (t : table) : table :=
  foldl (fun t k => tbl_remove k t) t keys.

Definition prune (now_ns tombstone_ttl_ns : Z) (db : Db) : option ((Z * Z) * Db) :=
  stale ← stale_policies now_ns (tbl_iter (POLICIES_TABLE db));
  let policies := remove_keys (map fst stale) (POLICIES_TABLE db) in
  let index := remove_keys (map (fun r => ip_index_key (snd r)) stale) (POLICY_INDEX_TABLE db) in
  let stale_t := stale_tombstones now_ns tombstone_ttl_ns (tbl_iter (TOMBSTONES_TABLE db)) in
  Some ((Z.of_nat (length stale), Z.of_nat (length stale_t)),
        mkDb policies index (remove_keys stale_t (TOMBSTONES_TABLE db)) (RULES_TABLE db)).

(** ** Deleting *)

(** The keys of the rows of an address, for a database without index. *)
Fixpoint rows_of_ip (ip : IpKey.t) (rows : list (bytes * bytes)) : option (list bytes) :=
  match rows with
  | [] => Some []
  | (k, v) :: rows =>
      stored ← from_slice v;
      keys ← rows_of_ip ip rows;
      Some (if decide (SharedPolicy.ip stored = ip) then k :: keys else keys)
  end.

Definition delete_one (acc : (table * table) * Z) (ip : IpKey.t) : option ((table * table) * Z) :=
  let '((policies, index), removed) := acc in
  let index_key := ip_index_key ip in
  match tbl_get index index_key with
  | Some composite =>
      let removed := if bool_decide (is_Some (tbl_get policies composite))
                     then removed + 1 else removed in
      Some ((tbl_remove composite policies, tbl_remove index_key index), removed)
  | None =>
      keys ← rows_of_ip ip (tbl_iter policies);
      Some ((remove_keys keys policies, tbl_remove index_key index),
            removed + Z.of_nat (length keys))
  end.

Fixpoint delete_all (acc : (table * table) * Z) (ips : list IpKey.t)
    : option ((table * table) * Z) :=
  match ips with
  | [] => Some acc
  | ip :: ips => acc ← delete_one acc ip; delete_all acc ips
  end.

Definition add_tombstones (now_ns : Z) (ips : list IpKey.t) (tombstones : table) : table :=
  foldl (fun t ip => tbl_insert (composite_key now_ns ip) [] t) tombstones ips.

Definition delete_policies (now_ns : Z) (ips : list IpKey.t) (db : Db) : option (Z * Db) :=
  if bool_decide (ips = []) then Some (0, db)
  else
    acc ← delete_all ((POLICIES_TABLE db, POLICY_INDEX_TABLE db), 0) ips;
    let '((policies, index), removed) := acc in
    Some (removed, mkDb policies index (add_tombstones now_ns ips (TOMBSTONES_TABLE db))
            (RULES_TABLE db)).

Definition delete_policy (now_ns : Z) (ip : IpKey.t) (db : Db) : option (bool * Db) :=
  r ← delete_policies now_ns [ip] db; Some (fst r >? 0, snd r).

(** ** Rules *)
Definition set_rules (bundle : RuleBundle.t) (db : Db) : option Db :=
  value ← bundle_to_vec bundle; Some (db <| RULES_TABLE := Some value |>).

(** [None] is an error, [Some None] that no rules are stored. *)
Definition get_rules (db : Db) : option (option RuleBundle.t) :=
  match RULES_TABLE db with
  | None => Some None
  | Some value => Some <$> bundle_from_slice value
  end.
End HubStore.
