(* ===== verification/HubStoreProps.v ===== *)
(** * HubStoreProps: what the policy store keeps and what a query returns

    The representation invariant [store_ok] (every row lies under its own key,
    the index and the rows agree), the effect of each operation on the policies
    seen through the index, and the paging of the queries. *)
From stdpp Require Import strings.
From Stdlib Require Import Sorted.
From S2P Require Import Prelude Words Common Redb HubStore.
#[local] Open Scope Z_scope.

Definition is_u64 (x : Z) : Prop := 0 <= x < 2 ^ 64.
Definition ip_ok (ip : IpKey.t) : Prop :=
  is_byte (IpKey.family ip) /\ bytes_ok (IpKey.addr ip) /\ length (IpKey.addr ip) = 16%nat.
Definition policy_ok (p : SharedPolicy.t) : Prop :=
  is_u64 (SharedPolicy.last_seen_ns p) /\ ip_ok (SharedPolicy.ip p).
Definition node_ok (n : NodePolicy.t) : Prop := ip_ok (NodePolicy.ip n).

(** Addresses the store does not tell apart: it ignores the padding. *)
Definition same_ip (a b : IpKey.t) : Prop := ip_index_key a = ip_index_key b.
#[global] Instance same_ip_dec a b : Decision (same_ip a b) := decide (ip_index_key a = ip_index_key b).

(** ** Keys *)
Lemma key_time_composite t ip : is_u64 t -> key_time (composite_key t ip) = t.
Proof.
  intros H. unfold key_time, composite_key, slice. rewrite drop_0.
  rewrite take_app_length' by (by rewrite length_be_bytes). by apply be_val_be_bytes.
Qed.

Lemma drop_composite t ip : drop 8 (composite_key t ip) = ip_index_key ip.
Proof. unfold composite_key. by rewrite drop_app_length' by (by rewrite length_be_bytes). Qed.

Lemma composite_key_lt t1 ip1 t2 ip2 :
  is_u64 t1 -> is_u64 t2 -> bytes_lt (composite_key t1 ip1) (composite_key t2 ip2) -> t1 <= t2.
Proof.
  intros H1 H2 Hlt. destruct (Z.le_gt_cases t1 t2) as [|Hgt]; [done|]. exfalso.
  apply (bytes_lt_irrefl (composite_key t1 ip1)). eapply bytes_lt_trans; [exact Hlt|].
  unfold composite_key. apply be_bytes_lt; unfold is_u64 in *; cbn; lia.
Qed.

Lemma start_key_lt since t ip :
  is_u64 since -> is_u64 t -> ip_ok ip -> since < t ->
  bytes_ltb (composite_key t ip) (start_key since) = false.
Proof.
  intros Hs Ht (Hf&Ha&Hl) Hlt.
  destruct (bytes_ltb _ _) eqn:E; [|done]. exfalso. fold (bytes_lt (composite_key t ip) (start_key since)) in E.
  unfold start_key, saturating_add in E. replace (Z.min (since + 1) _) with (since + 1) in E
    by (unfold is_u64 in *; lia).
  destruct (Z.eq_dec t (since + 1)) as [->|Hne].
  - unfold composite_key in E. apply bytes_lt_app_l in E.
    eapply zeros_least; [| |exact E]; [by constructor|cbn [app length]; by rewrite Hl].
  - apply (bytes_lt_irrefl (composite_key t ip)). eapply bytes_lt_trans; [exact E|].
    unfold composite_key. apply be_bytes_lt; unfold is_u64 in *; cbn; lia.
Qed.

(** ** Merging one policy into another *)

(** What merging keeps of the old policy. *)
Definition stronger (p q : SharedPolicy.t) : Prop :=
  SharedPolicy.ip q = SharedPolicy.ip p /\
  SharedPolicy.hit_count p <= SharedPolicy.hit_count q /\
  SharedPolicy.trust_score q <= SharedPolicy.trust_score p /\
  SharedPolicy.first_seen_ns q <= SharedPolicy.first_seen_ns p /\
  SharedPolicy.last_seen_ns p <= SharedPolicy.last_seen_ns q /\
  (forall n, n ∈ SharedPolicy.source_nodes p -> n ∈ SharedPolicy.source_nodes q) /\
  (SharedPolicy.ttl_s p = 0 -> SharedPolicy.ttl_s q = 0) /\
  (SharedPolicy.ttl_s q <> 0 -> SharedPolicy.ttl_s p <= SharedPolicy.ttl_s q).

(** What a report of a node leaves in the policy. *)
Definition includes (name : string) (now : Z) (n : NodePolicy.t) (q : SharedPolicy.t) : Prop :=
  NodePolicy.hit_count n <= SharedPolicy.hit_count q /\
  SharedPolicy.trust_score q <= NodePolicy.trust_score n /\
  now <= SharedPolicy.last_seen_ns q /\
  name ∈ SharedPolicy.source_nodes q /\
  (NodePolicy.ttl_s n = 0 -> SharedPolicy.ttl_s q = 0) /\
  (SharedPolicy.ttl_s q <> 0 -> NodePolicy.ttl_s n <= SharedPolicy.ttl_s q).

#[global] Instance stronger_preorder : PreOrder stronger.
Proof.
  split.
  - intros p. unfold stronger. repeat split; auto; lia.
  - intros p q r (H1&H2&H3&H4&H5&H6&H7&H8) (G1&G2&G3&G4&G5&G6&G7&G8).
    unfold stronger. repeat split; [congruence|lia|lia|lia|lia|auto|lia|lia].
Qed.

Lemma includes_stronger name now n p q : includes name now n p -> stronger p q -> includes name now n q.
Proof.
  intros (H1&H2&H3&H4&H5&H6) (G1&G2&G3&G4&G5&G6&G7&G8). unfold includes.
  repeat split; auto; lia.
Qed.

Lemma merge_policy_stronger p n name now : stronger p (merge_policy (Some p) n name now).
Proof.
  unfold stronger, merge_policy. cbn. repeat split; try lia.
  - intros m Hm. case_match; [done|]. apply elem_of_app. by left.
  - intros ->. done.
  - intros H. destruct (_ || _); lia.
Qed.

Lemma merge_policy_includes old n name now : includes name now n (merge_policy old n name now).
Proof.
  destruct old as [p|]; unfold includes, merge_policy; cbn.
  - repeat split; try lia.
    + destruct (existsb _ _) eqn:E; [|apply elem_of_app; right; by left].
      apply existsb_exists in E as (m&Hm&Heq). apply String.eqb_eq in Heq as ->.
      by apply list_elem_of_In.
    + intros ->. by rewrite orb_true_r.
    + intros H. destruct (_ || _); lia.
  - repeat split; try lia. by left.
Qed.

Section Store.
Context {R : Redb} {RL : RedbLaws R} {J : PolicyJson} {JL : PolicyJsonLaws J}.

(** ** The representation invariant *)
Definition rows_ok (policies : table) : Prop :=
  forall k v, tbl_get policies k = Some v ->
    exists p, from_slice v = Some p /\ policy_ok p /\
      k = composite_key (SharedPolicy.last_seen_ns p) (SharedPolicy.ip p).

Definition index_ok (policies index : table) : Prop :=
  forall ik k, tbl_get index ik = Some k <-> is_Some (tbl_get policies k) /\ drop 8 k = ik.

Definition tables_ok (tables : table * table) : Prop :=
  rows_ok (fst tables) /\ index_ok (fst tables) (snd tables).

Definition tombstones_ok (t : table) : Prop :=
  forall k v, tbl_get t k = Some v ->
    exists at_ns ip, is_u64 at_ns /\ ip_ok ip /\ k = composite_key at_ns ip.

Definition store_ok (db : Db) : Prop :=
  tables_ok (POLICIES_TABLE db, POLICY_INDEX_TABLE db) /\ tombstones_ok (TOMBSTONES_TABLE db).

(** The policy of an address, found through the index. *)
Definition look (tables : table * table) (ip : IpKey.t) : option SharedPolicy.t :=
  k ← tbl_get (snd tables) (ip_index_key ip); v ← tbl_get (fst tables) k; from_slice v.

Definition policy_of (db : Db) : IpKey.t -> option SharedPolicy.t :=
  look (POLICIES_TABLE db, POLICY_INDEX_TABLE db).

Lemma store_ok_empty : store_ok Db_empty.
Proof.
  split; [split|]; cbn; intros ? ?; rewrite ?get_empty; try done.
  split; [done|]. by intros [[? ?] _].
Qed.

Lemma index_row tables ik k :
  tables_ok tables -> tbl_get (snd tables) ik = Some k ->
  exists v p, tbl_get (fst tables) k = Some v /\ from_slice v = Some p /\ policy_ok p /\
    k = composite_key (SharedPolicy.last_seen_ns p) (SharedPolicy.ip p) /\
    ip_index_key (SharedPolicy.ip p) = ik.
Proof.
  intros [Hr Hi] E. apply Hi in E as [[v Hv] <-].
  destruct (Hr _ _ Hv) as (p&Hp&Hok&Hk). exists v, p.
  do 4 (split; [done|]). by rewrite Hk, drop_composite.
Qed.

Lemma stored_policy_look tables ip :
  tables_ok tables ->
  stored_policy (fst tables) (tbl_get (snd tables) (ip_index_key ip)) = Some (look tables ip) /\
  (forall p, look tables ip = Some p ->
     policy_ok p /\ ip_index_key (SharedPolicy.ip p) = ip_index_key ip /\
     tbl_get (snd tables) (ip_index_key ip) =
       Some (composite_key (SharedPolicy.last_seen_ns p) (SharedPolicy.ip p))) /\
  (look tables ip = None -> tbl_get (snd tables) (ip_index_key ip) = None).
Proof.
  intros Hok. unfold look, stored_policy. destruct (tbl_get (snd tables) _) as [k|] eqn:E; [|done].
  destruct (index_row _ _ _ Hok E) as (v&p&Hv&Hp&Hpok&Hk&Hip). cbn. rewrite Hv. cbn. rewrite Hp. cbn.
  split; [done|]. split; [|done]. intros q [= <-].
  do 2 (split; [done|]). congruence.
Qed.

(** Replacing or adding the row of one address keeps the tables in order. *)
Lemma tables_ok_put policies index old_key k v ik p :
  tables_ok (policies, index) -> old_key = tbl_get index ik ->
  from_slice v = Some p -> policy_ok p ->
  k = composite_key (SharedPolicy.last_seen_ns p) (SharedPolicy.ip p) ->
  ip_index_key (SharedPolicy.ip p) = ik ->
  let policies' :=
    match old_key with
    | Some old => if decide (old = k) then policies else tbl_remove old policies
    | None => policies
    end in
  let tables := (tbl_insert k v policies', tbl_insert ik k index) in
  tables_ok tables /\
  (forall ip, ip_index_key ip = ik -> look tables ip = Some p) /\
  (forall ip, ip_index_key ip <> ik -> look tables ip = look (policies, index) ip).
Proof.
  intros Hok Hold Hv Hp Hk Hik policies'.
  assert (Hdk : drop 8 k = ik) by (by rewrite Hk, drop_composite).
  (* what is left of the old rows *)
  assert (Hget : forall k', tbl_get policies' k' =
    if decide (old_key = Some k' /\ k' <> k) then None else tbl_get policies k').
  { intros k'. subst policies'. destruct old_key as [old|].
    - destruct (decide (old = k)) as [->|Hne].
      + rewrite decide_False; [done|]. intros [[= ->] ?]. done.
      + destruct (decide (old = k')) as [->|Hne'].
        * by rewrite get_remove, decide_True.
        * rewrite get_remove_ne, decide_False by (done || intuition congruence). done.
    - rewrite decide_False; [done|]. by intros []. }
  clearbody policies'. destruct Hok as [Hrows Hindex]. cbn [fst snd] in *.
  split; [split|split]; cbn [fst snd].
  - intros k' v' E. destruct (decide (k = k')) as [<-|Hne].
    + rewrite get_insert in E. injection E as <-. eauto.
    + rewrite get_insert_ne, Hget in E by done. case_decide; [done|]. eauto.
  - intros ik' k'. destruct (decide (ik = ik')) as [<-|Hne].
    + rewrite get_insert. split.
      * intros [= <-]. rewrite get_insert. eauto.
      * intros [Hs Hd]. destruct (decide (k = k')) as [<-|Hne]; [done|].
        rewrite get_insert_ne, Hget in Hs by done. case_decide as Hdec; [by destruct Hs|].
        exfalso. apply Hdec. split; [|done]. rewrite Hold. by apply Hindex.
    + rewrite get_insert_ne by done. rewrite (Hindex ik' k').
      assert (Hkk : forall k', drop 8 k' = ik' -> tbl_get (tbl_insert k v policies') k' = tbl_get policies k').
      { intros k1 Hd. assert (k <> k1) by congruence. rewrite get_insert_ne, Hget by done.
        rewrite decide_False; [done|]. intros [E _]. rewrite Hold in E. apply Hindex in E as [_ E].
        congruence. }
      split; intros [Hs Hd]; [rewrite Hkk|rewrite Hkk in Hs]; done.
  - intros ip Hip. unfold look. cbn [fst snd]. rewrite Hip, get_insert. cbn.
    by rewrite get_insert.
  - intros ip Hne. unfold look. cbn [fst snd]. rewrite get_insert_ne by done.
    destruct (tbl_get index (ip_index_key ip)) as [k'|] eqn:E; [|done]. cbn.
    pose proof (proj1 (Hindex _ _) E) as [_ Hd].
    assert (k <> k') by congruence. rewrite get_insert_ne, Hget by done.
    rewrite decide_False; [done|]. intros [E' _]. rewrite Hold in E'. apply Hindex in E' as [_ E'].
    congruence.
Qed.

(** ** Merging *)
Lemma merge_policy_ok old n name now :
  node_ok n -> is_u64 now -> (forall p, old = Some p -> policy_ok p) ->
  policy_ok (merge_policy old n name now).
Proof.
  intros Hn Hnow Hold. destruct old as [p|]; cbn; [|done].
  destruct (Hold p eq_refl) as [Hl Hip]. split; [|done]. cbn. unfold is_u64 in *. lia.
Qed.

Lemma merge_one_run tables n name now :
  tables_ok tables -> node_ok n -> is_u64 now ->
  exists tables', merge_one now name tables n = Some tables' /\ tables_ok tables' /\
    forall ip, look tables' ip =
      if decide (same_ip (NodePolicy.ip n) ip)
      then Some (merge_policy (look tables (NodePolicy.ip n)) n name now) else look tables ip.
Proof.
  intros Hok Hn Hnow. destruct tables as [policies index].
  destruct (stored_policy_look _ (NodePolicy.ip n) Hok) as (Hst&Hsome&Hnone).
  cbn [fst snd] in *. unfold merge_one. rewrite Hst. cbn.
  set (p := merge_policy _ n name now).
  destruct (from_to p) as (v&Hv&Hfrom). rewrite Hv. cbn.
  assert (Hp : policy_ok p) by (apply merge_policy_ok; [done..|]; intros q Hq; by apply Hsome).
  assert (Hip : ip_index_key (SharedPolicy.ip p) = ip_index_key (NodePolicy.ip n)).
  { subst p. destruct (look _ _) as [q|]; [|done]. cbn. by destruct (Hsome q eq_refl) as (_&?&_). }
  destruct (tables_ok_put policies index _ _ v _ p Hok eq_refl Hfrom Hp eq_refl Hip)
    as (Hok'&Heq&Hne).
  eexists. split; [reflexivity|]. split; [exact Hok'|]. intros ip.
  case_decide as Hsame; unfold same_ip in Hsame; [by apply Heq|]. apply Hne. congruence.
Qed.

(** The policy of an address after the reports of one transaction. *)
Definition merged (now : Z) (name : string) (nodes : list NodePolicy.t) (ip : IpKey.t)
    (old : option SharedPolicy.t) : option SharedPolicy.t :=
  foldl (fun old n => if decide (same_ip (NodePolicy.ip n) ip)
                      then Some (merge_policy old n name now) else old) old nodes.

Lemma look_same_ip tables a b : same_ip a b -> look tables a = look tables b.
Proof. unfold same_ip, look. by intros ->. Qed.

Lemma merge_all_run now name nodes tables :
  tables_ok tables -> Forall node_ok nodes -> is_u64 now ->
  exists tables', merge_all now name tables nodes = Some tables' /\ tables_ok tables' /\
    forall ip, look tables' ip = merged now name nodes ip (look tables ip).
Proof.
  intros Hok Hn Hnow. revert tables Hok. induction Hn as [|n nodes Hn _ IH]; intros tables Hok.
  - by exists tables.
  - destruct (merge_one_run tables n name now Hok Hn Hnow) as (t1&Hrun&Hok1&Hlook1).
    destruct (IH t1 Hok1) as (t2&Hrun2&Hok2&Hlook2). exists t2. cbn. rewrite Hrun. cbn.
    split; [done|]. split; [done|]. intros ip. rewrite Hlook2, Hlook1.
    case_decide as Hs; [|done]. by rewrite (look_same_ip _ _ _ Hs).
Qed.

Lemma rebuild_index_ok policies index :
  tables_ok (policies, index) -> rebuild_index policies index = Some index.
Proof.
  intros [Hr Hi]. unfold rebuild_index.
  destruct (Z.eqb_spec (tbl_len index) 0) as [E|]; [|done].
  destruct (Z.gtb_spec (tbl_len policies) 0) as [Hlen|]; [|done]. exfalso.
  unfold tbl_len in Hlen. destruct (tbl_iter policies) as [|[k v] rows] eqn:Hrows; [cbn in Hlen; lia|].
  assert (Hk : tbl_get policies k = Some v) by (apply iter_get; rewrite Hrows; by left).
  pose proof (proj2 (Hi (drop 8 k) k)) as H. cbn in H. rewrite (tbl_len_zero _ E) in H.
  rewrite Hk in H. discriminate H. eauto.
Qed.

Lemma merge_chunk_run now name nodes db :
  store_ok db -> Forall node_ok nodes -> is_u64 now ->
  exists db', merge_chunk now name nodes db = Some (Z.of_nat (length nodes), db') /\
    store_ok db' /\ TOMBSTONES_TABLE db' = TOMBSTONES_TABLE db /\
    forall ip, policy_of db' ip = merged now name nodes ip (policy_of db ip).
Proof.
  intros [Hok Ht] Hn Hnow. unfold merge_chunk. rewrite rebuild_index_ok by done. cbn.
  destruct (merge_all_run now name nodes _ Hok Hn Hnow) as ([p i]&Hrun&Hok'&Hlook).
  rewrite Hrun. cbn. eexists. split; [reflexivity|]. done.
Qed.

(** The policies [after] hold what those [before] held and every report. *)
Definition absorbed (name : string) (since : Z) (nodes : list NodePolicy.t)
    (before after : IpKey.t -> option SharedPolicy.t) : Prop :=
  forall ip,
    (Forall (fun n => ~ same_ip (NodePolicy.ip n) ip) nodes -> after ip = before ip) /\
    (forall p, before ip = Some p -> exists q, after ip = Some q /\ stronger p q) /\
    (forall n, n ∈ nodes -> same_ip (NodePolicy.ip n) ip ->
       exists q, after ip = Some q /\ includes name since n q).

Lemma absorbed_app name since nodes1 nodes2 f g h :
  absorbed name since nodes1 f g -> absorbed name since nodes2 g h ->
  absorbed name since (nodes1 ++ nodes2) f h.
Proof.
  intros H1 H2 ip. destruct (H1 ip) as (A1&B1&C1), (H2 ip) as (A2&B2&C2).
  rewrite Forall_app. split; [intros [? ?]; by rewrite A2, A1|]. split.
  - intros p Hp. destruct (B1 p Hp) as (q&Hq&Hpq). destruct (B2 q Hq) as (r&Hr&Hqr). exists r. split; [done|]. by transitivity q.
  - intros n Hn Hs. apply elem_of_app in Hn as [Hn|Hn]; [|by apply C2].
    destruct (C1 n Hn Hs) as (q&Hq&Hi). destruct (B2 q Hq) as (r&Hr&Hqr). exists r. split; [done|].
    by eapply includes_stronger.
Qed.

Lemma absorbed_merged name since now nodes f g :
  since <= now -> (forall ip, g ip = merged now name nodes ip (f ip)) ->
  absorbed name since nodes f g.
Proof.
  intros Hnow Hg ip. rewrite Hg. clear g Hg. generalize (f ip) as old. clear f.
  induction nodes as [|n nodes IH]; intros old; cbn [merged foldl].
  - split; [done|]. split; [intros p ->; by exists p|]. intros n Hn. by apply not_elem_of_nil in Hn.
  - fold (merged now name nodes ip
            (if decide (same_ip (NodePolicy.ip n) ip) then Some (merge_policy old n name now) else old)).
    destruct (IH (if decide (same_ip (NodePolicy.ip n) ip) then Some (merge_policy old n name now)
                  else old)) as (A&B&C). split; [|split].
    + intros HF. apply list.Forall_cons in HF as [Hn HF]. rewrite A by done. by rewrite decide_False.
    + intros p ->. destruct (decide _) as [Hs|Hs]; [|by apply B].
      destruct (B _ eq_refl) as (q&Hq&Hst). exists q. split; [done|].
      transitivity (merge_policy (Some p) n name now); [apply merge_policy_stronger|done].
    + intros m Hm Hs. apply elem_of_cons in Hm as [->|Hm]; [|by apply C].
      rewrite decide_True in B |- * by done. destruct (B _ eq_refl) as (q&Hq&Hst).
      exists q. split; [done|]. eapply includes_stronger; [|exact Hst].
      destruct (merge_policy_includes old n name now) as (I1&I2&I3&I4&I5&I6).
      unfold includes. repeat split; auto; lia.
Qed.

Lemma merge_chunks_run since name parts now n0 db :
  store_ok db -> Forall (Forall node_ok) parts -> (forall i, is_u64 (now i)) ->
  (forall i, since <= now i) ->
  exists db', merge_chunks now name parts n0 db =
                (Some (n0 + Z.of_nat (length (concat parts))), db') /\
    store_ok db' /\ TOMBSTONES_TABLE db' = TOMBSTONES_TABLE db /\
    absorbed name since (concat parts) (policy_of db) (policy_of db').
Proof.
  intros Hok Hp. revert now n0 db Hok.
  induction Hp as [|part parts Hpart _ IH]; intros now n0 db Hok Hnow Hsince; cbn [merge_chunks].
  - exists db. cbn. rewrite Z.add_0_r. split; [done|]. split; [done|]. split; [done|].
    by apply (absorbed_merged name since since); [lia|].
  - destruct (merge_chunk_run (now O) name part db Hok Hpart (Hnow O)) as (db1&->&Hok1&Ht1&Hp1).
    destruct (IH (fun i => now (S i)) (n0 + Z.of_nat (length part)) db1 Hok1) as (db2&->&Hok2&Ht2&Hp2);
      [auto|auto|].
    exists db2. cbn [concat]. rewrite length_app. split; [do 2 f_equal; lia|]. split; [done|].
    split; [congruence|]. eapply absorbed_app; [|exact Hp2].
    by apply (absorbed_merged name since (now O)).
Qed.

(** Merging a list of reports of any length. *)
Lemma merge_absorbed name since nodes now db :
  store_ok db -> Forall node_ok nodes -> (forall i, is_u64 (now i)) -> (forall i, since <= now i) ->
  exists db', merge now name nodes db = (Some (Z.of_nat (length nodes)), db') /\
    store_ok db' /\ TOMBSTONES_TABLE db' = TOMBSTONES_TABLE db /\
    absorbed name since nodes (policy_of db) (policy_of db').
Proof.
  intros Hok Hn Hnow Hsince. unfold merge. destruct (_ <=? _)%nat.
  - destruct (merge_chunk_run (now O) name nodes db Hok Hn (Hnow O)) as (db1&->&Hok1&Ht1&Hp1).
    exists db1. do 3 (split; [done|]). by apply (absorbed_merged name since (now O)).
  - pose proof (concat_chunks CHUNK nodes ltac:(unfold CHUNK; lia)) as Hc.
    destruct (merge_chunks_run since name (chunks CHUNK nodes) now 0 db Hok)
      as (db1&Hrun&Hok1&Ht1&Hp1); [|done|done|].
    { apply list.Forall_forall. intros part Hpart. rewrite <- Hc in Hn.
      apply list.Forall_forall. intros n Hin. rewrite list.Forall_forall in Hn. apply Hn.
      apply list_elem_of_In, in_concat. exists part. by rewrite <- !list_elem_of_In. }
    rewrite Hc in Hrun, Hp1. by exists db1.
Qed.

(** C31: merging reports.  Storing the reports of a node in a consistent
    database succeeds whatever their number, and leaves a consistent database
    and the tombstones alone.  Every policy there was is still there and at
    least as strong: a permanent block stays permanent, hit counts and times to
    live do not fall, trust does not rise, no reporting node is forgotten.
    Every report is part of the policy of its address, and the policy of an
    address without a report is untouched. *)
Theorem merge_absorbs since name nodes now db :
  store_ok db -> Forall node_ok nodes -> (forall i, is_u64 (now i)) -> (forall i, since <= now i) ->
  exists db', merge now name nodes db = (Some (Z.of_nat (length nodes)), db') /\
    store_ok db' /\ TOMBSTONES_TABLE db' = TOMBSTONES_TABLE db /\
    absorbed name since nodes (policy_of db) (policy_of db').
Proof.
  apply merge_absorbed.
Qed.
(** ** Removing *)
Lemma row_key_inj tables k1 k2 :
  tables_ok tables -> is_Some (tbl_get (fst tables) k1) -> is_Some (tbl_get (fst tables) k2) ->
  drop 8 k1 = drop 8 k2 -> k1 = k2.
Proof.
  intros [_ Hi] H1 H2 E. pose proof (proj2 (Hi _ _) (conj H1 eq_refl)) as E1.
  pose proof (proj2 (Hi _ _) (conj H2 eq_refl)) as E2. congruence.
Qed.

(** Removing rows together with their index entries. *)
Lemma tables_ok_remove policies index ks iks :
  tables_ok (policies, index) ->
  (forall k, is_Some (tbl_get policies k) -> (k ∈ ks <-> drop 8 k ∈ iks)) ->
  let tables := (remove_keys ks policies, remove_keys iks index) in
  tables_ok tables /\
  forall ip, look tables ip = if decide (ip_index_key ip ∈ iks) then None else look (policies, index) ip.
Proof.
  intros [Hr Hi] Hks. cbn [fst snd] in *. unfold remove_keys. split; [split|]; cbn [fst snd].
  - intros k v. rewrite get_foldr_remove. case_decide; [done|]. apply Hr.
  - intros ik k. rewrite !get_foldr_remove. destruct (decide (k ∈ ks)) as [Hk|Hk].
    + split; [|by intros [[? ?] _]]. case_decide as Hik; [done|]. intros E. apply Hi in E as [Hs <-].
      exfalso. apply Hik. by apply Hks.
    + case_decide as Hik.
      * split; [done|]. intros [Hs <-]. exfalso. apply Hk. by apply Hks.
      * apply Hi.
  - intros ip. unfold look. cbn [fst snd]. rewrite get_foldr_remove. case_decide as Hik; [done|].
    destruct (tbl_get index _) as [k|] eqn:E; [|done]. cbn. apply Hi in E as [Hs Hd].
    rewrite get_foldr_remove, decide_False; [done|]. intros Hk. apply Hik. rewrite <- Hd. by apply Hks.
Qed.

Lemma iter_row tables k v :
  tables_ok tables -> (k, v) ∈ tbl_iter (fst tables) ->
  is_Some (tbl_get (fst tables) k) /\
  exists p, from_slice v = Some p /\ policy_ok p /\
    k = composite_key (SharedPolicy.last_seen_ns p) (SharedPolicy.ip p) /\
    look tables (SharedPolicy.ip p) = Some p.
Proof.
  intros [Hr Hi] Hin. apply iter_get in Hin. split; [eauto|].
  destruct (Hr _ _ Hin) as (p&Hp&Hpok&Hk). exists p. do 3 (split; [done|]). unfold look.
  assert (tbl_get (snd tables) (ip_index_key (SharedPolicy.ip p)) = Some k) as ->.
  { apply Hi. split; [eauto|]. by rewrite Hk, drop_composite. }
  cbn. by rewrite Hin.
Qed.

Lemma stale_policies_run now rows (f : bytes * bytes -> SharedPolicy.t) :
  (forall row, row ∈ rows -> from_slice (snd row) = Some (f row)) ->
  exists stale, stale_policies now rows = Some stale /\
    forall k ip, (k, ip) ∈ stale <->
      exists v, (k, v) ∈ rows /\ expired now (f (k, v)) = true /\ ip = SharedPolicy.ip (f (k, v)).
Proof.
  induction rows as [|[k v] rows IH]; intros Hf; cbn [stale_policies].
  - exists []. split; [done|]. intros k ip. split; [intros H; by apply not_elem_of_nil in H|].
    intros (v&H&_). by apply not_elem_of_nil in H.
  - destruct IH as (stale&->&Hst). { intros row Hr. apply Hf. by right. }
    pose proof (Hf (k, v) ltac:(by left)) as Hv. cbn in Hv. rewrite Hv. cbn. eexists. split; [reflexivity|]. intros k' ip.
    setoid_rewrite elem_of_cons. case_match eqn:E; rewrite ?elem_of_cons, Hst; split.
    + intros [[= -> ->]|(w&?&?&?)]; eauto 7.
    + intros (w&[[= -> ->]|?]&?&->); eauto 7.
    + intros (w&?&?&?). eauto 7.
    + intros (w&[[= -> ->]|?]&?&->); [congruence|]. eauto 7.
Qed.

Lemma remove_keys_get ks t k :
  tbl_get (remove_keys ks t) k = if decide (k ∈ ks) then None else tbl_get t k.
Proof. apply get_foldr_remove. Qed.

Lemma tombstones_ok_remove ks t : tombstones_ok t -> tombstones_ok (remove_keys ks t).
Proof. intros H k v. rewrite remove_keys_get. case_decide; [done|]. apply H. Qed.

(** A row is found through the index exactly under its own key. *)
Lemma look_row tables ip p :
  tables_ok tables -> look tables ip = Some p ->
  exists v, (composite_key (SharedPolicy.last_seen_ns p) (SharedPolicy.ip p), v) ∈ tbl_iter (fst tables) /\
    from_slice v = Some p /\ same_ip (SharedPolicy.ip p) ip.
Proof.
  intros Hok E. destruct (stored_policy_look _ ip Hok) as (_&Hs&_).
  destruct (Hs p E) as (_&Hip&Hidx). unfold look in E. rewrite Hidx in E. cbn in E.
  destruct (tbl_get (fst tables) _) as [v|] eqn:Hv; [|done]. cbn in E.
  exists v. split; [by apply iter_get|done].
Qed.

(** The stale entries of the policy table, by address. *)
Lemma stale_entries now policies index :
  tables_ok (policies, index) ->
  exists stale, stale_policies now (tbl_iter policies) = Some stale /\
    forall k ip, (k, ip) ∈ stale <->
      exists p, look (policies, index) ip = Some p /\ ip = SharedPolicy.ip p /\
        k = composite_key (SharedPolicy.last_seen_ns p) ip /\ expired now p = true.
Proof.
  intros Hok.
  set (f := fun row : bytes * bytes => default (SharedPolicy.mk IpKey_default 0 0 0 0 0 [] 0)
                                         (from_slice (snd row))).
  assert (Hf : forall k v p, from_slice v = Some p -> f (k, v) = p).
  { intros k v p Hp. subst f. cbn. by rewrite Hp. }
  destruct (stale_policies_run now (tbl_iter policies) f) as (stale&->&Hst).
  { intros [k v] Hin. destruct (iter_row _ _ _ Hok Hin) as (_&p&Hp&_). by rewrite (Hf _ _ _ Hp). }
  exists stale. split; [done|]. intros k ip. rewrite Hst. split.
  - intros (v&Hin&He&->). destruct (iter_row _ _ _ Hok Hin) as (_&p&Hp&_&Hk&Hl).
    rewrite (Hf _ _ _ Hp) in He |- *. eauto.
  - intros (p&Hl&->&->&He). destruct (look_row _ _ _ Hok Hl) as (v&Hin&Hp&_).
    exists v. by rewrite (Hf _ _ _ Hp).
Qed.

Lemma stale_tombstones_get now ttl t k :
  tbl_get (remove_keys (stale_tombstones now ttl (tbl_iter t)) t) k =
    if saturating_add 64 (key_time k) ttl <? now then None else tbl_get t k.
Proof.
  rewrite remove_keys_get. unfold stale_tombstones.
  destruct (Z.ltb_spec (saturating_add 64 (key_time k) ttl) now) as [Hlt|Hge].
  - case_decide as Hin; [done|]. destruct (tbl_get _ k) as [v|] eqn:E; [|done]. exfalso. apply Hin.
    apply list_elem_of_fmap. exists (k, v). split; [done|]. apply list_elem_of_filter.
    split; [done|]. by apply iter_get.
  - rewrite decide_False; [done|]. intros Hin. apply list_elem_of_fmap in Hin as ([k' v]&->&Hin).
    apply list_elem_of_filter in Hin as [Hlt _]. cbn in *. lia.
Qed.

Lemma prune_run now ttl db :
  store_ok db ->
  exists n m db', prune now ttl db = Some ((n, m), db') /\ store_ok db' /\
    (forall ip, policy_of db' ip =
       p ← policy_of db ip; if expired now p then None else Some p) /\
    (forall k, tbl_get (TOMBSTONES_TABLE db') k =
       if saturating_add 64 (key_time k) ttl <? now then None else tbl_get (TOMBSTONES_TABLE db) k).
Proof.
  intros [Hok Ht]. unfold prune. destruct (stale_entries now _ _ Hok) as (stale&->&Hst). cbn.
  do 3 eexists. split; [reflexivity|].
  destruct (tables_ok_remove _ _ (map fst stale) (map (fun r => ip_index_key (snd r)) stale) Hok)
    as [Hok' Hlook].
  { intros k Hk. rewrite !list_elem_of_fmap. split; intros ([k' ip]&E&Hin); exists (k', ip);
      (split; [|done]); cbn in *; apply Hst in Hin as (p&Hl&->&Hk'&_).
    - by rewrite E, Hk', drop_composite.
    - apply (row_key_inj _ _ _ Hok Hk); [|by rewrite Hk', drop_composite].
      destruct (look_row _ _ _ Hok Hl) as (v&Hin&_). apply iter_get in Hin. cbn in Hin. rewrite Hk'. eauto. }
  split; [split; [exact Hok'|by apply tombstones_ok_remove]|].
  split; [|intros k; apply stale_tombstones_get].
  intros ip. unfold policy_of at 1. cbn. rewrite Hlook. unfold policy_of.
  destruct (look _ ip) as [p|] eqn:E; cbn; [|by case_decide].
  destruct (look_row _ _ _ Hok E) as (v&_&_&Hs). destruct (expired now p) eqn:He.
  - rewrite decide_True; [done|]. apply list_elem_of_fmap.
    exists (composite_key (SharedPolicy.last_seen_ns p) (SharedPolicy.ip p), SharedPolicy.ip p).
    split; [by symmetry|]. apply Hst. exists p. by rewrite (look_same_ip _ _ _ Hs).
  - rewrite decide_False; [done|]. intros Hin. apply list_elem_of_fmap in Hin as ([k ip']&Heq&Hin).
    apply Hst in Hin as (p'&Hl&_&_&He'). cbn in Heq. rewrite (look_same_ip _ ip' ip) in Hl by done.
    congruence.
Qed.

(** ** Deleting *)
Lemma rows_of_ip_none policies index ip :
  tables_ok (policies, index) -> tbl_get index (ip_index_key ip) = None ->
  rows_of_ip ip (tbl_iter policies) = Some [].
Proof.
  intros Hok Hnone.
  assert (H : forall row, row ∈ tbl_iter policies ->
    exists p, from_slice (snd row) = Some p /\ SharedPolicy.ip p <> ip).
  { intros [k v] Hin. destruct (iter_row _ _ _ Hok Hin) as (_&p&Hp&_&_&Hl). exists p. split; [done|].
    intros <-. unfold look in Hl. cbn in Hl. by rewrite Hnone in Hl. }
  induction (tbl_iter policies) as [|[k v] rows IH]; [done|]. cbn.
  destruct (H (k, v)) as (p&Hp&Hne); [by left|]. cbn in Hp. rewrite Hp. cbn.
  rewrite IH by (intros row Hr; apply H; by right). cbn. by rewrite decide_False.
Qed.

Lemma delete_one_run tables n ip :
  tables_ok tables ->
  exists tables', delete_one (tables, n) ip =
      Some (tables', if bool_decide (is_Some (look tables ip)) then n + 1 else n) /\
    tables_ok tables' /\
    forall ip', look tables' ip' = if decide (same_ip ip ip') then None else look tables ip'.
Proof.
  intros Hok. destruct tables as [policies index]. unfold delete_one.
  destruct (stored_policy_look _ ip Hok) as (_&Hs&Hn). cbn [fst snd] in *.
  assert (Hdec : forall tables' : table * table, (forall ip', look tables' ip' =
      if decide (ip_index_key ip' ∈ [ip_index_key ip]) then None else look (policies, index) ip') ->
    forall ip', look tables' ip' = if decide (same_ip ip ip') then None else look (policies, index) ip').
  { intros tables' H ip'. rewrite H. apply decide_ext. rewrite list_elem_of_singleton.
    unfold same_ip. intuition congruence. }
  destruct (tbl_get index (ip_index_key ip)) as [k|] eqn:Hidx.
  - destruct (index_row _ _ _ Hok Hidx) as (v&p&Hv&Hp&_&Hk&Hip). cbn [fst] in Hv.
    assert (Hl : look (policies, index) ip = Some p).
    { unfold look. cbn. rewrite Hidx. cbn. by rewrite Hv. }
    rewrite Hv, Hl. eexists. split; [reflexivity|].
    destruct (tables_ok_remove _ _ [k] [ip_index_key ip] Hok) as [Hok' Hlook].
    { intros k' Hk'. rewrite !list_elem_of_singleton. split; [intros ->; by rewrite Hk, drop_composite|].
      intros Hd. apply (row_key_inj _ _ _ Hok Hk'); [by exists v|]. by rewrite Hd, Hk, drop_composite. }
    split; [exact Hok'|]. by apply Hdec.
  - rewrite (rows_of_ip_none _ _ _ Hok Hidx). cbn.
    assert (Hl : look (policies, index) ip = None) by (unfold look; cbn; by rewrite Hidx).
    rewrite Hl, Z.add_0_r. eexists. split; [reflexivity|].
    destruct (tables_ok_remove _ _ [] [ip_index_key ip] Hok) as [Hok' Hlook].
    { intros k' [v Hk']. rewrite list_elem_of_singleton. split; [intros H; by apply not_elem_of_nil in H|].
      intros Hd. assert (Hi : tbl_get index (drop 8 k') = Some k') by (apply Hok; cbn; eauto). congruence. }
    split; [exact Hok'|]. by apply Hdec.
Qed.

Lemma delete_all_run ips tables n :
  tables_ok tables ->
  exists tables' n', delete_all (tables, n) ips = Some (tables', n') /\ tables_ok tables' /\
    n <= n' /\
    forall ip, look tables' ip = if decide (Exists (fun d => same_ip d ip) ips) then None else look tables ip.
Proof.
  revert tables n. induction ips as [|d ips IH]; intros tables n Hok; cbn [delete_all].
  - exists tables, n. do 2 (split; [done|]). split; [lia|]. intros ip. rewrite decide_False; [done|].
    by intros ?%List.Exists_nil.
  - destruct (delete_one_run tables n d Hok) as (t1&->&Hok1&Hl1). cbn.
    destruct (IH t1 (if bool_decide (is_Some (look tables d)) then n + 1 else n) Hok1)
      as (t2&n2&Hrun&Hok2&Hle&Hl2).
    exists t2, n2. split; [exact Hrun|]. split; [done|]. split; [case_bool_decide; lia|].
    intros ip. rewrite Hl2, Hl1. case_decide as He.
    + rewrite decide_True; [done|]. apply List.Exists_cons. by right.
    + apply decide_ext. rewrite List.Exists_cons. tauto.
Qed.

Lemma add_tombstones_get now ips t k :
  tbl_get (add_tombstones now ips t) k =
    if decide (k ∈ map (composite_key now) ips) then Some [] else tbl_get t k.
Proof.
  unfold add_tombstones. revert t. induction ips as [|ip ips IH]; intros t; cbn.
  - by rewrite decide_False by apply not_elem_of_nil.
  - rewrite IH. destruct (decide (composite_key now ip = k)) as [<-|Hne].
    + rewrite get_insert, (decide_True (P := composite_key now ip ∈ _ :: _)) by left. by case_decide.
    + rewrite get_insert_ne by done. apply decide_ext. rewrite elem_of_cons. intuition congruence.
Qed.

Lemma delete_policies_run now ips db :
  store_ok db -> Forall ip_ok ips -> is_u64 now ->
  exists n db', delete_policies now ips db = Some (n, db') /\ store_ok db' /\
    (forall ip, policy_of db' ip =
       if decide (Exists (fun d => same_ip d ip) ips) then None else policy_of db ip) /\
    (forall k, tbl_get (TOMBSTONES_TABLE db') k =
       if decide (k ∈ map (composite_key now) ips) then Some [] else tbl_get (TOMBSTONES_TABLE db) k).
Proof.
  intros [Hok Ht] Hips Hnow. unfold delete_policies. case_bool_decide as Hnil.
  - subst ips. exists 0, db. do 2 (split; [done|]). split; intros x; (rewrite decide_False; [done|]);
      [by intros ?%List.Exists_nil|apply not_elem_of_nil].
  - destruct (delete_all_run ips _ 0 Hok) as ([p i]&n&->&Hok'&_&Hlook). cbn.
    do 2 eexists. split; [reflexivity|]. split; [split; [exact Hok'|]|].
    + intros k v. cbn. rewrite add_tombstones_get. case_decide as Hin; [|apply Ht].
      intros _. apply list_elem_of_fmap in Hin as (ip&->&Hin). exists now, ip.
      rewrite list.Forall_forall in Hips. eauto.
    + split; [exact Hlook|]. intros k. apply add_tombstones_get.
Qed.
End Store.
