(* ===== verification/HubQuery.v ===== *)
(** * HubQuery: the paged queries of the policy store

    A query returns the rows of a time interval, never cuts through the rows of
    one timestamp, and its cursor is the end of that interval; polling from
    cursor to cursor therefore returns every row once.  The second half is the
    store as a whole: every sequence of reports, deletions and clean-ups runs
    without error on consistent tables. *)
From stdpp Require Import strings countable.
From Stdlib Require Import Sorted.
From S2P Require Import Prelude Words Common Redb HubStore HubStoreProps.
#[local] Open Scope Z_scope.

(** ** The scan of a query *)
Section Scan.
Context {A : Type} (parse : bytes * bytes -> option A) (item : bytes * bytes -> A)
  (since limit : Z).

Definition time_of (row : bytes * bytes) : Z := key_time (fst row).

(** The rows with a time in the half-open interval. *)
Definition between (lo hi : Z) (rows : list (bytes * bytes)) : list (bytes * bytes) :=
  filter (fun row => lo < time_of row <= hi) rows.

Lemma scan_rows_skip rows cutoff out cursor :
  scan_rows parse since limit rows cutoff out cursor =
  scan_rows parse since limit (filter (fun row => since < time_of row) rows) cutoff out cursor.
Proof.
  revert cutoff out cursor. induction rows as [|row rows IH]; intros cutoff out cursor; [done|].
  rewrite filter_cons. cbn [scan_rows]. fold (time_of row).
  destruct (Z.leb_spec (time_of row) since) as [Hle|Hgt].
  - rewrite decide_False by lia. apply IH.
  - rewrite decide_True by lia. cbn [scan_rows]. fold (time_of row).
    rewrite (proj2 (Z.leb_gt _ _)) by lia.
    destruct cutoff; [case_match; [done|]|]; destruct (parse row); cbn; auto.
Qed.

Definition time_sorted (rows : list (bytes * bytes)) : Prop :=
  StronglySorted (fun a b => time_of a <= time_of b) rows.

(** The scan splits newer rows in time order into those returned and those
    behind the cursor, and it stops early only with a full page. *)
Lemma scan_rows_split rows cutoff out cursor :
  time_sorted rows -> Forall (fun row => since < time_of row) rows ->
  (forall row, row ∈ rows -> parse row = Some (item row)) ->
  match cutoff with
  | Some c => cursor = c /\ Forall (fun row => c <= time_of row) rows /\ limit <= Z.of_nat (length out)
  | None => Forall (fun row => cursor <= time_of row) rows
  end ->
  exists pre post cursor',
    rows = pre ++ post /\
    scan_rows parse since limit rows cutoff out cursor = Some (out ++ map item pre, cursor') /\
    cursor <= cursor' /\
    Forall (fun row => time_of row <= cursor') pre /\ Forall (fun row => cursor' < time_of row) post /\
    (post = [] \/ limit <= Z.of_nat (length (out ++ map item pre))) /\
    (cursor' = cursor /\ pre = [] \/ exists row, row ∈ pre /\ cursor' = time_of row).
Proof.
  revert cutoff out cursor. induction rows as [|row rows IH];
    intros cutoff out cursor Hs Hnew Hparse Hc.
  - exists [], [], cursor. cbn [map scan_rows]. rewrite !app_nil_r. do 2 (split; [done|]).
    split; [lia|]. auto 6.
  - apply StronglySorted_inv in Hs as [Hs Hrow]. apply list.Forall_cons in Hnew as [Hr Hnew].
    cbn [scan_rows]. fold (time_of row). rewrite (proj2 (Z.leb_gt _ _)) by lia.
    assert (Hstep : forall cutoff', match cutoff' with
        | Some c => time_of row = c /\ Forall (fun r => c <= time_of r) rows /\
                    limit <= Z.of_nat (length (out ++ [item row]))
        | None => Forall (fun r => time_of row <= time_of r) rows end -> cursor <= time_of row ->
      exists pre post cursor', row :: rows = pre ++ post /\
        (i ← parse row; scan_rows parse since limit rows cutoff' (out ++ [i]) (time_of row)) =
          Some (out ++ map item pre, cursor') /\ cursor <= cursor' /\
        Forall (fun r => time_of r <= cursor') pre /\ Forall (fun r => cursor' < time_of r) post /\
        (post = [] \/ limit <= Z.of_nat (length (out ++ map item pre))) /\
        (cursor' = cursor /\ pre = [] \/ exists row, row ∈ pre /\ cursor' = time_of row)).
    { intros cutoff' Hc' Hle. rewrite (Hparse row) by left. cbn.
      destruct (IH cutoff' (out ++ [item row]) (time_of row) Hs Hnew) as
        (pre&post&cursor'&Heq&Hscan&Hcur&Hpre&Hpost&Hlen&Hlast); [intros r Hin; apply Hparse; by right|done|].
      exists (row :: pre), post, cursor'. rewrite <- app_assoc in Hscan, Hlen. cbn in Hscan, Hlen |- *.
      split; [by rewrite Heq|]. split; [done|]. split; [lia|]. split; [constructor; [lia|done]|].
      split; [done|]. split; [exact Hlen|]. right.
      destruct Hlast as [[-> ->]|(r&Hin&->)]; [exists row; by rewrite elem_of_cons; auto|].
      exists r. split; [by right|done]. }
    destruct cutoff as [c|].
    + destruct Hc as (->&Hge&Hlen). apply list.Forall_cons in Hge as [Hge Hge'].
      destruct (Z.eqb_spec (time_of row) c) as [Heq|Hne]; cbn [negb].
      * apply Hstep; [|lia]. split; [done|]. split; [done|]. rewrite length_app. cbn. lia.
      * exists [], (row :: rows), c. cbn [map app]. rewrite !app_nil_r. do 2 (split; [done|]). split; [lia|].
        split; [constructor|]. split; [|auto 6]. constructor; [lia|]. eapply list.Forall_impl; [exact Hrow|]. cbn. intros; lia.
    + apply list.Forall_cons in Hc as [Hc _]. rewrite Z.geb_leb.
      destruct (Z.leb_spec limit (Z.of_nat (length out))) as [Hlen|Hlen]; apply Hstep; try lia; [|done].
      split; [done|]. split; [done|]. rewrite length_app. cbn. lia.
Qed.

(** The page: the rows between the two cursors, and a full page unless
    everything newer was returned. *)
Lemma scan_rows_page rows :
  time_sorted rows -> (forall row, row ∈ rows -> parse row = Some (item row)) ->
  exists cursor, scan_rows parse since limit rows None [] since =
      Some (map item (between since cursor rows), cursor) /\ since <= cursor /\
    ((forall row, row ∈ rows -> time_of row <= cursor) \/
     limit <= Z.of_nat (length (between since cursor rows))) /\
    (cursor = since /\ between since cursor rows = [] \/
     exists row, row ∈ between since cursor rows /\ cursor = time_of row).
Proof.
  intros Hs Hparse. rewrite scan_rows_skip. set (newer := filter _ rows).
  assert (Hnew : Forall (fun row => since < time_of row) newer) by apply Forall_filter_self.
  assert (Hsn : time_sorted newer).
  { subst newer. clear Hparse Hnew. induction Hs as [|row rows Hs IH Hrow]; [constructor|].
    rewrite filter_cons. case_decide; [|done]. constructor; [done|]. apply list.Forall_forall.
    intros r Hr. apply list_elem_of_filter in Hr as [_ Hr]. rewrite list.Forall_forall in Hrow. auto. }
  destruct (scan_rows_split newer None [] since Hsn Hnew) as
    (pre&post&cursor&Heq&Hscan&Hcur&Hpre&Hpost&Hlen&Hlast).
  { intros row Hr. apply list_elem_of_filter in Hr as [_ Hr]. auto. }
  { eapply list.Forall_impl; [exact Hnew|]. cbn. intros; lia. }
  assert (Hbetween : between since cursor rows = pre).
  { assert (H : between since cursor rows = filter (fun row => time_of row <= cursor) newer).
    { subst newer. unfold between. rewrite list_filter_filter. apply list_filter_iff. intros; lia. }
    rewrite H, Heq, list.filter_app, (filter_all _ pre) by done.
    rewrite filter_none, app_nil_r; [done|]. eapply list.Forall_impl; [exact Hpost|]. cbn. intros; lia. }
  exists cursor. rewrite Hbetween. cbn in Hscan, Hlen. split; [done|]. split; [done|].
  split; [|exact Hlast]. rewrite length_map in Hlen. destruct Hlen as [->|Hlen]; [|by right]. left.
  intros row Hr. destruct (Z.le_gt_cases (time_of row) cursor) as [|Hgt]; [done|]. exfalso.
  rewrite app_nil_r in Heq. rewrite list.Forall_forall in Hpre. subst pre.
  specialize (Hpre row). assert (row ∈ newer) by (apply list_elem_of_filter; split; [lia|done]).
  specialize (Hpre H). lia.
Qed.
End Scan.

(** The rows newer than a cursor. *)
Definition after (since : Z) (rows : list (bytes * bytes)) : list (bytes * bytes) :=
  filter (fun row => since < time_of row) rows.

Lemma after_between since cursor rows :
  time_sorted rows -> since <= cursor ->
  after since rows = between since cursor rows ++ after cursor rows.
Proof.
  intros Hs Hle. unfold after, between. induction Hs as [|row rows Hs IH Hrow]; [done|].
  rewrite !filter_cons. destruct (decide (since < time_of row <= cursor)) as [Hin|Hout].
  - rewrite decide_True, (decide_False (P := cursor < time_of row)) by lia. by rewrite IH.
  - destruct (decide (since < time_of row)) as [Hn|Hn]; [|by rewrite decide_False by lia].
    rewrite decide_True by lia.
    rewrite (filter_none (fun row => since < time_of row <= cursor)); cbn.
    + f_equal. rewrite !filter_all; [done|..];
        (eapply list.Forall_impl; [exact Hrow|]; cbn; intros; lia).
    + eapply list.Forall_impl; [exact Hrow|]. cbn. intros; lia.
Qed.

(** ** Polling *)

(** [n] queries in a row, each from the cursor of the one before. *)
Fixpoint poll {A} (query : Z -> option (list A * Z)) (n : nat) (since : Z) : option (list A * Z) :=
  match n with
  | O => Some ([], since)
  | S n =>
      r ← query since;
      rest ← poll query n (snd r);
      Some (fst r ++ fst rest, snd rest)
  end.

Section Poll.
Context {A : Type} (parse : bytes * bytes -> option A) (item : bytes * bytes -> A) (limit : Z)
  (rows : list (bytes * bytes)) (query : Z -> option (list A * Z)).
Context (limit_pos : 0 < limit) (sorted : time_sorted rows)
  (times : forall row, row ∈ rows -> is_u64 (time_of row))
  (parses : forall row, row ∈ rows -> parse row = Some (item row))
  (query_eq : forall since, is_u64 since ->
     query since = scan_rows parse since limit rows None [] since).

Lemma poll_complete n since :
  is_u64 since -> (length (after since rows) <= n)%nat ->
  exists cursor, poll query n since = Some (map item (after since rows), cursor) /\
    after cursor rows = [].
Proof.
  revert since. induction n as [|n IH]; intros since Hu Hlen; cbn [poll].
  - destruct (after since rows) eqn:E; [|cbn in Hlen; lia]. by exists since.
  - rewrite query_eq by done.
    destruct (scan_rows_page parse item since limit rows sorted parses)
      as (cursor&->&Hcur&Hfull&Hlast). cbn.
    pose proof (after_between since cursor rows sorted Hcur) as Hsplit.
    assert (Hu' : is_u64 cursor).
    { destruct Hlast as [[-> _]|(row&Hin&->)]; [done|]. apply times.
      by apply list_elem_of_filter in Hin as [_ ?]. }
    destruct (IH cursor Hu') as (last&->&Hend).
    + rewrite Hsplit, length_app in Hlen. destruct (between since cursor rows) eqn:Eb; [|cbn in Hlen; lia].
      cbn in Hlen. destruct Hfull as [Hall|Hfull]; [|cbn in Hfull; lia].
      unfold after. rewrite filter_none; [cbn; lia|]. apply list.Forall_forall. intros r Hr.
      specialize (Hall r Hr). lia.
    + cbn. exists last. by rewrite Hsplit, map_app.
Qed.
End Poll.

Section Queries.
Context {R : Redb} {RL : RedbLaws R} {J : PolicyJson} {JL : PolicyJsonLaws J}.

(** Rows under composite keys come in the order of their times. *)
Definition keyed (rows : list (bytes * bytes)) : Prop :=
  forall row, row ∈ rows -> exists t ip, is_u64 t /\ ip_ok ip /\ fst row = composite_key t ip.

Lemma keyed_sorted rows : keyed rows -> StronglySorted bytes_lt (map fst rows) -> time_sorted rows.
Proof.
  intros Hk. induction rows as [|row rows IH]; cbn [map]; intros Hs; [constructor|].
  apply StronglySorted_inv in Hs as [Hs Hrow]. constructor.
  - apply IH; [|done]. intros r Hr. apply Hk. by right.
  - apply list.Forall_forall. intros r Hr. destruct (Hk row) as (t1&ip1&Ht1&_&E1); [by left|].
    destruct (Hk r) as (t2&ip2&Ht2&_&E2); [by right|]. unfold time_of. rewrite E1, E2.
    rewrite !key_time_composite by done. apply (composite_key_lt t1 ip1 t2 ip2 Ht1 Ht2).
    rewrite <- E1, <- E2. rewrite list.Forall_forall in Hrow. apply Hrow.
    apply list_elem_of_fmap. by exists r.
Qed.

Lemma keyed_time rows row : keyed rows -> row ∈ rows -> is_u64 (time_of row).
Proof.
  intros Hk Hin. destruct (Hk row Hin) as (t&ip&Ht&_&E). unfold time_of. rewrite E.
  by rewrite key_time_composite.
Qed.

Lemma rows_keyed policies : rows_ok policies -> keyed (tbl_iter policies).
Proof.
  intros Hr [k v] Hin. apply iter_get in Hin. destruct (Hr _ _ Hin) as (p&_&[Ht Hip]&->).
  cbn. eauto.
Qed.

Lemma tombstones_keyed t : tombstones_ok t -> keyed (tbl_iter t).
Proof. intros Ht [k v] Hin. apply iter_get in Hin. apply (Ht _ _ Hin). Qed.

Lemma filter_ext_in {A} (P Q : A -> Prop) `{!forall x, Decision (P x)} `{!forall x, Decision (Q x)} (l : list A) :
  (forall x, x ∈ l -> P x <-> Q x) -> filter P l = filter Q l.
Proof.
  induction l as [|x l IH]; intros Hiff; [done|]. rewrite !filter_cons.
  rewrite IH by (intros y Hy; apply Hiff; by right). apply decide_ext, Hiff. by left.
Qed.

(** The start key cuts off only rows that are not newer. *)
Lemma range_scan {A} (parse : bytes * bytes -> option A) since limit t :
  is_u64 since -> keyed (tbl_iter t) ->
  scan_rows parse since limit (tbl_range (start_key since) t) None [] since =
  scan_rows parse since limit (tbl_iter t) None [] since.
Proof.
  intros Hs Hk. rewrite scan_rows_skip, (scan_rows_skip _ _ _ (tbl_iter t)). f_equal.
  unfold tbl_range. rewrite list_filter_filter. apply filter_ext_in. intros row Hin.
  split; [tauto|]. intros Hlt. split; [done|]. destruct (Hk row Hin) as (u&ip&Hu&Hip&E).
  unfold time_of in Hlt. rewrite E in Hlt |- *. rewrite key_time_composite in Hlt by done.
  by apply start_key_lt.
Qed.

(** The policies and the deleted addresses newer than [since], in the order of
    their times. *)
Definition policies_after (since : Z) (db : Db) : list SharedPolicy.t :=
  omap (fun row => from_slice (snd row)) (after since (tbl_iter (POLICIES_TABLE db))).
Definition deletions_after (since : Z) (db : Db) : list IpKey.t :=
  omap tombstone_ip (after since (tbl_iter (TOMBSTONES_TABLE db))).

Lemma omap_map {A B} (f : A -> option B) (g : A -> B) (l : list A) :
  (forall x, x ∈ l -> f x = Some (g x)) -> omap f l = map g l.
Proof.
  induction l as [|x l IH]; intros H; [done|]. cbn. rewrite (H x) by left. f_equal.
  apply IH. intros y Hy. apply H. by right.
Qed.

Lemma poll_table {A} (parse : bytes * bytes -> option A) (dummy : A) limit t query n since :
  0 < limit -> keyed (tbl_iter t) ->
  (forall row, row ∈ tbl_iter t -> is_Some (parse row)) ->
  (forall since, query since = scan_rows parse since limit (tbl_range (start_key since) t) None [] since) ->
  is_u64 since -> (length (after since (tbl_iter t)) <= n)%nat ->
  exists cursor, poll query n since = Some (omap parse (after since (tbl_iter t)), cursor) /\
    after cursor (tbl_iter t) = [].
Proof.
  intros Hl Hk Hp Hq Hs Hn. set (item := fun row => default dummy (parse row)).
  assert (Hitem : forall row, row ∈ tbl_iter t -> parse row = Some (item row)).
  { intros row Hr. subst item. cbn. by destruct (Hp row Hr) as [a ->]. }
  rewrite (omap_map parse item).
  - apply (poll_complete parse item limit); [done| |intros; by eapply keyed_time|done| |done|done].
    + apply keyed_sorted; [done|apply iter_sorted].
    + intros s Hs'. rewrite Hq. by apply range_scan.
  - intros row Hr. apply Hitem. by apply list_elem_of_filter in Hr as [_ ?].
Qed.

(** C21: polling misses nothing and repeats nothing.  From any cursor and with
    any page size, as many queries as there are newer rows, each from the
    cursor of the one before, return together every policy newer than the
    cursor, once and in the order of the times, and leave nothing newer than
    the last cursor; so do the queries for deleted addresses. *)
Theorem polling_complete db since limit n :
  store_ok db -> 0 < limit -> is_u64 since ->
  (length (after since (tbl_iter (POLICIES_TABLE db))) <= n)%nat ->
  (length (after since (tbl_iter (TOMBSTONES_TABLE db))) <= n)%nat ->
  (exists cursor, poll (fun s => query_since s limit db) n since =
       Some (policies_after since db, cursor) /\ policies_after cursor db = []) /\
  (exists cursor, poll (fun s => query_tombstones_since s limit db) n since =
       Some (deletions_after since db, cursor) /\ deletions_after cursor db = []).
Proof.
  intros [[Hr Hi] Ht] Hl Hs Hn Hm. unfold policies_after, deletions_after. split.
  - destruct (poll_table (fun row => from_slice (snd row)) (SharedPolicy.mk IpKey_default 0 0 0 0 0 [] 0)
      limit (POLICIES_TABLE db) (fun s => query_since s limit db) n since Hl) as (c&Hc&Hend);
      [by apply rows_keyed| | |done|done|].
    + intros [k v] Hin. apply iter_get in Hin. destruct (Hr _ _ Hin) as (p&Hp&_). eauto.
    + intros s. unfold query_since. by rewrite (proj2 (Z.eqb_neq limit 0)) by lia.
    + exists c. by rewrite Hend.
  - destruct (poll_table tombstone_ip IpKey_default
      limit (TOMBSTONES_TABLE db) (fun s => query_tombstones_since s limit db) n since Hl) as (c&Hc&Hend);
      [by apply tombstones_keyed| | |done|done|].
    + intros row _. by eexists.
    + intros s. unfold query_tombstones_since. by rewrite (proj2 (Z.eqb_neq limit 0)) by lia.
    + exists c. by rewrite Hend.
Qed.

(** ** The store over its lifetime *)
Inductive HubOp :=
  | Push (node_name : string) (policies : list NodePolicy.t) (now : nat -> Z)
  | Delete (now : Z) (ips : list IpKey.t)
  | Prune (now tombstone_ttl : Z).

(** The database after an operation; [None] is an error. *)
Definition run_op (op : HubOp) (db : Db) : option Db :=
  match op with
  | Push node_name policies now =>
      match merge now node_name policies db with (Some _, db) => Some db | (None, _) => None end
  | Delete now ips => r ← delete_policies now ips db; Some (snd r)
  | Prune now ttl => r ← prune now ttl db; Some (snd r)
  end.

Fixpoint run_ops (ops : list HubOp) (db : Db) : option Db :=
  match ops with
  | [] => Some db
  | op :: ops => db ← run_op op db; run_ops ops db
  end.

Definition op_ok (op : HubOp) : Prop :=
  match op with
  | Push _ policies now => Forall node_ok policies /\ forall i, is_u64 (now i)
  | Delete now ips => is_u64 now /\ Forall ip_ok ips
  | Prune _ _ => True
  end.

Lemma run_op_ok op db : store_ok db -> op_ok op -> exists db', run_op op db = Some db' /\ store_ok db'.
Proof.
  intros Hok Hop. destruct op as [name nodes now|now ips|now ttl]; cbn in *.
  - destruct Hop as [Hn Hnow].
    destruct (merge_absorbed name 0 nodes now db Hok Hn Hnow) as (db'&->&Hok'&_);
      [intros i; apply Hnow|eauto].
  - destruct Hop as [Hnow Hips].
    destruct (delete_policies_run now ips db Hok Hips Hnow) as (n&db'&->&Hok'&_). eauto.
  - destruct (prune_run now ttl db Hok) as (n&m&db'&->&Hok'&_). eauto.
Qed.

(** C22: the store never breaks.  Whatever sequence of reports, deletions and
    clean-ups is run from an empty database, no operation fails (in particular
    the index never points to a missing row), and afterwards every row lies
    under the key of its own time and address, and the index knows exactly the
    rows. *)
Theorem hub_store_consistent ops :
  Forall op_ok ops -> exists db, run_ops ops Db_empty = Some db /\ store_ok db.
Proof.
  pose proof store_ok_empty as Hok. revert Hok. generalize Db_empty as db.
  intros db Hok Hops. revert db Hok. induction Hops as [|op ops Hop _ IH]; intros db Hok; cbn; [eauto|].
  destruct (run_op_ok op db Hok Hop) as (db1&->&Hok1). cbn. auto.
Qed.

(** deleting and cleaning up.  Deleting addresses removes exactly their
    policies and leaves a tombstone with the time of the deletion for each; a
    clean-up removes exactly the policies past their time to live (never a
    permanent one) and the tombstones past theirs. *)
Theorem removal_spec db now ips ttl :
  store_ok db -> is_u64 now -> Forall ip_ok ips ->
  (exists n db', delete_policies now ips db = Some (n, db') /\ store_ok db' /\
     (forall ip, policy_of db' ip =
        if decide (Exists (fun d => same_ip d ip) ips) then None else policy_of db ip) /\
     (forall k, tbl_get (TOMBSTONES_TABLE db') k =
        if decide (k ∈ map (composite_key now) ips) then Some [] else tbl_get (TOMBSTONES_TABLE db) k)) /\
  (exists n m db', prune now ttl db = Some ((n, m), db') /\ store_ok db' /\
     (forall ip p, policy_of db ip = Some p ->
        policy_of db' ip = if expired now p then None else Some p) /\
     (forall ip p, policy_of db ip = Some p -> SharedPolicy.ttl_s p = 0 -> policy_of db' ip = Some p) /\
     (forall ip, policy_of db ip = None -> policy_of db' ip = None) /\
     (forall k, tbl_get (TOMBSTONES_TABLE db') k =
        if saturating_add 64 (key_time k) ttl <? now then None else tbl_get (TOMBSTONES_TABLE db) k)).
Proof.
  intros Hok Hnow Hips. split; [by apply delete_policies_run|].
  destruct (prune_run now ttl db Hok) as (n&m&db'&Hrun&Hok'&Hp&Ht). exists n, m, db'.
  do 2 (split; [done|]). split; [|split; [|split; [|done]]].
  - intros ip p E. by rewrite Hp, E.
  - intros ip p E Hz. rewrite Hp, E. cbn. unfold expired. by rewrite Hz.
  - intros ip E. by rewrite Hp, E.
Qed.
End Queries.

(** ** Concrete stores *)
Module HubSample.
Definition fields (p : SharedPolicy.t) : (Z * list Z * list Z) * (Z * Z * Z) * (Z * Z * list string * Z) :=
  let ip := SharedPolicy.ip p in
  ((IpKey.family ip, IpKey.addr ip, IpKey.padding ip),
   (SharedPolicy.reason p, SharedPolicy.hit_count p, SharedPolicy.trust_score p),
   (SharedPolicy.first_seen_ns p, SharedPolicy.last_seen_ns p, SharedPolicy.source_nodes p,
    SharedPolicy.ttl_s p)).

Definition of_fields (t : (Z * list Z * list Z) * (Z * Z * Z) * (Z * Z * list string * Z))
    : SharedPolicy.t :=
  let '((f, a, pad), (r, h, tr), (first, last, nodes, ttl)) := t in
  SharedPolicy.mk (IpKey.mk f a pad) r h tr first last nodes ttl.

Definition bundle_fields (b : RuleBundle.t) :
    list (string * string * string) * list (string * option string) *
    list (string * string * string * string * list string * list string * string) * Z :=
  (map (fun i => (PortAclItem.protocol i, PortAclItem.dport i, PortAclItem.action i))
     (RuleBundle.port_acl b),
   map (fun i => (L7PatternConfig.pattern i, L7PatternConfig.mask i)) (RuleBundle.l7_patterns b),
   map (fun i => (ProtectionProject.name i, ProtectionProject.description i,
     ProtectionProject.protocol i, ProtectionProject.dport i, ProtectionProject.target_ips i,
     ProtectionProject.enabled_modules i, ProtectionProject.action i))
     (RuleBundle.protection_projects b),
   RuleBundle.updated_at_ns b).

Definition of_bundle_fields (t :
    list (string * string * string) * list (string * option string) *
    list (string * string * string * string * list string * list string * string) * Z)
    : RuleBundle.t :=
  let '(acl, l7, projects, updated) := t in
  RuleBundle.mk (map (fun '(p, d, a) => PortAclItem.mk p d a) acl)
    (map (fun '(p, m) => L7PatternConfig.mk p m) l7)
    (map (fun '(n, de, p, d, ips, ms, a) => ProtectionProject.mk n de p d ips ms a) projects)
    updated.

(** An encoding of policies and bundles that reads back. *)
#[global] Instance json : PolicyJson := {
  to_vec p := Some [Zpos (encode (fields p))];
  from_slice b := match b with [Zpos e] => of_fields <$> decode e | _ => None end;
  bundle_to_vec b := Some [Zpos (encode (bundle_fields b))];
  bundle_from_slice b := match b with [Zpos e] => of_bundle_fields <$> decode e | _ => None end;
}.

Lemma map_map_id {A B} (f : A -> B) (g : B -> A) (l : list A) :
  (forall a, g (f a) = a) -> map g (map f l) = l.
Proof. intros H. rewrite map_map. rewrite (map_ext _ id) by apply H. apply map_id. Qed.

#[global] Instance json_laws : PolicyJsonLaws json.
Proof.
  split; intros p; eexists; (split; [reflexivity|]); cbn -[fields bundle_fields]; rewrite decode_encode.
  - by destruct p as [[] ? ? ? ? ? ? ?].
  - destruct p as [acl l7 projects updated]. unfold bundle_fields. cbn.
    rewrite !map_map_id; [done|by intros []..].
Qed.

#[local] Existing Instance SortedTable.redb.
#[local] Existing Instance SortedTable.redb_laws.

Definition alice : IpKey.t := from_ipv4 [192; 0; 2; 1].
Definition bob : IpKey.t := from_ipv4 [192; 0; 2; 2].
Definition report (ip : IpKey.t) (ttl : Z) : NodePolicy.t := NodePolicy.mk ip 2 5 10 0 ttl.

Lemma report_ok ip ttl : ip = alice \/ ip = bob -> node_ok (report ip ttl).
Proof. intros [->| ->]; (split; [unfold is_byte; cbn; lia|split; [|done]]); repeat constructor; cbn; lia. Qed.

Lemma alice_ok ttl : Forall node_ok [report alice ttl].
Proof. constructor; [auto using report_ok|constructor]. Qed.

Lemma both_ok ttl ttl' : Forall node_ok [report alice ttl; report bob ttl'].
Proof. constructor; [|constructor; [|constructor]]; auto using report_ok. Qed.

Lemma consistent name nodes now :
  Forall node_ok nodes -> is_u64 now ->
  store_ok (snd (merge (fun _ => now) name nodes Db_empty)).
Proof.
  intros Hn Hnow. destruct (merge_absorbed name 0 nodes (fun _ => now) _ store_ok_empty Hn)
    as (db&->&Hok&_); [done|unfold is_u64 in *; lia|done].
Qed.

Lemma time_ok t : 0 <= t < 1000000 -> is_u64 t.
Proof. unfold is_u64. lia. Qed.

(** Alice is reported, first for a minute and then for good. *)
Lemma merge_absorbs_witness :
  exists db, merge (fun _ => 20) "n2" [report alice 0]
               (snd (merge (fun _ => 10) "n1" [report alice 60] Db_empty)) = (Some 1, db) /\
    exists q, policy_of db alice = Some q /\ includes "n2" 20 (report alice 0) q.
Proof.
  destruct (merge_absorbs 20 "n2" [report alice 0] (fun _ => 20)
    (snd (merge (fun _ => 10) "n1" [report alice 60] Db_empty))) as (db&Hrun&_&_&Habs).
  - apply consistent; [auto using alice_ok, both_ok|apply time_ok; lia].
  - apply alice_ok.
  - intros i. apply time_ok. lia.
  - intros i. lia.
  - exists db. split; [exact Hrun|]. apply (Habs alice); [left|reflexivity].
Defined.

(** Two policies of one transaction, page size one. *)
Lemma polling_complete_witness :
  let db := snd (merge (fun _ => 10) "n1" [report alice 60; report bob 0] Db_empty) in
  exists cursor, poll (fun s => query_since s 1 db) 2 0 = Some (policies_after 0 db, cursor) /\
    length (policies_after 0 db) = 2%nat.
Proof.
  intros db. destruct (polling_complete db 0 1 2) as [(c&Hc&_) _].
  - apply consistent; [auto using alice_ok, both_ok|apply time_ok; lia].
  - lia.
  - apply time_ok. lia.
  - vm_compute. lia.
  - vm_compute. lia.
  - exists c. split; [exact Hc|vm_compute; reflexivity].
Defined.

Lemma hub_store_consistent_witness :
  exists db, run_ops [Push "n1" [report alice 60; report bob 0] (fun _ => 10); Delete 20 [bob]; Prune 30 5]
               Db_empty = Some db /\ store_ok db.
Proof.
  apply hub_store_consistent. constructor; [|constructor; [|repeat constructor]].
  - split; [apply both_ok|intros i; apply time_ok; lia].
  - split; [apply time_ok; lia|]. constructor; [|constructor]. apply (report_ok bob 0). by right.
Defined.

Lemma removal_spec_witness :
  exists n db, delete_policies 20 [bob]
      (snd (merge (fun _ => 10) "n1" [report alice 60; report bob 0] Db_empty)) = Some (n, db) /\
    policy_of db bob = None.
Proof.
  destruct (removal_spec (snd (merge (fun _ => 10) "n1" [report alice 60; report bob 0] Db_empty))
              20 [bob] 5) as [(n&db&Hrun&_&Hp&_) _].
  - apply consistent; [auto using alice_ok, both_ok|apply time_ok; lia].
  - apply time_ok. lia.
  - constructor; [|constructor]. apply (report_ok bob 0). by right.
  - exists n, db. split; [exact Hrun|]. rewrite Hp. rewrite decide_True; [reflexivity|]. by left.
Defined.

(** a report that read the clock before another transaction commits, or
    after the wall clock stepped back, is stored behind the cursors already
    handed out: an agent that polled in between never receives it. *)
Example late_report_not_polled :
  let db1 := snd (merge (fun _ => 20) "n1" [report bob 60] Db_empty) in
  let db2 := snd (merge (fun _ => 10) "n2" [report alice 0] db1) in
  option_map snd (query_since 0 100 db1) = Some 20 /\
  option_map SharedPolicy.ttl_s (policy_of db2 alice) = Some 0 /\
  query_since 20 100 db2 = Some ([], 20).
Proof. vm_compute. repeat split. Qed.
End HubSample.
