(* ===== verification/HubApi.v ===== *)
(** * HubApi: limiter, registry, authentication and the handlers of the hub

    [eshield-hub/src/limiter.rs], [registry.rs], [auth.rs] and [api.rs].  A
    request is one value of [Request]; [serve] is the authentication layer
    followed by the handler, on the state shared by all of them.  Each reading
    of the clock in a handler is one argument of its clock. *)
From stdpp Require Import strings gmap.
From S2P Require Import Prelude Words Common Redb HubStore HubStoreProps HubQuery.
#[local] Open Scope Z_scope.

(** ** Token buckets *)
Definition NS_PER_S : Z := 1000000000.

Module Bucket.
Record t := mk {
  tokens : Z;
  last : Z;
}.
End Bucket.

Module RateLimiter.
Record t := mk {
  buckets : gmap string Bucket.t;
  rate_per_s : Z;
  burst : Z;
}.
#[global] Instance eta_t : Eta t := fun r => mk (buckets r) (rate_per_s r) (burst r).
End RateLimiter.

(** [RateLimiter::default] *)
Definition RateLimiter_default : RateLimiter.t := RateLimiter.mk ∅ 100 200.

(** Refill for the time since the last refill; time that yields no token is
    kept for the next call. *)
Definition refill (rate_per_s burst now_ns : Z) (b : Bucket.t) : Bucket.t :=
  let elapsed_ns := saturating_sub now_ns (Bucket.last b) in
  if elapsed_ns >? 0 then
    let added := wrap 64 (elapsed_ns * rate_per_s / NS_PER_S) in
    if added >? 0 then
      Bucket.mk (Z.min (saturating_add 64 (Bucket.tokens b) added) burst) now_ns
    else b
  else b.

Definition take_token (b : Bucket.t) : bool * Bucket.t :=
  if Bucket.tokens b >? 0 then (true, Bucket.mk (Bucket.tokens b - 1) (Bucket.last b)) else (false, b).

Definition check (node_name : string) (now_ns : Z) (l : RateLimiter.t) : bool * RateLimiter.t :=
  let entry := default (Bucket.mk (RateLimiter.burst l) now_ns) (RateLimiter.buckets l !! node_name) in
  let '(ok, entry) := take_token (refill (RateLimiter.rate_per_s l) (RateLimiter.burst l) now_ns entry) in
  (ok, l <| RateLimiter.buckets ::= fun m => <[node_name := entry]> m |>).

(** ** Registry of nodes *)
Module NodeInfo.
Record t := mk {
  name : string;
  last_seen_ns : Z;
  online : bool;
}.
#[global] Instance eta_t : Eta t := fun r => mk (name r) (last_seen_ns r) (online r).
End NodeInfo.

Definition NodeRegistry : Type := gmap string NodeInfo.t.

Definition heartbeat (name : string) (now_ns : Z) (nodes : NodeRegistry) : NodeRegistry :=
  <[name := NodeInfo.mk name now_ns true]> nodes.

Definition in_time (now_ns timeout_ns : Z) (info : NodeInfo.t) : bool :=
  saturating_sub now_ns (NodeInfo.last_seen_ns info) <=? timeout_ns.

Definition list_nodes (now_ns timeout_ns : Z) (nodes : NodeRegistry) : list NodeInfo.t :=
  map (fun entry => snd entry <| NodeInfo.online := in_time now_ns timeout_ns (snd entry) |>)
    (map_to_list nodes).

(** One tick of [cleanup_task]. *)
Definition cleanup (now_ns timeout_ns : Z) (nodes : NodeRegistry) : NodeRegistry :=
  filter (fun entry => in_time now_ns timeout_ns (snd entry) = true) nodes.

(** ** Authentication *)
Module HubAuth.
Record t := mk {
  master_token : string;
  (** the map from node names to tokens, in the order of its iteration *)
  node_tokens : list (string * string);
}.
End HubAuth.

Definition constant_time_eq (a b : string) : bool :=
  (String.length a =? String.length b)%nat && String.eqb a b.

Definition strip_prefix (p s : string) : option string :=
  if String.prefix p s
  then Some (String.substring (String.length p) (String.length s - String.length p) s) else None.

(** The token presented, without the scheme; empty if there is none. *)
Definition presented (provided : option string) : string :=
  let token := default ""%string provided in
  default token (strip_prefix "Bearer " token).

(** The last node with this token. *)
Definition matching_node (token : string) (node_tokens : list (string * string)) : option string :=
  foldl (fun matched nt => if constant_time_eq token (snd nt) then Some (fst nt) else matched)
    None node_tokens.

(** [None]: refused; [Some None]: the master token; [Some (Some n)]: node [n]. *)
Definition authenticate (auth : HubAuth.t) (provided : option string) : option (option string) :=
  let token := presented provided in
  if String.eqb token "" then None
  else if constant_time_eq token (HubAuth.master_token auth) then Some None
  else Some <$> matching_node token (HubAuth.node_tokens auth).

Section Api.
Context {R : Redb} {J : PolicyJson}.

(** ** Handlers *)
Definition MAX_DELETE_IPS : Z := 10000.
Definition MAX_NODE_NAME_LEN : Z := 128.

Record AppState := mkAppState {
  store : Db;
  registry : NodeRegistry;
  auth : HubAuth.t;
  rate_limiter : RateLimiter.t;
  node_timeout_ns : Z;
}.
#[global] Instance eta_AppState : Eta AppState := fun r =>
  mkAppState (store r) (registry r) (auth r) (rate_limiter r) (node_timeout_ns r).

Inductive Request :=
  | PushPolicies (node_name : string) (policies : list NodePolicy.t)
  | PullPolicies (since : Z) (limit : option Z)
  | DeletePolicies (node_name : string) (ips : list IpKey.t)
  | DeletedPolicies (since : Z) (limit : option Z)
  | Heartbeat (node_name : string)
  | ListNodes
  | Stats
  | GetRules
  | SetRules (bundle : RuleBundle.t).

Inductive StatusCode :=
  BAD_REQUEST | UNAUTHORIZED | PAYLOAD_TOO_LARGE | TOO_MANY_REQUESTS | INTERNAL_SERVER_ERROR.

Inductive Response :=
  | Err (status : StatusCode)
  | Merged (merged : Z)
  | Pull (policies : list SharedPolicy.t) (cursor : Z)
  | Removed (removed : Z)
  | Deleted (ips : list IpKey.t) (cursor : Z)
  | Ok
  | Nodes (nodes : list NodeInfo.t)
  | StatsResponse (policy_count node_count online_node_count : Z)
  | Rules (rules : option RuleBundle.t)
  | RulesUpdated (updated_at_ns : Z).

Definition page_limit (limit : option Z) : Z := Z.min (Z.max (default 1000 limit) 1) 10000.

(** The limiter of one request, before its handler goes on. *)
Definition limited (node_name : string) (now_ns : Z) (s : AppState)
    (next : AppState -> Response * AppState) : Response * AppState :=
  let '(ok, limiter) := check node_name now_ns (rate_limiter s) in
  let s := s <| rate_limiter := limiter |> in
  if ok then next s else (Err TOO_MANY_REQUESTS, s).

Definition push_policies (identity : option string) (node_name : string)
    (policies : list NodePolicy.t) (clock : nat -> Z) (s : AppState) : Response * AppState :=
  let node_name := default node_name identity in
  limited node_name (clock O) s (fun s =>
    match merge (fun i => clock (S i)) node_name policies (store s) with
    | (Some merged, db) => (Merged merged, s <| store := db |>)
    | (None, db) => (Err INTERNAL_SERVER_ERROR, s <| store := db |>)
    end).

Definition pull_policies (since : Z) (limit : option Z) (s : AppState) : Response :=
  match query_since since (page_limit limit) (store s) with
  | Some (policies, cursor) => Pull policies cursor
  | None => Err INTERNAL_SERVER_ERROR
  end.

Definition heartbeat_handler (identity : option string) (node_name : string) (clock : nat -> Z)
    (s : AppState) : Response * AppState :=
  let node_name := default node_name identity in
  if String.eqb node_name "" || (Z.of_nat (String.length node_name) >? MAX_NODE_NAME_LEN)
  then (Err BAD_REQUEST, s)
  else limited node_name (clock O) s (fun s =>
    (Ok, s <| registry ::= heartbeat node_name (clock 1%nat) |>)).

Definition stats (now_ns : Z) (s : AppState) : Response :=
  let nodes := list_nodes now_ns (node_timeout_ns s) (registry s) in
  StatsResponse (count (store s)) (Z.of_nat (length nodes))
    (Z.of_nat (length (filter (fun n => NodeInfo.online n = true) nodes))).

Definition delete_policies_handler (identity : option string) (node_name : string)
    (ips : list IpKey.t) (clock : nat -> Z) (s : AppState) : Response * AppState :=
  let node_name := default node_name identity in
  limited node_name (clock O) s (fun s =>
    if Z.of_nat (length ips) >? MAX_DELETE_IPS then (Err PAYLOAD_TOO_LARGE, s)
    else
      match delete_policies (clock 1%nat) ips (store s) with
      | Some (removed, db) => (Removed removed, s <| store := db |>)
      | None => (Err INTERNAL_SERVER_ERROR, s)
      end).

Definition deleted_policies (since : Z) (limit : option Z) (s : AppState) : Response :=
  match query_tombstones_since since (page_limit limit) (store s) with
  | Some (ips, cursor) => Deleted ips cursor
  | None => Err INTERNAL_SERVER_ERROR
  end.

Definition get_rules_handler (s : AppState) : Response :=
  match get_rules (store s) with
  | Some rules => Rules rules
  | None => Err INTERNAL_SERVER_ERROR
  end.

Definition set_rules_handler (bundle : RuleBundle.t) (s : AppState) : Response * AppState :=
  match set_rules bundle (store s) with
  | Some db => (RulesUpdated (RuleBundle.updated_at_ns bundle), s <| store := db |>)
  | None => (Err INTERNAL_SERVER_ERROR, s)
  end.

Definition handle (identity : option string) (r : Request) (clock : nat -> Z) (s : AppState)
    : Response * AppState :=
  match r with
  | PushPolicies node_name policies => push_policies identity node_name policies clock s
  | PullPolicies since limit => (pull_policies since limit s, s)
  | DeletePolicies node_name ips => delete_policies_handler identity node_name ips clock s
  | DeletedPolicies since limit => (deleted_policies since limit s, s)
  | Heartbeat node_name => heartbeat_handler identity node_name clock s
  | ListNodes => (Nodes (list_nodes (clock O) (node_timeout_ns s) (registry s)), s)
  | Stats => (stats (clock O) s, s)
  | GetRules => (get_rules_handler s, s)
  | SetRules bundle => set_rules_handler bundle s
  end.

(** [auth_layer], then the handler. *)
Definition serve (header : option string) (r : Request) (clock : nat -> Z) (s : AppState)
    : Response * AppState :=
  match authenticate (auth s) header with
  | Some identity => handle identity r clock s
  | None => (Err UNAUTHORIZED, s)
  end.
End Api.

(** ** The limiter *)

(** Calls of several nodes in any order, with the admissions of each. *)
Fixpoint run_checks (calls : list (string * Z)) (l : RateLimiter.t) : list bool * RateLimiter.t :=
  match calls with
  | [] => ([], l)
  | (node, now) :: calls =>
      let '(ok, l) := check node now l in
      let '(oks, l) := run_checks calls l in
      (ok :: oks, l)
  end.

(** The number of calls of [node] that were admitted. *)
Fixpoint admitted (node : string) (calls : list (string * Z)) (oks : list bool) : Z :=
  match calls, oks with
  | (n, _) :: calls, ok :: oks =>
      (if String.eqb n node && ok then 1 else 0) + admitted node calls oks
  | _, _ => 0
  end.

Section Limiter.
Context (node : string) (rate burst t0 T : Z).
Context (rate_range : 0 <= rate <= NS_PER_S) (burst_range : 0 <= burst < 2 ^ 64).

(** A bucket with [n] admissions so far since [t0]. *)
Definition bucket_ok (n : Z) (b : Bucket.t) : Prop :=
  0 <= Bucket.tokens b <= burst /\ t0 <= Bucket.last b <= T /\
  NS_PER_S * (n + Bucket.tokens b) <= NS_PER_S * burst + rate * (Bucket.last b - t0).

Definition limiter_ok (n : Z) (l : RateLimiter.t) : Prop :=
  RateLimiter.rate_per_s l = rate /\ RateLimiter.burst l = burst /\
  match RateLimiter.buckets l !! node with
  | Some b => bucket_ok n b
  | None => n = 0
  end.

Lemma refill_ok n now b : bucket_ok n b -> now <= T -> bucket_ok n (refill rate burst now b).
Proof.
  intros (Ht&Hl&Hn) Hnow. unfold refill, saturating_sub. cbv zeta.
  destruct (Z.gtb_spec (Z.max (now - Bucket.last b) 0) 0) as [He|He]; [|done].
  rewrite Z.max_l by lia.
  set (added := wrap 64 _). destruct (Z.gtb_spec added 0) as [Ha|Ha]; [|done].
  assert (Hadd : NS_PER_S * added <= rate * (now - Bucket.last b)).
  { subst added. unfold wrap. unfold NS_PER_S in *.
    pose proof (Z.div_pos ((now - Bucket.last b) * rate) 1000000000 ltac:(nia) ltac:(lia)).
    pose proof (Z.mod_le ((now - Bucket.last b) * rate / 1000000000) (2 ^ 64) ltac:(lia) ltac:(lia)).
    pose proof (Z.mul_div_le ((now - Bucket.last b) * rate) 1000000000 ltac:(lia)). lia. }
  unfold bucket_ok, saturating_add. cbn. unfold NS_PER_S in *. split; [lia|]. split; [lia|]. nia.
Qed.

Lemma take_token_ok n b : bucket_ok n b ->
  bucket_ok (n + if fst (take_token b) then 1 else 0) (snd (take_token b)).
Proof.
  intros (Ht&Hl&Hn). unfold take_token. destruct (Z.gtb_spec (Bucket.tokens b) 0); cbn;
    unfold bucket_ok; cbn; unfold NS_PER_S in *; repeat split; try lia; nia.
Qed.

Lemma check_step n now name l :
  0 <= n -> limiter_ok n l -> t0 <= now <= T ->
  limiter_ok (n + if String.eqb name node && fst (check name now l) then 1 else 0) (snd (check name now l)).
Proof.
  intros Hpos (Hr&Hb&Hm) Hnow. unfold check, limiter_ok.
  destruct (take_token _) as [ok b'] eqn:E. cbn. rewrite Hr, Hb in E |- *.
  do 2 (split; [done|]). destruct (String.eqb_spec name node) as [->|Hne].
  - rewrite lookup_insert_eq. cbn [andb].
    assert (Hok : bucket_ok n (default (Bucket.mk burst now) (RateLimiter.buckets l !! node))).
    { destruct (RateLimiter.buckets l !! node) as [b|]; cbn; [done|]. subst n.
      unfold bucket_ok. cbn. unfold NS_PER_S. split; [lia|]. split; [lia|]. nia. }
    pose proof (take_token_ok n _ (refill_ok n now _ Hok ltac:(lia))) as H. by rewrite E in H.
  - rewrite lookup_insert_ne by done. cbn [andb]. by rewrite Z.add_0_r.
Qed.

Lemma run_checks_ok n calls l :
  0 <= n -> limiter_ok n l -> Forall (fun c => t0 <= snd c <= T) calls ->
  limiter_ok (n + admitted node calls (fst (run_checks calls l))) (snd (run_checks calls l)).
Proof.
  intros Hn Hok Hc. revert n l Hn Hok. induction Hc as [|[name now] calls Hc _ IH]; intros n l Hn Hok.
  - cbn. by rewrite Z.add_0_r.
  - cbn [run_checks]. pose proof (check_step n now name l Hn Hok Hc) as Hstep.
    destruct (check name now l) as [ok l1]. cbn in Hstep.
    assert (Hn' : 0 <= n + (if String.eqb name node && ok then 1 else 0)) by (case_match; lia).
    specialize (IH _ _ Hn' Hstep).
    destruct (run_checks calls l1) as [oks l2]. cbn in IH |- *. by rewrite Z.add_assoc.
Qed.

(** A token is back after a second divided by the rate. *)
Lemma refill_token now b :
  0 <= Bucket.tokens b <= burst -> 0 < burst -> NS_PER_S <= rate * (now - Bucket.last b) ->
  0 <= Bucket.last b -> now < 2 ^ 64 ->
  Bucket.tokens (refill rate burst now b) > 0 /\ Bucket.tokens (refill rate burst now b) <= burst /\
  Bucket.last (refill rate burst now b) = now.
Proof.
  intros Ht Hb Hgap Hl Hnow. unfold NS_PER_S in *.
  assert (He : 0 < now - Bucket.last b) by nia.
  unfold refill, saturating_sub. cbv zeta. rewrite Z.max_l by lia.
  destruct (Z.gtb_spec (now - Bucket.last b) 0) as [_|]; [|lia].
  assert (Hadd : 1 <= (now - Bucket.last b) * rate / NS_PER_S < 2 ^ 64).
  { unfold NS_PER_S. split; [apply Z.div_le_lower_bound; lia|]. apply Z.div_lt_upper_bound; [lia|]. nia. }
  rewrite (wrap_small 64) by lia. destruct (Z.gtb_spec ((now - Bucket.last b) * rate / NS_PER_S) 0); [|lia].
  unfold saturating_add. cbn. lia.
Qed.
End Limiter.

(** Calls at least [1 / rate] seconds apart, the first not before [t]. *)
Fixpoint spaced (rate t : Z) (times : list Z) : Prop :=
  match times with
  | [] => True
  | now :: times => NS_PER_S <= rate * (now - t) /\ 0 <= now < 2 ^ 64 /\ spaced rate now times
  end.

Lemma spaced_admitted node rate burst l last times :
  0 <= rate <= NS_PER_S -> 0 < burst < 2 ^ 64 -> 0 <= last ->
  RateLimiter.rate_per_s l = rate -> RateLimiter.burst l = burst ->
  (exists b, RateLimiter.buckets l !! node = Some b /\ 0 <= Bucket.tokens b <= burst /\
     Bucket.last b = last) ->
  spaced rate last times ->
  Forall (fun ok => ok = true) (fst (run_checks (map (fun t => (node, t)) times) l)).
Proof.
  intros Hr Hb. revert l last. induction times as [|now times IH];
    intros l last Hlast El Eb (b&Hm&Ht&Hl) Hs; [constructor|].
  destruct Hs as (Hgap&Hnow&Hs). cbn [map run_checks]. unfold check. rewrite El, Eb, Hm. cbn [from_option]. unfold id.
  destruct (refill_token rate burst Hr now b Ht ltac:(lia)) as (Hpos&Hle&Hlast');
    [by rewrite Hl|lia|lia|].
  unfold take_token. destruct (Z.gtb_spec (Bucket.tokens (refill rate burst now b)) 0) as [_|]; [|lia].
  cbv beta iota.
  match goal with |- context [run_checks _ ?l'] => specialize (IH l' now); destruct (run_checks _ l') end.
  cbn in IH |- *. constructor; [done|]. apply IH; try done; [lia|]. eexists. split; [apply lookup_insert_eq|]. cbn. split; [lia|done].
Qed.

(** C32: the limiter is a token bucket per node.  However the calls of the nodes
    interleave, from its first call on a node is admitted at most [burst] times
    plus [rate] times per second; and a known node that keeps calls
    [1 / rate] seconds apart is admitted every time. *)
Theorem token_bucket node rate burst t0 T l :
  0 <= rate <= NS_PER_S -> 0 < burst < 2 ^ 64 ->
  RateLimiter.rate_per_s l = rate -> RateLimiter.burst l = burst ->
  (forall calls, RateLimiter.buckets l !! node = None ->
     Forall (fun c => t0 <= snd c <= T) calls -> t0 <= T ->
     NS_PER_S * admitted node calls (fst (run_checks calls l)) <=
       NS_PER_S * burst + rate * (T - t0)) /\
  (forall times b, RateLimiter.buckets l !! node = Some b -> 0 <= Bucket.tokens b <= burst ->
     0 <= Bucket.last b -> spaced rate (Bucket.last b) times ->
     Forall (fun ok => ok = true) (fst (run_checks (map (fun t => (node, t)) times) l))).
Proof.
  intros Hr Hb El Eb. split.
  - intros calls Hm Hc HT.
    destruct (run_checks_ok node rate burst t0 T Hr ltac:(lia) 0 calls l) as (_&_&H);
      [lia|unfold limiter_ok; by rewrite Hm|done|].
    rewrite Z.add_0_l in H. set (adm := admitted _ _ _) in *.
    assert (0 <= rate * (T - t0)) by (apply Z.mul_nonneg_nonneg; lia).
    destruct (RateLimiter.buckets (snd (run_checks calls l)) !! node) as [b|];
      unfold NS_PER_S in *; [|lia].
    destruct H as (Ht&Hl&Hn). unfold NS_PER_S in *.
    assert (rate * (Bucket.last b - t0) <= rate * (T - t0)) by (apply Z.mul_le_mono_nonneg_l; lia). lia.
  - intros times b Hm Ht Hl Hs. eapply spaced_admitted; eauto.
Qed.

(** ** Who may do what *)
Lemma constant_time_eq_spec a b : constant_time_eq a b = true <-> a = b.
Proof.
  unfold constant_time_eq. rewrite andb_true_iff, Nat.eqb_eq, String.eqb_eq.
  split; [tauto|]. by intros ->.
Qed.

Lemma matching_node_spec token nts :
  match matching_node token nts with
  | Some n => (n, token) ∈ nts
  | None => forall n, (n, token) ∉ nts
  end.
Proof.
  unfold matching_node.
  assert (H : forall acc, match foldl (fun matched nt => if constant_time_eq token (snd nt)
                                 then Some (fst nt) else matched) acc nts with
                | Some n => (n, token) ∈ nts \/ acc = Some n
                | None => acc = None /\ forall n, (n, token) ∉ nts
                end).
  { induction nts as [|[m t] nts IH]; intros acc; cbn [foldl].
    - destruct acc; [by right|]. split; [done|]. intros n. apply not_elem_of_nil.
    - cbn [fst snd]. destruct (constant_time_eq token t) eqn:E.
      + apply constant_time_eq_spec in E as <-. specialize (IH (Some m)).
        destruct (foldl _ _ _) as [n|]; [|by destruct IH].
        left. destruct IH as [IH|[= ->]]; [by right|by left].
      + specialize (IH acc). destruct (foldl _ _ _) as [n|].
        * destruct IH as [IH|IH]; [left; by right|by right].
        * destruct IH as [-> IH]. split; [done|]. intros n Hn. apply elem_of_cons in Hn as [[= _ <-]|Hn].
          -- by rewrite (proj2 (constant_time_eq_spec token token)) in E.
          -- by apply (IH n). }
  specialize (H None). destruct (foldl _ _ _); [|by destruct H].
  by destruct H as [|[=]].
Qed.

Lemma authenticate_spec auth header :
  let token := presented header in
  match authenticate auth header with
  | None => token = ""%string \/
      (token <> HubAuth.master_token auth /\ forall n, (n, token) ∉ HubAuth.node_tokens auth)
  | Some None => token <> ""%string /\ token = HubAuth.master_token auth
  | Some (Some n) => token <> ""%string /\ token <> HubAuth.master_token auth /\
      (n, token) ∈ HubAuth.node_tokens auth
  end.
Proof.
  cbv zeta. unfold authenticate. destruct (String.eqb_spec (presented header) "") as [E|E]; [by left|].
  destruct (constant_time_eq _ _) eqn:Em; [by apply constant_time_eq_spec in Em|].
  assert (presented header <> HubAuth.master_token auth).
  { intros H. apply constant_time_eq_spec in H. congruence. }
  pose proof (matching_node_spec (presented header) (HubAuth.node_tokens auth)) as H'.
  destruct (matching_node _ _) as [n|]; cbn; [done|]. by right.
Qed.

Section Authority.
Context {R : Redb} {RL : RedbLaws R} {J : PolicyJson} {JL : PolicyJsonLaws J}.

Definition is_read (r : Request) : bool :=
  match r with
  | PullPolicies _ _ | DeletedPolicies _ _ | ListNodes | Stats | GetRules => true
  | _ => false
  end.

(** The request under another name in its body. *)
Definition renamed (name : string) (r : Request) : Request :=
  match r with
  | PushPolicies _ policies => PushPolicies name policies
  | DeletePolicies _ ips => DeletePolicies name ips
  | Heartbeat _ => Heartbeat name
  | r => r
  end.

(** C33: who may do what at the hub.  A request without a token, or whose token
    is neither the master token nor the token of a node, is answered 401 and
    changes nothing.  A request with the token of a node acts under the name of
    that node, whatever name its body gives.  Queries change nothing.  A pushed
    report either is refused by the limiter, leaving the store as it was, or is
    absorbed by the store under the acting name. *)
Theorem hub_authority header (r : Request) clock (s : AppState) :
  (authenticate (auth s) header = None <->
     presented header = ""%string \/
     (presented header <> HubAuth.master_token (auth s) /\
      forall n, (n, presented header) ∉ HubAuth.node_tokens (auth s))) /\
  (authenticate (auth s) header = None -> serve header r clock s = (Err UNAUTHORIZED, s)) /\
  (forall n, authenticate (auth s) header = Some (Some n) ->
     (n, presented header) ∈ HubAuth.node_tokens (auth s) /\
     forall name, serve header (renamed name r) clock s = serve header r clock s) /\
  (is_read r = true -> snd (serve header r clock s) = s) /\
  (forall identity name policies since, authenticate (auth s) header = Some identity ->
     r = PushPolicies name policies ->
     store_ok (store s) -> Forall node_ok policies ->
     (forall i, is_u64 (clock i)) -> (forall i, since <= clock i) ->
     let s' := snd (serve header r clock s) in
     store_ok (store s') /\
     match fst (serve header r clock s) with
     | Merged n => n = Z.of_nat (length policies) /\
         absorbed (default name identity) since policies (policy_of (store s)) (policy_of (store s'))
     | response => response = Err TOO_MANY_REQUESTS /\ store s' = store s
     end).
Proof.
  pose proof (authenticate_spec (auth s) header) as Hauth. cbv zeta in Hauth.
  split; [|split; [|split; [|split]]].
  - destruct (authenticate (auth s) header) as [[n|]|]; [| |tauto]; (split; [done|]).
    + destruct Hauth as (A&B&C). intros [E|[_ E]]; [done|]. by destruct (E n).
    + destruct Hauth as (A&B). by intros [E|[E _]].
  - unfold serve. by intros ->.
  - intros n E. rewrite E in Hauth. split; [tauto|]. intros name. unfold serve. rewrite E.
    by destruct r.
  - unfold serve. destruct (authenticate _ _); [|done]. by destruct r.
  - intros identity name policies since E -> Hok Hn Hclock Hsince. cbv zeta. unfold serve. rewrite E.
    cbn [handle]. unfold push_policies, limited. destruct (check _ _ _) as [ok l].
    destruct ok; [|done]. cbn [store].
    destruct (merge_absorbed (default name identity) since policies (fun i => clock (S i)) (store s) Hok Hn)
      as (db&Hrun&Hok'&_&Habs); [done|done|].
    assert (E' : store (s <| rate_limiter := l |>) = store s) by reflexivity.
    rewrite E', Hrun. cbn. done.
Qed.
End Authority.

Module HubApiWitness.
Import HubSample.
#[local] Existing Instance SortedTable.redb.
#[local] Existing Instance SortedTable.redb_laws.
#[local] Open Scope string_scope.

(** A burst of three at 1 ms, then a call after half a second. *)
Definition calls : list (string * Z) :=
  [("a", 1000000); ("b", 1000000); ("a", 1000000); ("a", 1000001); ("a", 500000000)].

Lemma token_bucket_witness :
  admitted "a" calls (fst (run_checks calls (RateLimiter.mk ∅ 1 2))) = 2 /\
  NS_PER_S * admitted "a" calls (fst (run_checks calls (RateLimiter.mk ∅ 1 2))) <=
    NS_PER_S * 2 + 1 * (500000000 - 1000000).
Proof.
  split; [vm_compute; reflexivity|].
  destruct (token_bucket "a" 1 2 1000000 500000000 (RateLimiter.mk ∅ 1 2)) as [H _];
    [unfold NS_PER_S; lia|lia|reflexivity|reflexivity|].
  apply H; [reflexivity| |lia].
  unfold calls. repeat (constructor; [cbn; lia|]). constructor.
Defined.

Definition hub_auth : HubAuth.t := HubAuth.mk "master" [("node-a", "token-a")].
Definition hub : AppState := mkAppState Db_empty ∅ hub_auth (RateLimiter.mk ∅ 100 200) 90.

(** Node a pushes under a forged name. *)
Lemma hub_authority_witness :
  let s := snd (serve (Some "Bearer token-a") (PushPolicies "node-b" [report alice 60]) (fun _ => 10) hub) in
  store_ok (store s) /\
  absorbed "node-a" 10 [report alice 60] (policy_of (store hub)) (policy_of (store s)).
Proof.
  destruct (hub_authority (Some "Bearer token-a") (PushPolicies "node-b" [report alice 60])
              (fun _ => 10) hub) as (_&_&_&_&H).
  destruct (H (Some "node-a") "node-b" [report alice 60] 10) as [Hok Habs];
    [reflexivity|reflexivity|apply store_ok_empty|apply alice_ok|
     intros i; apply time_ok; lia|intros i; lia|].
  split; [exact Hok|]. exact (proj2 Habs).
Defined.
End HubApiWitness.
