(* ===== verification/HubMain.v ===== *)
(** * HubMain: the hub's own feed, its command line and its tasks

    [eshield-hub/src/feed.rs] and [main.rs].  The download, the JSON parser and
    the file system are parameters; the text of a feed, the file of the node
    tokens and the arguments are read as the code reads them.  A running hub is
    any sequence of requests and of ticks of its tasks on the state they share;
    a request and a tick run alone. *)
From Stdlib Require Import Ascii.
From stdpp Require Import strings gmap.
From S2P Require Import Prelude Words Common RustStd IpText ThreatIntel Redb HubStore HubStoreProps HubQuery HubApi.
#[local] Open Scope Z_scope.

(** ** [feed.rs] *)
Module FeedConfig.
Record t := mk {
  name : string;
  url : string;
  interval_s : Z;
  action : string;
  ttl_s : Z;
}.
End FeedConfig.

Module HubFeed.
(** The address [add_ip] takes from an entry. *)
Definition host_key (s : string) : option IpKey.t :=
  match split_once "/" s with
  | Some (ip, prefix) =>
      if negb (String.eqb prefix "32" || String.eqb prefix "128") then None
      else
        match parse_ip_addr ip with
        | Some (V4 o) => if String.eqb prefix "32" then Some (from_ipv4 o) else None
        | Some (V6 o) => if String.eqb prefix "128" then Some (from_ipv6 o) else None
        | None => None
        end
  | None => key_of_addr <$> parse_ip_addr s
  end.

Definition add_ip (out : list IpKey.t) (s : string) : list IpKey.t :=
  match host_key s with Some key => out ++ [key] | None => out end.

Definition text_line (out : list IpKey.t) (line : string) : list IpKey.t :=
  let line := trim line in
  if String.eqb line "" || starts_with "#" line then out
  else
    let ip_str := trim (default line (head (split "," line))) in
    if String.eqb ip_str "" then out else add_ip out ip_str.

Definition parse_text_feed (text : string) : list IpKey.t := foldl text_line [] (lines text).

Definition data_item (out : list IpKey.t) (item : Value) : list IpKey.t :=
  match value_get "ipAddress" item ≫= as_str with Some ip => add_ip out ip | None => out end.

Definition array_item (out : list IpKey.t) (item : Value) : list IpKey.t :=
  match as_str item with
  | Some ip => add_ip out ip
  | None => match value_get "ip" item ≫= as_str with Some ip => add_ip out ip | None => out end
  end.

Section Feed.
Context {FL : FeedLib} {R : Redb} {J : PolicyJson}.

Definition parse_json_feed (text : string) : option (list IpKey.t) :=
  json ← json_from_str text;
  let result := foldl data_item [] (default [] (value_get "data" json ≫= as_array)) in
  Some (foldl array_item result (default [] (as_array json))).

Definition parse_feed (text : string) : option (list IpKey.t) :=
  let trimmed := trim text in
  if starts_with "[" trimmed || starts_with "{" trimmed then parse_json_feed text
  else Some (parse_text_feed text).

(** The policy of a listed address. *)
Definition feed_policy (config : FeedConfig.t) (ip : IpKey.t) : NodePolicy.t :=
  NodePolicy.mk ip rules.THREAT_INTEL 1 0 0 (FeedConfig.ttl_s config).

(** [None] is an error, which the task only logs; [now] are the times the store
    reads. *)
Definition sync_once (config : FeedConfig.t) (now : nat -> Z) (db : Db) : option unit * Db :=
  match feed_get (FeedConfig.url config) with
  | Some (true, text) =>
      match parse_feed text with
      | None => (None, db)
      | Some entries =>
          if negb (String.eqb (FeedConfig.action config) "drop") then (Some tt, db)
          else
            let policies := map (feed_policy config) entries in
            if bool_decide (policies = []) then (Some tt, db)
            else
              match merge now (FeedConfig.name config) policies db with
              | (Some _, db) => (Some tt, db)
              | (None, db) => (None, db)
              end
      end
  | _ => (None, db)
  end.
End Feed.

(** *** What is taken from a feed *)

(** An entry names one host: an address, alone or with the prefix of its
    family. *)
Definition names_host (s : string) (a : IpAddr) : Prop :=
  parse_ip_addr s = Some a \/
  exists text, parse_ip_addr text = Some a /\
    s = text +:+ "/" +:+ (match a with V4 _ => "32" | V6 _ => "128" end).

Lemma split_once_inv sep s a b : split_once sep s = Some (a, b) -> s = a +:+ String sep b.
Proof.
  revert a. induction s as [|c s IH]; intros a; cbn [split_once]; [done|].
  destruct (Ascii.eqb_spec c sep) as [->|]; [by intros [= <- ->]|].
  destruct (split_once sep s) as [[a' b']|]; [|done]. intros [= <- <-]. by rewrite append_cons, <- IH.
Qed.

Lemma host_key_names s key : host_key s = Some key ->
  exists a, names_host s a /\ ip_addr_ok a /\ key = key_of_addr a.
Proof.
  unfold host_key, names_host. destruct (split_once "/" s) as [[text prefix]|] eqn:E.
  - apply split_once_inv in E as ->. destruct (negb _); [done|].
    destruct (parse_ip_addr text) as [[o|o]|] eqn:Ea; [| |done]; pose proof (parse_ip_addr_ok _ _ Ea);
      destruct (String.eqb_spec prefix "32"), (String.eqb_spec prefix "128"); try done; subst;
      intros [= <-]; eexists; (split; [right; exists text; split; [exact Ea|done]|done]).
  - destruct (parse_ip_addr s) as [a|] eqn:Ea; [|done]. intros [= <-].
    exists a. split; [by left|]. split; [by eapply parse_ip_addr_ok|done].
Qed.

Lemma host_key_ok s key : host_key s = Some key -> ip_ok key.
Proof.
  intros ([o|o] & _ & [Hl Ho] & ->)%host_key_names; (split; [unfold is_byte; cbn; lia|]); [|done].
  split; [|cbn; rewrite Hl; done]. apply (List.Forall_app is_byte (replicate 12 0) o). split; [|done].
  repeat constructor; lia.
Qed.

Lemma add_ip_ok out s : Forall ip_ok out -> Forall ip_ok (add_ip out s).
Proof.
  intros Ho. unfold add_ip. destruct (host_key s) as [key|] eqn:E; [|done]. apply List.Forall_app. split; [done|].
  constructor; [by eapply host_key_ok|done].
Qed.

Lemma foldl_ok {A} (f : list IpKey.t -> A -> list IpKey.t) l :
  (forall out x, Forall ip_ok out -> Forall ip_ok (f out x)) -> forall out, Forall ip_ok out -> Forall ip_ok (foldl f out l).
Proof. intros Hf. induction l as [|x l IH]; intros out Ho; cbn [foldl]; [done|]. auto. Qed.

Lemma text_feed_ok text : Forall ip_ok (parse_text_feed text).
Proof.
  apply foldl_ok; [|done]. intros out line Ho. unfold text_line.
  destruct (_ || _); [done|]. destruct (String.eqb _ _); [done|]. by apply add_ip_ok.
Qed.

Lemma parse_feed_ok {FL : FeedLib} text keys : parse_feed text = Some keys -> Forall ip_ok keys.
Proof.
  unfold parse_feed, parse_json_feed. destruct (_ || _); [|intros [= <-]; apply text_feed_ok].
  destruct (json_from_str text) as [json|]; [|done]. cbn [mbind option_bind]. intros [= <-].
  apply foldl_ok; [|apply foldl_ok; [|done]].
  - intros out item Ho. unfold array_item. repeat case_match; auto using add_ip_ok.
  - intros out item Ho. unfold data_item. repeat case_match; auto using add_ip_ok.
Qed.
End HubFeed.

Section FeedProps.
Context {FL : FeedLib} {R : Redb} {RL : RedbLaws R} {J : PolicyJson} {JL : PolicyJsonLaws J}.

Lemma sync_once_ok config now db :
  store_ok db -> (forall i, is_u64 (now i)) -> store_ok (snd (HubFeed.sync_once config now db)).
Proof.
  intros Hok Hnow. unfold HubFeed.sync_once.
  destruct (feed_get _) as [[[] text]|]; [|done|done].
  destruct (HubFeed.parse_feed text) as [keys|] eqn:E; [|done]. destruct (negb _); [done|].
  case_bool_decide; [done|].
  destruct (merge_absorbed (FeedConfig.name config) 0 (map (HubFeed.feed_policy config) keys) now db) as (db' & -> & Hok' & _);
    [done| |done|intros i; apply Hnow|done].
  apply List.Forall_map, (HubFeed.parse_feed_ok _ _ E).
Qed.

(** C24: an address of the feed becomes a policy of the hub and stays one.  A
    round of the feed with action [drop] on a text that parses succeeds.  Every
    entry taken names one host.  Afterwards the hub has for each of them a
    policy with the feed among its sources, that is permanent or lives at least
    the time to live of the feed, and no clean-up before that time removes it;
    the policies of all other addresses and the deletions are as they were. *)
Theorem hub_feed_blocks config text keys now since db :
  feed_get (FeedConfig.url config) = Some (true, text) -> HubFeed.parse_feed text = Some keys ->
  FeedConfig.action config = "drop"%string ->
  store_ok db -> (forall i, is_u64 (now i)) -> (forall i, since <= now i) ->
  (forall entry key, HubFeed.host_key entry = Some key ->
     exists a, HubFeed.names_host entry a /\ ip_addr_ok a /\ key = key_of_addr a) /\
  exists db', HubFeed.sync_once config now db = (Some tt, db') /\ store_ok db' /\
    TOMBSTONES_TABLE db' = TOMBSTONES_TABLE db /\
    (forall key, key ∈ keys -> exists q, policy_of db' key = Some q /\
       FeedConfig.name config ∈ SharedPolicy.source_nodes q /\
       (SharedPolicy.ttl_s q = 0 \/ FeedConfig.ttl_s config <= SharedPolicy.ttl_s q) /\
       forall later ttl n m db'', later <= saturating_add 64 since (saturating_mul 64 (FeedConfig.ttl_s config) 1000000000) ->
         prune later ttl db' = Some ((n, m), db'') -> policy_of db'' key = Some q) /\
    (forall key, Forall (fun k => ~ same_ip k key) keys -> policy_of db' key = policy_of db key).
Proof.
  intros Hget Hparse Hact Hok Hnow Hsince. split; [exact HubFeed.host_key_names|]. unfold HubFeed.sync_once. rewrite Hget, Hparse, Hact.
  cbn [String.eqb Ascii.eqb Bool.eqb negb].
  case_bool_decide as Hnil.
  { apply map_eq_nil in Hnil as ->. exists db. do 3 (split; [done|]). split; [|done].
    intros key Hin. by apply not_elem_of_nil in Hin. }
  destruct (merge_absorbed (FeedConfig.name config) since (map (HubFeed.feed_policy config) keys) now db)
    as (db' & -> & Hok' & Ht & Habs); [done| |done|done|].
  { apply List.Forall_map, (HubFeed.parse_feed_ok _ _ Hparse). }
  exists db'. do 3 (split; [done|]). split.
  - intros key Hin. destruct (Habs key) as (_ & _ & H).
    destruct (H (HubFeed.feed_policy config key)) as (q & Hq & _ & _ & Hl & Hs & Hz & Ht'); [|done|].
    { apply list_elem_of_fmap. by exists key. }
    exists q. split; [done|]. split; [done|]. cbn in Hz, Ht'. split; [lia|].
    intros later ttl n m db'' Hlater Hrun.
    destruct (prune_run later ttl db' Hok') as (n' & m' & db1 & Hrun' & _ & Hp & _).
    rewrite Hrun in Hrun'. injection Hrun' as _ _ <-. rewrite Hp, Hq. cbn [mbind option_bind].
    assert (expired later q = false) as ->; [|done]. unfold expired.
    destruct (Z.eqb_spec (SharedPolicy.ttl_s q) 0); [done|]. cbn [negb andb]. apply Z.ltb_ge.
    unfold saturating_add, saturating_mul in *. lia.
  - intros key Hk. apply Habs. by apply List.Forall_map.
Qed.
End FeedProps.

(** ** [main.rs] *)

(** One line of the file of the node tokens: an error, nothing, or a token. *)
Definition node_token_line (line : string) : option (option (string * string)) :=
  let line := trim line in
  if String.eqb line "" || starts_with "#" line then Some None
  else
    nt ← split_once ":" line;
    let name := trim (fst nt) in
    let token := trim (snd nt) in
    if String.eqb name "" || String.eqb token "" then None else Some (Some (name, token)).

Fixpoint node_token_lines (ls : list string) (tokens : gmap string string) : option (gmap string string) :=
  match ls with
  | [] => Some tokens
  | line :: ls =>
      nt ← node_token_line line;
      node_token_lines ls (match nt with Some (name, token) => <[name := token]> tokens | None => tokens end)
  end.

Module Args.
Record t := mk {
  bind : string;
  token : option string;
  node_tokens_file : option string;
  store_path : string;
  tls_cert : option string;
  tls_key : option string;
  tls_client_ca : option string;
  node_timeout_s : Z;
  threat_feed_url : option string;
  threat_feed_interval_s : Z;
  threat_feed_action : string;
  threat_feed_ttl_s : Z;
}.
End Args.

Definition hub_token (token env : option string) : string :=
  default ""%string (match token with Some t => Some t | None => env end).

(** Tombstones are kept for a week. *)
Definition tombstone_ttl_ns : Z := 7 * 24 * 3600 * 1000000000.

Section HubMain.
Context {FL : FeedLib} {R : Redb} {J : PolicyJson}.

(** What the process finds on disk; [load_rustls_config] is whether the
    certificates can be loaded. *)
Class HubEnv := {
  read_to_string : string -> option string;
  open_store : string -> option Db;
  load_rustls_config : string -> string -> option string -> bool;
}.
Context {HE : HubEnv}.

Definition load_node_tokens (path : string) : option (gmap string string) :=
  content ← read_to_string path; node_token_lines (lines content) ∅.

Definition feed_config (a : Args.t) : option FeedConfig.t :=
  url ← Args.threat_feed_url a;
  Some (FeedConfig.mk "hub-threat-feed" url (Args.threat_feed_interval_s a) (Args.threat_feed_action a)
    (Args.threat_feed_ttl_s a)).

(** [spawn_feed_sync]: no task without a URL. *)
Definition feed_task (config : option FeedConfig.t) : option FeedConfig.t :=
  c ← config; if String.eqb (FeedConfig.url c) "" then None else Some c.

(** HTTPS, HTTP, or an error. *)
Definition tls_mode (a : Args.t) : option bool :=
  match Args.tls_cert a, Args.tls_key a with
  | Some cert, Some key => if load_rustls_config cert key (Args.tls_client_ca a) then Some true else None
  | None, None => Some false
  | _, _ => None
  end.

(** [main] up to serving: the state of the handlers and the task of the feed. *)
Definition hub_start (env : option string) (a : Args.t) : option (AppState * option FeedConfig.t) :=
  let token := hub_token (Args.token a) env in
  if String.eqb token "" then None
  else
    node_tokens ← (match Args.node_tokens_file a with Some path => load_node_tokens path | None => Some ∅ end);
    db ← open_store (Args.store_path a);
    let s := mkAppState db ∅ (HubAuth.mk token (map_to_list node_tokens)) RateLimiter_default
               (wrapping_mul 64 (Args.node_timeout_s a) 1000000000) in
    _ ← parse_socket_addr (Args.bind a);
    _ ← tls_mode a;
    Some (s, feed_task (feed_config a)).

(** What happens to a running hub. *)
Inductive HubStep :=
  | Call (header : option string) (r : Request) (clock : nat -> Z)
  | PruneTick (now : Z)
  | CleanupTick (now : Z)
  | FeedTick (now : nat -> Z).

Definition hub_step (feed : option FeedConfig.t) (s : AppState) (step : HubStep) : AppState :=
  match step with
  | Call header r clock => snd (serve header r clock s)
  | PruneTick now =>
      match prune now tombstone_ttl_ns (store s) with Some (_, db) => s <| store := db |> | None => s end
  | CleanupTick now => s <| registry ::= cleanup now (node_timeout_ns s) |>
  | FeedTick now =>
      match feed with Some config => s <| store := snd (HubFeed.sync_once config now (store s)) |> | None => s end
  end.

Definition hub_run (feed : option FeedConfig.t) (steps : list HubStep) (s : AppState) : AppState :=
  foldl (hub_step feed) s steps.
End HubMain.

(** *** The file of the node tokens *)

(** The last line for a name counts. *)
Definition named (ls : list string) (name token : string) : Prop :=
  exists before line after, ls = before ++ line :: after /\ node_token_line line = Some (Some (name, token)) /\
    forall line' t, line' ∈ after -> node_token_line line' <> Some (Some (name, t)).

Lemma node_token_line_given line name token : node_token_line line = Some (Some (name, token)) ->
  name <> ""%string /\ token <> ""%string.
Proof.
  unfold node_token_line. destruct (_ || _); [done|]. destruct (split_once _ _) as [[a b]|]; [|done]. cbn [mbind option_bind fst snd].
  destruct (String.eqb_spec (trim a) ""); [done|]. destruct (String.eqb_spec (trim b) ""); [done|]. by intros [= <- <-].
Qed.

Lemma named_cons line ls name token :
  named (line :: ls) name token <->
  named ls name token \/
  (node_token_line line = Some (Some (name, token)) /\
   forall line' t, line' ∈ ls -> node_token_line line' <> Some (Some (name, t))).
Proof.
  split.
  - intros (before & l & after & E & Hl & Ha). destruct before as [|b before]; injection E as -> ->; [by right|].
    left. by exists before, l, after.
  - intros [(before & l & after & -> & Hl & Ha)|[Hl Ha]]; [by exists (line :: before), l, after|by exists [], line, ls].
Qed.

Lemma node_token_lines_spec ls tokens tokens' : node_token_lines ls tokens = Some tokens' ->
  forall name token, tokens' !! name = Some token <->
    named ls name token \/
    (tokens !! name = Some token /\ forall line t, line ∈ ls -> node_token_line line <> Some (Some (name, t))).
Proof.
  revert tokens. induction ls as [|line ls IH]; intros tokens E name token; cbn [node_token_lines] in E.
  - injection E as <-. split.
    + intros H. right. split; [done|]. by intros line t ?%not_elem_of_nil.
    + intros [(before & l & after & Hn & _)|[H _]]; [by destruct before|done].
  - destruct (node_token_line line) as [nt|] eqn:El; [|done]. cbn [mbind option_bind] in E.
    rewrite (IH _ E), named_cons, El. clear IH E.
    assert (Hc : (forall l t, l ∈ line :: ls -> node_token_line l <> Some (Some (name, t))) <->
                 (forall t, nt <> Some (name, t)) /\ (forall l t, l ∈ ls -> node_token_line l <> Some (Some (name, t)))).
    { split.
      - intros H. split; [|by intros l t Hl; apply H; right]. intros t ->. by apply (H line t); [left|].
      - intros [H1 H2] l t [->|Hl]%elem_of_cons; [|by apply H2]. rewrite El. intros [= E]. by apply (H1 t). }
    rewrite Hc. destruct nt as [[n t]|].
    + destruct (decide (n = name)) as [->|Hne].
      * rewrite lookup_insert_eq. split.
        -- intros [H|[[= ->] H]]; [by left; left|left; right; done].
        -- intros [[H|[[= ->] H]]|[_ [H _]]]; [by left|by right|by destruct (H t)].
      * rewrite lookup_insert_ne by done. split.
        -- intros [H|[Ht H]]; [by left; left|]. right. split; [done|]. split; [by intros t' [= ->]|done].
        -- intros [[H|[[= -> _] _]]|[Ht [_ H]]]; [by left|done|by right].
    + split.
      * intros [H|[Ht H]]; [by left; left|by right].
      * intros [[H|[[=] _]]|[Ht [_ H]]]; [by left|by right].
Qed.

(** *** A running hub *)
Section HubRun.
Context {FL : FeedLib} {R : Redb} {RL : RedbLaws R} {J : PolicyJson} {JL : PolicyJsonLaws J} {HE : HubEnv}.

(** Requests as the JSON layer decodes them, clocks in range. *)
Definition request_ok (r : Request) : Prop :=
  match r with
  | PushPolicies _ policies => Forall node_ok policies
  | DeletePolicies _ ips => Forall ip_ok ips
  | _ => True
  end.

Definition step_ok (step : HubStep) : Prop :=
  match step with
  | Call _ r clock => request_ok r /\ forall i, is_u64 (clock i)
  | FeedTick now => forall i, is_u64 (now i)
  | PruneTick _ | CleanupTick _ => True
  end.

Lemma limited_keeps (P : AppState -> Prop) name now s next :
  (forall l, P (s <| rate_limiter := l |>)) -> (forall s, P s -> P (snd (next s))) -> P (snd (limited name now s next)).
Proof.
  intros Hl Hn. unfold limited. destruct (check _ _ _) as [[] l]; [|apply Hl]. apply Hn, Hl.
Qed.

(** The state of a hub after its start: the authority it started with, and a
    consistent store. *)
Definition hub_ok (a : HubAuth.t) (s : AppState) : Prop := auth s = a /\ store_ok (store s).

Lemma serve_keeps a header r clock s : request_ok r -> (forall i, is_u64 (clock i)) ->
  hub_ok a s -> hub_ok a (snd (serve header r clock s)).
Proof.
  intros Hr Hclock [Ha Hs]. unfold serve. destruct (authenticate _ _) as [identity|]; [|done].
  destruct r as [name policies| |name ips| |name| | | |bundle]; cbn [handle snd]; try done.
  - unfold push_policies. apply (limited_keeps (hub_ok a)); [done|]. intros s' [Ha' Hs'].
    destruct (merge_absorbed (default name identity) 0 policies (fun i => clock (S i)) (store s')) as (db & E & Hok & _);
      [done|done|done|intros i; apply Hclock|]. by rewrite E.
  - unfold delete_policies_handler. apply (limited_keeps (hub_ok a)); [done|]. intros s' [Ha' Hs']. destruct (_ >? _); [done|].
    destruct (delete_policies_run (clock 1%nat) ips (store s')) as (n & db & -> & Hok & _); [done|done|done|]. done.
  - unfold heartbeat_handler. destruct (_ || _); [done|]. by apply (limited_keeps (hub_ok a)).
  - unfold set_rules_handler, set_rules. by destruct (bundle_to_vec bundle).
Qed.

Lemma hub_step_keeps a feed s step : step_ok step -> hub_ok a s -> hub_ok a (hub_step feed s step).
Proof.
  destruct step as [header r clock|now|now|now]; cbn [step_ok hub_step].
  - intros [Hr Hc]. by apply serve_keeps.
  - intros _ [Ha Hs]. destruct (prune_run now tombstone_ttl_ns (store s) Hs) as (n & m & db & -> & Hok & _). done.
  - by intros _ [Ha Hs].
  - intros Hnow [Ha Hs]. destruct feed as [config|]; [|done]. split; [done|]. by apply sync_once_ok.
Qed.

(** The tokens of a start are the last ones of the file. *)
Definition token_in_file (file : option string) (name token : string) : Prop :=
  exists path content, file = Some path /\ read_to_string path = Some content /\ named (lines content) name token.

Lemma started_tokens file tokens :
  (match file with Some path => load_node_tokens path | None => Some ∅ end) = Some tokens ->
  forall n t, (n, t) ∈ map_to_list tokens <-> token_in_file file n t.
Proof.
  intros Et n t. rewrite elem_of_map_to_list. unfold token_in_file. destruct file as [path|].
  - unfold load_node_tokens in Et. destruct (read_to_string path) as [content|] eqn:Ec; [|done].
    cbn [mbind option_bind] in Et. rewrite (node_token_lines_spec _ _ _ Et), lookup_empty. split.
    + intros [H|[[=] _]]. by exists path, content.
    + intros (? & ? & [= <-] & E & H). rewrite Ec in E. injection E as <-. by left.
  - injection Et as <-. rewrite lookup_empty. split; [done|]. by intros (? & ? & [=] & _).
Qed.

Lemma token_in_file_given file name token : token_in_file file name token -> token <> ""%string.
Proof. intros (path & content & _ & _ & before & line & after & _ & Hl & _). by apply node_token_line_given in Hl as [_ ?]. Qed.

Lemma hub_run_keeps a feed steps s : Forall step_ok steps -> hub_ok a s -> hub_ok a (hub_run feed steps s).
Proof.
  intros Hsteps. revert s. induction Hsteps as [|step steps Hstep _ IH]; intros s Hs; [done|].
  apply IH. by apply hub_step_keeps.
Qed.

(** C23: a hub lets in who it was told to, and its store never breaks.  If the
    start succeeds there is a master token, and whatever requests, feeds and
    clean-ups follow, in any order: the store is consistent; a request is let
    in exactly if it carries the master token -- the argument or else the
    environment -- or a token that the last line for some node in the file
    gives; and whoever is not let in changes nothing. *)
Theorem hub_guarded env (a : Args.t) db s0 feed steps :
  hub_start env a = Some (s0, feed) ->
  open_store (Args.store_path a) = Some db -> store_ok db -> Forall step_ok steps ->
  let token := hub_token (Args.token a) env in
  let s := hub_run feed steps s0 in
  token <> ""%string /\ store_ok (store s) /\
  (forall header, is_Some (authenticate (auth s) header) <->
     presented header = token \/
     exists name, token_in_file (Args.node_tokens_file a) name (presented header)) /\
  (forall header r clock, authenticate (auth s) header = None -> serve header r clock s = (Err UNAUTHORIZED, s)).
Proof.
  intros Hstart Hdb Hok Hsteps token s. unfold hub_start in Hstart. fold token in Hstart. rewrite Hdb in Hstart.
  destruct (String.eqb_spec token "") as [|Hne]; [done|]. split; [done|].
  destruct (match Args.node_tokens_file a with Some path => _ | None => _ end) as [tokens|] eqn:Et; [|done].
  cbn [mbind option_bind] in Hstart. destruct (parse_socket_addr _); [|done]. destruct (tls_mode a); [|done].
  injection Hstart as <- <-.
  set (au := HubAuth.mk token (map_to_list tokens)).
  assert (Hs : hub_ok au s) by (subst s; by apply hub_run_keeps). destruct Hs as [Ha Hs]. rewrite Ha. split; [done|]. split.
  - intros header. pose proof (authenticate_spec au header) as Hauth. cbv zeta in Hauth.
    pose proof (started_tokens _ _ Et) as Htok. destruct (authenticate au header) as [[n|]|].
    + split; [|by eexists]. intros _. right. destruct Hauth as (_ & _ & H%Htok). by exists n.
    + split; [|by eexists]. intros _. left. exact (proj2 Hauth).
    + split; [by intros [? ?]|]. intros H. exfalso. destruct H as [H|[name H]].
      * destruct Hauth as [E|[E1 _]]; [|done]. apply Hne. by rewrite <- H.
      * destruct Hauth as [E|[_ E2]]; [by apply token_in_file_given in H|]. by apply (E2 name), Htok.
  - intros header r clock E. unfold serve. by rewrite Ha, E.
Qed.
End HubRun.

Module HubMainWitness.
Import HubSample.
#[local] Existing Instance SortedTable.redb.
#[local] Existing Instance SortedTable.redb_laws.
#[local] Open Scope string_scope.


(** A feed with a host, a network and a host with its prefix. *)
Definition listed : string :=
  "# bad hosts" +:+ newline +:+ "192.0.2.1, spam" +:+ newline +:+ "10.0.0.0/8" +:+ newline +:+ "192.0.2.2/32" +:+ newline.

#[local] Instance feed_lib : FeedLib := {|
  feed_get url := if String.eqb url "http://feed" then Some (true, listed) else None;
  json_from_str _ := None;
|}.

Definition feed : FeedConfig.t := FeedConfig.mk "hub-threat-feed" "http://feed" 3600 "drop" 86400.

Lemma hub_feed_blocks_witness :
  HubFeed.parse_feed listed = Some [alice; bob] /\
  exists db', HubFeed.sync_once feed (fun _ => 10) Db_empty = (Some tt, db') /\ store_ok db' /\
    exists q, policy_of db' bob = Some q /\ "hub-threat-feed" ∈ SharedPolicy.source_nodes q.
Proof.
  split; [vm_compute; reflexivity|].
  destruct (hub_feed_blocks feed listed [alice; bob] (fun _ => 10)%Z 10 Db_empty) as (_ & db' & Hrun & Hok & _ & Hin & _);
    [reflexivity|vm_compute; reflexivity|reflexivity|apply store_ok_empty|intros i; apply time_ok; lia|intros i; lia|].
  exists db'. split; [exact Hrun|]. split; [exact Hok|].
  destruct (Hin bob) as (q & Hq & Hs & _); [right; left|]. exists q. split; [exact Hq|exact Hs].
Defined.

(** A node gets a new token, the old line is still in the file. *)
Definition token_file : string :=
  "# nodes" +:+ newline +:+ "node-a: old" +:+ newline +:+ "node-b:secret-b" +:+ newline +:+ "node-a : new" +:+ newline.

#[local] Instance disk : HubEnv := {|
  read_to_string path := if String.eqb path "/etc/tokens" then Some token_file else None;
  open_store path := Some Db_empty;
  load_rustls_config _ _ _ := false;
|}.

Definition args : Args.t :=
  Args.mk "0.0.0.0:9930" None (Some "/etc/tokens") "/var/lib/hub" None None None 120 (Some "http://feed") 3600 "drop" 86400.

Definition a_day : list HubStep :=
  [FeedTick (fun _ => 10); Call (Some "Bearer new") (PushPolicies "node-b" [report alice 60]) (fun _ => 20);
   PruneTick 30; Call (Some "Bearer old") (DeletePolicies "node-a" [bob]) (fun _ => 40); CleanupTick 50].

Lemma a_day_ok : Forall step_ok a_day.
Proof.
  assert (H : forall t : Z, 0 <= t < 1000000 -> forall i : nat, is_u64 t) by (intros t Ht _; by apply time_ok).
  repeat constructor; try (apply H; lia); try (apply alice_ok).
  all: cbn; try lia. 
Qed.

Lemma hub_guarded_witness :
  match hub_start (Some "master") args with
  | Some (s0, task) =>
      let s := hub_run task a_day s0 in
      store_ok (store s) /\ is_Some (authenticate (auth s) (Some "master")) /\
      serve (Some "Bearer old") ListNodes (fun _ => 60) s = (Err UNAUTHORIZED, s)
  | None => False
  end.
Proof.
  destruct (hub_start (Some "master") args) as [[s0 task]|] eqn:E; [|vm_compute in E; discriminate E].
  destruct (hub_guarded (Some "master") args Db_empty s0 task a_day E eq_refl store_ok_empty a_day_ok)
    as (_ & Hok & Hin & Hout).
  split; [exact Hok|]. split; [apply Hin; left; reflexivity|]. apply Hout. injection E as <- <-. vm_compute. reflexivity.
Defined.
End HubMainWitness.
