(* ===== verification/LoginLimiter.v ===== *)
(** * LoginLimiter: the brute-force guard of the login

    [eshield/src/login_limiter.rs] and the login handler of [web.rs] that uses
    it.  Instants are nanoseconds of the monotonic clock. *)
From stdpp Require Import gmap.
From S2P Require Import Prelude Words RustStd.
#[local] Open Scope Z_scope.

Definition MAX_ATTEMPTS : nat := 5.
Definition WINDOW : Z := 60000000000.
Definition LOCKOUT : Z := 300000000000.

Module AttemptEntry.
Record t := mk {
  attempts : list Z;
  locked_until : option Z;
}.
End AttemptEntry.

Record LoginLimiter := mkLimiter {
  inner : gmap IpAddr AttemptEntry.t;
}.

#[export] Instance LoginLimiter_eta : Eta LoginLimiter := fun l => mkLimiter (inner l).

Definition LoginLimiter_new : LoginLimiter := mkLimiter ∅.

(** [attempts.retain(..)]; [duration_since] does not go below zero. *)
Definition recent (now : Z) (attempts : list Z) : list Z :=
  filter (fun t => saturating_sub now t < WINDOW) attempts.

Definition entry_of (ip : IpAddr) (l : LoginLimiter) : AttemptEntry.t :=
  default (AttemptEntry.mk [] None) (inner l !! ip).

(** Whether an attempt is allowed now, and the entry afterwards. *)
Definition check_entry (now : Z) (e : AttemptEntry.t) : bool * AttemptEntry.t :=
  let attempts := recent now (AttemptEntry.attempts e) in
  let unlocked :=
    if (MAX_ATTEMPTS <=? length attempts)%nat
    then (false, AttemptEntry.mk attempts (Some (now + LOCKOUT)))
    else (true, AttemptEntry.mk attempts None) in
  match AttemptEntry.locked_until e with
  | Some until => if now <? until then (false, AttemptEntry.mk attempts (Some until)) else unlocked
  | None => unlocked
  end.

Definition check (now : Z) (ip : IpAddr) (l : LoginLimiter) : bool * LoginLimiter :=
  let '(ok, e) := check_entry now (entry_of ip l) in (ok, l <| inner ::= insert ip e |>).

Definition fail_entry (now : Z) (e : AttemptEntry.t) : AttemptEntry.t :=
  let attempts := recent now (AttemptEntry.attempts e) ++ [now] in
  AttemptEntry.mk attempts
    (if (MAX_ATTEMPTS <=? length attempts)%nat then Some (now + LOCKOUT)
     else AttemptEntry.locked_until e).

Definition record_failure (now : Z) (ip : IpAddr) (l : LoginLimiter) : LoginLimiter :=
  l <| inner ::= insert ip (fail_entry now (entry_of ip l)) |>.

Definition record_success (ip : IpAddr) (l : LoginLimiter) : LoginLimiter := l <| inner ::= delete ip |>.

Inductive LoginResponse := TooManyRequests | LoggedIn | InvalidToken.

(** The login request of [ip]; [valid] is whether the token verifies.  The
    clock is read once for the check and once for a failure. *)
Definition login_api_handler (checked failed : Z) (ip : IpAddr) (valid : bool) (l : LoginLimiter)
    : LoginResponse * LoginLimiter :=
  let '(ok, l) := check checked ip l in
  if negb ok then (TooManyRequests, l)
  else if valid then (LoggedIn, record_success ip l)
  else (InvalidToken, record_failure failed ip l).

(** ** Guessing *)

(** Wrong tokens from one address, one request after the other, at these times. *)
Fixpoint guesses (ip : IpAddr) (times : list Z) (l : LoginLimiter) : list LoginResponse * LoginLimiter :=
  match times with
  | [] => ([], l)
  | now :: times =>
      let '(r, l) := login_api_handler now now ip false l in
      let '(rs, l) := guesses ip times l in
      (r :: rs, l)
  end.

(** The times of the guesses that were tried against the token. *)
Fixpoint tried (times : list Z) (rs : list LoginResponse) : list Z :=
  match times, rs with
  | now :: times, InvalidToken :: rs => now :: tried times rs
  | _ :: times, _ :: rs => tried times rs
  | _, _ => []
  end.

(** Never five guesses within a minute without a pause of [LOCKOUT] after them. *)
Definition pauses (ts : list Z) : Prop :=
  forall i a b c, ts !! i = Some a -> ts !! (i + 4)%nat = Some b -> ts !! (i + 5)%nat = Some c ->
    b - a < WINDOW -> b + LOCKOUT <= c.

Fixpoint ordered (t : Z) (times : list Z) : Prop :=
  match times with
  | [] => True
  | now :: times => t <= now /\ ordered now times
  end.

(** The entry of an address after the guesses [ts], the last request at [t]. *)
Definition guess_state (t : Z) (ts : list Z) (e : AttemptEntry.t) : Prop :=
  AttemptEntry.attempts e = recent t ts /\ Forall (fun x => x <= t) ts /\ pauses ts /\
  (forall i j x y, ts !! i = Some x -> ts !! j = Some y -> (i <= j)%nat -> x <= y) /\
  match AttemptEntry.locked_until e with
  | Some until => exists x, list.last ts = Some x /\ until = x + LOCKOUT
  | None => (length (recent t ts) < MAX_ATTEMPTS)%nat /\
      forall i a b, ts !! i = Some a -> ts !! (i + 4)%nat = Some b -> length ts = (i + 5)%nat ->
        WINDOW <= b - a
  end.

Lemma entry_of_insert ip e l : entry_of ip (l <| inner ::= insert ip e |>) = e.
Proof. unfold entry_of. cbn. by rewrite lookup_insert_eq. Qed.

Lemma recent_recent t now ts : t <= now -> recent now (recent t ts) = recent now ts.
Proof.
  intros H. unfold recent. rewrite list_filter_filter. apply list_filter_iff. intros x.
  unfold saturating_sub. lia.
Qed.

Lemma recent_shorter t now ts : t <= now -> (length (recent now ts) <= length (recent t ts))%nat.
Proof. intros H. rewrite <- (recent_recent t now) by done. apply length_filter. Qed.

Lemma recent_app now ts us : recent now (ts ++ us) = recent now ts ++ recent now us.
Proof. apply list.filter_app. Qed.

Lemma recent_all now ts : Forall (fun x => now - x < WINDOW) ts -> recent now ts = ts.
Proof.
  intros H. apply filter_all. eapply list.Forall_impl; [exact H|]. cbn. intros x.
  unfold saturating_sub, WINDOW. lia.
Qed.

Lemma recent_none now ts : Forall (fun x => x + WINDOW <= now) ts -> recent now ts = [].
Proof.
  intros H. apply filter_none. eapply list.Forall_impl; [exact H|]. cbn. intros x.
  unfold saturating_sub, WINDOW. lia.
Qed.

Lemma lookup_snoc_cases {A} (l : list A) x i y :
  (l ++ [x]) !! i = Some y -> l !! i = Some y \/ (i = length l /\ y = x).
Proof.
  intros H. apply lookup_app_Some in H as [H|[Hle H]]; [by left|]. right.
  destruct (i - length l)%nat eqn:E; cbn in H; [|done]. injection H as <-. split; [lia|done].
Qed.

Section Step.
Context (t now : Z) (ts : list Z) (e : AttemptEntry.t).
Context (Hst : guess_state t ts e) (Hle : t <= now).

Lemma ordered_snoc i j x y :
  (ts ++ [now]) !! i = Some x -> (ts ++ [now]) !! j = Some y -> (i <= j)%nat -> x <= y.
Proof using Hst Hle.
  destruct Hst as (_&Hmax&_&Hord&_). rewrite list.Forall_forall in Hmax.
  intros Hi Hj Hij. apply lookup_snoc_cases in Hi as [Hi|[-> ->]], Hj as [Hj|[-> ->]]; [eauto| | |lia].
  - specialize (Hmax x ltac:(by eapply list_elem_of_lookup_2)). lia.
  - apply lookup_lt_Some in Hj. lia.
Qed.

Lemma max_snoc : Forall (fun x => x <= now) (ts ++ [now]).
Proof using Hst Hle.
  destruct Hst as (_&Hmax&_). apply Forall_app. split; [|by constructor].
  eapply list.Forall_impl; [exact Hmax|]. cbn. intros; lia.
Qed.

(** A new guess keeps the pauses if it waits for the lock after five quick ones. *)
Lemma pauses_snoc :
  (forall i a b, ts !! i = Some a -> ts !! (i + 4)%nat = Some b -> length ts = (i + 5)%nat ->
     b - a < WINDOW -> b + LOCKOUT <= now) -> pauses (ts ++ [now]).
Proof using Hst.
  destruct Hst as (_&_&Hp&_). intros Hnew i a b c Ha Hb Hc Hab.
  apply lookup_snoc_cases in Ha as [Ha|[-> ->]]; [|apply lookup_lt_Some in Hc; rewrite length_app in Hc; cbn in Hc; lia].
  apply lookup_snoc_cases in Hb as [Hb|[E ->]]; [|apply lookup_lt_Some in Hc; rewrite length_app in Hc; cbn in Hc; lia].
  apply lookup_snoc_cases in Hc as [Hc|[E ->]]; [exact (Hp i a b c Ha Hb Hc Hab)|].
  exact (Hnew i a b Ha Hb (eq_sym E) Hab).
Qed.

Lemma refused_step e' : check_entry now e = (false, e') -> guess_state now ts e'.
Proof using Hst Hle.
  destruct Hst as (Hatt&Hmax&Hp&Hord&Hlock). unfold check_entry. rewrite Hatt, recent_recent by done.
  assert (Hmax' : Forall (fun x => x <= now) ts) by (eapply list.Forall_impl; [exact Hmax|]; cbn; intros; lia).
  pose proof (recent_shorter t now ts Hle) as Hshort.
  destruct (AttemptEntry.locked_until e) as [until|].
  - destruct (Z.ltb_spec now until).
    + intros [= <-]. unfold guess_state. cbn. auto 6.
    + destruct Hlock as (x&Hx&->). rewrite (recent_none now ts).
      * unfold MAX_ATTEMPTS. cbn. by intros [=].
      * apply list.Forall_forall. intros y Hy. apply list_elem_of_lookup in Hy as [i Hy].
        rewrite last_lookup in Hx. pose proof (lookup_lt_Some _ _ _ Hy).
        specialize (Hord i (pred (length ts)) y x Hy Hx ltac:(lia)). unfold LOCKOUT, WINDOW in *. lia.
  - destruct Hlock as [Hlen _]. destruct (Nat.leb_spec MAX_ATTEMPTS (length (recent now ts))); [lia|done].
Qed.

Lemma tried_step e' : check_entry now e = (true, e') -> guess_state now (ts ++ [now]) (fail_entry now e').
Proof using Hst Hle.
  pose proof ordered_snoc as Hord'. pose proof max_snoc as Hmax'. pose proof pauses_snoc as Hp'.
  destruct Hst as (Hatt&Hmax&Hp&Hord&Hlock). unfold check_entry. rewrite Hatt, recent_recent by done.
  assert (Hself : recent now [now] = [now]).
  { apply recent_all. constructor; [unfold WINDOW; lia|constructor]. }
  destruct (AttemptEntry.locked_until e) as [until|].
  - destruct (Z.ltb_spec now until) as [|Hu]; [done|]. destruct Hlock as (x&Hx&->).
    assert (Hold : Forall (fun y => y + LOCKOUT <= now) ts).
    { apply list.Forall_forall. intros y Hy. apply list_elem_of_lookup in Hy as [i Hy].
      rewrite last_lookup in Hx. pose proof (lookup_lt_Some _ _ _ Hy).
      specialize (Hord i (pred (length ts)) y x Hy Hx ltac:(lia)). lia. }
    rewrite (recent_none now ts) by (eapply list.Forall_impl; [exact Hold|]; unfold LOCKOUT, WINDOW; cbn; intros; lia).
    rewrite list.Forall_forall in Hold. intros [= <-]. unfold guess_state, fail_entry. cbn.
    rewrite recent_app, (recent_none now ts), Hself by
      (apply list.Forall_forall; intros y Hy; specialize (Hold y Hy); unfold LOCKOUT, WINDOW in *; lia).
    split; [done|]. split; [done|]. split; [|split; [done|split; [cbn; unfold MAX_ATTEMPTS; lia|]]].
    + apply Hp'. intros i a b _ Hb _ _. apply Hold. by eapply list_elem_of_lookup_2.
    + intros i a b Ha Hb Hlen. rewrite length_app in Hlen. cbn in Hlen.
      apply lookup_snoc_cases in Hb as [Hb|[_ ->]]; [apply lookup_lt_Some in Hb; lia|].
      apply lookup_snoc_cases in Ha as [Ha|[-> _]]; [|lia].
      specialize (Hold a ltac:(by eapply list_elem_of_lookup_2)). unfold LOCKOUT, WINDOW in *. lia.
  - destruct Hlock as [Hlen Hlast]. pose proof (recent_shorter t now ts Hle) as Hshort.
    destruct (Nat.leb_spec MAX_ATTEMPTS (length (recent now ts))); [lia|]. intros [= <-].
    unfold guess_state, fail_entry. cbn [AttemptEntry.attempts AttemptEntry.locked_until].
    rewrite recent_recent by lia.
    assert (Happ : recent now ts ++ [now] = recent now (ts ++ [now])) by by rewrite recent_app, Hself.
    rewrite Happ. split; [done|]. split; [done|]. split; [|split; [done|]].
    + apply Hp'. intros i a b Ha Hb Hl Hab. specialize (Hlast i a b Ha Hb Hl). lia.
    + destruct (Nat.leb_spec MAX_ATTEMPTS (length (recent now (ts ++ [now])))) as [Hge|Hlt].
      * exists now. by rewrite last_snoc.
      * split; [done|]. intros i a b Ha Hb Hl.
        destruct (Z.le_gt_cases WINDOW (b - a)) as [|Hab]; [done|]. exfalso.
        rewrite <- (take_drop i (ts ++ [now])), recent_app, length_app in Hlt.
        rewrite (recent_all now (drop i _)) in Hlt; [rewrite length_drop, Hl in Hlt; unfold MAX_ATTEMPTS in Hlt; lia|].
        apply list.Forall_forall. intros y Hy. apply list_elem_of_lookup in Hy as [j Hy].
        rewrite lookup_drop in Hy. specialize (Hord' i (i + j)%nat a y Ha Hy ltac:(lia)).
        rewrite length_app in Hl. cbn in Hl.
        apply lookup_snoc_cases in Hb as [Hb|[_ ->]]; [apply lookup_lt_Some in Hb; lia|]. lia.
Qed.
End Step.

Lemma guesses_state ip times t ts l :
  guess_state t ts (entry_of ip l) -> ordered t times ->
  exists t', guess_state t' (ts ++ tried times (fst (guesses ip times l)))
    (entry_of ip (snd (guesses ip times l))).
Proof.
  revert t ts l. induction times as [|now times IH]; intros t ts l Hst Hord.
  - exists t. cbn. by rewrite app_nil_r.
  - destruct Hord as [Hle Hord]. cbn [guesses]. unfold login_api_handler, check.
    destruct (check_entry now (entry_of ip l)) as [ok e] eqn:E.
    destruct ok; cbn [negb].
    + pose proof (tried_step t now ts _ Hst Hle e E) as Hst'.
      set (l1 := record_failure now ip _).
      assert (He : entry_of ip l1 = fail_entry now e).
      { subst l1. unfold record_failure. by rewrite !entry_of_insert. }
      rewrite <- He in Hst'. destruct (IH _ _ l1 Hst' Hord) as [t' H].
      destruct (guesses ip times l1) as [rs l2]. exists t'. cbn in *. by rewrite <- app_assoc in H.
    + pose proof (refused_step t now ts _ Hst Hle e E) as Hst'.
      set (l1 := l <| inner ::= insert ip e |>).
      assert (He : entry_of ip l1 = e) by apply entry_of_insert.
      rewrite <- He in Hst'. destruct (IH _ _ l1 Hst' Hord) as [t' H].
      destruct (guesses ip times l1) as [rs l2]. exists t'. exact H.
Qed.

(** C36: guessing is bounded.  Of any sequence of logins with wrong tokens from
    one address, one after the other, at most five are tried against the token
    within a minute, and after five within less than a minute none is tried for
    five minutes; the state of other addresses plays no part and does not
    change. *)
Theorem guesses_bounded ip times l :
  inner l !! ip = None -> ordered 0 times ->
  let ts := tried times (fst (guesses ip times l)) in
  pauses ts /\
  (forall i a c, ts !! i = Some a -> ts !! (i + 5)%nat = Some c -> WINDOW <= c - a) /\
  (forall ip', ip' <> ip -> inner (snd (guesses ip times l)) !! ip' = inner l !! ip').
Proof.
  intros Hnone Hord ts.
  assert (Hst : guess_state 0 [] (entry_of ip l)).
  { unfold entry_of. rewrite Hnone. unfold guess_state. cbn. split; [done|]. split; [constructor|].
    split; [by intros i a b c H|]. split; [by intros i j x y H|].
    split; [unfold MAX_ATTEMPTS; lia|by intros i a b H]. }
  destruct (guesses_state ip times 0 [] l Hst Hord) as [t' (_&_&Hp&Ho&_)]. cbn [app] in Hp, Ho.
  fold ts in Hp, Ho. split; [done|]. split.
  - intros i a c Ha Hc. assert (exists b, ts !! (i + 4)%nat = Some b) as [b Hb].
    { apply lookup_lt_is_Some. apply lookup_lt_Some in Hc. lia. }
    pose proof (Hp i a b c Ha Hb Hc). pose proof (Ho i (i + 4)%nat a b Ha Hb ltac:(lia)).
    pose proof (Ho (i + 4)%nat (i + 5)%nat b c Hb Hc ltac:(lia)).
    unfold WINDOW, LOCKOUT in *. lia.
  - intros ip' Hne. clear -Hne. revert l. induction times as [|now times IH]; intros l; [done|].
    cbn [guesses]. unfold login_api_handler, check. destruct (check_entry _ _) as [ok e].
    destruct ok; cbn [negb].
    + specialize (IH (record_failure now ip (l <| inner ::= insert ip e |>))). destruct (guesses ip times _) as [rs l2].
      cbn in *. rewrite IH. unfold record_failure. by rewrite !lookup_insert_ne by done.
    + specialize (IH (l <| inner ::= insert ip e |>)). destruct (guesses ip times _) as [rs l2].
      cbn in *. rewrite IH. by rewrite lookup_insert_ne by done.
Qed.

(** Seven guesses a second apart: five are tried, two refused. *)
Lemma guesses_bounded_witness :
  let times := [0; 1; 2; 3; 4; 5; 6; 300000000003; 300000000004] in
  let ts := tried times (fst (guesses (V4 [192; 0; 2; 1]) times LoginLimiter_new)) in
  ts = [0; 1; 2; 3; 4; 300000000004] /\ pauses ts.
Proof.
  intros times ts. split; [vm_compute; reflexivity|].
  apply (guesses_bounded (V4 [192; 0; 2; 1]) times LoginLimiter_new); [reflexivity|].
  unfold times. cbn [ordered]. lia.
Defined.

(** [n] checks of one address in a row, before any failure is recorded. *)
Fixpoint overlapping (n : nat) (now : Z) (ip : IpAddr) (l : LoginLimiter) : list bool * LoginLimiter :=
  match n with
  | O => ([], l)
  | S n =>
      let '(ok, l) := check now ip l in
      let '(oks, l) := overlapping n now ip l in
      (ok :: oks, l)
  end.

(** Guesses that overlap are not bounded: the check and the failure are
    separate steps of the handler, and every check that runs before the first
    failure is recorded succeeds. *)
Theorem overlapping_checks_pass n now ip l :
  entry_of ip l = AttemptEntry.mk [] None ->
  Forall (fun ok => ok = true) (fst (overlapping n now ip l)).
Proof.
  revert l. induction n as [|n IH]; intros l He; [constructor|]. cbn [overlapping]. unfold check.
  rewrite He. cbn.
  specialize (IH (l <| inner ::= insert ip (AttemptEntry.mk [] None) |>)). destruct (overlapping n now ip _) as [oks l'].
  constructor; [done|]. apply IH, entry_of_insert.
Qed.
