(* ===== verification/ConsoleAuth.v ===== *)
(** * ConsoleAuth: who may use the console

    [eshield/src/auth.rs] and the session cookies of [web.rs].  A request is what
    axum hands to the middleware: the address of the peer, the method, the path
    and the headers, their names in lower case. *)
From Stdlib Require Import Ascii.
From stdpp Require Import strings gmap.
From S2P Require Import Prelude Words RustStd PacketLog.
#[local] Open Scope Z_scope.

(** ** Requests *)
Inductive Method := GET | HEAD | OPTIONS | POST | PUT | PATCH | DELETE | TRACE | CONNECT.

#[export] Instance Method_eq_dec : EqDecision Method.
Proof. solve_decision. Defined.

Module Request.
Record t := mk {
  peer : IpAddr;
  method : Method;
  path : string;
  query : option string;
  headers : list (string * string);
  body : string;
}.
End Request.

(** [HeaderMap::get]: the first value of a name. *)
Definition header_get (name : string) (r : Request.t) : option string :=
  snd <$> find (fun h => String.eqb (fst h) name) (Request.headers r).
Definition contains_key (name : string) (r : Request.t) : bool :=
  match header_get name r with Some _ => true | None => false end.

(** [HeaderValue::to_str]: visible ASCII and tabs only. *)
Fixpoint visible (s : string) : bool :=
  match s with
  | EmptyString => true
  | String c s => (((32 <=? code c) && (code c <? 127)) || (code c =? 9)) && visible s
  end.
Definition to_str (s : string) : option string := if visible s then Some s else None.
Definition header_str (name : string) (r : Request.t) : option string := header_get name r ≫= to_str.

(** [IpAddr::is_loopback] *)
Definition is_loopback (ip : IpAddr) : bool :=
  match ip with
  | V4 octets => nth 0 octets 0 =? 127
  | V6 octets => bool_decide (octets = repeat 0 15 ++ [1])
  end.

(** ** Tokens *)
Inductive Role := Admin | Readonly.

Definition Role_as_str (role : Role) : string :=
  match role with Admin => "admin"%string | Readonly => "readonly"%string end.

#[export] Instance Role_eq_dec : EqDecision Role.
Proof. solve_decision. Defined.

Module AuthState.
Record t := mk {
  token : option string;
  readonly_token : option string;
}.
#[global] Instance eta_t : Eta t := fun r => mk (token r) (readonly_token r).
End AuthState.

Definition non_empty (s : option string) : option string :=
  match s with Some s => if String.eqb s "" then None else Some s | None => None end.

Definition with_readonly (token readonly : option string) : AuthState.t :=
  AuthState.mk (non_empty token) (non_empty readonly).

(** [subtle]'s comparison of byte strings. *)
Definition constant_time_eq (a b : string) : bool := (String.length a =? String.length b)%nat && String.eqb a b.

Definition is_token (token : option string) (provided : string) : bool :=
  match token with Some token => constant_time_eq token provided | None => false end.

Definition role_of (provided : string) (a : AuthState.t) : option Role :=
  if String.eqb provided "" then None
  else if is_token (AuthState.token a) provided then Some Admin
  else if is_token (AuthState.readonly_token a) provided then Some Readonly
  else None.

Definition verify (provided : string) (a : AuthState.t) : bool :=
  if String.eqb provided "" then false else is_token (AuthState.token a) provided.

Definition set_token (token : string) (a : AuthState.t) : AuthState.t :=
  if String.eqb token "" then a else a <| AuthState.token := Some token |>.

(** [format!("{:032x}", random)] of a 128-bit number: two digits per byte. *)
Definition hex_token (random : Z) : string := bytes_to_hex (be_bytes 16 random).
Definition reset_token (random : Z) (a : AuthState.t) : string * AuthState.t :=
  let token := hex_token random in (token, set_token token a).

(** ** The middleware *)

(** [cookie.trim().splitn(2, '=')] when the name is the session's; without a
    value the search goes on. *)
Definition session_of (cookie : string) : option string :=
  match split_once "=" (trim cookie) with
  | Some (name, value) => if String.eqb name "eshield-token" then Some value else None
  | None => None
  end.

Fixpoint find_map {A B} (f : A -> option B) (l : list A) : option B :=
  match l with
  | [] => None
  | x :: l => match f x with Some y => Some y | None => find_map f l end
  end.

Definition cookie_token (r : Request.t) : option string :=
  cookies ← header_str "cookie" r; find_map session_of (split ";" cookies).
Definition header_token (r : Request.t) : option string :=
  header_str "authorization" r ≫= str_strip_prefix "Bearer ".

(** What the request presents: the header before the cookie. *)
Definition provided (r : Request.t) : option string :=
  match header_token r with Some t => Some t | None => cookie_token r end.

Definition proxy_headers_present (r : Request.t) : bool :=
  contains_key "x-forwarded-for" r || contains_key "x-real-ip" r || contains_key "forwarded" r.

Definition is_html_root (r : Request.t) : bool :=
  String.eqb (Request.path r) "/" &&
  match header_str "accept" r with Some s => contains "text/html" s | None => false end.

Inductive AuthOutcome :=
  | Next (role : Role)
  | Forbidden
  | RedirectLogin
  | Unauthorized.

Definition safe_method (m : Method) : bool :=
  bool_decide (m = GET) || bool_decide (m = HEAD) || bool_decide (m = OPTIONS).

Definition auth_middleware (r : Request.t) (a : AuthState.t) : AuthOutcome :=
  if is_loopback (Request.peer r) && negb (proxy_headers_present r) then Next Admin
  else
    match AuthState.token a with
    | None => Next Admin
    | Some _ =>
        match provided r ≫= fun t => role_of t a with
        | Some role =>
            if bool_decide (role = Readonly) && negb (safe_method (Request.method r)) &&
               negb (String.eqb (Request.path r) "/api/auth/logout") then Forbidden
            else Next role
        | None => if is_html_root r then RedirectLogin else Unauthorized
        end
    end.

(** ** Cookies *)
Definition request_is_https (r : Request.t) : bool :=
  match header_str "x-forwarded-proto" r with
  | Some proto => eq_ignore_ascii_case proto "https"
  | None =>
      match header_str "forwarded" r with
      | Some v => contains "proto=https" (to_lowercase v)
      | None => false
      end
  end.

Definition session_cookie (token : string) (secure : bool) : string :=
  "eshield-token=" +:+ token +:+
  (if secure then "; Path=/; HttpOnly; Secure; SameSite=Lax" else "; Path=/; HttpOnly; SameSite=Lax").

Definition logout_cookie (secure : bool) : string :=
  "eshield-token=; Path=/; Max-Age=0; HttpOnly; SameSite=Lax" +:+ (if secure then "; Secure" else "").
