(* ===== verification/Series.v ===== *)
(** * Series: the time series across restarts

    The tasks of [eshield/src/main.rs] that sample the statistics every ten
    seconds, write the new points to the rule store every minute and prune it,
    the loading at the start and the last save before the exit. *)
From Stdlib Require Import Sorted.
From stdpp Require Import gmap sorting strings.
From S2P Require Import Prelude Words Common RustStd Config TimeSeries Redb RuleStore RuleStoreProps.
#[local] Open Scope Z_scope.
Import TimeSeriesWindow.

Section Series.
Context {R : Redb} {J : RuleJson}.

Record Series := mkSeries {
  window : TimeSeriesWindow.t;
  disk : RuleStore;
  last_persisted_ts : Z;
}.

Definition retention_s (days : Z) : Z := saturating_mul 64 days 86400.

(** At the start: the stored points of the retention period that do not lie in
    the future of the monotonic clock. *)
Definition series_start (now days : Z) (w : TimeSeriesWindow.t) (st : RuleStore) : Series :=
  let since := saturating_sub now (retention_s days) in
  let w := match load_timeseries since st with
    | Some points => load (filter (fun p => MetricPoint.timestamp p <= now) points) w
    | None => w
    end in
  mkSeries w st (last_timestamp w).

Definition series_sample (now : Z) (stats : Stats.t) (s : Series) : Series :=
  mkSeries (record now stats (window s)) (disk s) (last_persisted_ts s).

(** The points after the last persisted one; an error leaves it for next time. *)
Definition series_save (s : Series) : Series :=
  let points := snapshot_after (last_persisted_ts s) (window s) in
  match list.last points with
  | None => s
  | Some last =>
      match save_timeseries points (disk s) with
      | Some d => mkSeries (window s) d (MetricPoint.timestamp last)
      | None => s
      end
  end.

Definition series_persist (now days : Z) (s : Series) : Series :=
  let s := series_save s in
  match prune_timeseries (saturating_sub now (retention_s days)) (disk s) with
  | Some (_, d) => mkSeries (window s) d (last_persisted_ts s)
  | None => s
  end.

Inductive SeriesStep :=
  | Sample (now : Z) (stats : Stats.t)
  | Persist (now : Z).

Definition series_step (days : Z) (s : Series) (step : SeriesStep) : Series :=
  match step with
  | Sample now stats => series_sample now stats s
  | Persist now => series_persist now days s
  end.

(** The store after a run that ends with the save before the exit. *)
Definition series_run (days : Z) (steps : list SeriesStep) (s : Series) : Series :=
  series_save (foldl (series_step days) s steps).

(** ** Nothing shown is lost *)
Definition step_time (step : SeriesStep) : Z := match step with Sample now _ => now | Persist now => now end.

(** A clock that does not run backwards, within 64 bits. *)
Fixpoint timed (t : Z) (steps : list SeriesStep) : Prop :=
  match steps with
  | [] => True
  | step :: steps => t <= step_time step < 2 ^ 64 /\ timed (step_time step) steps
  end.

Definition key_of (p : MetricPoint.t) : bytes := be_bytes 8 (MetricPoint.timestamp p).

Definition in_range (p : MetricPoint.t) : Prop := 0 <= MetricPoint.timestamp p < 2 ^ 64.
Definition stored (t : table) (p : MetricPoint.t) : Prop :=
  exists v, tbl_get t (key_of p) = Some v /\ metric_from_slice v = Some p.

(** Every row is a point under its own second. *)
Definition coherent (t : table) : Prop :=
  forall k v, tbl_get t k = Some v -> exists p, metric_from_slice v = Some p /\ in_range p /\ k = key_of p.

Definition bound (t days : Z) : Z := saturating_sub t (retention_s days).

(** What holds at time [t]. *)
Definition series_ok (t days : Z) (s : Series) : Prop :=
  (0 < capacity (window s))%nat /\ increasing (slots (window s)) /\ 0 < t < 2 ^ 64 /\
  head_timestamp (window s) <= t /\ coherent (TIMESERIES (disk s)) /\
  last_persisted_ts s <= head_timestamp (window s) /\
  (slots (window s) = [] -> last_persisted_ts s < t) /\
  (forall p, p ∈ slots (window s) -> 0 <= MetricPoint.timestamp p <= head_timestamp (window s)) /\
  (forall p, p ∈ slots (window s) -> bound t days <= MetricPoint.timestamp p ->
     MetricPoint.timestamp p <= last_persisted_ts s -> stored (TIMESERIES (disk s)) p).
End Series.

Section SeriesProps.
Context {R : Redb} {RL : RedbLaws R} {J : RuleJson} {JL : RuleJsonLaws J}.

Lemma key_of_inj p q : in_range p -> in_range q -> key_of p = key_of q -> MetricPoint.timestamp p = MetricPoint.timestamp q.
Proof. unfold key_of. intros Hp Hq E%(f_equal be_val). by rewrite !be_val_be_bytes in E. Qed.

Lemma increasing_tail p ps : increasing (p :: ps) ->
  increasing ps /\ (forall q, q ∈ ps -> MetricPoint.timestamp p < MetricPoint.timestamp q).
Proof. intros H. inversion H as [|? ? Hs Hf]; subst. split; [done|]. by apply list.Forall_forall. Qed.

Lemma insert_points_spec ps : forall t, Forall in_range ps -> increasing ps ->
  exists t', insert_points ps t = Some t' /\ (coherent t -> coherent t') /\ (forall p, p ∈ ps -> stored t' p) /\
    (forall k, (forall p, p ∈ ps -> k <> key_of p) -> tbl_get t' k = tbl_get t k).
Proof.
  induction ps as [|p ps IH]; intros t Hr Hi; [exists t; split_and!; try done; by intros p ?%not_elem_of_nil|].
  apply list.Forall_cons in Hr as [Hp Hr]. apply increasing_tail in Hi as [Hi Hlt]. cbn [insert_points]. fold (key_of p).
  destruct (metric_from_to p) as (v & -> & Hv). cbn [mbind option_bind].
  destruct (IH (tbl_insert (key_of p) v t) Hr Hi) as (t' & E & Hc & Hs & Hk). exists t'. split; [done|].
  assert (Hne : forall q, q ∈ ps -> key_of p <> key_of q).
  { intros q Hq Heq. rewrite list.Forall_forall in Hr. pose proof (key_of_inj p q Hp (Hr q Hq) Heq).
    specialize (Hlt q Hq). lia. }
  split_and!.
  - intros Ht. apply Hc. intros k v'. destruct (decide (key_of p = k)) as [<-|Hkp].
    + rewrite get_insert. intros [= <-]. by exists p.
    + rewrite get_insert_ne by done. apply Ht.
  - intros q [->|Hq]%elem_of_cons; [|by apply Hs]. exists v. rewrite Hk by done. by rewrite get_insert.
  - intros k Hout. rewrite Hk by (intros q Hq; apply Hout; by right).
    apply get_insert_ne. intros E'. apply (Hout p); [by left|done].
Qed.

Lemma increasing_filter (P : MetricPoint.t -> Prop) `{!forall x, Decision (P x)} ps : increasing ps -> increasing (filter P ps).
Proof.
  induction 1 as [|p ps Hs IH Hp]; [constructor|]. rewrite filter_cons. case_decide; [|done].
  constructor; [done|]. by apply Forall_filter_in.
Qed.

Lemma increasing_last ps p : increasing ps -> list.last ps = Some p ->
  forall q, q ∈ ps -> MetricPoint.timestamp q <= MetricPoint.timestamp p.
Proof.
  intros Hi Hl. induction ps as [|x ps IH] using rev_ind; [done|]. rewrite last_snoc in Hl. injection Hl as ->.
  intros q [Hq| ->%list_elem_of_singleton]%elem_of_app; [|done].
  clear IH. induction ps as [|y ps IH]; [by apply not_elem_of_nil in Hq|]. cbn in Hi.
  apply increasing_tail in Hi as [Hi Hlt]. apply elem_of_cons in Hq as [->|Hq]; [|by apply IH].
  specialize (Hlt p ltac:(apply elem_of_app; right; by left)). lia.
Qed.

(** Saving writes every point of the window after the last persisted one. *)
Lemma series_save_ok t days s : series_ok t days s ->
  series_ok t days (series_save s) /\ window (series_save s) = window s /\
  (forall p, p ∈ slots (window s) -> MetricPoint.timestamp p <= last_persisted_ts (series_save s)).
Proof.
  intros (Hcap & Hi & Ht & Hh & Hc & Hl & He & Hr & Hs). unfold series_save.
  set (points := snapshot_after (last_persisted_ts s) (window s)).
  assert (Hin : forall p, p ∈ points <-> last_persisted_ts s < MetricPoint.timestamp p /\ p ∈ slots (window s))
    by (intros p; unfold points, snapshot_after; by rewrite list_elem_of_filter).
  assert (Hip : increasing points) by (by apply increasing_filter).
  destruct (list.last points) as [last|] eqn:El.
  - assert (Hlast : last ∈ points) by (by apply last_Some_elem_of). pose proof (increasing_last _ _ Hip El) as Hmax.
    pose proof (proj1 (Hin last) Hlast) as [Hlt Hls]. pose proof (Hr _ Hls) as Hlr.
    assert (Hpr : Forall in_range points).
    { apply list.Forall_forall. intros p [_ Hp]%Hin. specialize (Hr _ Hp). unfold in_range. lia. }
    unfold save_timeseries. destruct (insert_points_spec points (TIMESERIES (disk s)) Hpr Hip) as (t' & -> & Hc' & Hs' & Hk).
    cbn [mbind option_bind]. unfold series_ok. cbn [window disk last_persisted_ts]. split; [|split; [done|]].
    + split_and!; try (done || lia); [by apply Hc'|intros E; by rewrite E in Hls; apply not_elem_of_nil in Hls|].
      intros p Hp Hb Hle. change (TIMESERIES (setter TIMESERIES _ (disk s))) with t'.
      destruct (Z_lt_le_dec (last_persisted_ts s) (MetricPoint.timestamp p)) as [Hn|Ho]; [by apply Hs', Hin|].
      destruct (Hs p Hp Hb Ho) as (v & Hg & Hv). exists v. split; [|done]. rewrite Hk; [done|].
      intros q Hq E. pose proof (proj1 (Hin q) Hq) as [Hq1 Hq2]. rewrite list.Forall_forall in Hpr.
      apply key_of_inj in E; [lia| |by apply Hpr]. specialize (Hr _ Hp). unfold in_range. lia.
    + intros p Hp. destruct (Z_lt_le_dec (last_persisted_ts s) (MetricPoint.timestamp p)) as [Hn|Ho]; [by apply Hmax, Hin|lia].
  - apply last_None in El. split; [by repeat (split; [done|])|]. split; [done|]. intros p Hp.
    destruct (Z_lt_le_dec (last_persisted_ts s) (MetricPoint.timestamp p)) as [Hn|Ho]; [|done].
    assert (Hbad : p ∈ points) by (by apply Hin). rewrite El in Hbad. by apply not_elem_of_nil in Hbad.
Qed.

Lemma series_ok_later t t' days s : series_ok t days s -> t <= t' < 2 ^ 64 -> series_ok t' days s.
Proof.
  intros (Hcap & Hi & Ht & Hh & Hc & Hl & He & Hr & Hs) Ht'. repeat (split; [done || lia|]).
  split; [intros E; specialize (He E); lia|]. split; [done|]. intros p Hp Hb. apply Hs; [done|].
  unfold bound, saturating_sub in *. lia.
Qed.

Lemma series_sample_ok now stats days s : series_ok now days s -> series_ok now days (series_sample now stats s).
Proof.
  intros (Hcap & Hi & Ht & Hh & Hc & Hl & He & Hr & Hs). unfold series_sample, record.
  destruct ((now =? head_timestamp (window s)) && negb (bool_decide (slots (window s) = []))) eqn:E.
  { by repeat (split; [done|]). }
  unfold series_ok. cbn [window disk last_persisted_ts slots head_timestamp capacity].
  assert (Hnew : last_persisted_ts s < now).
  { apply andb_false_iff in E as [E|E]; [apply Z.eqb_neq in E; lia|].
    apply negb_false_iff, bool_decide_eq_true in E. by apply He. }
  assert (Hin : forall p, p ∈ push_slot (capacity (window s)) (slots (window s)) (point_of now stats (window s)) ->
    p ∈ slots (window s) \/ MetricPoint.timestamp p = now).
  { intros p [Hp| ->%list_elem_of_singleton]%elem_of_app; [left|by right].
    destruct (_ =? _)%nat; [|done]. destruct (slots (window s)); [done|by right]. }
  assert (Hold : forall p, p ∈ slots (window s) -> MetricPoint.timestamp p < now).
  { intros p Hp. specialize (Hr p Hp). apply andb_false_iff in E as [E|E]; [apply Z.eqb_neq in E; lia|].
    apply negb_false_iff, bool_decide_eq_true in E. rewrite E in Hp. by apply not_elem_of_nil in Hp. }
  split_and!; try (done || lia).
  - unfold push_slot. apply StronglySorted_snoc.
    + destruct (_ =? _)%nat; [|done]. destruct Hi as [|p ps Hi _]; [constructor|done].
    + intros q Hq. cbn. apply Hold. destruct (_ =? _)%nat; [|done]. destruct (slots (window s)); [done|by right].
  - intros p [Hp|Hp]%Hin; [|lia]. specialize (Hr p Hp). lia.
  - intros p [Hp|Hp]%Hin Hb Hle; [by apply Hs|lia].
Qed.

Lemma prune_ok before t : coherent t ->
  let t' := foldl (fun t k => tbl_remove k t) t (map fst (filter (fun row => second_of row < before) (tbl_iter t))) in
  coherent t' /\ (forall p, in_range p -> before <= MetricPoint.timestamp p -> stored t p -> stored t' p).
Proof.
  intros Hc t'. unfold t'. split.
  - intros k v. rewrite get_foldr_remove. case_decide; [done|]. apply Hc.
  - intros p Hp Hb (v & Hg & Hv). exists v. split; [|done]. rewrite get_foldr_remove, decide_False; [done|].
    intros ([k v'] & E & Hin)%list_elem_of_fmap. cbn in E. subst k. apply list_elem_of_filter in Hin as [Hlt _].
    change (be_val (key_of p) < before) in Hlt. unfold key_of in Hlt. rewrite be_val_be_bytes in Hlt by done. lia.
Qed.

Lemma series_persist_ok now days s : series_ok now days s -> series_ok now days (series_persist now days s).
Proof.
  intros Hok. unfold series_persist. destruct (series_save_ok now days s Hok) as (Hok' & _ & _).
  revert Hok'. generalize (series_save s). clear s Hok.
  intros s (Hcap & Hi & Ht & Hh & Hc & Hl & He & Hr & Hs). unfold prune_timeseries. cbv zeta iota beta.
  destruct (prune_ok (bound now days) _ Hc) as [Hc' Hs'].
  unfold series_ok. cbn [window disk last_persisted_ts]. repeat (split; [done|]).
  intros p Hp Hb Hle. apply Hs'; [|done|by apply Hs]. specialize (Hr p Hp). unfold in_range. lia.
Qed.

Fixpoint last_time (t : Z) (steps : list SeriesStep) : Z :=
  match steps with [] => t | step :: steps => last_time (step_time step) steps end.

Lemma series_steps_ok days steps : forall t s, series_ok t days s -> timed t steps ->
  series_ok (last_time t steps) days (foldl (series_step days) s steps).
Proof.
  induction steps as [|step steps IH]; intros t s Hok Ht; [done|]. destruct Ht as [Hn Ht].
  cbn [foldl last_time]. apply IH; [|done]. apply (series_ok_later t (step_time step)) in Hok; [|lia].
  destruct step as [now stats|now]; [by apply series_sample_ok|by apply series_persist_ok].
Qed.

(** *** Loading *)
Lemma bytes_lt_time p q : in_range p -> in_range q -> bytes_lt (key_of p) (key_of q) ->
  MetricPoint.timestamp p < MetricPoint.timestamp q.
Proof.
  intros Hp Hq Hlt. destruct (Z.lt_trichotomy (MetricPoint.timestamp p) (MetricPoint.timestamp q)) as [?|[E|H]]; [done|..].
  - unfold key_of in Hlt. rewrite E in Hlt. by apply bytes_lt_irrefl in Hlt.
  - exfalso. pose proof (be_bytes_lt 8 _ _ [] [] (proj1 Hq) H (proj2 Hp)) as Hlt'. rewrite !app_nil_r in Hlt'.
    apply (bytes_lt_irrefl (key_of p)). by eapply bytes_lt_trans.
Qed.

Lemma collect_points rows :
  StronglySorted bytes_lt (map fst rows) ->
  (forall k v, (k, v) ∈ rows -> exists p, metric_from_slice v = Some p /\ in_range p /\ k = key_of p) ->
  exists out, collect (fun row => metric_from_slice (snd row)) rows = Some out /\ increasing out /\
    Forall in_range out /\ (forall p, p ∈ out <-> exists v, (key_of p, v) ∈ rows /\ metric_from_slice v = Some p).
Proof.
  induction rows as [|[k v] rows IH]; intros Hs Hc; cbn [collect].
  - exists []. split_and!; try constructor. by intros ?%not_elem_of_nil. by intros (v & ?%not_elem_of_nil & _).
  - cbn [map fst] in Hs. inversion Hs as [|? ? Hs' Hall]; subst.
    destruct (Hc k v) as (p & Hv & Hp & ->); [by left|].
    destruct IH as (out & Ho & Hi & Hr & Hout); [done|intros; apply Hc; by right|].
    cbn [snd]. rewrite Hv, Ho. cbn [mbind option_bind]. exists (p :: out). split; [done|].
    split; [|split; [by constructor|]].
    + constructor; [done|]. apply list.Forall_forall. intros q Hq. pose proof Hr as Hr'.
      rewrite list.Forall_forall in Hr'. apply bytes_lt_time; [done|by apply Hr'|].
      apply Hout in Hq as (v' & Hin & _). rewrite list.Forall_forall in Hall. apply Hall.
      apply list_elem_of_fmap. by exists (key_of q, v').
    + intros q. rewrite elem_of_cons, Hout. split.
      * intros [->|(v' & Hin & Hv')]; [exists v; split; [by left|done]|exists v'; split; [by right|done]].
      * intros (v' & [Heq|Hin]%elem_of_cons & Hv'); [left|right; by exists v'].
        apply pair_equal_spec in Heq as [_ ->]. congruence.
Qed.

Lemma sorted_strict ps : StronglySorted by_timestamp ps -> NoDup (map MetricPoint.timestamp ps) -> increasing ps.
Proof.
  induction 1 as [|p ps Hs IH Hp]; [constructor|]. cbn [map]. intros [Hn Hd]%list.NoDup_cons. constructor; [by apply IH|].
  rewrite list.Forall_forall in *. intros q Hq. specialize (Hp q Hq). unfold by_timestamp in Hp.
  assert (MetricPoint.timestamp p <> MetricPoint.timestamp q); [|lia].
  intros E. apply Hn. apply list_elem_of_fmap. by exists q.
Qed.

Lemma increasing_nodup ps : increasing ps -> NoDup (map MetricPoint.timestamp ps).
Proof.
  induction 1 as [|p ps _ IH Hp]; cbn [map]; constructor; [|done].
  intros (q & E & Hq)%list_elem_of_fmap. rewrite list.Forall_forall in Hp. specialize (Hp q Hq). lia.
Qed.

Lemma map_fst_filter (P : bytes * bytes -> Prop) `{!forall x, Decision (P x)} rows :
  StronglySorted bytes_lt (map fst rows) -> StronglySorted bytes_lt (map fst (filter P rows)).
Proof.
  induction rows as [|row rows IH]; [done|]. cbn [map]. intros Hsort. inversion Hsort as [|? ? Hs Hall]; subst.
  rewrite filter_cons. case_decide; [|by apply IH]. cbn [map]. constructor; [by apply IH|].
  rewrite list.Forall_forall in *. intros k (r & -> & Hin)%list_elem_of_fmap. apply list_elem_of_filter in Hin as [_ Hin].
  apply Hall, list_elem_of_fmap. by exists r.
Qed.

Lemma load_timeseries_ok since d : coherent (TIMESERIES d) ->
  exists points, load_timeseries since d = Some points /\ increasing points /\ Forall in_range points /\
    (forall p, p ∈ points <-> in_range p /\ since <= MetricPoint.timestamp p /\ stored (TIMESERIES d) p).
Proof.
  intros Hc. unfold load_timeseries.
  destruct (collect_points (filter (fun row => since <= second_of row) (tbl_iter (TIMESERIES d)))) as (out & -> & Hi & Hr & Hout).
  - apply map_fst_filter, iter_sorted.
  - intros k v [_ Hin%iter_get]%list_elem_of_filter. destruct (Hc k v Hin) as (p & Hv & Hp & ->). by exists p.
  - cbn [mbind option_bind]. eexists. split; [done|].
    pose proof (merge_sort_Permutation by_timestamp out) as Hperm.
    assert (Htot : Total by_timestamp) by (intros x y; unfold by_timestamp; lia).
    assert (Htr : Transitive by_timestamp) by (intros x y z; unfold by_timestamp; lia).
    split; [|split].
    + apply sorted_strict; [by apply StronglySorted_merge_sort|]. rewrite Hperm. by apply increasing_nodup.
    + by rewrite Hperm.
    + intros p. rewrite Hperm, Hout. unfold stored.
      assert (Hsec : forall v, in_range p -> second_of (key_of p, v) = MetricPoint.timestamp p)
        by (intros v Hp; unfold second_of, key_of; cbn [fst]; by apply be_val_be_bytes).
      setoid_rewrite list_elem_of_filter. setoid_rewrite iter_get. split.
      * intros (v & [Hle Hg] & Hv). destruct (Hc _ _ Hg) as (q & Hq & Hr' & _).
        assert (q = p) as -> by congruence. rewrite Hsec in Hle by done. split; [done|]. split; [done|]. by exists v.
      * intros (Hp & Hle & v & Hg & Hv). exists v. by rewrite Hsec.
Qed.

Lemma increasing_drop n ps : increasing ps -> increasing (drop n ps).
Proof. revert ps. induction n as [|n IH]; intros ps H; [done|]. destruct H as [|p ps H _]; [constructor|]. by apply IH. Qed.

Lemma series_start_ok now days cap interval st :
  (0 < cap)%nat -> 0 < now < 2 ^ 64 -> coherent (TIMESERIES st) ->
  series_ok now days (series_start now days (window_new cap interval) st).
Proof.
  intros Hcap Hnow Hc. unfold series_start.
  set (since := saturating_sub now (retention_s days)).
  destruct (load_timeseries_ok since st Hc) as (points & -> & Hi & Hr & Hin).
  set (kept := filter (fun p => MetricPoint.timestamp p <= now) points).
  assert (Hk : forall p, p ∈ kept -> 0 <= MetricPoint.timestamp p <= now /\ stored (TIMESERIES st) p).
  { intros p [Hle (Hp & _ & Hst)%Hin]%list_elem_of_filter. unfold in_range in Hp. split; [lia|done]. }
  assert (Hki : increasing kept) by (by apply increasing_filter).
  unfold load. destruct (bool_decide_reflect (kept = [])) as [E|E].
  { unfold series_ok, last_timestamp. cbn. split_and!; try (done || lia || by constructor);
      intros p Hp; by apply not_elem_of_nil in Hp. }
  cbn [window_new capacity interval_s]. set (kept' := drop (length kept - cap) kept).
  assert (Hsub : forall p, p ∈ kept' -> p ∈ kept).
  { intros p Hp. rewrite <- (take_drop (length kept - cap) kept). apply elem_of_app. by right. }
  assert (Hki' : increasing kept') by (by apply increasing_drop).
  destruct (list.last kept') as [last|] eqn:El.
  - assert (Hl : last ∈ kept') by (by apply last_Some_elem_of). destruct (Hk _ (Hsub _ Hl)) as [Hlr _].
    pose proof (increasing_last _ _ Hki' El) as Hmax. unfold series_ok, last_timestamp.
    cbn [window disk last_persisted_ts slots head_timestamp capacity]. rewrite El.
    repeat (split; [done || lia|]). split; [intros E'; by rewrite E' in Hl; apply not_elem_of_nil in Hl|].
    split; intros p Hp; [specialize (Hmax p Hp); destruct (Hk _ (Hsub _ Hp)); lia|].
    intros _ _. by apply Hk, Hsub.
  - exfalso. apply last_None in El. apply (f_equal length) in El. unfold kept' in El. rewrite length_drop in El.
    destruct kept; [done|]. cbn in El. lia.
Qed.

(** C25: the charts survive a restart.  From a start at [t0] on a store whose
    rows are points under their own seconds, through any samples and minutely
    saves under a clock that does not run backwards, to the save before the
    exit: every point the console could show then and that is within the
    retention period is in the store, so that a later start loads it. *)
Theorem series_survives days cap interval st t0 steps p since :
  (0 < cap)%nat -> 0 < t0 -> t0 < 2 ^ 64 -> coherent (TIMESERIES st) -> timed t0 steps ->
  let s := series_run days steps (series_start t0 days (window_new cap interval) st) in
  p ∈ slots (window s) -> bound (last_time t0 steps) days <= MetricPoint.timestamp p ->
  since <= MetricPoint.timestamp p ->
  exists points, load_timeseries since (disk s) = Some points /\ p ∈ points /\ increasing points.
Proof.
  intros Hcap H0 Ht0 Hc Ht s Hp Hb Hsince.
  pose proof (series_start_ok t0 days cap interval st Hcap (conj H0 Ht0) Hc) as Hok.
  apply (series_steps_ok days steps) in Hok; [|done].
  destruct (series_save_ok _ _ _ Hok) as (Hok' & Hw & Hlast). fold (series_run days steps
    (series_start t0 days (window_new cap interval) st)) in Hok', Hw, Hlast. fold s in Hok', Hw, Hlast.
  rewrite <- Hw in Hlast. specialize (Hlast p Hp).
  destruct Hok' as (_ & _ & Htime & Hhead & Hco & _ & _ & Hr & Hst).
  destruct (load_timeseries_ok since (disk s) Hco) as (points & -> & Hi & _ & Hin).
  exists points. split; [done|]. split; [|done]. apply Hin. split; [|split; [done|by apply Hst]].
  specialize (Hr p Hp). unfold in_range. lia.
Qed.
End SeriesProps.

Module SeriesWitness.
#[local] Existing Instances SortedTable.redb SortedTable.redb_laws RuleSample.json RuleSample.json_laws.

Definition counted (n : Z) : Stats.t := Stats_default <| Stats.total_packets := n |> <| Stats.total_passed := n |>.
Definition steps : list SeriesStep :=
  [Sample 100 (counted 5); Sample 110 (counted 9); Persist 120; Sample 130 (counted 30)].
Definition ended : Series := series_run 7 steps (series_start 100 7 (window_new 3 10) RuleStore_empty).

(** The last point was sampled after the last minutely save. *)
Lemma series_survives_witness :
  exists p points, MetricPoint.timestamp p = 130 /\ load_timeseries 0 (disk ended) = Some points /\ p ∈ points.
Proof.
  assert (Hc : coherent (TIMESERIES RuleStore_empty)).
  { intros k v H. pose proof (get_empty (R := SortedTable.redb) k) as E. cbn in H, E. congruence. }
  assert (Ht : timed 100 steps) by (cbn; split_and!; (vm_compute; congruence) || done).
  destruct (slots (window ended)) as [|a [|b [|p rest]]] eqn:E; try (vm_compute in E; discriminate E).
  assert (Hp : MetricPoint.timestamp p = 130) by (vm_compute in E; by injection E as _ _ <- _).
  assert (Hin : p ∈ slots (window ended)) by (rewrite E; right; right; left).
  destruct (series_survives 7 3 10 RuleStore_empty 100 steps p 0) as (points & Hl & Hload & _);
    [lia|lia|vm_compute; reflexivity|exact Hc|exact Ht|exact Hin|rewrite Hp; vm_compute; congruence|lia|].
  exists p, points. split; [exact Hp|]. split; [exact Hl|exact Hload].
Defined.

(** The clock starts again at zero when the machine does.  A point of the boot
    before, sampled 500 seconds after that one, is shown 1000 seconds after
    this one as if it belonged to it. *)
Example earlier_boot_shown :
  let before := series_run 7 [Sample 500 (counted 5)] (series_start 400 7 (window_new 3 10) RuleStore_empty) in
  map MetricPoint.timestamp (slots (window (series_start 1000 7 (window_new 3 10) (disk before)))) = [500].
Proof. vm_compute. reflexivity. Qed.
End SeriesWitness.
