(* ===== verification/AgentMain.v ===== *)
(** * AgentMain: starting the agent and watching the interface

    [eshield/src/main.rs]: the checks before the start, attaching the program,
    the task that watches the attachment, the danger task, the persistence of
    the time series, and [start], which puts them together.  A tick of a task is
    a function; what the system answers (the NIC driver, the text of
    [ip -j link show] and its JSON value) is the parameter [Class Nic]; reading
    that value is [probe_xdp]. *)
From Stdlib Require Import Ascii.
From stdpp Require Import strings gmap.
From S2P Require Import Prelude Words Common RustStd IpText Danger Config TimeSeries Redb RuleStore Series Maps SynCookie AgentMaps Metrics Geoip Adaptive AuditLog AgentControl ControlSample AgentControlProps ThreatIntel ConsoleAuth.
#[local] Open Scope Z_scope.

(** ** Before the start *)

(** [--token] before the environment, an empty one counts as absent. *)
Definition resolve_token (token env : option string) : option string :=
  match non_empty token with Some t => Some t | None => non_empty env end.

(** [s.split_whitespace().next()] *)
Fixpoint word (s : string) : string :=
  match s with
  | EmptyString => EmptyString
  | String c s => if is_whitespace c then EmptyString else String c (word s)
  end.
Definition first_word (s : string) : option string :=
  match trim_start s with EmptyString => None | s => Some (word s) end.

Definition mem_total_kb (line : string) : option Z :=
  rest ← str_strip_prefix "MemTotal:" line; kb ← first_word rest; parse_uint 64 kb.

(** What is not readable counts as enough memory. *)
Definition total_mb (meminfo : string) : Z :=
  match find_map mem_total_kb (lines meminfo) with Some kb => kb / 1024 | None => u64_MAX end.

Definition low_mem_override (env : option string) : bool :=
  match env with Some v => String.eqb v "1" || eq_ignore_ascii_case v "true" | None => false end.

(** Whether the agent may start. *)
Definition preflight_memory (meminfo : string) (env : option string) (config : Config.t) : bool :=
  negb (total_mb meminfo <? LimitsConfig.refuse_memory_mb (Config.limits config)) || low_mem_override env.

(** [s.matches(c).count()] and [s.rsplit_once(c)] *)
Fixpoint char_count (x : ascii) (s : string) : nat :=
  match s with EmptyString => 0 | String c s => (if Ascii.eqb c x then 1 else 0) + char_count x s end.
Fixpoint rsplit_once (sep : ascii) (s : string) : option (string * string) :=
  match s with
  | EmptyString => None
  | String c s =>
      match rsplit_once sep s with
      | Some (a, b) => Some (String c a, b)
      | None => if Ascii.eqb c sep then Some (EmptyString, s) else None
      end
  end.

Definition bind_host (bind : string) : string :=
  match bind with
  | String "["%char rest => hd ""%string (split "]" rest)
  | _ =>
      if (1 <? char_count ":" bind)%nat then bind
      else match rsplit_once ":" bind with Some (h, _) => h | None => bind end
  end.

Definition bind_is_loopback (bind : string) : bool :=
  let host := bind_host bind in
  String.eqb host "localhost" || String.eqb host "::1" || String.prefix "127." host.

(** The token of the console: the configured one or a random one. *)
Definition console_auth (random : Z) (config : Config.t) : AuthState.t :=
  let api_token := match non_empty (Config.api_token config) with
    | Some t => Some t
    | None => Some (hex_token random)
    end in
  with_readonly api_token (Config.readonly_token config).

(** ** The interface *)
Inductive XdpFlags := SKB_MODE | DRV_MODE.

(** The program of the interface and its mode as [ip -j link] shows it. *)
Definition mode_code (flags : XdpFlags) : Z := match flags with DRV_MODE => 1 | SKB_MODE => 2 end.

Class Nic := {
  nic : Type;
  attach : XdpFlags -> nic -> bool * nic;
  ethtool_off : string -> nic -> bool * nic;
  ip_link_show : nic -> option string;
  json_from_slice : string -> option Value;
}.

Section Attach.
Context {NI : Nic}.

(** What the output of [ip -j link show] says about the program of the interface;
    [None] also when the command fails or its output is not JSON. *)
Definition probe_xdp (n : nic) : option (string * Z) :=
  stdout ← ip_link_show n;
  value ← json_from_slice stdout;
  first ← value_index 0 value;
  xdp ← value_get "xdp" first;
  let name := default ""%string (prog ← value_get "prog" xdp; name ← value_get "name" prog; as_str name) in
  let mode := wrap 32 (default 0 (mode ← value_get "mode" xdp; as_u64 mode)) in
  Some (name, mode).

Definition FEATURES : list string := ["rx-gro-hw"%string; "tx-checksum-ip-generic"%string; "tx-checksum-ipv4"%string].

Fixpoint disable_features (features : list string) : State nic (list string) :=
  match features with
  | [] => ret []
  | f :: features =>
      let* off := ethtool_off f in
      let* changed := disable_features features in
      ret (if off then f :: changed else changed)
  end.
Definition disable_virtio_offloads : State nic (list string) := disable_features FEATURES.

Definition attach_native_prefer (disable_offloads : bool) : State nic bool :=
  let* attached := attach DRV_MODE in
  if attached then ret true
  else if disable_offloads then
    let* changed := disable_virtio_offloads in
    if bool_decide (changed = []) then ret false else attach DRV_MODE
  else ret false.

(** [to_ascii_lowercase] is [to_lowercase] on the names compared with. *)
Definition want_mode (env : string) (config : Config.t) : string :=
  let env := to_lowercase env in
  if String.eqb env "skb" || String.eqb env "generic" then "generic"%string
  else if String.eqb env "native" || String.eqb env "drv" then "native"%string
  else to_lowercase (XdpConfig.mode (Config.xdp config)).

(** Attaching at the start: the flags of the attachment, or the error that ends
    the process. *)
Definition attach_start (want : string) (disable_offloads : bool) : Try nic XdpFlags := fun n =>
  let skb n := let '(ok, n) := attach SKB_MODE n in (if ok then Some SKB_MODE else None, n) in
  if String.eqb want "generic" then skb n
  else
    let '(ok, n) := attach_native_prefer disable_offloads n in
    if ok then (Some DRV_MODE, n)
    else if String.eqb want "native" then (None, n)
    else skb n.

Definition show_attached (mode : Z) (stats : Stats.t) : Stats.t :=
  stats <| Stats.xdp_attached := true |> <| Stats.xdp_mode := mode |>.

(** One tick of the watch, every 15 seconds; [lock_free] is whether the agent's
    lock on the program was free. *)
Definition monitor_xdp (auto_reattach lock_free : bool) (st : nic * Stats.t) : nic * Stats.t :=
  let '(n, stats) := st in
  let detached :=
    let stats := stats <| Stats.xdp_attached := false |> in
    if negb auto_reattach || negb lock_free then (n, stats)
    else
      let '(ok, n) := attach_native_prefer true n in
      if ok then (n, show_attached 1 stats)
      else
        let '(ok, n) := attach SKB_MODE n in
        (n, if ok then show_attached 2 stats else stats) in
  match probe_xdp n with
  | Some (name, mode) =>
      if String.eqb name "eshield" then (n, show_attached (if mode =? 2 then 2 else 1) stats) else detached
  | None => detached
  end.
End Attach.

(** ** Properties of the attachment *)

(** The output of [ip -j link show] for one interface: an array of one object,
    with a field [xdp] exactly if a program is attached, which has the mode as a
    number and the name of the program. *)
Definition shows (value : Value) (attached : option (string * Z)) : Prop :=
  exists first, value_index 0 value = Some first /\
  match attached with
  | None => value_get "xdp" first = None
  | Some (name, mode) => exists xdp prog digits,
      value_get "xdp" first = Some xdp /\
      value_get "mode" xdp = Some (VNumber digits) /\ parse_uint 64 digits = Some mode /\ 0 <= mode < 2 ^ 32 /\
      value_get "prog" xdp = Some prog /\ value_get "name" prog = Some (VString name)
  end.

(** What the code relies on: a successful attach puts the program on the
    interface in its mode, a failed one changes nothing, no offload setting
    touches the attachment, and iproute2, when it works, shows it. *)
Class NicLaws (NI : Nic) := {
  link : nic -> option (string * Z);
  tool_works : nic -> bool;
  attach_link flags n : link (snd (attach flags n)) =
    if fst (attach flags n) then Some ("eshield"%string, mode_code flags) else link n;
  ethtool_link feature n : link (snd (ethtool_off feature n)) = link n;
  ip_link_shows n :
    if tool_works n
    then exists stdout value, ip_link_show n = Some stdout /\ json_from_slice stdout = Some value /\ shows value (link n)
    else ip_link_show n = None;
}.

Section AttachProps.
Context {NI : Nic} {NL : NicLaws NI}.

Lemma probe_link n : probe_xdp n = if tool_works n then link n else None.
Proof.
  unfold probe_xdp. pose proof (ip_link_shows n) as H. destruct (tool_works n); [|by rewrite H].
  destruct H as (stdout & value & -> & Hv & first & Hf & H). cbn [mbind option_bind]. rewrite Hv. cbn [mbind option_bind].
  rewrite Hf. cbn [mbind option_bind]. destruct (link n) as [[name mode]|]; [|by rewrite H].
  destruct H as (xdp & prog & digits & -> & Hm & Hd & Hr & Hp & Hn). cbn [mbind option_bind].
  rewrite Hm, Hp. cbn [mbind option_bind]. rewrite Hn. cbn. rewrite Hd. cbn. by rewrite wrap_small.
Qed.

Definition protected (n : nic) : bool :=
  match link n with Some (name, _) => String.eqb name "eshield" | None => false end.

Lemma disable_features_link features n : link (snd (disable_features features n)) = link n.
Proof.
  revert n. induction features as [|f features IH]; intros n; [done|]. cbn [disable_features]. unfold bind.
  pose proof (ethtool_link f n) as H. destruct (ethtool_off f n) as [off n1]. cbn [snd] in H.
  specialize (IH n1). destruct (disable_features features n1) as [changed n2]. cbn [snd ret] in *. congruence.
Qed.

Lemma attach_native_link disable n : link (snd (attach_native_prefer disable n)) =
  if fst (attach_native_prefer disable n) then Some ("eshield"%string, 1) else link n.
Proof.
  unfold attach_native_prefer, bind, ret. pose proof (attach_link DRV_MODE n) as H.
  destruct (attach DRV_MODE n) as [[|] n1]; cbn [fst snd] in *; [done|].
  destruct disable; [|done]. pose proof (disable_features_link FEATURES n1) as H1.
  fold disable_virtio_offloads in H1. destruct (disable_virtio_offloads n1) as [changed n2]. cbn [snd] in H1.
  case_bool_decide; cbn [fst snd]; [congruence|]. pose proof (attach_link DRV_MODE n2) as H2.
  destruct (attach DRV_MODE n2) as [[|] n3]; cbn [fst snd] in *; [done|congruence].
Qed.

Lemma attach_start_link want disable n flags n' : attach_start want disable n = (Some flags, n') ->
  link n' = Some ("eshield"%string, mode_code flags).
Proof.
  unfold attach_start. pose proof (attach_link SKB_MODE n) as Hs. destruct (String.eqb want "generic").
  { destruct (attach SKB_MODE n) as [[|] n1]; intros [= <- <-]. exact Hs. }
  pose proof (attach_native_link disable n) as Hn. destruct (attach_native_prefer disable n) as [[|] n1];
    [intros [= <- <-]; exact Hn|].
  destruct (String.eqb want "native"); [done|]. clear Hs. pose proof (attach_link SKB_MODE n1) as Hs.
  destruct (attach SKB_MODE n1) as [[|] n2]; intros [= <- <-]. exact Hs.
Qed.

(** the mode asked for at the start is kept.  Under [generic] the native
    attach and the offload settings are never touched; under [native] the agent
    never runs in another mode, it starts natively or not at all; and a start
    that succeeds leaves the program on the interface in the mode it reports. *)
Theorem start_mode_kept want disable n :
  (want = "generic"%string -> forall ok n', attach SKB_MODE n = (ok, n') ->
     attach_start want disable n = (if ok then Some SKB_MODE else None, n')) /\
  (want = "native"%string -> fst (attach_start want disable n) <> Some SKB_MODE /\
     snd (attach_start want disable n) = snd (attach_native_prefer disable n)) /\
  (forall flags n', attach_start want disable n = (Some flags, n') ->
     link n' = Some ("eshield"%string, mode_code flags)).
Proof.
  split_and!; [unfold attach_start..|].
  - intros -> ok n' E. cbn. by rewrite E.
  - intros ->. cbn. by destruct (attach_native_prefer disable n) as [[|] n1].
  - apply attach_start_link.
Qed.

(** C27: the readiness page tells the truth.  While iproute2 works, after any
    tick of the watch [xdp_attached] is set exactly if the program is on the
    interface, with the mode it is attached in; and with the automatic
    attachment on and a driver that accepts the generic mode, the program is
    on the interface after every tick that finds the lock free. *)
Theorem monitor_truthful auto_reattach lock_free n stats :
  tool_works n = true ->
  let '(n', stats') := monitor_xdp auto_reattach lock_free (n, stats) in
  Stats.xdp_attached stats' = protected n' /\
  (forall flags, link n' = Some ("eshield"%string, mode_code flags) -> Stats.xdp_mode stats' = mode_code flags) /\
  (auto_reattach = true -> lock_free = true -> (forall n0, fst (attach SKB_MODE n0) = true) -> protected n' = true).
Proof.
  intros Ht. unfold monitor_xdp. rewrite probe_link, Ht.
  assert (Hok : forall flags n' stats', link n' = Some ("eshield"%string, mode_code flags) ->
    Stats.xdp_attached (show_attached (mode_code flags) stats') = protected n' /\
    (forall f, link n' = Some ("eshield"%string, mode_code f) ->
       Stats.xdp_mode (show_attached (mode_code flags) stats') = mode_code f) /\
    (auto_reattach = true -> lock_free = true -> (forall n0, fst (attach SKB_MODE n0) = true) -> protected n' = true)).
  { intros flags n' stats' E. unfold protected. rewrite E. split; [done|]. split; [|done]. intros f [= ->]. done. }
  assert (Hd : protected n = false -> let '(n', stats') :=
    (let stats := stats <| Stats.xdp_attached := false |> in
     if negb auto_reattach || negb lock_free then (n, stats)
     else let '(ok, n) := attach_native_prefer true n in
       if ok then (n, show_attached 1 stats)
       else let '(ok, n) := attach SKB_MODE n in (n, if ok then show_attached 2 stats else stats)) in
    Stats.xdp_attached stats' = protected n' /\
    (forall flags, link n' = Some ("eshield"%string, mode_code flags) -> Stats.xdp_mode stats' = mode_code flags) /\
    (auto_reattach = true -> lock_free = true -> (forall n0, fst (attach SKB_MODE n0) = true) -> protected n' = true)).
  { intros Hp. assert (Hno : forall flags, link n <> Some ("eshield"%string, mode_code flags))
      by (intros flags E; unfold protected in Hp; by rewrite E in Hp).
    cbv zeta. destruct (negb auto_reattach || negb lock_free) eqn:Ha.
    { rewrite Hp. split; [done|]. split; [intros f E; by apply Hno in E|]. intros -> ->. done. }
    pose proof (attach_native_link true n) as Hn. destruct (attach_native_prefer true n) as [[|] n1];
      cbn [fst snd] in Hn; [by apply (Hok DRV_MODE)|].
    pose proof (attach_link SKB_MODE n1) as Hs.
    destruct (attach SKB_MODE n1) as [[|] n2] eqn:E1; cbn [fst snd] in Hs; [by apply (Hok SKB_MODE)|].
    assert (Hp2 : protected n2 = false) by (unfold protected in *; by rewrite Hs, Hn).
    rewrite Hp2. split; [done|]. split; [intros f E; rewrite Hs, Hn in E; by apply Hno in E|].
    intros _ _ H. specialize (H n1). by rewrite E1 in H. }
  destruct (link n) as [[name mode]|] eqn:El; [|apply Hd; unfold protected; by rewrite El].
  destruct (String.eqb name "eshield") eqn:Ename; [|apply Hd; unfold protected; by rewrite El].
  apply String.eqb_eq in Ename. subst name. unfold protected. rewrite El. split; [done|]. split; [|done].
  intros flags [= ->]. by destruct flags.
Qed.

(** the watch does not know the mode of the configuration.  Where the
    driver refuses the native mode, a start with [mode = "native"] ends the
    process; yet once the program has been taken off the interface the watch
    attaches it in generic mode, after it has switched off offloads whatever
    [disable_offloads] says. *)
Theorem monitor_ignores_mode disable n stats n1 :
  (forall n0, fst (attach DRV_MODE n0) = false) -> (forall n0, fst (attach SKB_MODE n0) = true) ->
  tool_works n1 = true -> link n1 = None ->
  fst (attach_start "native" disable n) = None /\
  let '(n2, stats') := monitor_xdp true true (n1, stats) in
  link n2 = Some ("eshield"%string, 2) /\ xdp_mode_str stats' = "generic"%string.
Proof.
  intros Hd Hs Ht Hl.
  assert (Hn : forall disable n0, fst (attach_native_prefer disable n0) = false).
  { intros d n0. unfold attach_native_prefer, bind, ret. pose proof (Hd n0) as H.
    destruct (attach DRV_MODE n0) as [ok n2]. cbn in H. subst ok. destruct d; [|done].
    destruct (disable_virtio_offloads n2) as [changed n3]. case_bool_decide; [done|]. apply Hd. }
  split.
  - unfold attach_start. cbn. pose proof (Hn disable n) as H. by destruct (attach_native_prefer disable n) as [[|] n2].
  - unfold monitor_xdp. rewrite probe_link, Ht, Hl. cbn [negb orb]. pose proof (Hn true n1) as H.
    destruct (attach_native_prefer true n1) as [ok n2]. cbn in H. subst ok.
    pose proof (Hs n2) as H. pose proof (attach_link SKB_MODE n2) as Hlink.
    destruct (attach SKB_MODE n2) as [ok n3]. cbn in H, Hlink. subst ok. done.
Qed.

(** without iproute2 a protected interface looks unprotected.  The probe
    answers nothing, the watch takes it for a detached program, and as the
    driver refuses a second attachment it stays at "not ready" for ever. *)
Theorem no_iproute_not_ready n stats auto_reattach lock_free :
  tool_works n = false -> (forall flags n0, protected n0 = true -> fst (attach flags n0) = false) ->
  protected n = true ->
  let '(n', stats') := monitor_xdp auto_reattach lock_free (n, stats) in
  Stats.xdp_attached stats' = false /\ protected n' = true.
Proof.
  intros Ht Hbusy Hp. unfold monitor_xdp. rewrite probe_link, Ht.
  destruct (_ || _); [done|].
  pose proof (attach_native_link true n) as Hn.
  assert (Hf : fst (attach_native_prefer true n) = false).
  { unfold attach_native_prefer, bind, ret. pose proof (Hbusy DRV_MODE n Hp) as H.
    pose proof (attach_link DRV_MODE n) as Hl. destruct (attach DRV_MODE n) as [ok n1]. cbn in H, Hl. subst ok.
    pose proof (disable_features_link FEATURES n1) as H1. fold disable_virtio_offloads in H1.
    destruct (disable_virtio_offloads n1) as [changed n2]. case_bool_decide; [done|]. apply Hbusy.
    unfold protected in *. cbn in H1. by rewrite H1, Hl. }
  destruct (attach_native_prefer true n) as [ok n1]. cbn in Hf, Hn. subst ok.
  assert (Hp1 : protected n1 = true) by (unfold protected in *; by rewrite Hn).
  pose proof (Hbusy SKB_MODE n1 Hp1) as H. pose proof (attach_link SKB_MODE n1) as Hl.
  destruct (attach SKB_MODE n1) as [ok n2]. cbn in H, Hl. subst ok. split; [done|].
  unfold protected in *. by rewrite Hl.
Qed.
End AttachProps.

(** ** The danger task *)
Section DangerTask.
Context {KN : Kernel} {KL : KernelLaws} {MO : MapOps} {ML : MapLaws MO} {HO : HashOrder} {R : Redb} {RL : RedbLaws R}
  {J : RuleJson} {JL : RuleJsonLaws J} {CL : CsvLib} {EN : AgentEnv}.

Record DangerTask := mkDangerTask {
  monitor : DangerMonitor;
  level : Z;
  agent : ControlState;
  shown : Stats.t;
}.

(** One tick: [stat] and [meminfo] are what /proc says.  A failure to apply the
    level is only logged. *)
Definition danger_tick (input : option (list Z) * option (Z * Z)) (d : DangerTask) : DangerTask :=
  let '(new, m) := sample (Stats.current_dps (shown d)) (fst input) (snd input) (monitor d) in
  if new =? level d then mkDangerTask m (level d) (agent d) (shown d)
  else mkDangerTask m new (snd (set_danger_level new (agent d))) (shown d <| Stats.danger_level := new |>).

Definition danger_start (multiplier : f64) (c : ControlState) (stats : Stats.t) : DangerTask :=
  mkDangerTask (DangerMonitor_new multiplier) 0 c stats.

Lemma danger_sample_range dps stat meminfo m : 0 <= fst (sample dps stat meminfo m) <= 2.
Proof. unfold sample. destruct (read_cpu_usage stat (prev_cpu m)). cbn [fst]. destruct (_ || _); [|destruct (_ || _)]; lia. Qed.

Lemma set_danger_level_agrees new c cfg rest : 0 <= new <= 2 -> CONFIG (ebpf c) = cfg :: rest ->
  map_danger new (ebpf (snd (set_danger_level new c))) /\ shown_danger new (snd (set_danger_level new c)).
Proof.
  intros Hr Hc. unfold set_danger_level. rewrite Z.min_l by lia. unfold update. rewrite try_modify.
  unfold on_ebpf. rewrite !try_gets. unfold CONFIG_set, array_write, array_get.
  change (ebpf (setter runtime _ c)) with (ebpf c). rewrite Hc. change (Z.to_nat 0) with 0%nat.
  cbn [lookup list_lookup default]. rewrite array_set_0. cbn [fst snd]. by split.
Qed.

(** The level of the task, of the map, of the snapshot and of the page. *)
Definition danger_agrees (d : DangerTask) : Prop :=
  0 <= level d <= 2 /\ map_danger (level d) (ebpf (agent d)) /\ shown_danger (level d) (agent d) /\
  Stats.danger_level (shown d) = level d.

Lemma danger_tick_agrees input d : danger_agrees d -> danger_agrees (danger_tick input d).
Proof.
  intros (Hl & Hm & Hs & Hp). unfold danger_tick.
  pose proof (danger_sample_range (Stats.current_dps (shown d)) (fst input) (snd input) (monitor d)) as Hr.
  destruct (sample _ _ _ _) as [new m]. cbn [fst] in Hr.
  destruct (Z.eqb_spec new (level d)) as [E|E]; [done|]. unfold danger_agrees. cbn [level agent shown].
  unfold map_danger in Hm. destruct (CONFIG (ebpf (agent d))) as [|cfg rest] eqn:Hc; [done|].
  destruct (set_danger_level_agrees new (agent d) cfg rest Hr Hc). split_and!; try done; lia.
Qed.

(** four copies, one level.  From the start on, whatever the machine
    reports at each tick, the level the monitor measured last is the one in
    the [CONFIG] map from which the packet program scales its thresholds, the
    one in the snapshot of the configuration and the one on the statistics
    page. *)
Theorem danger_level_agrees multiplier c stats inputs :
  map_danger 0 (ebpf c) -> shown_danger 0 c -> Stats.danger_level stats = 0 ->
  danger_agrees (foldl (fun d input => danger_tick input d) (danger_start multiplier c stats) inputs).
Proof.
  intros Hm Hs Hp.
  assert (H0 : danger_agrees (danger_start multiplier c stats)) by (unfold danger_agrees; cbn; split_and!; (done || lia)).
  revert H0. generalize (danger_start multiplier c stats). induction inputs as [|input inputs IH]; intros d Hd; [done|].
  apply IH. by apply danger_tick_agrees.
Qed.

(** Ticks that measure the level the task already has. *)
Fixpoint steady (inputs : list (option (list Z) * option (Z * Z))) (d : DangerTask) : Prop :=
  match inputs with
  | [] => True
  | input :: inputs =>
      fst (sample (Stats.current_dps (shown d)) (fst input) (snd input) (monitor d)) = level d /\
      steady inputs (danger_tick input d)
  end.

Lemma steady_agent inputs d : steady inputs d ->
  agent (foldl (fun d input => danger_tick input d) d inputs) = agent d /\
  level (foldl (fun d input => danger_tick input d) d inputs) = level d.
Proof.
  revert d. induction inputs as [|input inputs IH]; intros d Hst; [done|]. destruct Hst as [E Hst]. cbn [foldl].
  destruct (IH _ Hst) as [-> ->]. unfold danger_tick. destruct (sample _ _ _ _) as [new m]. cbn [fst] in E.
  subst new. by rewrite Z.eqb_refl.
Qed.

(** C40: an attack survives a reload, the defence against it does not.  When the
    configuration file is reloaded while the level is raised, and the machine
    stays in the same state, the packet program works with level 0 from then on,
    for as long as the state lasts: the task writes the map only when the
    measured level changes.  The snapshot keeps showing the raised level. *)
Theorem reload_loses_danger d c' inputs :
  danger_agrees d -> reload_config_file (agent d) = (Some tt, c') ->
  let d' := mkDangerTask (monitor d) (level d) c' (shown d) in
  steady inputs d' ->
  let d'' := foldl (fun d input => danger_tick input d) d' inputs in
  map_danger 0 (ebpf (agent d'')) /\ shown_danger (level d) (agent d'') /\ level d'' = level d.
Proof.
  intros (_ & _ & Hs & _) Hr d' Hst d''. destruct (steady_agent inputs d' Hst) as [Ha Hl].
  unfold d''. rewrite Ha, Hl. destruct (reload_clears_danger _ _ Hr) as [Hsh Hm].
  split; [exact Hm|]. split; [|done]. unfold shown_danger in *. cbn [agent d']. congruence.
Qed.
End DangerTask.

(** ** [start] *)
Section Start.
Context {NI : Nic} {KN : Kernel} {MO : MapOps} {HO : HashOrder} {R : Redb} {J : RuleJson} {CL : CsvLib} {EN : AgentEnv}.

(** What the process finds: /proc/meminfo, two environment variables, the
    clock, random numbers, the maps of the loaded program and the rule store. *)
Record Boot := mkBoot {
  meminfo : string;
  allow_low_memory : option string;
  xdp_mode_env : string;
  boot_ns : Z;
  random_token : Z;
  key1 : list Z;
  key2 : list Z;
  maps : KState;
  rule_store : option RuleStore;
}.

(** The time series and the control state have their own copies of the store:
    they use different tables. *)
Record Running := mkRunning {
  stats : Stats.t;
  series : Series;
  console : AuthState.t;
  control : ControlState;
  danger : option DangerTask;
}.

Definition start_config (b : Boot) : option Config.t :=
  config ← config_file;
  if negb (validate interface_exists store_dir_ok config) then None
  else if negb (preflight_memory (meminfo b) (allow_low_memory b) config) then None
  else Some config.

(** The secrets are set and old events thrown away before the program sees a
    packet. *)
Definition prepare_maps (b : Boot) : option KState :=
  secrets ← array_set (COOKIE_SECRETS (maps b)) 0 (init_cookie_secrets (boot_ns b / 1000000000) (key1 b) (key2 b));
  Some (maps b <| COOKIE_SECRETS := secrets |> <| EVENTS := [] |>).

Definition start_control (config : Config.t) (s : KState) (st : RuleStore) : option ControlState :=
  c ← control_new s config (Some []) (Some st) (Some (engine_new (Config.adaptive config)));
  let c := snd (load_persisted_rules c) in
  Some (snd (audit "system" Start DEmpty c)).

Definition start (b : Boot) : Try nic Running := fun n =>
  match (config ← start_config b; s ← prepare_maps b; Some (config, s)) with
  | None => (None, n)
  | Some (config, s) =>
      let '(flags, n) := attach_start (want_mode (xdp_mode_env b) config)
                           (XdpConfig.disable_offloads (Config.xdp config)) n in
      (flags ← flags;
       let stats := show_attached (mode_code flags) (Stats_default <| Stats.program_start_ns := boot_ns b |>) in
       st ← rule_store b;
       let series := series_start (boot_ns b / 1000000000) (Config.timeseries_retention_days config)
                       (window_new (Z.to_nat 8640) 10) st in
       c ← start_control config s st;
       Some (mkRunning stats series (console_auth (random_token b) config) c
         (if DangerSignalConfig.enabled (Config.danger_signal config)
          then Some (danger_start (DangerSignalConfig.anomaly_multiplier (Config.danger_signal config)) c stats)
          else None)), n)
  end.
End Start.

Section StartProps.
Context {NI : Nic} {NL : NicLaws NI} {KN : Kernel} {KL : KernelLaws} {MO : MapOps} {ML : MapLaws MO} {HO : HashOrder}
  {R : Redb} {RL : RedbLaws R} {J : RuleJson} {JL : RuleJsonLaws J} {CL : CsvLib} {EN : AgentEnv}.

Lemma control_new_danger s config auditor st adaptive c :
  control_new s config auditor st adaptive = Some c -> map_danger 0 (ebpf c) /\ shown_danger 0 c.
Proof.
  unfold control_new. set (c0 := mkControl _ _ _ _ _ _ _ _ _ _ _ _ _). intros H.
  match type of H with context [match ?m c0 with _ => _ end] => destruct (m c0) as [[[]|] c'] eqn:E; [|done] end.
  injection H as <-. assert (Hs : shown_danger 0 c0) by done.
  destruct (keeps_lists 0 config) as (Kw & Kb & Kg).
  apply try_bind_inv in E as (? & c1 & E1 & E). apply (keeps_step _ _ _ _ _ (keeps_shown 0 _) E1) in Hs.
  apply try_bind_inv in E as (? & c2 & E2 & E). apply (keeps_step _ _ _ _ _ Kb E2) in Hs.
  apply try_bind_inv in E as (? & c3 & E3 & E). apply (keeps_step _ _ _ _ _ Kw E3) in Hs.
  apply try_bind_inv in E as (? & c4 & E4 & E). apply (keeps_step _ _ _ _ _ Kg E4) in Hs.
  split; [|exact (keeps_step _ _ _ _ _ (keeps_shown 0 _) E Hs)].
  unfold on_ebpf, init_config_map, CONFIG_set, array_write in E. revert E. unfold map_danger.
  destruct (CONFIG (ebpf c4)) as [|cfg rest]; [done|]. rewrite array_set_0. by intros [= <-].
Qed.

Lemma start_control_danger config s st c :
  start_control config s st = Some c -> map_danger 0 (ebpf c) /\ shown_danger 0 c.
Proof.
  unfold start_control. destruct (control_new _ _ _ _ _) as [c0|] eqn:E; [|done]. cbn [mbind option_bind].
  intros [= <-]. apply control_new_danger in E.
  assert (H : (fun c => map_danger 0 (ebpf c) /\ shown_danger 0 c) (snd (load_persisted_rules c0)))
    by (by apply danger_load_persisted). exact H.
Qed.

Lemma console_auth_token random config : exists t, t <> ""%string /\ AuthState.token (console_auth random config) = Some t.
Proof.
  unfold console_auth, with_readonly. cbn [AuthState.token].
  assert (Hne : forall o t, non_empty o = Some t -> t <> ""%string /\ non_empty (Some t) = Some t).
  { intros [s|] t; [|done]. cbn. destruct (String.eqb_spec s ""); [done|]. intros [= <-]. split; [done|].
    cbn. by destruct (String.eqb_spec s ""). }
  destruct (non_empty (Config.api_token config)) as [t|] eqn:E.
  - apply Hne in E as [E1 E2]. by exists t.
  - by exists (hex_token random).
Qed.

(** What a start that succeeds went through. *)
Lemma start_inv b n run n' : start b n = (Some run, n') ->
  exists config s st flags,
    (config_file = Some config /\ validate interface_exists store_dir_ok config = true /\
     preflight_memory (meminfo b) (allow_low_memory b) config = true) /\
    attach_start (want_mode (xdp_mode_env b) config) (XdpConfig.disable_offloads (Config.xdp config)) n = (Some flags, n') /\
    start_control config s st = Some (control run) /\
    stats run = show_attached (mode_code flags) (Stats_default <| Stats.program_start_ns := boot_ns b |>) /\
    console run = console_auth (random_token b) config /\
    danger run = (if DangerSignalConfig.enabled (Config.danger_signal config)
                  then Some (danger_start (DangerSignalConfig.anomaly_multiplier (Config.danger_signal config)) (control run) (stats run))
                  else None).
Proof.
  unfold start. unfold start_config. destruct config_file as [config|] eqn:Ec; [|done]. cbn [mbind option_bind].
  destruct (validate _ _ config) eqn:Ev; [|done]. destruct (preflight_memory _ _ config) eqn:Ep; [|done].
  cbn [negb mbind option_bind]. destruct (prepare_maps b) as [s|]; [|done]. cbn [mbind option_bind].
  destruct (attach_start _ _ n) as [[flags|] n1] eqn:Ea; [|done]. cbn [mbind option_bind].
  destruct (rule_store b) as [st|]; [|done]. cbn [mbind option_bind].
  destruct (start_control config s st) as [c|] eqn:Es; [|done]. intros [= <- <-].
  exists config, s, st, flags. by split_and!.
Qed.

(** C13: what a start that succeeds has established.  The configuration was
    valid and the memory enough or overridden; the program is on the interface,
    attached natively if the configuration or the environment asked for [native]
    and in generic mode if they asked for that, and the readiness flag and the mode
    that is shown are those of the attachment; the console has a token, so that no request from outside is let in without one;
    and the danger task, if there is one, begins at level 0, which is also the
    level in the map, in the snapshot and in the statistics. *)
Theorem start_guarded b n run n' :
  start b n = (Some run, n') ->
  exists config, config_file = Some config /\ validate interface_exists store_dir_ok config = true /\
    preflight_memory (meminfo b) (allow_low_memory b) config = true /\
    (exists flags, link n' = Some ("eshield"%string, mode_code flags) /\
       Stats.xdp_attached (stats run) = true /\ Stats.xdp_mode (stats run) = mode_code flags /\
       let want := want_mode (xdp_mode_env b) config in
       (want = "native"%string -> flags = DRV_MODE) /\ (want = "generic"%string -> flags = SKB_MODE)) /\
    (exists t, t <> ""%string /\ AuthState.token (console run) = Some t) /\
    (forall d, danger run = Some d -> level d = 0 /\ danger_agrees d).
Proof.
  intros (config & s & st & flags & (Ec & Ev & Ep) & Ea & Es & Hst & Hco & Hda)%start_inv.
  exists config. do 3 (split; [done|]). rewrite Hst, Hco, Hda.
  pose proof (attach_start_link _ _ _ _ _ Ea) as Hlink. cbv zeta.
  revert Ea Hlink. generalize (want_mode (xdp_mode_env b) config) (XdpConfig.disable_offloads (Config.xdp config)).
  intros want dis Ea Hlink.
  split; [|split; [apply console_auth_token|]].
  - exists flags. split; [exact Hlink|]. split; [done|]. split; [done|]. unfold attach_start in Ea.
    split; intros ->; cbn in Ea.
    + destruct (attach_native_prefer dis n) as [[|] n2]; [by injection Ea as <- _|done].
    + destruct (attach SKB_MODE n) as [[|] n2]; [by injection Ea as <- _|done].
  - intros d. destruct (DangerSignalConfig.enabled _); [|done]. intros [= <-].
    apply start_control_danger in Es as [Hm Hs]. split; [done|]. unfold danger_agrees. cbn. split_and!; try done. by rewrite Hst.
Qed.
End StartProps.

(** ** A network card, for the evaluated examples *)
Module NicSample.
Record card := mkCard {
  native : bool;                  (* the driver knows the native mode *)
  gro_hw : bool;                  (* an offload that rules it out is on *)
  iproute2 : bool;
  attached : option XdpFlags;
}.

Definition attachment (flags : XdpFlags) : string * Z := ("eshield"%string, mode_code flags).

(** Output and value of iproute2 for the three states *)
Definition quoted (s : string) : string := String (of_code 34) (s +:+ String (of_code 34) "").
Definition output (on : option XdpFlags) : string :=
  "[{" +:+ quoted "ifname" +:+ ":" +:+ quoted "eth0" +:+
  match on with
  | Some flags => "," +:+ quoted "xdp" +:+ ":{" +:+ quoted "mode" +:+ ":" +:+ print_u64 (mode_code flags) +:+ "," +:+
      quoted "prog" +:+ ":{" +:+ quoted "id" +:+ ":7," +:+ quoted "name" +:+ ":" +:+ quoted "eshield" +:+ "}}"
  | None => ""
  end +:+ "}]".
Definition value_of (on : option XdpFlags) : Value :=
  VArray [VObject (("ifname"%string, VString "eth0") ::
    match on with
    | Some flags => [("xdp", VObject [("mode", VNumber (print_u64 (mode_code flags)));
                       ("prog", VObject [("id", VNumber "7"); ("name", VString "eshield")])])]%string
    | None => []
    end)].
Definition read_output (s : string) : option Value :=
  snd <$> find (fun p => String.eqb (fst p) s)
    (map (fun on => (output on, value_of on)) [None; Some DRV_MODE; Some SKB_MODE]).

#[export] Instance nic_card : Nic := {|
  nic := card;
  attach flags n :=
    let ok := negb (bool_decide (is_Some (attached n))) &&
              match flags with SKB_MODE => true | DRV_MODE => native n && negb (gro_hw n) end in
    (ok, if ok then mkCard (native n) (gro_hw n) (iproute2 n) (Some flags) else n);
  ethtool_off feature n :=
    let ok := String.eqb feature "rx-gro-hw" && native n in
    (ok, if ok then mkCard (native n) false (iproute2 n) (attached n) else n);
  ip_link_show n := if iproute2 n then Some (output (attached n)) else None;
  json_from_slice := read_output;
|}.

Lemma output_shows (on : option XdpFlags) :
  exists stdout value, Some (output on) = Some stdout /\ read_output stdout = Some value /\ shows value (attachment <$> on).
Proof.
  exists (output on), (value_of on). split; [done|]. split; [by destruct on as [[|]|]|].
  eexists. split; [reflexivity|]. destruct on as [flags|]; [|done]. cbn [fmap option_fmap option_map attachment].
  do 3 eexists. do 2 (split; [reflexivity|]). by destruct flags.
Qed.

#[export, refine] Instance nic_laws : NicLaws nic_card := {|
  link n := attachment <$> attached n;
  tool_works := iproute2;
|}.
Proof.
  - intros flags n. cbn. by destruct (_ && _).
  - intros feature n. cbn. by destruct (_ && _).
  - intros n. cbn. destruct (iproute2 n); [apply output_shows|done].
Defined.

Definition virtio : @nic nic_card := mkCard true true true None.
Definition tunnel : @nic nic_card := mkCard false false true None.
End NicSample.

Module AgentMainWitness.
Import NicSample Samples ControlSample.ControlSample.

(** The offload is switched off and the second attempt succeeds. *)
Lemma start_mode_kept_witness :
  attach_start "auto" true virtio = (Some DRV_MODE, mkCard true false true (Some DRV_MODE)) /\
  link (mkCard true false true (Some DRV_MODE)) = Some ("eshield"%string, mode_code DRV_MODE).
Proof.
  assert (E : attach_start "auto" true virtio = (Some DRV_MODE, mkCard true false true (Some DRV_MODE)))
    by (vm_compute; reflexivity).
  split; [exact E|]. destruct (start_mode_kept (NI := nic_card) "auto" true virtio) as (_ & _ & H). exact (H _ _ E).
Defined.

Lemma monitor_truthful_witness :
  let '(n', stats') := monitor_xdp true true (virtio, Stats_default) in
  Stats.xdp_attached stats' = true /\ protected n' = true.
Proof.
  assert (Ht : tool_works (NI := nic_card) virtio = true) by reflexivity.
  pose proof (monitor_truthful (NI := nic_card) true true virtio Stats_default Ht) as H.
  destruct (monitor_xdp (NI := nic_card) true true (virtio, Stats_default)) as [n' stats'] eqn:E.
  destruct H as (H & _). assert (Hp : protected n' = true) by (vm_compute in E; injection E as <- _; reflexivity).
  rewrite H. split; exact Hp.
Defined.

(** A driver without the native mode. *)
Lemma monitor_ignores_mode_witness :
  let driver : Nic := {| nic := card; attach flags n := match flags with SKB_MODE => (true, mkCard false false true (Some SKB_MODE)) | DRV_MODE => (false, n) end;
    ethtool_off _ n := (false, n); ip_link_show n := Some (output (attached n)); json_from_slice := read_output |} in
  fst (attach_start (NI := driver) "native" false tunnel) = None /\
  xdp_mode_str (snd (monitor_xdp (NI := driver) true true (tunnel, Stats_default))) = "generic"%string.
Proof.
  intros driver.
  destruct (@monitor_ignores_mode driver
    {| link := (fun n => attachment <$> attached n) : @nic driver -> _; tool_works := fun _ => true;
       attach_link := ltac:(by intros [|] n); ethtool_link := ltac:(done); ip_link_shows := fun n => output_shows (attached n) |}
    false tunnel Stats_default tunnel) as [H1 H2]; [done|done|reflexivity|reflexivity|].
  split; [exact H1|]. cbn in H2 |- *. apply H2.
Defined.

Definition blind : @nic nic_card := mkCard true false false (Some DRV_MODE).

Lemma no_iproute_not_ready_witness :
  let '(n', stats') := monitor_xdp true true (blind, Stats_default) in
  Stats.xdp_attached stats' = false /\ protected n' = true.
Proof.
  apply (no_iproute_not_ready (NI := nic_card) blind Stats_default true true); [reflexivity| |reflexivity].
  intros flags n0 H. cbn. unfold protected in H. cbn in H. by destruct (attached n0).
Defined.

(** A start from scratch, and its answers. *)
Definition boot : Boot :=
  mkBoot ("MemTotal:        2048000 kB" +:+ String (of_code 10) "MemFree: 1 kB") None "" 5000000000 (2 ^ 100) [] []
    (machine <| COOKIE_SECRETS := [CookieSecret.mk [] [] 0] |>) (Some RuleStore_empty).

Lemma start_guarded_witness :
  exists run n', start boot virtio = (Some run, n') /\ Stats.xdp_attached (stats run) = true /\ protected n' = true.
Proof.
  assert (Hs : match fst (start boot virtio) with Some _ => true | None => false end = true) by (vm_compute; reflexivity).
  destruct (start boot virtio) as [[run|] n'] eqn:E; [|discriminate Hs].
  exists run, n'. split; [reflexivity|].
  destruct (start_guarded boot virtio run n' E) as (config & _ & _ & _ & (flags & Hl & Hx & _) & _).
  split; [exact Hx|]. unfold protected. by rewrite Hl.
Defined.

(** The memory runs out: level 2. *)
Definition exhausted : option (list Z) * option (Z * Z) := (None, Some (1000, 10)).

Lemma danger_level_agrees_witness :
  Stats.danger_level (shown (foldl (fun d input => danger_tick input d)
    (danger_start (f64_of 2) agent Stats_default) [exhausted])) = 2.
Proof.
  assert (Hm : map_danger 0 (ebpf agent)) by (vm_compute; reflexivity).
  assert (Hs : shown_danger 0 agent) by (vm_compute; reflexivity).
  destruct (danger_level_agrees (f64_of 2) agent Stats_default [exhausted] Hm Hs eq_refl)
    as (_ & _ & _ & ->). vm_compute. reflexivity.
Defined.

(** The agent of the sample under level 2, reloaded while the memory stays full. *)
Definition under_attack : DangerTask :=
  mkDangerTask (DangerMonitor_new (f64_of 2)) 2 alarmed (Stats_default <| Stats.danger_level := 2 |>).

Lemma reload_loses_danger_witness :
  exists c', reload_config_file alarmed = (Some tt, c') /\ map_danger 0 (ebpf c') /\ shown_danger 2 c'.
Proof.
  assert (Hd : danger_agrees under_attack) by (split_and!; vm_compute; congruence).
  assert (Hst : forall c' : @ControlState Samples.kernel SortedTable.redb, steady [exhausted; exhausted] (mkDangerTask (DangerMonitor_new (f64_of 2)) 2 c'
    (Stats_default <| Stats.danger_level := 2 |>))) by (intros c'; vm_compute; done).
  assert (E : reload_config_file alarmed = (Some tt, snd (reload_config_file alarmed))) by (apply run_ok; vm_compute; reflexivity).
  exists (snd (reload_config_file alarmed)). split; [exact E|].
  revert E. generalize (snd (reload_config_file alarmed)). intros c' E.
  destruct (reload_loses_danger under_attack c' [exhausted; exhausted] Hd E (Hst c')) as (H1 & H2 & _).
  destruct (steady_agent [exhausted; exhausted] _ (Hst c')) as [Ha _].
  unfold under_attack in H1, H2. cbn [monitor level shown] in H1, H2. rewrite Ha in H1, H2. split; [exact H1|exact H2].
Defined.
End AgentMainWitness.
