(* ===== verification/ConsoleViews.v ===== *)
(** * ConsoleViews: what the console shows

    The read-only handlers of [eshield/src/web.rs] over the kernel maps, the
    packet log and the statistics.  They change nothing; the clocks are
    arguments.  A panic of the packet log is [None]. *)
From stdpp Require Import strings gmap.
From S2P Require Import Prelude Words Common Pure RustStd Ranking IpText TimeSeries Maps Trust Blacklist PacketLog AgentMaps Adaptive Metrics.
#[local] Open Scope Z_scope.

(** ** The black list *)
Definition block_origin_label (rule_id : Z) : string :=
  if rule_id =? rules.API_BLOCK then "api"%string
  else if rule_id =? rules.ADAPTIVE then "adaptive"%string
  else if rule_id =? rules.BLACKLIST then "config"%string
  else if (rule_id =? rules.GEOIP) || (rule_id =? rules.THREAT_INTEL) ||
          (rule_id =? rules.PROJECT_POLICY) || (rule_id =? rules.PORT_ACL) then "policy"%string
  else "data"%string.

Module BlockView.
Record t := mk {
  ip : string;
  reason : string;
  origin : string;
  last_reason : string;
  created_ns : Z;
  expires_ns : Z;
  hits : Z;
}.
End BlockView.

Definition block_view (kv : IpKey.t * BlockEntry.t) : BlockView.t :=
  let '(key, e) := kv in
  let reason := BlockEntry.block_reason e in
  let last_reason := BlockEntry.last_reason e in
  BlockView.mk (format_ip_key key) (rule_display_name reason) (block_origin_label reason)
    (if negb (last_reason =? 0) && negb (last_reason =? reason) then rule_display_name last_reason else ""%string)
    (BlockEntry.first_seen_ns e)
    (if BlockEntry.blocked_until_ns e =? BLOCK_PERMANENT then 0 else BlockEntry.blocked_until_ns e)
    (BlockEntry.hit_count e).

Definition still_valid (now_ns : Z) (e : BlockEntry.t) : bool :=
  (BlockEntry.blocked_until_ns e =? BLOCK_PERMANENT) || (BlockEntry.blocked_until_ns e >? now_ns).

(** ** The page of one address *)
Module IpDetailResponse.
Record t := mk {
  ip : string;
  blacklisted : bool;
  hit_count : Z;
  trust_score : Z;
  trust_level : Z;
  drop_count : Z;
  pass_count : Z;
  recent_samples : list PacketSampleEntry.t;
  top_ports : list (Z * Z);
}.
End IpDetailResponse.

Definition ip_query (ip : string) (from_ns : option Z) (limit : Z) : PacketLogQuery.t :=
  PacketLogQuery.mk (Some ip) None None None None from_ns None limit.

Definition to_wall (offset_ns : Z) (e : PacketSampleEntry.t) : PacketSampleEntry.t :=
  e <| PacketSampleEntry.timestamp_ns ::= fun ts => monotonic_to_wall_ns ts offset_ns |>.

Definition is_drop (e : PacketSampleEntry.t) : bool := PacketSampleEntry.action e =? 0.

Definition count_by (P : PacketSampleEntry.t -> bool) (samples : list PacketSampleEntry.t) : Z :=
  Z.of_nat (length (filter (fun e => P e = true) samples)).

Section Views.
Context {KN : Kernel} {MO : MapOps} {HO : HashOrder}.

Definition list_blacklist_handler (now_ns : Z) (s : KState) : list BlockView.t :=
  map block_view (filter (fun kv => still_valid now_ns (snd kv) = true) (lru_entries (BLACKLIST s))).

Definition port_counts (samples : list PacketSampleEntry.t) : list (Z * Z) :=
  let counts := foldl (fun m e => count_in (PacketSampleEntry.dst_port e) m) (∅ : gmap Z Z) samples in
  map (fun p => (p, default 0 (counts !! p))) (hash_list (dom counts)).

Definition ip_detail (ip : string) (key : IpKey.t) (offset_ns : Z) (s : KState) (log : PacketLog.t)
    : option IpDetailResponse.t :=
  let block := lru_get (BLACKLIST s) key in
  let '(score, level) := match lru_get (TRUST_MAP s) key with
    | Some e => (Z.min (TrustEntry.trust_score e / 10) 100, TrustEntry.level e)
    | None => (50, 0)
    end in
  samples ← query (ip_query ip None 100) log;
  let samples := map (to_wall offset_ns) samples in
  Some (IpDetailResponse.mk ip (match block with Some _ => true | None => false end)
    (match block with Some e => BlockEntry.hit_count e | None => 0 end)
    score level (count_by is_drop samples) (count_by (fun e => negb (is_drop e)) samples) samples
    (top snd 10 (port_counts samples))).
End Views.

(** ** The chart of one address *)
Module IpSeriesPoint.
Record t := mk {
  timestamp : Z;
  drop_count : option Z;
  pass_count : option Z;
}.
End IpSeriesPoint.

Definition NS_PER_MIN : Z := 60000000000.

Definition minute_of (offset_ns : Z) (e : PacketSampleEntry.t) : Z :=
  monotonic_to_wall_ns (PacketSampleEntry.timestamp_ns e) offset_ns / NS_PER_MIN.

Definition count_sample (offset_ns : Z) (buckets : gmap Z (Z * Z)) (e : PacketSampleEntry.t) : gmap Z (Z * Z) :=
  let minute := minute_of offset_ns e in
  let '(d, p) := default (0, 0) (buckets !! minute) in
  <[minute := if is_drop e then (d + 1, p) else (d, p + 1)]> buckets.

Definition series_point (buckets : gmap Z (Z * Z)) (minute : Z) : IpSeriesPoint.t :=
  match buckets !! minute with
  | Some (d, p) => IpSeriesPoint.mk (minute * 60) (Some d) (Some p)
  | None => IpSeriesPoint.mk (minute * 60) None None
  end.

Definition clamp (lo hi x : Z) : Z := Z.max lo (Z.min hi x).

Definition ip_series (ip : string) (duration_s now_ns wall_now_ns : Z) (log : PacketLog.t)
    : option (list IpSeriesPoint.t) :=
  let duration_s := clamp 60 86400 duration_s in
  let from_ns := saturating_sub now_ns (duration_s * 1000000000) in
  samples ← query (ip_query ip (Some from_ns) 10000) log;
  let offset_ns := wall_now_ns - now_ns in
  let buckets := foldl (count_sample offset_ns) ∅ samples in
  let start_minute := monotonic_to_wall_ns from_ns offset_ns / NS_PER_MIN in
  let end_minute := wall_now_ns / NS_PER_MIN in
  Some (map (series_point buckets) (seqZ start_minute (end_minute - start_minute + 1))).

(** ** The packets page and the charts of the overview *)
Definition packets (ip : option string) (port protocol action rule : option Z) (limit offset_ns : Z)
    (log : PacketLog.t) : option (list PacketSampleEntry.t) :=
  map (to_wall offset_ns) <$> query (PacketLogQuery.mk ip port protocol action rule None None (Z.min limit 1000)) log.

Definition attacker_series (ip : string) (points : list MetricPoint.t) : list (Z * Z) :=
  map (fun p => (MetricPoint.timestamp p, default 0 (MetricPoint.top_attackers p !! ip))) points.

(** A point of the traffic chart: the point and its time of day. *)
Definition metrics_series (offset_ns : Z) (points : list MetricPoint.t) : list (MetricPoint.t * Z) :=
  map (fun p => (p, monotonic_to_wall_ns (saturating_mul 64 (MetricPoint.timestamp p) 1000000000) offset_ns)) points.

(** ** Properties *)

(** *** The list is what the packet program enforces *)
Section Listing.
Context {KN : Kernel} {MO : MapOps} {ML : MapLaws MO}.

Lemma elem_of_lru_entries {K V} `{EqDecision K} (m : lru K V) k v :
  (k, v) ∈ lru_entries m <-> lru_get m k = Some v.
Proof.
  unfold lru_entries. rewrite list_elem_of_omap. split.
  - intros (k' & _ & E). destruct (lru_get m k') eqn:G; cbn in E; [|done]. by simplify_eq.
  - intros E. exists k. rewrite E. split; [|done]. apply lru_keys_spec. by eexists.
Qed.

Lemma still_valid_blocked now_ns s key e :
  lru_get (BLACKLIST s) key = Some e -> still_valid now_ns e = blocked_at s key now_ns.
Proof. intros E. unfold blocked_at, block_live, still_valid. rewrite E, Z.gtb_ltb. done. Qed.

(** the black list page shows the blocks in force, all of them and no
    others.  A row is in the answer exactly if it is the row of an address with
    an entry under which the packet program drops at that time. *)
Theorem blacklist_listed now_ns s row :
  row ∈ list_blacklist_handler now_ns s <->
  exists key e, lru_get (BLACKLIST s) key = Some e /\ blocked_at s key now_ns = true /\ row = block_view (key, e).
Proof.
  unfold list_blacklist_handler. rewrite list_elem_of_fmap. split.
  - intros ([key e] & -> & Hin). apply list_elem_of_filter in Hin as [Hv Hin].
    apply elem_of_lru_entries in Hin. exists key, e. split; [done|]. split; [|done].
    by rewrite <- (still_valid_blocked now_ns s key e).
  - intros (key & e & E & Hb & ->). exists (key, e). split; [done|]. apply list_elem_of_filter. cbn.
    rewrite (still_valid_blocked now_ns s key e) by done. split; [done|]. by apply elem_of_lru_entries.
Qed.

(** the page of an address calls an expired block a block.  It looks only
    for an entry, not at its deadline: an address whose block has ended, and
    which the list no longer shows, is "blacklisted" until its next packet. *)
Theorem expired_still_blacklisted {HO : HashOrder} ip key offset_ns now_ns s log e d :
  lru_get (BLACKLIST s) key = Some e -> blocked_at s key now_ns = false ->
  ip_detail ip key offset_ns s log = Some d ->
  IpDetailResponse.blacklisted d = true /\ still_valid now_ns e = false.
Proof.
  intros E Hb Hd. split; [|by rewrite (still_valid_blocked now_ns s key e)].
  unfold ip_detail in Hd. rewrite E in Hd.
  destruct (lru_get (TRUST_MAP s) key); destruct (query _ _); cbn in Hd; by simplify_eq.
Qed.
End Listing.

(** *** The chart counts every sample *)
Definition of_minute (offset_ns minute : Z) (samples : list PacketSampleEntry.t) : list PacketSampleEntry.t :=
  filter (fun e => minute_of offset_ns e = minute) samples.

(** The point of a minute, from the samples themselves. *)
Definition point_spec (offset_ns : Z) (samples : list PacketSampleEntry.t) (minute : Z) : IpSeriesPoint.t :=
  let l := of_minute offset_ns minute samples in
  if bool_decide (l = []) then IpSeriesPoint.mk (minute * 60) None None
  else IpSeriesPoint.mk (minute * 60) (Some (count_by is_drop l)) (Some (count_by (fun e => negb (is_drop e)) l)).

Lemma count_by_snoc P l e : count_by P (l ++ [e]) = count_by P l + if P e then 1 else 0.
Proof.
  unfold count_by. rewrite list.filter_app, length_app, filter_cons, filter_nil.
  case_decide as HP; destruct (P e); try congruence; cbn [length]; lia.
Qed.

Definition totals (l : list PacketSampleEntry.t) : Z * Z :=
  (count_by is_drop l, count_by (fun e => negb (is_drop e)) l).

Lemma totals_snoc l e :
  totals (l ++ [e]) = if is_drop e then (fst (totals l) + 1, snd (totals l)) else (fst (totals l), snd (totals l) + 1).
Proof. unfold totals. rewrite !count_by_snoc. destruct (is_drop e); cbn; f_equal; lia. Qed.

Lemma buckets_spec offset_ns samples minute :
  foldl (count_sample offset_ns) ∅ samples !! minute =
  if bool_decide (of_minute offset_ns minute samples = []) then None
  else Some (totals (of_minute offset_ns minute samples)).
Proof.
  induction samples as [|e samples IH] using rev_ind; [done|].
  rewrite foldl_app. cbn [foldl]. unfold of_minute in *. rewrite list.filter_app, filter_cons, filter_nil.
  unfold count_sample at 1. set (m := foldl (count_sample offset_ns) ∅ samples) in *.
  destruct (decide (minute_of offset_ns e = minute)) as [Hm|Hm].
  - rewrite Hm, IH. set (l := filter _ samples). clearbody l.
    assert (E : default (0, 0) (if bool_decide (l = []) then None else Some (totals l)) = totals l)
      by (destruct (bool_decide_reflect (l = [])) as [Hl|Hl]; [by rewrite Hl|done]).
    rewrite E, totals_snoc. rewrite bool_decide_eq_false_2 by (by destruct l).
    destruct (totals l) as [d p]. by rewrite lookup_insert_eq.
  - rewrite app_nil_r. destruct (default (0, 0) _) as [d p]. by rewrite lookup_insert_ne.
Qed.

(** the chart of an address loses nothing.  It has one point for every
    minute from the start of the period to now, 1441 at most, and each point
    counts the dropped and the passed samples of its minute that the packet log
    returned for the period, or shows that there are none. *)
Theorem ip_series_counts ip duration_s now_ns wall_now_ns log samples :
  0 <= now_ns <= wall_now_ns -> wall_now_ns < 2 ^ 64 ->
  let d := clamp 60 86400 duration_s in
  let from_ns := saturating_sub now_ns (d * 1000000000) in
  query (ip_query ip (Some from_ns) 10000) log = Some samples ->
  let first := (wall_now_ns - Z.min now_ns (d * 1000000000)) / NS_PER_MIN in
  let last := wall_now_ns / NS_PER_MIN in
  ip_series ip duration_s now_ns wall_now_ns log =
    Some (map (point_spec (wall_now_ns - now_ns) samples) (seqZ first (last - first + 1))) /\
  last - first + 1 <= 1441.
Proof.
  intros Hnow Hwall d from_ns Hq first last.
  assert (Hd : 60 <= d <= 86400) by (unfold d, clamp; lia).
  unfold ip_series. fold d from_ns. cbv zeta. rewrite Hq. cbn [mbind option_bind].
  assert (Hfirst : monotonic_to_wall_ns from_ns (wall_now_ns - now_ns) = wall_now_ns - Z.min now_ns (d * 1000000000)).
  { unfold monotonic_to_wall_ns, from_ns, saturating_sub. rewrite wrap_small; lia. }
  rewrite Hfirst. fold first last. split.
  - f_equal. apply map_ext. intros m. unfold series_point, point_spec. rewrite buckets_spec.
    by case_bool_decide.
  - unfold last, first, NS_PER_MIN.
    pose proof (Z.div_mod wall_now_ns 60000000000 ltac:(lia)).
    pose proof (Z.mod_pos_bound wall_now_ns 60000000000 ltac:(lia)).
    pose proof (Z.div_mod (wall_now_ns - Z.min now_ns (d * 1000000000)) 60000000000 ltac:(lia)).
    pose proof (Z.mod_pos_bound (wall_now_ns - Z.min now_ns (d * 1000000000)) 60000000000 ltac:(lia)). lia.
Qed.

Module ConsoleViewsWitness.
Import Samples MapSamples.

(** A block of ten seconds from second one on. *)
Definition blocked : @KState kernel := snd (add_to_blacklist alice 1000000000 10 rules.UDP_FLOOD (state [])).

Lemma blacklist_listed_witness :
  exists row, row ∈ list_blacklist_handler 5000000000 blocked /\ BlockView.ip row = "10.0.0.1"%string /\
    BlockView.expires_ns row = 11000000000.
Proof.
  eexists (block_view (alice, _)).
  split; [apply (blacklist_listed (ML := laws)); eexists alice, _; split; [vm_compute; reflexivity|by split]|].
  vm_compute. done.
Defined.

Lemma expired_still_blacklisted_witness :
  exists d, ip_detail "10.0.0.1" alice 0 blocked (packet_log_new 3) = Some d /\
    IpDetailResponse.blacklisted d = true /\ blocked_at blocked alice 20000000000 = false.
Proof.
  assert (E : is_Some (lru_get (BLACKLIST blocked) alice)) by (vm_compute; eauto). destruct E as [e E].
  assert (Hb : blocked_at blocked alice 20000000000 = false) by (vm_compute; reflexivity).
  assert (Hd : is_Some (ip_detail "10.0.0.1" alice 0 blocked (packet_log_new 3))) by (vm_compute; eauto).
  destruct Hd as [d Hd]. exists d. split; [exact Hd|]. split; [|exact Hb].
  exact (proj1 (expired_still_blacklisted "10.0.0.1" alice 0 20000000000 blocked _ e d E Hb Hd)).
Defined.

(** A drop at second 30, seen at second 100 by the monotonic clock. *)
Definition drop : PacketSample.t :=
  PacketSample.mk 30000000000 (repeat 0 10 ++ [255; 255; 10; 0; 0; 1]) (repeat 0 10 ++ [255; 255; 10; 0; 0; 9])
    4 6 4000 80 0 rules.BLACKLIST 60 0 [].
Definition log : PacketLog.t := push_many [drop] (packet_log_new 3).

Lemma ip_series_counts_witness :
  ip_series "10.0.0.1" 3600 100000000000 700000000000 log =
    Some (map (fun m => IpSeriesPoint.mk (m * 60) (if m =? 10 then Some 1 else None) (if m =? 10 then Some 0 else None))
            [10; 11]).
Proof.
  assert (Hq : is_Some (query (ip_query "10.0.0.1" (Some (saturating_sub 100000000000 (clamp 60 86400 3600 * 1000000000)))
    10000) log)) by (vm_compute; eauto). destruct Hq as [samples Hq].
  destruct (ip_series_counts "10.0.0.1" 3600 100000000000 700000000000 log samples) as [E _];
    [lia|lia|exact Hq|]. rewrite E. vm_compute in Hq. injection Hq as <-. vm_compute. reflexivity.
Defined.
End ConsoleViewsWitness.
