(* ===== verification/ConsoleApi.v ===== *)
(** * ConsoleApi: a request to the console, from the peer to the response

    [eshield/src/web.rs] and [health.rs]: the route table of [run], the
    middlewares and the handlers.  [serve] is one request; what a handler reads
    off the clocks is one value for the request.  Decoding a body or a query
    string (axum's extractors), the file of the audit log and the hub's answer
    are parameters ([Class ConsoleEnv]).  The pages whose text is not modelled
    (the HTML page, the audit list and its stream) are [Page]: they read the
    state and change nothing. *)
From Stdlib Require Import Ascii.
From stdpp Require Import strings gmap.
From S2P Require Import Prelude Words Common Pure RustStd Ranking IpText Config TimeSeries Redb RuleStore Maps Blacklist PacketLog AgentMaps Metrics Geoip Adaptive AuditLog AgentControl Exposition ModulePage ThreatIntel LoginLimiter ConsoleAuth ConsoleViews.
#[local] Open Scope Z_scope.

(** ** Responses *)
Inductive Payload :=
  | Text (s : string)
  | Error
  | NoBody
  | Page (name : string)
  | TokenBody (token : string)
  | RoleBody (role : Role)
  | Blacklist (rows : list BlockView.t)
  | Whitelist (rows : list (string * string))
  | PortAcl (items : list PortAclItem.t)
  | Projects (projects : list ProtectionProject.t)
  | Patterns (patterns : list L7PatternConfig.t)
  | ConfigBody (snapshot : RuntimeConfigSnapshot.t)
  | StatsBody (stats : StatsResponse.t)
  | Modules (modules : list ProtectionModule.t)
  | Maps (usage : list MapUsage.t) (warn_threshold : QArith_base.Q) (sampled_ns : Z)
  | ChainReport (report : option (bool * Z * option Z))
  | Events (events : list AttackEvent.t)
  | Packets (entries : list PacketSampleEntry.t)
  | Detail (detail : IpDetailResponse.t)
  | IpSeries (ip : string) (points : list IpSeriesPoint.t)
  | Attackers (ip : string) (points : list (Z * Z))
  | Traffic (points : list (MetricPoint.t * Z))
  | HubStatus (enabled connected : bool) (active_url node_name : string) (urls : list string)
  | HubReply (body : string)
  | Ready (ready : bool) (xdp_mode : string).

Module Response.
Record t := mk {
  status : Z;
  headers : list (string * string);
  payload : Payload;
}.
#[global] Instance eta_t : Eta t := fun r => mk (status r) (headers r) (payload r).
End Response.

Definition respond (status : Z) (payload : Payload) : Response.t := Response.mk status [] payload.
Definition api_err (status : Z) : Response.t := respond status Error.
Definition with_header (name value : string) (r : Response.t) : Response.t :=
  r <| Response.headers ::= fun h => (name, value) :: filter (fun x => fst x <> name) h |>.

(** ** What comes from outside *)
Class ConsoleEnv := {
  (** [Json<T>]: the content type and the body; [None] is the extractor's own
      refusal *)
  body_block : Request.t -> option (string * Z);
  body_ip : Request.t -> option string;
  body_cidr : Request.t -> option string;
  body_token : Request.t -> option string;
  body_patch : Request.t -> option RuntimeConfigPatch.t;
  body_port_acl : Request.t -> option (list PortAclItem.t);
  body_projects : Request.t -> option (list ProtectionProject.t);
  body_patterns : Request.t -> option (list L7PatternConfig.t);
  (** [Query<T>] *)
  query_limit : string -> option Z;
  query_duration : string -> option Z;
  query_ip : string -> option string;
  query_ip_duration : string -> option (string * Z);
  query_packets : string -> option (option string * option Z * option Z * option Z * option Z * Z);
  (** the lines of the audit log *)
  audit_file : string -> option (list string);
  (** GET on a URL of the hub with a token: status and body *)
  hub_get : string -> string -> option (Z * string);
}.

(** The clocks (monotonic, wall) and the random number of a request. *)
Module Moment.
Record t := mk {
  now_ns : Z;
  wall_ns : Z;
  random : Z;
}.
End Moment.

Definition offset_of (m : Moment.t) : Z := wall_clock_offset_ns (Moment.wall_ns m) (Moment.now_ns m).

(** [trim_end_matches('/')] *)
Fixpoint trim_slashes (s : string) : string :=
  match s with
  | EmptyString => EmptyString
  | String c s =>
      match trim_slashes s with
      | EmptyString => if Ascii.eqb c "/" then EmptyString else String c EmptyString
      | s => String c s
      end
  end.

Definition hub_proxy_url (cfg : HubConfig.t) : string :=
  trim_slashes (default "http://localhost:9930"%string (head (HubConfig.urls cfg))).

Section Console.
Context {KN : Kernel} {MO : MapOps} {HO : HashOrder} {R : Redb} {J : RuleJson} {CL : CsvLib} {EN : AgentEnv}
  {FL : FeedLib} {AL : AuditLib} {CE : ConsoleEnv}.

Record WebState := mkWebState {
  stats : Stats.t;
  window : TimeSeriesWindow.t;
  control : ControlState;
  auth : AuthState.t;
  login_limiter : LoginLimiter;
  packet_log : PacketLog.t;
  map_infos : list MapInfo.t;
}.
#[global] Instance eta_WebState : Eta WebState := fun r =>
  mkWebState (stats r) (window r) (control r) (auth r) (login_limiter r) (packet_log r) (map_infos r).

Definition Handler : Type := Request.t -> Moment.t -> WebState -> Response.t * WebState.

(** A handler that only looks, and one behind an extractor. *)
Definition view (f : Request.t -> Moment.t -> WebState -> Response.t) : Handler := fun r m w => (f r m w, w).
Definition extract {A} (get : Request.t -> option A) (k : A -> Handler) : Handler := fun r m w =>
  match get r with Some a => k a r m w | None => (api_err 400, w) end.
Definition extract_query {A} (get : string -> option A) (k : A -> Handler) : Handler :=
  extract (fun r => get (default ""%string (Request.query r))) k.

(** An operation of the agent: its error has the status [failure]. *)
Definition operate (failure : Z) (done : string) (m : Try ControlState unit) : Handler := fun _ _ w =>
  let '(r, c) := m (control w) in
  (match r with Some _ => respond 200 (Text done) | None => api_err failure end, w <| control := c |>).

(** A panic in a handler closes the connection. *)
Definition panicking (o : option Payload) : Response.t :=
  match o with Some p => respond 200 p | None => api_err 500 end.

(** ** Public handlers *)
Definition healthz_handler : Handler := view (fun _ _ _ => respond 200 (Text "ok")).
Definition ready_handler : Handler := view (fun _ _ w =>
  let ready := Stats.xdp_attached (stats w) in
  respond (if ready then 200 else 503) (Ready ready (xdp_mode_str (stats w)))).
Definition login_page : Handler := view (fun _ _ _ => respond 200 (Page "login")).
Definition blocked_handler : Handler := view (fun _ _ _ => respond 200 (Page "blocked")).

Definition web_audit (action : AuditAction) (detail : AuditDetail) (w : WebState) : WebState :=
  w <| control ::= fun c => snd (audit "console" action detail c) |>.

Definition login_api_handler : Handler := extract body_token (fun token r m w =>
  let ip := Request.peer r in
  let '(answer, limiter) :=
    LoginLimiter.login_api_handler (Moment.now_ns m) (Moment.now_ns m) ip (verify token (auth w)) (login_limiter w) in
  let w := w <| login_limiter := limiter |> in
  match answer with
  | TooManyRequests => (api_err 429, w)
  | LoggedIn =>
      (with_header "set-cookie" (session_cookie token (request_is_https r)) (respond 200 (Text "OK")),
       web_audit Login (DLogin (print_ip_addr ip) "success") w)
  | InvalidToken => (api_err 401, web_audit Login (DLogin (print_ip_addr ip) "failed") w)
  end).

(** ** Protected handlers *)
Definition auth_check_handler (role : Role) : Handler := view (fun _ _ _ => respond 200 (RoleBody role)).
Definition stats_handler : Handler := view (fun _ _ w => respond 200 (StatsBody (stats_snapshot (stats w)))).
Definition config_handler : Handler := view (fun _ _ w => respond 200 (ConfigBody (runtime (control w)))).
Definition protection_modules_handler : Handler := view (fun _ _ w =>
  respond 200 (Modules (protection_modules (runtime (control w))))).
Definition metrics_handler : Handler := view (fun _ _ w =>
  let rt := runtime (control w) in
  with_header "content-type" "text/plain; charset=utf-8" (respond 200 (Text
    (metrics_text (RuntimeConfigSnapshot.interface rt) (RuntimeConfigSnapshot.fragment_policy rt) (stats w) (map_infos w))))).
Definition usage_handler : Handler := view (fun _ _ w =>
  respond 200 (Maps (map_usage_handler (map_infos w) (stats w)) warn_threshold (Stats.map_entries_updated_ns (stats w)))).

Definition audit_verify_handler : Handler := view (fun _ _ w =>
  let rt := runtime (control w) in
  if negb (RuntimeConfigSnapshot.audit_enabled rt) then respond 200 (ChainReport None)
  else match verify_chain (audit_file (RuntimeConfigSnapshot.audit_path rt)) with
       | Some report => respond 200 (ChainReport (Some report))
       | None => api_err 500
       end).

Definition logout_handler : Handler := view (fun r _ _ =>
  with_header "set-cookie" (logout_cookie (request_is_https r)) (respond 200 (Text "OK"))).

Definition reset_token_handler : Handler := fun r m w =>
  let '(token, a) := reset_token (Moment.random m) (auth w) in
  let w := web_audit ResetToken (DToken (String.substring 0 8 token)) (w <| auth := a |>) in
  (with_header "set-cookie" (session_cookie token (request_is_https r))
     (with_header "content-type" "application/json" (respond 200 (TokenBody token))), w).

Definition patch_config_handler : Handler := extract body_patch (fun patch =>
  operate 500 "配置已更新" (patch_runtime patch)).
Definition reload_config_handler : Handler := operate 500 "配置已从文件重新加载" reload_config_file.

Definition blacklist_handler : Handler := view (fun _ m w =>
  respond 200 (Blacklist (list_blacklist_handler (Moment.now_ns m) (ebpf (control w))))).

Definition whitelist_row (kp : IpKey.t * Z) : string * string :=
  let '(key, prefix) := kp in
  let single := ((prefix =? 32) && bool_decide (IpKey_family key = Some Ipv4)) ||
                ((prefix =? 128) && bool_decide (IpKey_family key = Some Ipv6)) in
  (format_ip_key key +:+ "/" +:+ pretty.pretty prefix, if single then "单主机"%string else ""%string).
Definition list_whitelist_handler : Handler := view (fun _ _ w =>
  respond 200 (Whitelist (map whitelist_row (whitelist (control w))))).

Definition block_ip_handler : Handler := extract body_block (fun req =>
  operate 400 "已封禁" (block_ip (fst req) (snd req))).
Definition unblock_ip_handler : Handler := extract body_ip (fun ip => operate 400 "已解封" (unblock_ip ip)).
Definition allow_cidr_handler : Handler := extract body_cidr (fun cidr => operate 400 "已加入白名单" (allow_cidr cidr)).
Definition disallow_cidr_handler : Handler := extract body_cidr (fun cidr => operate 400 "已移除白名单" (disallow_cidr cidr)).

Definition list_port_acl_handler : Handler := view (fun _ _ w =>
  respond 200 (PortAcl (RuntimeConfigSnapshot.port_acl (runtime (control w))))).
Definition set_port_acl_handler : Handler := extract body_port_acl (fun items r m w =>
  if Z.of_nat (length items) >? MAX_PORT_ACL then (api_err 400, w)
  else operate 400 "端口 ACL 已更新" (set_port_acl items) r m w).
Definition list_protection_projects_handler : Handler := view (fun _ _ w =>
  respond 200 (Projects (RuntimeConfigSnapshot.protection_projects (runtime (control w))))).
Definition set_protection_projects_handler : Handler := extract body_projects (fun projects r m w =>
  if Z.of_nat (length projects) >? 256 then (api_err 400, w)
  else operate 400 "防护项目已更新" (set_protection_projects projects) r m w).
Definition list_l7_patterns_handler : Handler := view (fun _ _ w =>
  respond 200 (Patterns (L7ScanConfig.patterns (RuntimeConfigSnapshot.l7_scan (runtime (control w)))))).
Definition set_l7_patterns_handler : Handler := extract body_patterns (fun patterns r m w =>
  if Z.of_nat (length patterns) >? MAX_L7_PATTERNS then (api_err 400, w)
  else operate 400 "L7 指纹已更新" (set_l7_patterns patterns) r m w).

Definition reload_geoip_handler : Handler := operate 500 "GeoIP 已重新加载" reload_geoip.

(** The feeds are read by tasks of their own, here one after the other. *)
Definition sync_threat_intel_handler : Handler := fun _ _ w =>
  (respond 200 (Text "威胁情报同步已触发"),
   w <| control ::= fun c => snd (sync_feeds (RuntimeConfigSnapshot.threat_intel_feeds (runtime c)) c) |>).

Definition hub_status_handler : Handler := view (fun _ _ w =>
  let c := control w in
  respond 200 (HubStatus (HubConfig.enabled (hub_config c)) (hub_connected c) (hub_active_url c)
    (HubConfig.node_name (hub_config c)) (HubConfig.urls (hub_config c)))).

Definition hub_proxy (path : string) : Handler := view (fun r _ w =>
  let cfg := hub_config (control w) in
  if negb (HubConfig.enabled cfg) || String.eqb (HubConfig.token cfg) "" then api_err 503
  else
    let url := hub_proxy_url cfg +:+ path in
    let url := match Request.query r with Some q => url +:+ "?" +:+ q | None => url end in
    match hub_get url (HubConfig.token cfg) with
    | Some (status, body) => respond status (HubReply body)
    | None => api_err 502
    end).

Definition attack_events_page : Handler := extract_query query_limit (fun limit => view (fun _ m w =>
  respond 200 (Events (attack_events_handler (offset_of m) limit (stats w))))).
Definition packets_handler : Handler := extract_query query_packets (fun q => view (fun _ m w =>
  let '(ip, port, protocol, action, rule, limit) := q in
  panicking (Packets <$> packets ip port protocol action rule limit (offset_of m) (packet_log w)))).
Definition ip_detail_handler : Handler := extract_query query_ip (fun ip => view (fun _ m w =>
  match parse_ip ip with
  | None => api_err 400
  | Some key => panicking (Detail <$> ip_detail ip key (offset_of m) (ebpf (control w)) (packet_log w))
  end)).
Definition ip_series_handler : Handler := extract_query query_ip_duration (fun q => view (fun _ m w =>
  match parse_ip (fst q) with
  | None => api_err 400
  | Some _ => panicking (IpSeries (fst q) <$>
      ip_series (fst q) (snd q) (Moment.now_ns m) (Moment.wall_ns m) (packet_log w))
  end)).
Definition attacker_series_handler : Handler := extract_query query_ip_duration (fun q => view (fun _ m w =>
  respond 200 (Attackers (fst q)
    (attacker_series (fst q) (snapshot (Moment.now_ns m / 1000000000) (snd q) (window w)))))).
Definition metrics_series_handler : Handler := extract_query query_duration (fun duration_s => view (fun _ m w =>
  respond 200 (Traffic (metrics_series (offset_of m) (snapshot (Moment.now_ns m / 1000000000) duration_s (window w)))))).

(** ** Routes *)
Abbreviation Endpoint := (string * list (Method * (Role -> Handler)))%type.

(** The handlers that do not ask for the role. *)
Definition any (h : Handler) : Role -> Handler := fun _ => h.

Definition public_routes : list Endpoint :=
  [("/healthz"%string, [(GET, any healthz_handler)]); ("/ready"%string, [(GET, any ready_handler)]);
   ("/login"%string, [(GET, any login_page)]); ("/blocked"%string, [(GET, any blocked_handler)]);
   ("/api/auth/login"%string, [(POST, any login_api_handler)])].

Definition page (name : string) : Role -> Handler := any (view (fun _ _ _ => respond 200 (Page name))).

Definition protected_routes : list Endpoint :=
  [("/"%string, [(GET, page "index")]);
   ("/api/stats"%string, [(GET, any stats_handler)]);
   ("/api/metrics/series"%string, [(GET, any metrics_series_handler)]);
   ("/api/config"%string, [(GET, any config_handler); (PATCH, any patch_config_handler)]);
   ("/api/config/reload"%string, [(POST, any reload_config_handler)]);
   ("/api/auth/check"%string, [(GET, auth_check_handler)]);
   ("/api/map-usage"%string, [(GET, any usage_handler)]);
   ("/api/audit/verify"%string, [(GET, any audit_verify_handler)]);
   ("/api/auth/logout"%string, [(POST, any logout_handler)]);
   ("/api/auth/reset-token"%string, [(POST, any reset_token_handler)]);
   ("/api/protection-modules"%string, [(GET, any protection_modules_handler)]);
   ("/api/blacklist"%string, [(GET, any blacklist_handler); (POST, any block_ip_handler);
                              (DELETE, any unblock_ip_handler)]);
   ("/api/whitelist"%string, [(GET, any list_whitelist_handler); (POST, any allow_cidr_handler);
                              (DELETE, any disallow_cidr_handler)]);
   ("/api/audit"%string, [(GET, page "audit")]);
   ("/api/audit/stream"%string, [(GET, page "audit-stream")]);
   ("/api/metrics/attacker-series"%string, [(GET, any attacker_series_handler)]);
   ("/api/attack-events"%string, [(GET, any attack_events_page)]);
   ("/api/packets"%string, [(GET, any packets_handler)]);
   ("/api/ip-detail"%string, [(GET, any ip_detail_handler)]);
   ("/api/ip-series"%string, [(GET, any ip_series_handler)]);
   ("/api/port-acl"%string, [(GET, any list_port_acl_handler); (POST, any set_port_acl_handler)]);
   ("/api/protection-projects"%string, [(GET, any list_protection_projects_handler);
                                        (POST, any set_protection_projects_handler)]);
   ("/api/l7-patterns"%string, [(GET, any list_l7_patterns_handler); (POST, any set_l7_patterns_handler)]);
   ("/api/geoip/reload"%string, [(POST, any reload_geoip_handler)]);
   ("/api/threat-intel/sync"%string, [(POST, any sync_threat_intel_handler)]);
   ("/api/hub/status"%string, [(GET, any hub_status_handler)]);
   ("/api/hub/proxy/stats"%string, [(GET, any (hub_proxy "/api/v1/stats"))]);
   ("/api/hub/proxy/nodes"%string, [(GET, any (hub_proxy "/api/v1/nodes"))]);
   ("/api/hub/proxy/policies"%string, [(GET, any (hub_proxy "/api/v1/policies"))]);
   ("/metrics"%string, [(GET, any metrics_handler)])].

Definition routed (path : string) (routes : list Endpoint) : option (list (Method * (Role -> Handler))) :=
  snd <$> find (fun e => String.eqb (fst e) path) routes.

Definition handler_of (method : Method) (handlers : list (Method * (Role -> Handler))) : option (Role -> Handler) :=
  snd <$> find (fun mh => bool_decide (fst mh = method)) handlers.

(** axum answers HEAD with the handler of GET. *)
Definition dispatch (handlers : list (Method * (Role -> Handler))) (role : Role) : Handler := fun r m w =>
  match handler_of (Request.method r) handlers with
  | Some h => h role r m w
  | None =>
      match (if bool_decide (Request.method r = HEAD) then handler_of GET handlers else None) with
      | Some h => h role r m w
      | None => (respond 405 NoBody, w)
      end
  end.

(** ** Layers *)
Definition MAX_BODY : Z := 1048576.

Definition body_size_limit (next : Handler) : Handler := fun r m w =>
  match header_str "content-length" r ≫= parse_uint 64 with
  | Some len => if len >? MAX_BODY then (api_err 413, w) else next r m w
  | None => next r m w
  end.

Definition auth_layer (next : Role -> Handler) : Handler := fun r m w =>
  match auth_middleware r (auth w) with
  | Next role => next role r m w
  | Forbidden => (api_err 403, w)
  | RedirectLogin => (with_header "location" "/login" (respond 302 NoBody), w)
  | Unauthorized => (api_err 401, w)
  end.

Definition security_headers (next : Handler) : Handler := fun r m w =>
  let '(resp, w) := next r m w in
  let resp := with_header "referrer-policy" "no-referrer"
    (with_header "x-frame-options" "DENY" (with_header "x-content-type-options" "nosniff" resp)) in
  (if request_is_https r then with_header "strict-transport-security" "max-age=31536000" resp else resp, w).

(** The router of [run]: public routes, then the protected ones. *)
Definition serve : Handler := security_headers (fun r m w =>
  match routed (Request.path r) public_routes with
  | Some handlers => dispatch handlers Readonly r m w
  | None =>
      match routed (Request.path r) protected_routes with
      | Some handlers => auth_layer (fun role => body_size_limit (dispatch handlers role)) r m w
      | None => (respond 404 NoBody, w)
      end
  end).
End Console.
