(* ===== verification/ConsoleProps.v ===== *)
(** * ConsoleProps: what a request to the console can do

    Who changes the agent, what the pages promise, and what they get wrong
    ([ConsoleApi.serve] from the peer's address to the response). *)
From Stdlib Require Import Ascii.
From stdpp Require Import strings gmap.
From S2P Require Import Prelude Words Common Pure RustStd IpText Config Redb RuleStore RuleStoreProps Maps Blacklist PacketLog AgentMaps Metrics Geoip Adaptive AuditLog AgentControl AgentControlProps AgentRules AgentControlProps ModulePage ThreatIntel LoginLimiter ConsoleAuth ConsoleViews ConsoleApi.
#[local] Open Scope Z_scope.

Section Authority.
Context {KN : Kernel} {MO : MapOps} {HO : HashOrder} {R : Redb} {J : RuleJson} {CL : CsvLib} {EN : AgentEnv}
  {FL : FeedLib} {AL : AuditLib} {CE : ConsoleEnv}.

(** ** Authority *)

(** The administrator: a process on the machine that no proxy speaks for, anyone
    when no token is configured, or whoever presents the token. *)
Definition is_admin (r : Request.t) (a : AuthState.t) : Prop :=
  (is_loopback (Request.peer r) = true /\ proxy_headers_present r = false) \/
  AuthState.token a = None \/
  (exists t, t <> ""%string /\ provided r = Some t /\ AuthState.token a = Some t).

(** The agent without its audit trail. *)
Definition agent_of (w : WebState) : ControlState := control w <| auditor := None |>.

Definition untouched (w w' : WebState) : Prop :=
  agent_of w' = agent_of w /\ auth w' = auth w /\ stats w' = stats w /\ window w' = window w /\
  packet_log w' = packet_log w /\ map_infos w' = map_infos w.

Definition idle (h : Handler) : Prop := forall r m w, untouched w (snd (h r m w)).

Lemma untouched_refl w : untouched w w.
Proof. by split_and!. Qed.

Lemma idle_view f : idle (view f).
Proof. intros r m w. apply untouched_refl. Qed.

Lemma idle_extract {A} (get : Request.t -> option A) k : (forall a, idle (k a)) -> idle (extract get k).
Proof. intros Hk r m w. unfold extract. destruct (get r); [apply Hk|apply untouched_refl]. Qed.

Lemma untouched_audit w w' action detail : untouched w w' -> untouched w (web_audit action detail w').
Proof. intros (H1&H2&H3&H4&H5&H6). by split_and!. Qed.

Lemma idle_login : idle login_api_handler.
Proof.
  apply idle_extract. intros token r m w. cbv beta zeta.
  destruct (LoginLimiter.login_api_handler _ _ _ _ _) as [answer limiter].
  assert (H : untouched w (w <| login_limiter := limiter |>)) by (by split_and!).
  destruct answer; cbn [snd]; [exact H|by apply untouched_audit..].
Qed.

Create HintDb idle discriminated.
#[local] Hint Resolve idle_view idle_extract idle_login : idle.

(** Handlers of a table that are idle whenever [P] holds of the method. *)
Definition idle_when (P : Method -> bool) (handlers : list (Method * (Role -> Handler))) : Prop :=
  Forall (fun mh => P (fst mh) = true -> forall role, idle (snd mh role)) handlers.

Lemma handler_of_in method handlers h :
  handler_of method handlers = Some h -> (method, h) ∈ handlers.
Proof.
  unfold handler_of. destruct (find _ handlers) as [[m' h']|] eqn:E; [|done]. intros [= <-].
  apply find_some in E as [Hin Hm]. apply bool_decide_eq_true in Hm. cbn in Hm. subst m'.
  by apply list_elem_of_In.
Qed.

(** What [dispatch] runs: the handler of the method, or of GET for HEAD. *)
Lemma dispatch_runs handlers role r m w :
  snd (dispatch handlers role r m w) = w \/
  exists method h, (method, h) ∈ handlers /\
    (method = Request.method r \/ method = GET /\ Request.method r = HEAD) /\
    snd (dispatch handlers role r m w) = snd (h role r m w).
Proof.
  unfold dispatch. destruct (handler_of (Request.method r) handlers) as [h|] eqn:E.
  - right. exists (Request.method r), h. split; [by apply handler_of_in|]. by split; [left|].
  - case_bool_decide as Hm; [|by left]. destruct (handler_of GET handlers) as [h|] eqn:E'; [|by left].
    right. exists GET, h. split; [by apply handler_of_in|]. by split; [right|].
Qed.

Lemma routed_in path routes handlers : routed path routes = Some handlers -> (path, handlers) ∈ routes.
Proof.
  unfold routed. destruct (find _ routes) as [[p h]|] eqn:E; [|done]. intros [= <-].
  apply find_some in E as [Hin Hp]. apply String.eqb_eq in Hp. cbn in Hp. subst p. by apply list_elem_of_In.
Qed.

Ltac idle_table := unfold idle_when; cbn [fst snd];
  repeat first [apply List.Forall_nil | apply List.Forall_cons]; cbn [fst snd];
  try discriminate; intros _ role;
  cbv beta delta [any page healthz_handler ready_handler login_page blocked_handler stats_handler config_handler
    usage_handler audit_verify_handler logout_handler auth_check_handler blacklist_handler list_whitelist_handler
    list_port_acl_handler list_protection_projects_handler list_l7_patterns_handler hub_status_handler hub_proxy
    attack_events_page packets_handler ip_detail_handler ip_series_handler attacker_series_handler
    metrics_series_handler protection_modules_handler metrics_handler extract_query];
  auto with idle.

Lemma public_idle : Forall (fun e => idle_when (fun _ => true) (snd e)) public_routes.
Proof. unfold public_routes. idle_table. Qed.

(** What a reader may ask for: the safe methods everywhere, and to log out. *)
Lemma protected_idle :
  Forall (fun e => idle_when (fun m => safe_method m || String.eqb (fst e) "/api/auth/logout") (snd e)) protected_routes.
Proof. unfold protected_routes. idle_table. Qed.

Lemma console_token_eq a b : constant_time_eq a b = true -> a = b.
Proof. unfold constant_time_eq. intros [_ H]%andb_true_iff. by apply String.eqb_eq. Qed.

Lemma role_admin t a : role_of t a = Some Admin -> t <> ""%string /\ AuthState.token a = Some t.
Proof.
  unfold role_of, is_token. destruct (String.eqb_spec t ""); [done|]. destruct (AuthState.token a) as [token|].
  - destruct (constant_time_eq token t) eqn:E; [apply console_token_eq in E; by subst|].
    destruct (AuthState.readonly_token a); [by case_match|done].
  - destruct (AuthState.readonly_token a); [by case_match|done].
Qed.

Lemma middleware_reader r a role : auth_middleware r a = Next role -> ~ is_admin r a ->
  safe_method (Request.method r) || String.eqb (Request.path r) "/api/auth/logout" = true.
Proof.
  unfold auth_middleware, is_admin. intros H Hn.
  destruct (is_loopback (Request.peer r)) eqn:El; destruct (proxy_headers_present r) eqn:Ep; cbn [andb negb] in H;
    try (exfalso; apply Hn; by left);
    (destruct (AuthState.token a) as [token|] eqn:Et; [|exfalso; apply Hn; right; by left];
     destruct (provided r) as [t|] eqn:Epr; [|cbn in H; by case_match]; cbn [mbind option_bind] in H;
     destruct (role_of t a) as [[|]|] eqn:Er; [|..|by case_match];
     [exfalso; apply Hn; right; right; apply role_admin in Er as [Hne Ht]; exists t; split; [done|]; split; [done|congruence]|];
     cbn in H; destruct (safe_method _); [done|]; by destruct (String.eqb _ _)).
Qed.

(** [h], for [role], is the handler of a route that the request reaches. *)
Definition answers (r : Request.t) (w : WebState) (role : Role) (h : Role -> Handler) : Prop :=
  exists method handlers, (method, h) ∈ handlers /\
    (method = Request.method r \/ method = GET /\ Request.method r = HEAD) /\
    ((Request.path r, handlers) ∈ public_routes \/
     (Request.path r, handlers) ∈ protected_routes /\ auth_middleware r (auth w) = Next role).

(** A request changes nothing but through the handler that answers it. *)
Lemma serve_runs r m w :
  snd (serve r m w) = w \/ exists role h, answers r w role h /\ snd (serve r m w) = snd (h role r m w).
Proof.
  unfold serve, security_headers.
  match goal with |- context [let '(_, _) := ?x in _] =>
    assert (H : snd x = w \/ exists role h, answers r w role h /\ snd x = snd (h role r m w)); [|by destruct x] end.
  destruct (routed (Request.path r) public_routes) as [handlers|] eqn:Er.
  - destruct (dispatch_runs handlers Readonly r m w) as [H|(method & h & Hin & Hm & H)]; [by left|].
    right. exists Readonly, h. split; [|exact H]. exists method, handlers. do 2 (split; [done|]). left. by apply routed_in.
  - destruct (routed (Request.path r) protected_routes) as [handlers|] eqn:Ep; [|by left].
    unfold auth_layer. destruct (auth_middleware r (auth w)) as [role| | |] eqn:Ea; [|by left..].
    assert (Hd : snd (dispatch handlers role r m w) = w \/
      exists x h, answers r w x h /\ snd (dispatch handlers role r m w) = snd (h x r m w)).
    { destruct (dispatch_runs handlers role r m w) as [H|(method & h & Hin & Hm & H)]; [by left|].
      right. exists role, h. split; [|exact H]. exists method, handlers. do 2 (split; [done|]). right.
      split; [by apply routed_in|done]. }
    unfold body_size_limit. destruct (_ ≫= _); [|exact Hd]. destruct (_ >? _); [by left|exact Hd].
Qed.

(** The handlers that are answered without a permission to change are idle. *)
Lemma idle_answers r w role h :
  safe_method (Request.method r) || String.eqb (Request.path r) "/api/auth/logout" = true \/
    ~ (exists x, auth_middleware r (auth w) = Next x) ->
  answers r w role h -> idle (h role).
Proof.
  intros Hr (method & handlers & Hin & Hm & [Hp|[Hp Ha]]).
  - pose proof public_idle as H. rewrite list.Forall_forall in H. specialize (H _ Hp). unfold idle_when in H.
    rewrite list.Forall_forall in H. by apply (H _ Hin).
  - destruct Hr as [Hr|Hr]; [|exfalso; apply Hr; by exists role].
    pose proof protected_idle as H. rewrite list.Forall_forall in H. specialize (H _ Hp). unfold idle_when in H.
    rewrite list.Forall_forall in H. apply (H _ Hin). cbn [fst]. by destruct Hm as [-> |[-> _]].
Qed.

(** C4: only the administrator changes the agent.  Unless a request comes from
    a process of the machine without a proxy's headers, or presents the token,
    or no token is configured, it changes neither the maps, the rules, the
    configuration and the store nor the tokens, whatever path and method it
    has; at most the audit trail and the count of failed logins. *)
Theorem console_authority r m w :
  ~ is_admin r (auth w) -> untouched w (snd (serve r m w)).
Proof.
  intros Hn. destruct (serve_runs r m w) as [-> |(role & h & Hh & ->)]; [apply untouched_refl|].
  apply (idle_answers r w role h); [|exact Hh]. destruct (auth_middleware r (auth w)) as [x| | |] eqn:Ea; [|by right; intros []..].
  left. by eapply middleware_reader.
Qed.
End Authority.

(** ** From a form of the console to the packets *)
Section Effects.
Context {KN : Kernel} {KL : KernelLaws} {MO : MapOps} {ML : MapLaws MO} {HO : HashOrder} {R : Redb} {RL : RedbLaws R}
  {J : RuleJson} {JL : RuleJsonLaws J} {CL : CsvLib} {EN : AgentEnv} {FL : FeedLib} {AL : AuditLib} {CE : ConsoleEnv}.

(** A small enough request for a protected path. *)
Definition asks (r : Request.t) (a : AuthState.t) (method : Method) (path : string) (role : Role) : Prop :=
  Request.method r = method /\ Request.path r = path /\ auth_middleware r a = Next role /\
  match header_str "content-length" r ≫= parse_uint 64 with Some len => len <= MAX_BODY | None => True end.

(** What [serve] does once the handler is known. *)
Lemma serve_response r m w method path role handlers h :
  asks r (auth w) method path role ->
  routed path public_routes = None -> routed path protected_routes = Some handlers ->
  handler_of method handlers = Some h ->
  serve r m w = security_headers (h role) r m w.
Proof.
  intros (Hm & Hp & Ha & Hl) Hpub Hpro Hh. unfold serve, security_headers. rewrite Hp, Hpub, Hpro.
  unfold auth_layer. rewrite Ha. unfold body_size_limit.
  assert (Hd : dispatch handlers role r m w = h role r m w) by (unfold dispatch; by rewrite Hm, Hh).
  rewrite Hd. destruct (h role r m w) as [resp w'].
  destruct (_ ≫= _) as [len|]; [|done]. destruct (Z.gtb_spec len MAX_BODY); [lia|done].
Qed.

(** The headers of [security_headers], and what it leaves alone. *)
Definition security_names : list string :=
  ["referrer-policy"; "x-frame-options"; "x-content-type-options"; "strict-transport-security"].

Lemma with_header_keeps name value h r :
  h ∈ Response.headers r -> fst h <> name -> h ∈ Response.headers (with_header name value r).
Proof. intros Hin Hne. cbn. apply list_elem_of_further, list_elem_of_filter. done. Qed.

Lemma security_headers_keep next r m w :
  Response.status (fst (security_headers next r m w)) = Response.status (fst (next r m w)) /\
  Response.payload (fst (security_headers next r m w)) = Response.payload (fst (next r m w)) /\
  snd (security_headers next r m w) = snd (next r m w) /\
  (forall h, h ∈ Response.headers (fst (next r m w)) -> fst h ∉ security_names ->
     h ∈ Response.headers (fst (security_headers next r m w))).
Proof.
  unfold security_headers. destruct (next r m w) as [resp w']. cbn [fst snd].
  split; [by destruct (request_is_https r)|]. split; [by destruct (request_is_https r)|]. split; [done|].
  intros h Hin Hout. unfold security_names in Hout. rewrite !not_elem_of_cons in Hout.
  destruct Hout as (H1 & H2 & H3 & H4 & _).
  destruct (request_is_https r); repeat (apply with_header_keeps; [|done]); done.
Qed.

Lemma serve_handler r m w method path role handlers h :
  asks r (auth w) method path role ->
  routed path public_routes = None -> routed path protected_routes = Some handlers ->
  handler_of method handlers = Some h ->
  Response.status (fst (serve r m w)) = Response.status (fst (h role r m w)) /\
  Response.payload (fst (serve r m w)) = Response.payload (fst (h role r m w)) /\
  snd (serve r m w) = snd (h role r m w).
Proof.
  intros Hask Hpub Hpro Hh. rewrite (serve_response r m w method path role handlers h) by done.
  destruct (security_headers_keep (h role) r m w) as (? & ? & ? & _). done.
Qed.

Lemma addr_key_ok a key : addr_key a key -> key_ok key.
Proof.
  intros [Hok ->]. destruct a as [o|o], Hok as [Hl _]; split; cbn; [|done| |done].
  - by rewrite Hl.
  - done.
Qed.

(** What the block form leaves: the merged entry of the address. *)
Lemma serve_block r m w ip key d :
  let t0 := ktime_get_ns (ktime_calls (ebpf (control w))) in
  asks r (auth w) POST "/api/blacklist" Admin -> body_block r = Some (ip, d) -> parse_ip_or_cidr ip = Some key ->
  0 <= t0 -> 0 <= d ->
  Response.status (fst (serve r m w)) = 200 /\ auth (snd (serve r m w)) = auth w /\
  exists e, lru_get (BLACKLIST (ebpf (control (snd (serve r m w))))) key = Some e /\
    forall t, d = 0 \/ t < deadline t0 d -> block_live e t = true.
Proof.
  intros t0 Hask Hbody Hkey Ht0 Hd.
  destruct (serve_handler r m w _ _ _ _ (any block_ip_handler) Hask eq_refl eq_refl eq_refl) as (-> & _ & ->).
  unfold any, block_ip_handler, extract. rewrite Hbody. unfold operate, block_ip. cbn [fst snd].
  rewrite Hkey, try_some. destruct (parsed_addr_key _ _ Hkey) as [a Ha].
  destruct (block_ip_key_entry key d rules.API_BLOCK Api (control w) (addr_key_ok a key Ha)) as (c' & -> & Hg & _).
  split; [done|]. split; [done|]. eexists. split; [exact Hg|]. intros t Ht.
  rewrite merge_block_entry_live_eq, deadline_live by done. case_match; [by rewrite orb_true_r|done].
Qed.

(** C14: the block form blocks.  When the administrator posts an address and a
    duration, the answer is 200; from then until the deadline (for ever if the
    duration is 0) the packet program's check drops the address, and the black
    list page shows it. *)
Theorem console_block_effective r m w ip key d :
  let t0 := ktime_get_ns (ktime_calls (ebpf (control w))) in
  asks r (auth w) POST "/api/blacklist" Admin -> body_block r = Some (ip, d) ->
  parse_ip_or_cidr ip = Some key -> 0 <= t0 -> 0 <= d ->
  Response.status (fst (serve r m w)) = 200 /\
  (forall t, d = 0 \/ t < deadline t0 d ->
     let s := ebpf (control (snd (serve r m w))) in
     fst (is_blacklisted key t s) = true /\
     exists row, row ∈ list_blacklist_handler t s /\ BlockView.ip row = format_ip_key key).
Proof.
  intros t0 Hask Hbody Hkey Ht0 Hd.
  destruct (serve_block r m w ip key d Hask Hbody Hkey Ht0 Hd) as (Hs & _ & e & Hg & Hlive).
  split; [exact Hs|]. intros t Ht s. specialize (Hlive t Ht). fold s in Hg.
  assert (Hb : blocked_at s key t = true) by (unfold blocked_at; by rewrite Hg).
  split; [by rewrite is_blacklisted_result|].
  eexists (block_view (key, _)). split; [|reflexivity]. apply list_elem_of_fmap.
  eexists (key, _). split; [reflexivity|]. apply list_elem_of_filter. split; [|by apply elem_of_lru_entries].
  cbn [snd]. by rewrite (still_valid_blocked t _ _ _ Hg).
Qed.

(** an allowed network is let in but not shown.  When the form for the
    white list answers 200, the packet program accepts every address that
    agrees with the posted network on its prefix, and the page of allowed
    networks is the page from before: it lists the networks of the
    configuration file only. *)
Theorem allowed_not_listed r r' m m' w cidr :
  asks r (auth w) POST "/api/whitelist" Admin -> body_cidr r = Some cidr ->
  Response.status (fst (serve r m w)) = 200 ->
  let w' := snd (serve r m w) in
  (exists addr plen a prefix, split "/"%char cidr = [addr; plen] /\ parse_ip_addr addr = Some a /\
     parse_uint 32 plen = Some prefix /\
     forall b, ip_addr_ok b -> same_family a b = true ->
       Z.shiftr (be_val (octets b)) (width b - prefix) = Z.shiftr (be_val (octets a)) (width a - prefix) ->
       white (ebpf (control w')) b = true) /\
  fst (list_whitelist_handler r' m' w') = fst (list_whitelist_handler r' m' w).
Proof.
  intros Hask Hbody.
  destruct (serve_handler r m w _ _ _ _ (any allow_cidr_handler) Hask eq_refl eq_refl eq_refl) as (-> & _ & Hw).
  cbv zeta. rewrite Hw. unfold any, allow_cidr_handler, extract. rewrite Hbody. unfold operate.
  destruct (allow_cidr cidr (control w)) as [[[]|] c'] eqn:E; [|done]. intros _. cbn [fst snd]. split.
  - destruct (allow_cidr_network _ _ _ E) as (addr & plen & a & prefix & Hs & Ha & Hp & _ & H).
    exists addr, plen, a, prefix. do 3 (split; [done|]). intros b Hb Hf Heq.
    change (ebpf (control (setter control _ w))) with (ebpf c'). apply H; [done|by right].
  - apply allow_cidr_run in E as (key & prefix & _ & _ & Hl). unfold list_whitelist_handler, view. cbn [fst].
    change (whitelist (control (setter control _ w))) with (whitelist c'). by rewrite Hl.
Qed.

(** C19: a change of the configuration is all or nothing, reaches the packets and
    is shown.  If maps and snapshot agree and the administrator posts a patch:
    one that fails validation is answered 500 and changes nothing of the agent;
    one that passes is answered 200, replaces the snapshot by the patched one,
    makes every switch and limit in the [CONFIG] map the snapshot's, keeps what
    other tasks maintain there, and leaves maps and snapshot in agreement; and
    whoever then reads the page of the protection modules sees for each module
    the switch the packet program reads. *)
Theorem console_patch_shown r m w patch cfg rl prl :
  asks r (auth w) PATCH "/api/config" Admin -> body_patch r = Some patch -> in_step (control w) cfg rl prl ->
  let w' := snd (serve r m w) in
  if validate_runtime_patch patch then
    Response.status (fst (serve r m w)) = 200 /\
    runtime (control w') = patch_snapshot patch (runtime (control w)) /\
    exists cfg' rl' prl', in_step (control w') cfg' rl' prl' /\
      cfg' = config_of_snapshot (runtime (control w')) cfg /\
      RuntimeConfig.danger_level cfg' = RuntimeConfig.danger_level cfg /\
      RuntimeConfig.port_acl_count cfg' = RuntimeConfig.port_acl_count cfg /\
      RuntimeConfig.l7_pattern_count cfg' = RuntimeConfig.l7_pattern_count cfg /\
      forall r' m' role, asks r' (auth w') GET "/api/protection-modules" role -> exists page,
        Response.payload (fst (serve r' m' w')) = Modules page /\
        forall id flag, (id, flag) ∈ switches -> exists b, shown_enabled id page = Some b /\ flag cfg' = u8_from b
  else Response.status (fst (serve r m w)) = 500 /\ control w' = control w.
Proof.
  intros Hask Hbody Hstep w'. subst w'.
  destruct (serve_handler r m w _ _ _ _ (any patch_config_handler) Hask eq_refl eq_refl eq_refl) as (-> & _ & ->).
  unfold any, patch_config_handler, extract. rewrite Hbody. unfold operate. cbn [fst snd].
  destruct (validate_runtime_patch patch) eqn:Hv; [|by unfold patch_runtime; rewrite Hv; destruct w].
  destruct (patch_step patch (control w) cfg rl prl Hv Hstep) as (c' & rl' & prl' & -> & Hrt & Hstep').
  cbn [fst snd]. change (control (setter control _ w)) with c'. split; [done|]. split; [done|].
  exists (config_of_snapshot (runtime c') cfg), rl', prl'. do 5 (split; [done|]).
  intros r' m' role Hask'.
  destruct (serve_handler r' m' _ _ _ _ _ (any protection_modules_handler) Hask' eq_refl eq_refl eq_refl) as (_ & -> & _).
  eexists. split; [reflexivity|]. intros id flag Hin. by apply (shown_switch _ _ _ _ _ _ Hstep').
Qed.
End Effects.
