(* ===== verification/ConsoleSession.v ===== *)
(** * ConsoleSession: a token from its making to the next request

    What [reset_token_handler] hands out is what the middleware accepts: the
    text of the cookie ([web.rs]) against the parsing of [auth.rs]. *)
From Stdlib Require Import Ascii.
From stdpp Require Import strings gmap.
From S2P Require Import Prelude Words Common RustStd IpText Config TimeSeries Redb RuleStore PacketLog Maps Blacklist AgentMaps Geoip AuditLog AgentControl ControlSample AgentControlProps ModulePage AgentRules ThreatIntel LoginLimiter ConsoleAuth ConsoleViews ConsoleApi ConsoleProps.
#[local] Open Scope Z_scope.

(** ** Text *)

Definition printing (c : ascii) : bool := ((32 <=? code c) && (code c <? 127)) || (code c =? 9).

Lemma visible_every s : visible s = every printing s.
Proof. induction s as [|c s IH]; [done|]. cbn. by rewrite IH. Qed.

(** The parts of a cookie header, as browsers write it. *)
Definition spaced (parts : list string) : list string := map (fun p => String " " p) parts.

Lemma split_joined p parts : Forall (fun p => avoids ";" p = true) (p :: parts) ->
  split ";" (joined "; " (p :: parts)) = p :: spaced parts.
Proof.
  revert p. induction parts as [|q parts IH]; intros p H; apply list.Forall_cons in H as [Hp H]; [by apply split_avoids|].
  change (joined "; " (p :: q :: parts)) with (p +:+ String ";" (String " " (joined "; " (q :: parts)))).
  rewrite split_append by done. f_equal.
  assert (E : split ";" (String " " (joined "; " (q :: parts))) =
    match split ";" (joined "; " (q :: parts)) with x :: ps => String " " x :: ps | [] => [String " " ""%string] end) by done.
  rewrite E, IH by done. done.
Qed.

(** ** The session cookie *)

(** Characters that the header, the list of cookies and [trim] leave alone. *)
Definition token_char (c : ascii) : bool := printing c && negb (Ascii.eqb c ";") && negb (is_whitespace c).

Lemma trim_end_token s : every token_char s = true -> trim_end s = s.
Proof.
  induction s as [|c s IH]; [done|]. cbn. intros [Hc Hs]%andb_true_iff. rewrite IH by done.
  unfold token_char in Hc. apply andb_true_iff in Hc as [_ Hc]. destruct (is_whitespace c); [done|]. by destruct s.
Qed.

Lemma session_of_space s : session_of (String " " s) = session_of s.
Proof. done. Qed.

Lemma session_of_cookie token : every token_char token = true -> session_of ("eshield-token=" +:+ token) = Some token.
Proof.
  intros Ht. unfold session_of, trim.
  assert (Hs : trim_start ("eshield-token=" +:+ token) = "eshield-token=" +:+ token) by done.
  rewrite Hs, trim_end_token by (by rewrite every_append, Ht). done.
Qed.

Lemma find_map_app {A B} (f : A -> option B) l x l' y :
  Forall (fun z => f z = None) l -> f x = Some y -> find_map f (l ++ x :: l') = Some y.
Proof. intros H Hx. induction H as [|z l Hz _ IH]; cbn; [by rewrite Hx|by rewrite Hz]. Qed.

(** A cookie the browser may send along: another name, no separator. *)
Definition other_cookie (c : string) : Prop :=
  session_of c = None /\ avoids ";" c = true /\ every printing c = true.

Lemma token_char_weaken P token : (forall c, token_char c = true -> P c = true) ->
  every token_char token = true -> every P token = true.
Proof. apply every_weaken. Qed.

Lemma token_char_ok c : token_char c = true -> negb (Ascii.eqb c ";") = true /\ printing c = true.
Proof. unfold token_char. intros [[H1 H2]%andb_true_iff _]%andb_true_iff. done. Qed.

Lemma cookie_token_found r before after token :
  every token_char token = true -> Forall other_cookie before -> Forall other_cookie after ->
  header_get "cookie" r = Some (joined "; " (before ++ ("eshield-token=" +:+ token) :: after)) ->
  cookie_token r = Some token.
Proof.
  intros Ht Hb Ha Hg. unfold cookie_token, header_str. rewrite Hg. cbn [mbind option_bind].
  assert (Hparts : Forall (fun p => avoids ";" p = true /\ every printing p = true)
    (before ++ ("eshield-token=" +:+ token) :: after)).
  { apply List.Forall_app. split; [by eapply list.Forall_impl; [exact Hb|intros c (_ & ? & ?)]|].
    apply list.Forall_cons. split; [|by eapply list.Forall_impl; [exact Ha|intros c (_ & ? & ?)]].
    rewrite !every_append.
    by split; (apply andb_true_iff; split; [reflexivity|]); (eapply every_weaken; [|exact Ht]); apply token_char_ok. }
  unfold to_str. rewrite visible_every, every_joined;
    [|reflexivity|by eapply list.Forall_impl; [exact Hparts|intros c []]].
  cbn [mbind option_bind]. apply session_of_cookie in Ht.
  assert (Hsep : Forall (fun p => avoids ";" p = true) (before ++ ("eshield-token=" +:+ token) :: after))
    by (by eapply list.Forall_impl; [exact Hparts|intros c []]).
  destruct before as [|b before].
  - cbn [app] in *. rewrite split_joined by done. cbn [find_map]. by rewrite Ht.
  - cbn [app] in *. rewrite split_joined by done. apply list.Forall_cons in Hb as [(Hb0 & _) Hb].
    cbn [find_map]. rewrite Hb0. unfold spaced. rewrite map_app. cbn [map]. apply find_map_app; [|by rewrite session_of_space].
    apply List.Forall_map. eapply list.Forall_impl; [exact Hb|]. intros c (? & _). by rewrite session_of_space.
Qed.

Lemma be_bytes_ok n x : bytes_ok (be_bytes n x).
Proof. apply bytes_ok_reverse, le_bytes_ok. Qed.

Lemma digit_token_char d : 0 <= d < 16 -> token_char (digit_char d) = true.
Proof.
  intros H. assert (Hd : d ∈ seqZ 0 16) by (apply elem_of_seqZ; lia).
  clear H. revert d Hd. apply list.Forall_forall. apply (bool_decide_eq_true_1 _). vm_compute. reflexivity.
Qed.

Lemma hex_token_chars bytes : bytes_ok bytes -> every token_char (bytes_to_hex bytes) = true.
Proof.
  induction 1 as [|b bytes Hb _ IH]; [done|]. unfold is_byte in Hb. cbn [bytes_to_hex every].
  change 0xf with (Z.ones 4). rewrite Z.land_ones, Z.shiftr_div_pow2 by lia.
  pose proof (Z.mod_pos_bound b (2 ^ 4) ltac:(lia)).
  pose proof (Z.div_pos b (2 ^ 4) ltac:(lia) ltac:(lia)).
  pose proof (Z.div_lt_upper_bound b (2 ^ 4) 16 ltac:(lia) ltac:(lia)).
  by rewrite !digit_token_char by lia.
Qed.

(** ** A new token *)
Section Session.
Context {KN : Kernel} {KL : KernelLaws} {MO : MapOps} {HO : HashOrder} {R : Redb}
  {J : RuleJson} {CL : CsvLib} {EN : AgentEnv} {FL : FeedLib} {AL : AuditLib} {CE : ConsoleEnv}.

(** A request with the cookie of [token] among others, and no other credential. *)
Definition carries (r : Request.t) (token : string) : Prop :=
  header_get "authorization" r = None /\
  exists before after, Forall other_cookie before /\ Forall other_cookie after /\
    header_get "cookie" r = Some (joined "; " (before ++ ("eshield-token=" +:+ token) :: after)).

Lemma carries_provided r token : every token_char token = true -> carries r token -> provided r = Some token.
Proof.
  intros Ht (Hh & before & after & Hb & Ha & Hc). unfold provided, header_token, header_str. rewrite Hh.
  cbn. by apply (cookie_token_found r before after).
Qed.

Lemma role_of_new token a : token <> ""%string -> role_of token (set_token token a) = Some Admin.
Proof.
  intros Hne. unfold role_of, set_token. apply String.eqb_neq in Hne. rewrite Hne. cbn.
  unfold constant_time_eq. by rewrite Nat.eqb_refl, String.eqb_refl.
Qed.

Lemma role_of_old old token a : token <> ""%string -> old <> token -> role_of old (set_token token a) <> Some Admin.
Proof.
  intros Hne Ho Hr. apply role_admin in Hr as [_ Hr]. unfold set_token in Hr. apply String.eqb_neq in Hne.
  rewrite Hne in Hr. cbn in Hr. congruence.
Qed.

Lemma reset_auth r m w :
  auth (snd (reset_token_handler r m w)) = set_token (hex_token (Moment.random m)) (auth w) /\
  Response.status (fst (reset_token_handler r m w)) = 200 /\
  Response.payload (fst (reset_token_handler r m w)) = TokenBody (hex_token (Moment.random m)) /\
  ("set-cookie"%string, session_cookie (hex_token (Moment.random m)) (request_is_https r)) ∈
    Response.headers (fst (reset_token_handler r m w)).
Proof.
  unfold reset_token_handler, reset_token. generalize (hex_token (Moment.random m)). intros token.
  generalize (session_cookie token (request_is_https r)). intros cookie.
  split; [done|]. split; [done|]. split; [done|]. by left.
Qed.

(** C26: a new token opens the console and closes it to the old one.  The answer
    to a reset sets a cookie; whoever sends it back among other cookies, from
    any address and for any path and method, is an administrator; whoever
    still presents another token is not, unless it is a process of the machine. *)
Theorem reset_token_session r m w :
  asks r (auth w) POST "/api/auth/reset-token" Admin ->
  exists token secure, let '(resp, w') := serve r m w in
    Response.status resp = 200 /\ Response.payload resp = TokenBody token /\
    ("set-cookie"%string, session_cookie token secure) ∈ Response.headers resp /\
    (forall r', carries r' token -> auth_middleware r' (auth w') = Next Admin) /\
    (forall r' old, provided r' = Some old -> old <> token ->
       is_loopback (Request.peer r') && negb (proxy_headers_present r') = false ->
       auth_middleware r' (auth w') <> Next Admin).
Proof.
  intros Hask. set (token := hex_token (Moment.random m)).
  assert (Hchars : every token_char token = true) by (apply hex_token_chars, be_bytes_ok).
  assert (Hne : token <> ""%string) by done.
  exists token, (request_is_https r).
  rewrite (serve_response r m w _ _ _ _ (any reset_token_handler) Hask eq_refl eq_refl eq_refl).
  destruct (security_headers_keep (any reset_token_handler Admin) r m w) as (Hs & Hp & Hw & Hh).
  destruct (security_headers (any reset_token_handler Admin) r m w) as [resp w'].
  unfold any in *. destruct (reset_auth r m w) as (Ha & Hs' & Hp' & Hc). fold token in Ha, Hp', Hc.
  destruct (reset_token_handler r m w) as [resp' w'']. cbn [fst snd] in *. subst w''.
  rewrite Hs, Hp, Ha. split; [done|]. split; [done|]. split; [|split].
  - apply Hh; [done|]. unfold security_names. cbn [fst]. rewrite !not_elem_of_cons. by split_and!; [..|apply not_elem_of_nil].
  - intros r' Hr. apply carries_provided in Hr; [|done]. unfold auth_middleware.
    rewrite Hr. cbn [mbind option_bind]. rewrite role_of_new by done.
    rewrite (bool_decide_eq_false_2 (Admin = Readonly)) by done. cbn [andb].
    destruct (is_loopback _ && _); [done|]. by case_match.
  - intros r' old Hr Ho Hloop. unfold auth_middleware. rewrite Hloop.
    rewrite Hr. cbn [mbind option_bind]. pose proof (role_of_old old token (auth w) Hne Ho) as Hold.
    assert (Ht : AuthState.token (set_token token (auth w)) = Some token)
      by (unfold set_token; apply String.eqb_neq in Hne; by rewrite Hne).
    rewrite Ht. destruct (role_of old _) as [[|]|]; [done|by case_match|by case_match].
Qed.
End Session.

Module ConsoleWitness.
Import Samples ControlSample.ControlSample ModulePageWitness.
#[local] Existing Instances ThreatIntelWitness.feeds AuditSample.lib.

(** The forms of the examples; nothing is read from outside. *)
#[export] Instance console : ConsoleEnv := {|
  body_block r := if String.eqb (Request.body r) "block" then Some ("10.0.0.1"%string, 60) else None;
  body_ip _ := None;
  body_cidr r := if String.eqb (Request.body r) "allow" then Some "192.0.2.77/24"%string else None;
  body_token _ := Some "wrong"%string;
  body_patch r := if String.eqb (Request.body r) "patch" then Some lower else None; body_port_acl _ := None; body_projects _ := None; body_patterns _ := None;
  query_limit _ := Some 50; query_duration _ := Some 600; query_ip _ := None; query_ip_duration _ := None;
  query_packets _ := None; audit_file _ := None; hub_get _ _ := None;
|}.

Definition site : WebState :=
  mkWebState Stats_default (window_new 360 10) agent (with_readonly (Some "secret"%string) (Some "viewer"%string)) LoginLimiter_new
    (packet_log_new 3) [].

Definition request (peer : IpAddr) (method : Method) (path body : string) (headers : list (string * string)) : Request.t :=
  Request.mk peer method path None headers body.
Definition local : IpAddr := V4 [127; 0; 0; 1].
Definition far : IpAddr := V4 [198; 51; 100; 1].
Definition bearer (token : string) : string * string := ("authorization"%string, "Bearer " +:+ token).
Definition moment : Moment.t := Moment.mk 1000000000 1700000000000000000 (2 ^ 100 + 77).

(** The reader of the console can not block an address. *)
Lemma console_authority_witness :
  let r := request far POST "/api/blacklist" "block" [bearer "viewer"] in
  Response.status (fst (serve r moment site)) = 403 /\ untouched site (snd (serve r moment site)).
Proof.
  cbv zeta. split; [vm_compute; reflexivity|]. apply console_authority.
  unfold is_admin. intros [[H _]|[H|(t & _ & H1 & H2)]]; [discriminate H|discriminate H|].
  vm_compute in H1, H2. congruence.
Defined.

Lemma console_block_effective_witness :
  let r := request far POST "/api/blacklist" "block" [bearer "secret"] in
  Response.status (fst (serve r moment site)) = 200 /\
  fst (is_blacklisted alice 2000000000 (ebpf (control (snd (serve r moment site))))) = true.
Proof.
  intros r.
  destruct (console_block_effective r moment site "10.0.0.1" alice 60) as [H1 H2];
    [by split_and!; vm_compute|reflexivity|vm_compute; reflexivity|vm_compute; discriminate|lia|].
  split; [exact H1|]. apply H2. right. vm_compute. reflexivity.
Defined.

Lemma console_patch_shown_witness :
  let w := snd (serve (request far PATCH "/api/config" "patch" [bearer "secret"]) moment site) in
  exists page, Response.payload (fst (serve (request far GET "/api/protection-modules" "" [bearer "viewer"]) moment w)) = Modules page /\
    shown_enabled "rate_limit" page = Some true.
Proof.
  intros w. destruct agent_in_step as (cfg & rl & prl & H).
  pose proof (console_patch_shown (request far PATCH "/api/config" "patch" [bearer "secret"]) moment site lower cfg rl prl) as P.
  cbv zeta in P. fold w in P.
  destruct P as (_ & _ & cfg' & rl' & prl' & _ & -> & _ & _ & _ & Hpage);
    [by split_and!; vm_compute|reflexivity|exact H|].
  destruct (Hpage (request far GET "/api/protection-modules" "" [bearer "viewer"]) moment Readonly) as (page & E & Hs);
    [by split_and!; vm_compute|].
  exists page. split; [exact E|]. destruct (Hs "rate_limit"%string RuntimeConfig.rate_limit_enabled) as (b & Hb & Hf);
    [do 3 right; by left|]. rewrite Hb. f_equal. vm_compute in Hf. by destruct b.
Defined.

Lemma allowed_not_listed_witness :
  let r := request far POST "/api/whitelist" "allow" [bearer "secret"] in
  let w := snd (serve r moment site) in
  white (ebpf (control w)) (V4 [192; 0; 2; 200]) = true /\
  fst (list_whitelist_handler r moment w) = fst (list_whitelist_handler r moment site).
Proof.
  intros r w.
  destruct (allowed_not_listed r r moment moment site "192.0.2.77/24") as [(addr & plen & a & prefix & Hs & Ha & Hp & H) Hl];
    [by split_and!; vm_compute|reflexivity|vm_compute; reflexivity|].
  split; [|exact Hl]. injection Hs as <- <-. injection Ha as <-. injection Hp as <-.
  apply H; [|reflexivity|vm_compute; reflexivity].
  split; [reflexivity|]. unfold bytes_ok, is_byte. rewrite !list.Forall_cons. repeat split; (lia || constructor).
Defined.

(** A process on the machine resets the token; the browser sends its cookie
    back between two others. *)
Lemma reset_token_session_witness :
  let w := snd (serve (request local POST "/api/auth/reset-token" "" []) moment site) in
  auth_middleware (request far POST "/api/blacklist" "block"
    [("cookie"%string, "a=1; eshield-token=0000001000000000000000000000004d; b=2"%string)]) (auth w) = Next Admin /\
  auth_middleware (request far POST "/api/blacklist" "block" [bearer "secret"]) (auth w) <> Next Admin.
Proof.
  intros w.
  destruct (reset_token_session (request local POST "/api/auth/reset-token" "" []) moment site) as (token & secure & H);
    [by split_and!; vm_compute|].
  unfold w. destruct (serve _ _ _) as [resp w'] eqn:E. destruct H as (_ & Hp & _ & Hnew & Hold). cbn [snd].
  assert (Ht : token = "0000001000000000000000000000004d"%string).
  { apply (f_equal (fun x => Response.payload (fst x))) in E. cbn [fst] in E. rewrite Hp in E. vm_compute in E. by injection E. }
  subst token. split.
  - apply Hnew. split; [reflexivity|]. exists ["a=1"%string], ["b=2"%string].
    split; [|split; [|reflexivity]]; (constructor; [by split_and!; vm_compute|constructor]).
  - apply (Hold _ "secret"%string); [reflexivity|discriminate|reflexivity].
Defined.
End ConsoleWitness.
