(* ===== verification/Cli.v ===== *)
(** * Cli: the command line

    The commands of [eshield/src/main.rs] that talk to the running agent.  The
    HTTP client is a function from a call to a response or none ([send]); its
    header type and the JSON encoder are parameters ([Class CliLib]).  The texts
    are those the commands print.  [deliver] puts the console behind the client,
    so that the theorems reach from the command to the packets. *)
From Stdlib Require Import Ascii.
From stdpp Require Import strings gmap.
From S2P Require Import Prelude Words Common RustStd IpText Config TimeSeries Redb RuleStore RuleStoreProps PacketLog Maps Blacklist AgentMaps Metrics Exposition Geoip AuditLog AgentControl ControlSample AgentControlProps ThreatIntel LoginLimiter ConsoleAuth Series AgentMain ConsoleViews ConsoleApi ConsoleProps ConsoleSession.
#[local] Open Scope Z_scope.

Inductive Commands :=
  | Start (config : string)
  | Status (endpoint : string) (token : option string)
  | Block (ip : string) (duration : Z) (endpoint : string) (token : option string)
  | Unblock (ip endpoint : string) (token : option string)
  | Reload (endpoint : string) (token : option string)
  | Check (config : string)
  | Tui (endpoint : string) (token : option string)
  | ResetToken (endpoint : string) (token : option string).

(** [HeaderValue::from_str] and [serde_json::json!] *)
Class CliLib := {
  header_value : string -> option string;
  json_block : string -> Z -> string;
  json_ip : string -> string;
}.

Module Call.
Record t := mk {
  method : Method;
  url : string;
  headers : list (string * string);
  body : string;
}.
End Call.

Definition is_success (status : Z) : bool := (200 <=? status) && (status <? 300).

(** [resp.json()]: the bodies of the API that are not JSON. *)
Definition is_json (p : Payload) : bool :=
  match p with Text _ | NoBody | Page _ | HubReply _ => false | _ => true end.

(** [stats[name].as_u64().unwrap_or(0)] and [as_array] of the attackers *)
Definition json_u64 (field : Stats.t -> Z) (p : Payload) : Z :=
  match p with StatsBody st => field (StatsResponse.counters st) | _ => 0 end.
Definition json_attackers (p : Payload) : list (string * Z) :=
  match p with StatsBody st => StatsResponse.top_attackers st | _ => [] end.
Definition json_token (p : Payload) : option string :=
  match p with TokenBody token => Some token | _ => None end.

Definition count_line (name : string) (n : Z) : string := name +:+ ": " +:+ print_u64 n +:+ newline.

Definition status_report (p : Payload) : string :=
  "eShield 运行状态" +:+ newline +:+ "----------------" +:+ newline +:+
  count_line "总丢弃包数" (json_u64 Stats.total_dropped p) +:+
  count_line "黑名单拦截" (json_u64 Stats.blacklist_blocked p) +:+
  count_line "速率限制拦截" (json_u64 Stats.rate_limited p) +:+
  count_line "SYN Flood 拦截" (json_u64 Stats.syn_flood_blocked p) +:+
  count_line "L7 指纹拦截" (json_u64 Stats.l7_blocked p) +:+
  count_line "自适应阈值拦截" (json_u64 Stats.adaptive_blocked p) +:+
  count_line "UDP Flood 拦截" (json_u64 Stats.udp_flood_blocked p) +:+
  count_line "ICMP Flood 拦截" (json_u64 Stats.icmp_flood_blocked p) +:+
  (match json_attackers p with
   | [] => ""
   | top => newline +:+ "TOP 攻击源:" +:+ newline +:+
       String.concat "" (map (fun a => "  " +:+ fst a +:+ " -> " +:+ print_u64 (snd a) +:+ " 包" +:+ newline) (take 10 top))
   end)%string.

Definition token_report (token : string) : string :=
  ("访问令牌已重置：" +:+ token +:+ newline +:+ "请妥善保存，旧令牌已立即失效。")%string.

Section Commands.
Context {CI : CliLib} {W : Type} (send : Call.t -> Try W Response.t).

(** The default headers of the client. *)
Definition api_client (token : option string) : list (string * string) :=
  match non_empty token with
  | Some t => match header_value ("Bearer " +:+ t) with
              | Some v => [("authorization"%string, v)]
              | None => []
              end
  | None => []
  end.

Definition json_headers (token : option string) : list (string * string) :=
  ("content-type"%string, "application/json"%string) :: api_client token.

Definition show_status (endpoint : string) (token : option string) : Try W string :=
  let! resp := send (Call.mk GET (endpoint +:+ "/api/stats") (api_client token) "") in
  let! _ := ensure (is_json (Response.payload resp)) in
  ok (status_report (Response.payload resp)).

Definition send_block (endpoint ip : string) (duration : Z) (token : option string) : Try W string :=
  let! resp := send (Call.mk POST (endpoint +:+ "/api/blacklist") (json_headers token) (json_block ip duration)) in
  let! _ := ensure (is_success (Response.status resp)) in
  ok ("已封禁 " +:+ ip +:+ "，时长 " +:+ print_u64 duration +:+ " 秒")%string.

Definition send_unblock (endpoint ip : string) (token : option string) : Try W string :=
  let! resp := send (Call.mk DELETE (endpoint +:+ "/api/blacklist") (json_headers token) (json_ip ip)) in
  let! _ := ensure (is_success (Response.status resp)) in
  ok ("已解封 " +:+ ip)%string.

Definition send_reload (endpoint : string) (token : option string) : Try W string :=
  let! resp := send (Call.mk POST (endpoint +:+ "/api/config/reload") (api_client token) "") in
  let! _ := ensure (is_success (Response.status resp)) in
  ok "配置已重新加载"%string.

Definition send_reset_token (endpoint : string) (token : option string) : Try W string :=
  let! resp := send (Call.mk POST (endpoint +:+ "/api/auth/reset-token") (api_client token) "") in
  let! _ := ensure (is_success (Response.status resp)) in
  let! _ := ensure (is_json (Response.payload resp)) in
  let! new_token := of_option (json_token (Response.payload resp)) in
  ok (token_report new_token).

(** The file and what [validate] asks about the machine are read as in a start. *)
Definition check_config {EN : AgentEnv} : Try W string :=
  let! config := of_option config_file in
  let! _ := ensure (validate interface_exists store_dir_ok config) in
  ok "配置文件校验通过"%string.

(** [main]: the daemon and the terminal view are arguments. *)
Definition main_command {EN : AgentEnv} (env_token : option string) (start : string -> Try W string)
    (tui : string -> option string -> Try W string) (command : Commands) : Try W string :=
  match command with
  | Start config => start config
  | Status endpoint token => show_status endpoint (resolve_token token env_token)
  | Block ip duration endpoint token => send_block endpoint ip duration (resolve_token token env_token)
  | Unblock ip endpoint token => send_unblock endpoint ip (resolve_token token env_token)
  | Reload endpoint token => send_reload endpoint (resolve_token token env_token)
  | Check _ => check_config
  | Tui endpoint token => tui endpoint (resolve_token token env_token)
  | ResetToken endpoint token => send_reset_token endpoint (resolve_token token env_token)
  end.
End Commands.

(** ** The console behind the client *)
Section Session.
Context {KN : Kernel} {KL : KernelLaws} {MO : MapOps} {ML : MapLaws MO} {HO : HashOrder} {R : Redb} {RL : RedbLaws R}
  {J : RuleJson} {JL : RuleJsonLaws J} {CL : CsvLib} {EN : AgentEnv} {FL : FeedLib} {AL : AuditLib} {CE : ConsoleEnv}
  {CI : CliLib}.

(** A header value is the text it is made from, and visible ASCII is accepted;
    the extractors read what the client encodes. *)
Class CliLaws : Prop := {
  header_value_same s v : header_value s = Some v -> v = s;
  header_value_visible s : visible s = true -> header_value s = Some s;
  block_read r ip d : 0 <= d < 2 ^ 64 -> header_get "content-type" r = Some "application/json"%string ->
    Request.body r = json_block ip d -> body_block r = Some (ip, d);
}.
Context {LA : CliLaws}.

(** The agent listens at [base] and sees the client as [peer]. *)
Definition deliver (base : string) (peer : IpAddr) (m : Moment.t) (call : Call.t) : Try WebState Response.t := fun w =>
  match str_strip_prefix base (Call.url call) with
  | Some path =>
      let '(resp, w') :=
        serve (Request.mk peer (Call.method call) path None (Call.headers call) (Call.body call)) m w in
      (Some resp, w')
  | None => (None, w)
  end.

Lemma prefix_append p s : String.prefix p (p +:+ s) = true.
Proof. induction p as [|c p IH]; [by destruct s|]. rewrite append_cons. cbn [String.prefix]. by destruct (ascii_dec c c) as [_|[]]. Qed.

Lemma strip_prefix_append p s : str_strip_prefix p (p +:+ s) = Some s.
Proof.
  unfold str_strip_prefix. rewrite prefix_append, substring_append_l; [done|]. rewrite length_append. lia.
Qed.

Definition request_of (peer : IpAddr) (method : Method) (path : string) (headers : list (string * string)) (body : string)
    : Request.t := Request.mk peer method path None headers body.

Lemma deliver_eq base peer m method path headers body w :
  deliver base peer m (Call.mk method (base +:+ path) headers body) w =
  (Some (fst (serve (request_of peer method path headers body) m w)),
   snd (serve (request_of peer method path headers body) m w)).
Proof. unfold deliver. cbn [Call.url Call.method Call.headers Call.body]. rewrite strip_prefix_append. by destruct (serve _ _ _). Qed.

(** *** With the token of the administrator *)
Definition admin_token (token : string) (a : AuthState.t) : Prop :=
  AuthState.token a = Some token /\ token <> ""%string /\ visible token = true.

Lemma client_bearer token : token <> ""%string -> visible token = true ->
  api_client (Some token) = [("authorization"%string, "Bearer " +:+ token)].
Proof.
  intros Hne Hv. unfold api_client, non_empty. apply String.eqb_neq in Hne. rewrite Hne.
  by rewrite header_value_visible.
Qed.

Lemma bearer_admin token r a : admin_token token a ->
  header_get "authorization" r = Some ("Bearer " +:+ token) -> auth_middleware r a = Next Admin.
Proof.
  intros (Ha & Hne & Hv) Hh.
  assert (Hp : provided r = Some token).
  { unfold provided, header_token, header_str. rewrite Hh. cbn [mbind option_bind]. unfold to_str.
    change (visible ("Bearer " +:+ token)) with (visible token). rewrite Hv. cbn [mbind option_bind].
    by rewrite strip_prefix_append. }
  assert (Hr : role_of token a = Some Admin).
  { unfold role_of. apply String.eqb_neq in Hne. rewrite Hne, Ha. cbn. unfold constant_time_eq.
    by rewrite Nat.eqb_refl, String.eqb_refl. }
  unfold auth_middleware. rewrite Ha, Hp. cbn [mbind option_bind]. rewrite Hr. by destruct (_ && _).
Qed.

Lemma client_asks token peer method path body json w : admin_token token (auth w) ->
  asks (request_of peer method path ((if json : bool then json_headers else api_client) (Some token)) body) (auth w) method path Admin.
Proof.
  intros Ht. assert (Hc := client_bearer token (proj1 (proj2 Ht)) (proj2 (proj2 Ht))).
  split; [done|]. split; [done|]. split; [|destruct json; unfold json_headers; rewrite Hc; exact I].
  apply (bearer_admin token); [done|]. destruct json; unfold json_headers; by rewrite Hc.
Qed.

(** [eshield block] blocks *)
Lemma block_command base peer m w token ip key d :
  let t0 := ktime_get_ns (ktime_calls (ebpf (control w))) in
  admin_token token (auth w) -> parse_ip_or_cidr ip = Some key -> 0 <= t0 -> 0 <= d < 2 ^ 64 ->
  exists text w', send_block (deliver base peer m) base ip d (Some token) w = (Some text, w') /\ auth w' = auth w /\
    forall t, d = 0 \/ t < deadline t0 d -> fst (is_blacklisted key t (ebpf (control w'))) = true.
Proof.
  intros t0 Ht Hkey Ht0 Hd. unfold send_block, try_bind at 1. rewrite deliver_eq.
  set (r := request_of _ _ _ _ _).
  assert (Hask : asks r (auth w) POST "/api/blacklist" Admin) by apply (client_asks token peer POST "/api/blacklist" _ true w Ht).
  assert (Hbody : body_block r = Some (ip, d)) by (by apply block_read).
  destruct (serve_block r m w ip key d Hask Hbody Hkey Ht0 ltac:(lia)) as (Hs & Ha & e & Hg & Hlive).
  rewrite Hs, try_ensure. eexists _, _. split; [reflexivity|]. split; [exact Ha|].
  intros t Hle. rewrite is_blacklisted_result. unfold blocked_at. rewrite Hg. by apply Hlive.
Qed.

(** *** With another token *)
Lemma serve_refused r m w handlers : routed (Request.path r) public_routes = None ->
  routed (Request.path r) protected_routes = Some handlers ->
  auth_middleware r (auth w) = Forbidden \/ auth_middleware r (auth w) = Unauthorized ->
  exists status, 400 < status < 404 /\ Response.status (fst (serve r m w)) = status /\
    Response.payload (fst (serve r m w)) = Error /\ snd (serve r m w) = w.
Proof.
  intros Hpub Hpro Ha. unfold serve.
  match goal with |- context [security_headers ?next] => destruct (security_headers_keep next r m w) as (-> & -> & -> & _) end.
  rewrite Hpub, Hpro. unfold auth_layer. destruct Ha as [-> | ->]; [exists 403|exists 401]; by split_and!.
Qed.

(** What a client presents is its token at most. *)
Lemma client_provided peer method path body json token t :
  provided (request_of peer method path ((if json : bool then json_headers else api_client) token) body) = Some t -> token = Some t.
Proof.
  unfold provided, header_token, cookie_token, header_str.
  assert (Hall : forall name, name <> "content-type"%string ->
    header_get name (request_of peer method path ((if json then json_headers else api_client) token) body) =
    if String.eqb "authorization" name then t' ← non_empty token; header_value ("Bearer " +:+ t') else None).
  { intros name Hn%not_eq_sym%String.eqb_neq.
    assert (Hc : header_get name (request_of peer method path (api_client token) body) =
      if String.eqb "authorization" name then t' ← non_empty token; header_value ("Bearer " +:+ t') else None).
    { unfold api_client, header_get. cbn [Request.headers request_of].
      destruct (non_empty token) as [t'|]; cbn [mbind option_bind];
        [destruct (header_value ("Bearer " +:+ t'))|]; cbn [find fst]; by case_match. }
    destruct json; [|exact Hc]. rewrite <- Hc. unfold json_headers, header_get. cbn [Request.headers request_of find fst].
    by rewrite Hn. }
  rewrite !Hall by done. change (String.eqb "authorization" "cookie") with false. rewrite String.eqb_refl.
  destruct token as [tok|]; [|done]. unfold non_empty. destruct (String.eqb tok ""); [done|].
  cbn [mbind option_bind]. destruct (header_value ("Bearer " +:+ tok)) as [v|] eqn:E; [|done]. apply header_value_same in E as ->.
  cbn [mbind option_bind]. unfold to_str. destruct (visible _); cbn [mbind option_bind]; [|done].
  rewrite strip_prefix_append. congruence.
Qed.

Lemma client_refused peer method path body json token w admin :
  is_loopback peer = false -> AuthState.token (auth w) = Some admin -> token <> Some admin ->
  safe_method method = false -> path <> "/api/auth/logout"%string -> path <> "/"%string ->
  let r := request_of peer method path ((if json : bool then json_headers else api_client) token) body in
  auth_middleware r (auth w) = Forbidden \/ auth_middleware r (auth w) = Unauthorized.
Proof.
  intros Hfar Ha Hne Hm Hl Hp r. unfold auth_middleware. change (Request.peer r) with peer. rewrite Hfar, Ha. cbn [andb].
  assert (Hroot : is_html_root r = false) by (unfold is_html_root; cbn; apply String.eqb_neq in Hp; by rewrite Hp).
  rewrite Hroot. change (Request.method r) with method. change (Request.path r) with path.
  apply String.eqb_neq in Hl. rewrite Hm, Hl. destruct (provided r) as [t|] eqn:E; [|by right]. cbn [mbind option_bind].
  apply client_provided in E. destruct (role_of t (auth w)) as [[|]|] eqn:Er; [|by left|by right].
  apply role_admin in Er as [_ Er]. congruence.
Qed.

(** a command without the administrator's token is refused.  From another
    machine, with any other token or none, blocking, releasing, reloading and
    resetting fail and leave the agent exactly as it was. *)
Theorem commands_refused base peer m w admin token ip d :
  is_loopback peer = false -> AuthState.token (auth w) = Some admin -> token <> Some admin ->
  Forall (fun command : Try WebState string => command w = (None, w))
    [send_block (deliver base peer m) base ip d token; send_unblock (deliver base peer m) base ip token;
     send_reload (deliver base peer m) base token; send_reset_token (deliver base peer m) base token].
Proof.
  intros Hfar Ha Hne.
  assert (H : forall (json : bool) method path body handlers, safe_method method = false -> path <> "/api/auth/logout"%string ->
    path <> "/"%string -> routed path public_routes = None -> routed path protected_routes = Some handlers ->
    forall k : Response.t -> Try WebState string, (forall resp, is_success (Response.status resp) = false -> k resp w = (None, w)) ->
    try_bind (deliver base peer m (Call.mk method (base +:+ path) ((if json then json_headers else api_client) token) body)) k w = (None, w)).
  { intros json method path body handlers Hm Hl Hp Hpub Hpro k Hk. unfold try_bind. rewrite deliver_eq.
    destruct (serve_refused (request_of peer method path ((if json then json_headers else api_client) token) body) m w
      handlers Hpub Hpro) as (status & Hr & Hs & _ & Hw); [by apply (client_refused _ _ _ _ _ _ _ admin)|].
    rewrite Hw. apply Hk. rewrite Hs. unfold is_success. apply andb_false_iff. right. apply Z.ltb_ge. lia. }
  assert (Hk : forall (k : Response.t -> Try WebState string) resp, is_success (Response.status resp) = false ->
    try_bind (ensure (is_success (Response.status resp))) (fun _ => k resp) w = (None, w)) by (by intros k resp ->).
  repeat apply List.Forall_cons; [| | | |apply List.Forall_nil];
    [eapply (H true POST "/api/blacklist"%string)|eapply (H true DELETE "/api/blacklist"%string)
    |eapply (H false POST "/api/config/reload"%string)|eapply (H false POST "/api/auth/reset-token"%string)];
    try reflexivity; try discriminate; intros resp Hresp; (rewrite Hresp; reflexivity).
Qed.

(** a refused status looks like a quiet agent.  [show_status] does not look
    at the status code: an answer that refuses the token is JSON without the
    counters, so that the command succeeds and prints the report of an agent
    that has dropped nothing. *)
Theorem status_hides_refusal base peer m w admin token mode :
  is_loopback peer = false -> AuthState.token (auth w) = Some admin ->
  (forall t, token = Some t -> role_of t (auth w) = None) ->
  show_status (deliver base peer m) base token w =
  (Some (status_report (StatsBody (StatsResponse.mk Stats_default [] [] mode))), w).
Proof.
  intros Hfar Ha Hno. unfold show_status, try_bind at 1. rewrite deliver_eq. set (r := request_of _ _ _ _ _).
  assert (Hauth : auth_middleware r (auth w) = Unauthorized).
  { unfold auth_middleware. change (Request.peer r) with peer. rewrite Hfar, Ha. cbn [andb].
    destruct (provided r) as [t|] eqn:E; [|done]. cbn [mbind option_bind].
    apply (client_provided peer GET "/api/stats" "" false) in E. by rewrite (Hno t E). }
  destruct (serve_refused r m w [(GET, any stats_handler)] eq_refl eq_refl (or_intror Hauth)) as (_ & _ & _ & -> & ->). done.
Qed.

(** a session of the command line.  The administrator resets the token: the
    new one is printed.  A command with the old token then fails from another
    machine and changes nothing; [eshield block] with the printed token
    succeeds, and from then until the deadline (for ever, if the duration is 0)
    the packet program drops the address. *)
Theorem reset_then_block base peer m m' w old ip key d :
  let t0 := ktime_get_ns (ktime_calls (ebpf (control w))) in
  admin_token old (auth w) -> parse_ip_or_cidr ip = Some key -> 0 <= t0 -> 0 <= d < 2 ^ 64 ->
  exists token w1 text w2,
    send_reset_token (deliver base peer m) base (Some old) w = (Some (token_report token), w1) /\
    (is_loopback peer = false -> old <> token -> send_unblock (deliver base peer m') base ip (Some old) w1 = (None, w1)) /\
    send_block (deliver base peer m') base ip d (Some token) w1 = (Some text, w2) /\
    forall t, d = 0 \/ t < deadline t0 d -> fst (is_blacklisted key t (ebpf (control w2))) = true.
Proof.
  intros t0 Ht Hkey Ht0 Hd. set (token := hex_token (Moment.random m)).
  set (r := request_of peer POST "/api/auth/reset-token" (api_client (Some old)) "").
  assert (Hask : asks r (auth w) POST "/api/auth/reset-token" Admin)
    by apply (client_asks old peer POST "/api/auth/reset-token" "" false w Ht).
  destruct (serve_handler r m w _ _ _ _ (any reset_token_handler) Hask eq_refl eq_refl eq_refl) as (Hs & Hp & Hw).
  unfold any in Hs, Hp, Hw. destruct (reset_auth r m w) as (Ha & Hs' & Hp' & _). rewrite Hs' in Hs. rewrite Hp' in Hp.
  set (w1 := snd (reset_token_handler r m w)) in *.
  assert (Hreset : send_reset_token (deliver base peer m) base (Some old) w = (Some (token_report token), w1)).
  { unfold send_reset_token, try_bind at 1. rewrite deliver_eq. fold r. by rewrite Hs, Hp, Hw. }
  assert (Hnew : admin_token token (auth w1)).
  { assert (Hne : token <> ""%string) by done. split; [|split; [done|]].
    - rewrite Ha. unfold set_token. apply String.eqb_neq in Hne. fold token. by rewrite Hne.
    - rewrite visible_every. eapply every_weaken; [|apply hex_token_chars, be_bytes_ok]. intros c Hc. apply token_char_ok, Hc. }
  destruct (block_command base peer m' w1 token ip key d Hnew Hkey Ht0 Hd) as (text & w2 & Hb & _ & Hdrop).
  exists token, w1, text, w2. split; [exact Hreset|]. split; [|by split].
  intros Hfar Hne. assert (Hne' : Some old <> Some token) by congruence.
  pose proof (commands_refused base peer m' w1 token (Some old) ip d Hfar (proj1 Hnew) Hne') as Hall.
  rewrite list.Forall_forall in Hall. apply (Hall (send_unblock _ _ _ _)). by right; left.
Qed.
End Session.

Module CliWitness.
Import Samples ControlSample.ControlSample ConsoleWitness.
#[local] Existing Instances ThreatIntelWitness.feeds AuditSample.lib.

(** The address before a space is the form. *)
Definition json_sample (ip : string) (d : Z) : string := print_u64 d +:+ String " " ip.

#[export] Instance encoder : CliLib := {|
  header_value s := if visible s then Some s else None;
  json_block := json_sample;
  json_ip ip := ip;
|}.
#[export] Instance reader : ConsoleEnv := {|
  body_block r := '(n, ip) ← split_once " " (Request.body r); d ← parse_uint 64 n; Some (ip, d);
  body_ip _ := None; body_cidr _ := None; body_token _ := None; body_patch _ := None; body_port_acl _ := None;
  body_projects _ := None; body_patterns _ := None;
  query_limit _ := None; query_duration _ := None; query_ip _ := None; query_ip_duration _ := None;
  query_packets _ := None; audit_file _ := None; hub_get _ _ := None;
|}.
#[export] Instance laws : @CliLaws reader encoder.
Proof.
  split.
  - intros s v. cbn. destruct (visible s); congruence.
  - intros s H. cbn. by rewrite H.
  - intros r ip d Hd _ Hb. cbn. rewrite Hb. change (json_block ip d) with (print_u64 d +:+ String " " ip).
    rewrite split_once_append by (by apply every_print_digits; [lia|..]). cbn [mbind option_bind].
    by rewrite parse_print_u64.
Qed.

Definition base : string := "http://10.9.9.9:8720".

Lemma commands_refused_witness :
  send_reload (deliver base far moment) base (Some "viewer"%string) site = (None, site).
Proof.
  assert (H := commands_refused base far moment site "secret" (Some "viewer"%string) "" 0 eq_refl eq_refl ltac:(discriminate)).
  rewrite list.Forall_forall in H. apply (H (send_reload _ _ _)). by do 2 right; left.
Defined.

Lemma status_hides_refusal_witness :
  exists report, show_status (deliver base far moment) base (Some "wrong"%string) site = (Some report, site).
Proof.
  eexists. apply (status_hides_refusal base far moment site "secret" _ ""); [done..|]. by intros t [= <-].
Defined.

Lemma reset_then_block_witness :
  exists token w1 text w2,
    send_reset_token (deliver base far moment) base (Some "secret"%string) site = (Some (token_report token), w1) /\
    send_block (deliver base far moment) base "10.0.0.1" 60 (Some token) w1 = (Some text, w2) /\
    fst (is_blacklisted alice 2000000000 (ebpf (control w2))) = true.
Proof.
  destruct (reset_then_block base far moment moment site "secret" "10.0.0.1" alice 60)
    as (token & w1 & text & w2 & H1 & _ & H2 & H3);
    [by split_and!|vm_compute; reflexivity|vm_compute; discriminate|lia|].
  exists token, w1, text, w2. split; [exact H1|]. split; [exact H2|]. apply H3. right. vm_compute. reflexivity.
Defined.

(** The command with its options, from the environment's token on. *)
Example block_from_environment :
  fst (main_command (deliver base far moment) (Some "secret"%string) (fun _ => err) (fun _ _ => err)
    (Block "10.0.0.1" 60 base None) site) = Some "已封禁 10.0.0.1，时长 60 秒"%string.
Proof. vm_compute. reflexivity. Qed.
End CliWitness.
