(* ===== verification/AgentKeeps.v ===== *)
(** * AgentKeeps: what the operations of the agent leave alone

    A property [Q] of the maps is [lasting] if it only looks at the white list
    and the [CONFIG] map, survives further entries of the white list, and does not
    depend on what [CONFIG] says apart from the danger level.  Every operation of
    the agent keeps a lasting property and the danger level shown, except for
    [set_danger_level], [disallow_cidr] and [reload_config_file].  Two such
    properties: an address is on the white list; the map has a danger level. *)
From Stdlib Require Import Ascii.
From stdpp Require Import strings gmap.
From S2P Require Import Prelude Words Common Pure RustStd IpText Config TimeSeries Redb RuleStore RuleStoreProps Maps Footprint AgentMaps Geoip Adaptive AuditLog BlacklistSync HubClient HubTasks AgentControl AgentControlProps AgentRules ThreatIntel.
#[local] Open Scope Z_scope.

Section Lasting.
Context {KN : Kernel} {MO : MapOps} {HO : HashOrder} {R : Redb} {J : RuleJson} {CL : CsvLib} {EN : AgentEnv}
  {FL : FeedLib} {HT : Http}.

(** The tables in question. *)
Definition seen (s : KState) := (WHITELIST_V4 s, WHITELIST_V6 s, CONFIG s).

Record lasting (Q : KState -> Prop) : Prop := {
  last_seen s s' : seen s' = seen s -> Q s -> Q s';
  last_allow key prefix : keeps Q (whitelist_add key prefix);
  last_config f s cfg rest : (forall x, RuntimeConfig.danger_level (f x) = RuntimeConfig.danger_level x) ->
    CONFIG s = cfg :: rest -> Q s -> Q (s <| CONFIG := f cfg :: rest |>);
}.

Context (Q : KState -> Prop) (LQ : lasting Q) (l : Z).

Definition stays (c : ControlState) : Prop := Q (ebpf c) /\ shown_danger l c.

Lemma stays_same c c' : seen (ebpf c') = seen (ebpf c) -> runtime c' = runtime c -> stays c -> stays c'.
Proof. intros Hs Hr [H1 H2]. split; [by apply (last_seen Q LQ (ebpf c))|]. unfold shown_danger. by rewrite Hr. Qed.

(** *** On the maps *)
Lemma keeps_seen {A} (m : Try KState A) : (forall s, seen (snd (m s)) = seen s) -> keeps Q m.
Proof. intros Hm s. apply (last_seen Q LQ), Hm. Qed.

Lemma keeps_config f : (forall x, RuntimeConfig.danger_level (f x) = RuntimeConfig.danger_level x) ->
  keeps Q (let! cfg := run (gets (fun s => default RuntimeConfig_default (array_get (CONFIG s) 0))) in CONFIG_set (f cfg)).
Proof.
  intros Hf s Hs. rewrite try_gets. unfold CONFIG_set, array_write, array_get. change (Z.to_nat 0) with 0%nat.
  destruct (CONFIG s) as [|cfg rest] eqn:E; [done|]. cbn [lookup list_lookup default]. rewrite array_set_0. cbn [snd].
  by apply (last_config Q LQ f s cfg rest).
Qed.

Lemma lasting_blind : rule_blind Q.
Proof.
  split; [by intros f s; apply (last_seen Q LQ)..|]. intros f Hf s Hs. unfold sync_config_count. rewrite try_gets.
  unfold array_get. change (Z.to_nat 0) with 0%nat. destruct (CONFIG s) as [|cfg rest] eqn:E; [done|].
  cbn [lookup list_lookup]. unfold ignore, CONFIG_set, array_write. rewrite E, array_set_0. cbn [snd].
  by apply (last_config Q LQ f s cfg rest).
Qed.

Lemma stays_on_ebpf {A} (m : Try KState A) : keeps Q m -> keeps stays (on_ebpf m).
Proof. intros Hm c [H1 H2]. unfold on_ebpf. specialize (Hm _ H1). by destruct (m (ebpf c)). Qed.

Lemma stays_on_seen {A} (m : Try KState A) : (forall s, seen (snd (m s)) = seen s) -> keeps stays (on_ebpf m).
Proof. intros Hm. by apply stays_on_ebpf, keeps_seen. Qed.

Lemma stays_on_store f : keeps stays (on_store f).
Proof. intros c H. unfold on_store. destruct (store c) as [st|]; [|done]. by destruct (f st). Qed.

Lemma stays_now : keeps stays now.
Proof. by apply stays_on_seen. Qed.

Create HintDb stays discriminated.
#[local] Hint Resolve stays_on_store stays_now : stays.

Ltac stays_tac := keeps_tac; auto with stays; try done; try (by eapply stays_same; [..|eassumption]).

(** *** Blocking and releasing *)
Lemma stays_block_raw key d reason : keeps stays (block_ip_raw key d reason).
Proof. unfold block_ip_raw. stays_tac. by apply stays_on_seen. Qed.
#[local] Hint Resolve stays_block_raw : stays.

Lemma stays_block key d reason origin : keeps stays (block_ip_key key d reason origin).
Proof.
  unfold block_ip_key. stays_tac. intros c Hc. unfold save_block. destruct (store c); [|done].
  assert (H : forall f, keeps stays (let! now_ns := now in let! stamp := now in on_store (f now_ns stamp))) by (intros f; stays_tac).
  by apply (H (fun now_ns stamp => save_blacklist stamp key (deadline now_ns d) reason now_ns origin)).
Qed.
#[local] Hint Resolve stays_block : stays.

Lemma stays_block_ip ip d : keeps stays (block_ip ip d).
Proof. unfold block_ip. stays_tac. Qed.

Lemma stays_block_many keys d reason origin : keeps stays (block_ip_keys_batch keys d reason origin).
Proof.
  unfold block_ip_keys_batch. case_bool_decide as Hk; [apply keeps_ok|]. stays_tac.
  - apply stays_on_ebpf. keeps_tac. by apply keeps_seen.
  - intros c Hc. unfold save_block_many. destruct (store c); [|done].
    assert (H : forall f, keeps stays (let! stamp := now in on_store (f stamp))) by (intros f; stays_tac).
    by apply (H (fun stamp => save_blacklist_many stamp keys (deadline a d) reason a origin)).
Qed.

Lemma stays_unblock_key key actor : keeps stays (unblock_ip_key key actor).
Proof. unfold unblock_ip_key. stays_tac. Qed.
#[local] Hint Resolve stays_unblock_key : stays.

Lemma stays_unblock ip : keeps stays (unblock_ip ip).
Proof. unfold unblock_ip. stays_tac. Qed.

(** *** The white list *)
Lemma stays_allow_key key prefix actor : keeps stays (allow_cidr_key key prefix actor).
Proof. unfold allow_cidr_key, allow_cidr_raw. stays_tac. apply stays_on_ebpf, LQ. Qed.
#[local] Hint Resolve stays_allow_key : stays.

Lemma stays_allow cidr : keeps stays (allow_cidr cidr).
Proof. unfold allow_cidr. stays_tac. Qed.

(** Releasing a network is for the properties that do not mind. *)
Lemma stays_disallow cidr : (forall key prefix, keeps Q (whitelist_del key prefix)) -> keeps stays (disallow_cidr cidr).
Proof. intros Hd. unfold disallow_cidr. keeps_tac. destruct a as [key prefix]. stays_tac. by apply stays_on_ebpf. Qed.

(** *** Rule sets *)
Lemma stays_acl items : keeps stays (set_port_acl items).
Proof. apply keeps_set_rules; auto with stays. apply stays_on_ebpf, keeps_init_acl, lasting_blind. Qed.

Lemma stays_l7 patterns : keeps stays (set_l7_patterns patterns).
Proof. apply keeps_set_rules; auto with stays. apply stays_on_ebpf, keeps_init_l7, lasting_blind. Qed.

Lemma stays_projects projects : keeps stays (set_protection_projects projects).
Proof. apply keeps_set_rules; auto with stays. apply stays_on_ebpf, keeps_init_projects, lasting_blind. Qed.
#[local] Hint Resolve stays_acl stays_l7 stays_projects : stays.

Lemma stays_load_persisted : keeps stays load_persisted_rules.
Proof. apply keeps_load_persisted; auto with stays. intros key prefix. apply stays_on_ebpf, LQ. Qed.

(** *** The configuration *)
Lemma patch_snapshot_danger patch s :
  RuntimeConfigSnapshot.danger_level (patch_snapshot patch s) = RuntimeConfigSnapshot.danger_level s.
Proof. unfold patch_snapshot. cbv zeta. repeat (rewrite (patched_proj RuntimeConfigSnapshot.danger_level); [|done]). done. Qed.

Lemma stays_patch patch : keeps stays (patch_runtime patch).
Proof.
  intros c Hc. unfold patch_runtime. destruct (validate_runtime_patch patch); [|done]. rewrite try_ensure, try_gets.
  set (snapshot := patch_snapshot patch (runtime c)).
  assert (Hsn : RuntimeConfigSnapshot.danger_level snapshot = l) by (unfold snapshot; rewrite patch_snapshot_danger; apply Hc).
  clearbody snapshot. revert c Hc. match goal with |- forall c, _ -> stays (snd (?m c)) => change (keeps stays m) end.
  stays_tac.
  - unfold given. destruct (RuntimeConfigPatch.adaptive patch); stays_tac.
  - apply stays_on_ebpf. unfold write_patch. apply keeps_bind; [|intros _; apply keeps_bind; [|intros _; by apply keeps_config]].
    + unfold given. destruct (RuntimeConfigPatch.rate_limit patch); keeps_tac.
      apply keeps_array_write. by intros f s; apply (last_seen Q LQ).
    + unfold given. destruct (RuntimeConfigPatch.port_rate_limit patch); keeps_tac.
      apply keeps_array_write. by intros f s; apply (last_seen Q LQ).
  - by destruct H.
Qed.
(** *** The lists of the countries *)
Lemma stays_insert p `{!Setter p} cap e : (forall f s, seen (setter p f s) = seen s) -> keeps Q (trie_insert p cap e).
Proof. intros Hp. apply keeps_seen. intros s. unfold trie_insert. destruct (lpm_insert _ _ _); [apply Hp|done]. Qed.

Lemma stays_remove p `{!Setter p} plen data : (forall f s, seen (setter p f s) = seen s) -> keeps Q (trie_remove p plen data).
Proof. intros Hp. apply keeps_seen. intros s. unfold trie_remove. destruct (lpm_remove _ _ _); [apply Hp|done]. Qed.

Lemma stays_networks v4 v6 `{!Setter v4} `{!Setter v6} nets :
  (forall f s, seen (setter v4 f s) = seen s) -> (forall f s, seen (setter v6 f s) = seen s) ->
  keeps stays (on_ebpf (insert_networks v4 v6 nets)).
Proof. intros H4 H6. apply stays_on_ebpf. unfold insert_networks. keeps_tac; by apply stays_insert. Qed.

Lemma stays_stale v4 v6 `{!Setter v4} `{!Setter v6} stale_v4 stale_v6 :
  (forall f s, seen (setter v4 f s) = seen s) -> (forall f s, seen (setter v6 f s) = seen s) ->
  keeps stays (on_ebpf (remove_networks v4 v6 stale_v4 stale_v6)).
Proof. intros H4 H6. apply stays_on_ebpf. unfold remove_networks. keeps_tac; by apply stays_remove. Qed.

Lemma stays_load load : keeps stays (load_geoip load).
Proof. intros c Hc. unfold load_geoip. by destruct (load (geoip_cache c)). Qed.

Lemma stays_geoip_map config : keeps stays (apply_geoip_map config).
Proof.
  unfold apply_geoip_map. cbv zeta. stays_tac; try (by apply stays_networks); try (by apply stays_stale); apply stays_load.
Qed.

Lemma stays_reload_geoip : keeps stays reload_geoip.
Proof. unfold reload_geoip, read_config. stays_tac. apply stays_geoip_map. Qed.

(** *** Feeds *)
Lemma stays_feed feed : keeps stays (sync_feed feed).
Proof.
  unfold sync_feed. stays_tac. destruct (String.eqb _ _); [apply keeps_ignore, stays_block_many|].
  destruct (String.eqb _ _); stays_tac.
Qed.

Lemma stays_feeds feeds : keeps stays (sync_feeds feeds).
Proof. unfold sync_feeds. keeps_tac. apply stays_feed. Qed.

(** *** The hub *)
Lemma stays_trust key score : keeps stays (set_trust_score key score).
Proof. unfold set_trust_score. stays_tac. destruct (negb a); stays_tac. Qed.
#[local] Hint Resolve stays_trust : stays.

Lemma stays_policies policies : keeps stays (apply_hub_policies policies).
Proof.
  unfold apply_hub_policies. case_bool_decide as Hp; [apply keeps_ok|]. clear Hp. keeps_tac. generalize 0 as n.
  induction policies as [|p policies IH]; intros n; cbn [apply_policies]; [apply keeps_ok|]. apply keeps_bind; [|done].
  unfold apply_policy. case_bool_decide; [apply keeps_ok|]. destruct (_ && _); [apply keeps_ok|]. stays_tac.
  destruct (_ >? 0); stays_tac.
Qed.

Lemma stays_deletions ips : keeps stays (unblock_hub_policies ips).
Proof.
  unfold unblock_hub_policies. keeps_tac. destruct a as [st|]; [|apply keeps_ok]. keeps_tac.
  generalize 0 as n. induction ips as [|ip ips IH]; intros n; cbn [unblock_each]; [apply keeps_ok|].
  case_bool_decide; stays_tac.
Qed.

Lemma stays_rules bundle : keeps stays (apply_hub_rules bundle).
Proof. unfold apply_hub_rules. stays_tac. Qed.

Lemma stays_collect since hits trust limit : keeps stays (collect_hub_publishable_policies since hits trust limit).
Proof.
  unfold collect_hub_publishable_policies. keeps_tac. destruct a as [st|]; [|apply keeps_ok]. keeps_tac.
  case_bool_decide; stays_tac.
Qed.
(** *** The rounds of the hub client *)
Lemma stays_moves s s' : ebpf s' = ebpf s -> runtime s' = runtime s -> stays s -> stays s'.
Proof. intros He. apply stays_same. by rewrite He. Qed.

Ltac node_tac := keeps_tac; eauto using keeps_on_client with stays; try (apply keeps_on_control; by auto with stays).

Lemma stays_get path : keeps (fun c => stays (control c)) (get_with_failover path).
Proof. apply keeps_failover; [|done]. intros c h s Hc _ _ _ He _ Hr. by apply (stays_moves (control c)). Qed.

Lemma stays_post path body : keeps (fun c => stays (control c)) (post_with_failover path body).
Proof. apply keeps_failover; [|done]. intros c h s Hc _ _ _ He _ Hr. by apply (stays_moves (control c)). Qed.
#[local] Hint Resolve stays_get stays_post stays_policies stays_deletions stays_rules stays_collect : stays.

Lemma stays_round task : keeps (fun c => stays (control c)) (round task).
Proof.
  assert (Hd : keeps (fun c => stays (control c)) pull_deleted_once).
  { unfold pull_deleted_once. node_tac. destruct (parse_uint _ _); node_tac. }
  destruct task; cbn [round].
  - unfold push_once. node_tac. case_bool_decide; node_tac.
  - unfold pull_once. node_tac. destruct (parse_uint _ _); node_tac.
  - unfold heartbeat_once. node_tac.
  - keeps_tac. destruct (HubConfig.sync_rules_enabled _); [|apply keeps_ok]. unfold sync_rules_once. node_tac.
    destruct (RulesResponse.rules _) as [bundle|]; node_tac. destruct (_ <=? _); node_tac.
Qed.

Lemma stays_task ts task : stays (shared ts) -> stays (shared (task_step ts task)).
Proof. intros H. apply (stays_round task (mkNode (clients ts task) (shared ts) (requests ts)) H). Qed.

(** *** The tasks that write the black list and the store *)
Lemma stays_sync : keeps (fun c => Q (BlacklistSync.ebpf c)) sync_once.
Proof.
  unfold sync_once. apply keeps_bind; [by intros c; apply (last_seen Q LQ)|]. intros now_ns. apply keeps_bind; [apply keeps_gets|].
  intros y. cbv zeta. apply keeps_bind; [|intros _; apply keeps_bind; [|intros _]].
  - case_bool_decide; [apply keeps_ok|]. apply keeps_bind; [apply keeps_of_option|]. intros origins.
    apply keeps_for_each. intros [[key entry] origin]. unfold save_changed. destruct (_ && _); [apply keeps_ok|].
    apply keeps_bind; [by intros c; apply (last_seen Q LQ)|]. intros stamp. apply keeps_bind; [|by intros _; apply keeps_modify].
    intros c Hc. unfold BlacklistSync.on_store. by destruct (save_blacklist _ _ _ _ _ _ _).
  - apply keeps_modify. intros c Hc. destruct (read_blacklist_gens _) as [[add hit]|]; [|done]. by destruct (need_scan _ _).
  - intros c Hc. unfold prune_due. destruct (_ >=? _); [|done]. by destruct (prune_expired_blacklist _ _) as [[n st]|].
Qed.

Lemma seen_events src n x : seen (snd (snd (on_events src n x))) = seen (snd x).
Proof.
  destruct x as [[e stats] s]. unfold on_events. cbv zeta. destruct (_ || _); [done|]. unfold monotonic_secs, bind, get_ktime_ns, ret.
  cbv beta iota zeta. destruct (match _ !! _ with Some _ => _ | None => _ end); [done|].
  destruct (_ >=? _); [|done]. by destruct (_ =? 0).
Qed.

Lemma seen_feed counts sources x : seen (snd (snd (feed counts sources x))) = seen (snd x).
Proof.
  revert x. induction sources as [|src sources IH]; intros x; [done|]. cbn [feed]. unfold bind.
  pose proof (seen_events src (default 0 (counts !! src)) x) as H. destruct (on_events _ _ x) as [[] y].
  cbn [snd] in H. rewrite <- H. apply IH.
Qed.

Lemma seen_consume waiting x : seen (snd (snd (consume waiting x))) = seen (snd x).
Proof.
  destruct x as [[e stats] s]. unfold consume. cbv zeta. destruct (tally _ _ _ _) as [by_port counts].
  match goal with |- context [feed ?c ?so ?x] => pose proof (seen_feed c so x) as H; destruct (feed c so x) as [[] [[e' stats'] s']] end.
  exact H.
Qed.
End Lasting.

(** ** Lasting properties *)
Section Instances.
Context {KN : Kernel} {KL : KernelLaws} {MO : MapOps} {ML : MapLaws MO} {HO : HashOrder}.

Lemma whitelist_add_tables key prefix s : CONFIG (snd (whitelist_add key prefix s)) = CONFIG s /\
  (fst (whitelist_add key prefix s) = None -> snd (whitelist_add key prefix s) = s).
Proof.
  unfold whitelist_add, WHITELIST_V4_insert, WHITELIST_V6_insert, trie_insert.
  destruct (IpKey_family key) as [[|]|]; [..|done]; by destruct (lpm_insert _ _ _).
Qed.

(** An address is on the white list. *)
Definition listed (b : IpAddr) (s : KState) : Prop := covered (trie_of b s) b.

Lemma listed_lasting b : lasting (listed b).
Proof.
  unfold listed. split.
  - intros s s' [= E4 E6 _] H. unfold trie_of in *. by rewrite E4, E6.
  - intros key prefix s H. destruct (whitelist_add_tables key prefix s) as [_ Hr].
    destruct (whitelist_add key prefix s) as [[[]|] s'] eqn:E; [|by rewrite Hr].
    apply whitelist_add_eq in E. cbn [snd]. destruct b, (IpKey_family key) as [[|]|]; try done; cbn [trie_of] in *;
      destruct E as [Ei Eo]; rewrite ?Eo; try done; by eapply insert_keeps_covered.
  - intros f s cfg rest Hf E H. by destruct b.
Qed.

(** An address is on the white list of a configured data plane. *)
Definition allowed (b : IpAddr) (s : KState) : Prop := listed b s /\ CONFIG s <> [].

Lemma allowed_lasting b : lasting (allowed b).
Proof.
  destruct (listed_lasting b) as [Hs Hw Hc]. split.
  - intros s s' E [H1 H2]. split; [by apply (Hs s)|]. injection E as _ _ ->. done.
  - intros key prefix s [H1 H2]. split; [by apply Hw|]. by rewrite (proj1 (whitelist_add_tables key prefix s)).
  - intros f s cfg rest Hf E [H1 H2]. split; [by apply Hc|done].
Qed.

Lemma danger_lasting level : lasting (map_danger level).
Proof.
  split.
  - intros s s' [= _ _ Ec]. unfold map_danger. by rewrite Ec.
  - intros key prefix. unfold whitelist_add. destruct (IpKey_family key) as [[|]|]; [..|by intros s];
      by apply keeps_trie_insert.
  - intros f s cfg rest Hf E H. unfold map_danger in *. rewrite E in H. cbn. by rewrite Hf.
Qed.

Lemma danger_disallow level key prefix : keeps (map_danger level) (whitelist_del key prefix).
Proof.
  intros s Hs. unfold whitelist_del, WHITELIST_V4_remove, WHITELIST_V6_remove, trie_remove.
  destruct (IpKey_family key) as [[|]|]; [..|done]; by destruct (lpm_remove _ _ _).
Qed.
End Instances.

(** *** The white list of the configuration file *)
Lemma collect_in {A B} (f : A -> option B) l ys x y : collect f l = Some ys -> x ∈ l -> f x = Some y -> y ∈ ys.
Proof.
  revert ys. induction l as [|z l IH]; intros ys; [by intros _ ?%not_elem_of_nil|]. cbn.
  destruct (f z) as [y'|] eqn:Ez; [|done]. cbn. destruct (collect f l) as [ys'|]; [|done]. cbn. intros [= <-].
  rewrite elem_of_cons. intros [->|Hx] Hf; [rewrite Ez in Hf; injection Hf as ->; by left|]. right. by apply IH.
Qed.

Lemma collect_all {A B} (f : A -> option B) l ys x : collect f l = Some ys -> x ∈ l -> is_Some (f x).
Proof.
  revert ys. induction l as [|z l IH]; intros ys; [by intros _ ?%not_elem_of_nil|]. cbn.
  destruct (f z) as [y'|] eqn:Ez; [|done]. cbn. destruct (collect f l) as [ys'|]; [|done]. rewrite elem_of_cons.
  intros _ [->|Hx]; [by rewrite Ez|by apply (IH ys')].
Qed.

Lemma for_each_reaches {S A} (P : S -> Prop) (f : A -> Try S unit) x l : forall s s',
  for_each f l s = (Some tt, s') -> x ∈ l -> (forall y, keeps P (f y)) ->
  (forall s s', f x s = (Some tt, s') -> P s') -> P s'.
Proof.
  induction l as [|y l IH]; intros s s' E Hx Hk Hf; [by apply not_elem_of_nil in Hx|].
  apply try_bind_inv in E as ([] & s1 & E1 & E2). change (for_each f l s1 = (Some tt, s')) in E2. apply elem_of_cons in Hx as [<-|Hx]; [|by apply (IH s1 s')].
  apply Hf in E1. assert (H := keeps_for_each P f l Hk s1 E1). by rewrite E2 in H.
Qed.

Section File.
Context {KN : Kernel} {KL : KernelLaws} {MO : MapOps} {ML : MapLaws MO} {HO : HashOrder} {HL : HashOrderLaws HO} {R : Redb}
  {J : RuleJson} {CL : CsvLib} {EN : AgentEnv}.

(** The network of a key holds an address of its family. *)
Definition holds (key : IpKey.t) (prefix : Z) (b : IpAddr) : Prop :=
  IpKey_family key = Some (match b with V4 _ => Ipv4 | V6 _ => Ipv6 end) /\
  length (trie_key key) = length (octets b) /\ prefix <= width b /\
  lpm_matches (LpmEntry.mk prefix (trie_key key) 1) (width b) (octets b) = true.

Lemma inserted_holds key prefix b s s' : holds key prefix b ->
  (match b with V4 _ => WHITELIST_V4_insert (ipv4 key) prefix | V6 _ => WHITELIST_V6_insert (IpKey.addr key) prefix end) s = (Some tt, s') ->
  listed b s'.
Proof.
  intros (Hf & Hl & Hw & Hm) E. assert (Ew : whitelist_add key prefix s = (Some tt, s')) by (unfold whitelist_add; rewrite Hf; by destruct b).
  apply whitelist_add_eq in Ew. rewrite Hf in Ew. unfold listed.
  destruct b; destruct Ew as [Ei _]; apply (insert_covered _ _ _ _ _ _ Ei Hw Hl); by left.
Qed.

Lemma keeps_inserts b addr prefix : keeps (listed b) (WHITELIST_V4_insert addr prefix).
Proof.
  intros s Hs. unfold WHITELIST_V4_insert, trie_insert. destruct (lpm_insert _ _ _) as [t|] eqn:E; [|done].
  destruct b; [by eapply insert_keeps_covered|done].
Qed.
Lemma keeps_inserts_v6 b addr prefix : keeps (listed b) (WHITELIST_V6_insert addr prefix).
Proof.
  intros s Hs. unfold WHITELIST_V6_insert, trie_insert. destruct (lpm_insert _ _ _) as [t|] eqn:E; [|done].
  destruct b; [done|by eapply insert_keeps_covered].
Qed.

(** A network as it is written, and the addresses it holds. *)
Lemma parsed_holds text key prefix : parse_cidr text = Some (key, prefix) ->
  exists addr plen a, split "/"%char text = [addr; plen] /\ parse_ip_addr addr = Some a /\ parse_uint 32 plen = Some prefix /\
    forall b, ip_addr_ok b -> same_family a b = true ->
      Z.shiftr (be_val (octets b)) (width b - prefix) = Z.shiftr (be_val (octets a)) (width a - prefix) -> holds key prefix b.
Proof.
  intros Hp. destruct (parse_cidr_selects _ _ _ Hp) as (addr & plen & a & Hs & Ha & Hpr & Hsel).
  destruct (parse_cidr_inv _ _ _ Hp) as (addr' & plen' & a' & Hs' & _ & Hpl & _). rewrite Hs in Hs'. injection Hs' as <- <-.
  destruct (parsed_family _ _ _ a Hp _ _ Hs Ha) as [Hf Hlen]. pose proof (parse_ip_addr_ok _ _ Ha) as Hoa. specialize (Hlen Hoa).
  exists addr, plen, a. do 3 (split; [done|]). intros b Hb Hsf Hbits. apply Hsel in Hbits; [|done..].
  destruct a as [o1|o1], b as [o2|o2]; try done; destruct Hoa as [Hl1 _], Hb as [Hl2 _]; cbn [octets width] in *;
    (split; [done|]; cbn [octets width]; split; [congruence|]; split; [lia|done]).
Qed.

(** At the start every network of the file is on the white list. *)
Lemma whitelist_map_lists config text c c' :
  whitelist c = [] -> text ∈ Config.whitelist config -> apply_whitelist_map config c = (Some tt, c') ->
  exists key prefix, parse_cidr text = Some (key, prefix) /\ forall b, holds key prefix b -> listed b (ebpf c').
Proof.
  intros Hc Ht. unfold apply_whitelist_map.
  destruct (collect parse_cidr (Config.whitelist config)) as [entries|] eqn:Ec; [|done]. rewrite try_some, try_gets, Hc. cbv zeta.
  destruct (collect_all _ _ _ _ Ec Ht) as [[key prefix] Hp]. intros H. exists key, prefix. split; [exact Hp|]. intros b Hb. revert H.
  change (filter _ []) with (@nil (IpKey.t * Z)). set (added := filter _ (hash_list _)).
  assert (Hin : (key, prefix) ∈ added).
  { apply list_elem_of_filter. split; [by apply not_elem_of_nil|]. apply elem_of_hash_list, elem_of_list_to_set.
    by eapply collect_in. }
  clearbody added. intros H.
  apply try_bind_inv in H as ([] & c1 & E1 & H). apply try_bind_inv in H as ([] & c2 & E2 & H).
  apply try_bind_inv in H as ([] & c3 & E3 & H). apply try_bind_inv in H as ([] & c4 & E4 & H). injection H as <-.
  change (listed b (ebpf c4)). unfold on_ebpf in *.
  destruct (for_each _ (v4_of added) (ebpf c1)) as [[[]|] s2] eqn:F2; [|discriminate E2]. injection E2 as <-.
  cbn [for_each v6_of omap list_omap] in E3. injection E3 as <-.
  destruct (for_each _ (v6_of added) _) as [[[]|] s4] eqn:F4; [|discriminate E4]. injection E4 as <-. cbn [ebpf setter] in *.
  destruct b as [o|o]; destruct Hb as (Hf & Hb).
  - assert (H2 : listed (V4 o) s2).
    { eapply (for_each_reaches _ _ (ipv4 key, prefix)); [exact F2| |intros y; apply keeps_inserts|].
      - apply list_elem_of_omap. exists (key, prefix). split; [done|]. cbn. by rewrite bool_decide_eq_true_2.
      - intros s s' E. eapply (inserted_holds key prefix (V4 o)); [by split|exact E]. }
    assert (H4 := keeps_for_each (listed (V4 o)) _ (v6_of added) (fun y => keeps_inserts_v6 _ (fst y) (snd y)) s2 H2).
    by rewrite F4 in H4.
  - eapply (for_each_reaches _ _ (IpKey.addr key, prefix)); [exact F4| |intros y; apply keeps_inserts_v6|].
    + apply list_elem_of_omap. exists (key, prefix). split; [done|]. cbn. by rewrite bool_decide_eq_true_2.
    + intros s s' E. eapply (inserted_holds key prefix (V6 o)); [by split|exact E].
Qed.

(** Nothing later in the start takes it off again. *)
Lemma control_new_lists config s auditor st adaptive c text :
  control_new s config auditor st adaptive = Some c -> text ∈ Config.whitelist config ->
  exists key prefix, parse_cidr text = Some (key, prefix) /\ forall b, holds key prefix b -> listed b (ebpf c).
Proof.
  intros H Ht. unfold control_new in H. destruct (try_bind _ _ _) as [[[]|] c0] eqn:E; [|done]. injection H as <-.
  apply try_bind_inv in E as ([] & c1 & E1 & E). apply try_bind_inv in E as ([] & c2 & E2 & E).
  apply try_bind_inv in E as ([] & c3 & E3 & E). apply try_bind_inv in E as ([] & c4 & E4 & E).
  assert (Hw : whitelist c2 = []).
  { assert (K : keeps (fun c => whitelist c = []) (let! _ := on_ebpf (init_maps config) in apply_blacklist_map config)).
    { assert (Ke : forall (m : Try KState unit), keeps (fun c : ControlState => whitelist c = []) (on_ebpf m)).
      { intros m c H. unfold on_ebpf. by destruct (m (ebpf c)). }
      apply keeps_bind; [apply Ke|]. intros _. unfold apply_blacklist_map. cbv zeta. keeps_tac; [apply Ke..|done]. }
    match type of E1 with _ ?c0 = _ => specialize (K c0 eq_refl) end.
    rewrite (try_bind_ok _ _ _ _ _ E1), E2 in K. exact K. }
  destruct (whitelist_map_lists config text c2 c3 Hw Ht E3) as (key & prefix & Hp & H3).
  exists key, prefix. split; [exact Hp|]. intros b Hb. specialize (H3 b Hb).
  assert (H4 : stays (listed b) (RuntimeConfigSnapshot.danger_level (runtime c3)) c4).
  { pose proof (stays_geoip_map (listed b) (listed_lasting b) (RuntimeConfigSnapshot.danger_level (runtime c3)) config c3 ltac:(by split)) as K.
    by rewrite E4 in K. }
  destruct H4 as [H4 _]. unfold on_ebpf, init_config_map, CONFIG_set, array_write in E.
  destruct (array_set _ _ _); [|discriminate E]. injection E as <-. by destruct b.
Qed.
End File.

(** *** The level on the page *)
Section Page.
Context {KN : Kernel} {MO : MapOps} {HO : HashOrder}.

Lemma page_events src n x : Stats.danger_level (snd (fst (snd (on_events src n x)))) = Stats.danger_level (snd (fst x)).
Proof.
  destruct x as [[e stats] s]. unfold on_events. cbv zeta. destruct (_ || _); [done|]. unfold monotonic_secs, bind, get_ktime_ns, ret.
  cbv beta iota zeta. destruct (match _ !! _ with Some _ => _ | None => _ end); [done|].
  destruct (_ >=? _); [|done]. by destruct (_ =? 0).
Qed.

Lemma page_feed counts sources x :
  Stats.danger_level (snd (fst (snd (feed counts sources x)))) = Stats.danger_level (snd (fst x)).
Proof.
  revert x. induction sources as [|src sources IH]; intros x; [done|]. cbn [feed]. unfold bind.
  pose proof (page_events src (default 0 (counts !! src)) x) as H. destruct (on_events _ _ x) as [[] y].
  cbn [snd] in H. rewrite <- H. apply IH.
Qed.

Lemma page_batch by_port stats : Stats.danger_level (add_dropped_batch by_port stats) = Stats.danger_level stats.
Proof.
  unfold add_dropped_batch. generalize (hash_list (dom by_port)) as ports. intros ports. revert stats.
  induction ports as [|port ports IH]; intros stats; [done|]. cbn [foldl]. rewrite IH. by destruct (port =? 0).
Qed.

Lemma page_consume waiting x : Stats.danger_level (snd (fst (snd (consume waiting x)))) = Stats.danger_level (snd (fst x)).
Proof.
  destruct x as [[e stats] s]. unfold consume. cbv zeta. destruct (tally _ _ _ _) as [by_port counts].
  match goal with |- context [feed ?c ?so ?x] => pose proof (page_feed c so x) as H; destruct (feed c so x) as [[] [[e' stats'] s']] end.
  cbn [snd fst] in *. by rewrite page_batch, H.
Qed.
End Page.
