(* ===== verification/AgentRun.v ===== *)
(** * AgentRun: the running agent

    [start] of [eshield/src/main.rs] after the initialisation: the packet program
    on the interface, the console, the tasks and the signals, on one state.  Every
    frame, request, tick and signal is an [Event]; a tick is one turn of a task's
    loop, the ticks come in any order and in any number, and a run is any sequence
    of events until the agent is told to stop.  Every task holds the locks it needs
    for its turn, so that a turn is one step; a turn that only logs its error is
    the step with the error ignored.

    The theorems are about the whole: what no frame, no task, no hub, no feed and
    no request but the ones named can undo. *)
From Stdlib Require Import Ascii.
From stdpp Require Import strings gmap.
From S2P Require Import Prelude Words Common RustStd IpText Danger Config TimeSeries Redb RuleStore RuleStoreProps Parser Maps Wire Footprint Trust RateCounter Limits Filters TcpReset SynCookie DataPlane Accounting Pipeline DataPlaneProps PacketLog Blacklist AgentMaps Metrics Geoip Alert Adaptive AuditLog BlacklistSync HubClient HubTasks LoginLimiter ConsoleAuth Series AgentMain ThreatIntel ControlSample AgentControl AgentControlProps AgentRules AgentKeeps ConsoleViews ConsoleApi ConsoleProps ConsoleSession.
#[local] Open Scope Z_scope.

(** ** Events *)
Inductive Event :=
  | Frame (p : frame)                       (* a packet for the XDP program *)
  | Ask (r : ConsoleAuth.Request.t) (m : Moment.t)      (* a request to the console *)
  | Hangup                                  (* SIGHUP *)
  | Terminate                               (* SIGINT or SIGTERM *)
  | Watch (lock_free : bool)                (* the XDP monitor *)
  | Alarm (wall_s : Z)                      (* alerts, every minute *)
  | Rotate (key : list Z)                   (* the secrets, every minute; the random key *)
  | Feed (i : nat)                          (* the i-th feed *)
  | HubLoop (task : Task)                   (* a loop of the hub client *)
  | SyncBlacklist                           (* every five seconds *)
  | PruneEngine                             (* every minute *)
  | DrainEvents | DrainSamples              (* a batch of a ring buffer *)
  | ReadCounters (others : list GlobalStats.t)   (* every second; the other CPUs' slots *)
  | ReadAttackers | ReadTrust | CountEntries
  | SampleDanger (input : option (list Z) * option (Z * Z))   (* what /proc says *)
  | SamplePoint | PersistPoints.            (* the time series *)

Section AgentRun.
Context {NI : Nic} {KN : Kernel} {MO : MapOps} {HO : HashOrder} {R : Redb} {J : RuleJson} {CL : CsvLib} {EN : AgentEnv}
  {FL : FeedLib} {AL : AuditLib} {CE : ConsoleEnv} {HT : Http}.

(** What the tasks share ([web]), and what they keep for themselves. *)
Record Agent := mkAgent {
  setup : Config.t;
  web : WebState;
  card : nic;
  clients : Task -> HubClient;
  sent : list HubClient.Request.t;
  syncer : SyncState;
  persisted_ts : Z;
  danger : option (DangerMonitor * Z);
  totals : GlobalSync.t;
  alarm : AlertTask.t;
  posted : list AlertEvent.t;
  running : bool;
}.
#[global] Instance eta_Agent : Eta Agent := fun a =>
  mkAgent (setup a) (web a) (card a) (clients a) (sent a) (syncer a) (persisted_ts a) (danger a) (totals a)
    (alarm a) (posted a) (running a).

(** The tasks as [start] spawns them. *)
Definition agent_start (config : Config.t) (infos : list MapInfo.t) (run : Running) (n : nic) : Agent :=
  let c := AgentMain.control run in
  mkAgent config
    (mkWebState (AgentMain.stats run) (Series.window (series run)) c (console run) LoginLimiter_new
       (packet_log_new (PacketLogConfig.memory_max_entries (Config.packet_log config))) infos)
    n (HubTasks.clients (tasks_start (client_new (Config.hub config)) c)) []
    (sync_new (ebpf c) (default RuleStore_empty (store c))) (last_persisted_ts (series run))
    ((fun d => (monitor d, level d)) <$> AgentMain.danger run) global_sync_start alert_task_start [] true.

(** *** Turns of the tasks *)
Definition on_control (f : ControlState -> ControlState) (a : Agent) : Agent :=
  a <| web ::= fun w => w <| control ::= f |> |>.
Definition on_kernel (f : KState -> KState) : Agent -> Agent := on_control (fun c => c <| ebpf ::= f |>).
Definition on_stats (f : Stats.t -> Stats.t) (a : Agent) : Agent := a <| web ::= fun w => w <| stats ::= f |> |>.

(** A reading of the monotonic clock. *)
Definition with_secs (k : Z -> Agent -> Agent) (a : Agent) : Agent :=
  let '(t, s) := monotonic_secs (ebpf (control (web a))) in k t (on_kernel (fun _ => s) a).
Definition with_ns (k : Z -> Agent -> Agent) (a : Agent) : Agent :=
  let '(t, s) := monotonic_ns (ebpf (control (web a))) in k t (on_kernel (fun _ => s) a).

Definition alert_config (config : Config.t) : AlertConfig.t :=
  AlertConfig.mk (Config.alert_webhook_url config) (Config.alert_webhook_type config)
    (Config.alert_threshold_dps config) (Config.alert_cooldown_s config) (Config.interface config).

Definition alarm_turn (wall_s : Z) (a : Agent) : Agent :=
  let '(event, task) := alert_tick (alert_config (setup a)) wall_s (stats (web a)) (alarm a) in
  a <| alarm := task |> <| posted ::= fun l => l ++ option_list event |>.

Definition rotate_turn (key : list Z) : Agent -> Agent := with_secs (fun t => on_kernel (fun s =>
  match rotate_cookie_secrets_inner t key (array_get (COOKIE_SECRETS s) 0) with
  | Some secret => s <| COOKIE_SECRETS ::= fun l => default l (array_set l 0 secret) |>
  | None => s
  end)).

Definition feed_turn (i : nat) (a : Agent) : Agent :=
  match ThreatIntelConfig.feeds (Config.threat_intel (setup a)) !! i with
  | Some feed => on_control (fun c => snd (sync_feed feed c)) a
  | None => a
  end.

Definition hub_turn (task : Task) (a : Agent) : Agent :=
  if HubConfig.enabled (Config.hub (setup a)) then
    let ts := task_step (mkTasks (clients a) (control (web a)) (sent a)) task in
    on_control (fun _ => shared ts) a <| clients := HubTasks.clients ts |> <| sent := requests ts |>
  else a.

Definition sync_turn (a : Agent) : Agent :=
  let c := control (web a) in
  match store c with
  | Some st =>
      let y := snd (BlacklistSync.sync_once (syncer a <| BlacklistSync.ebpf := ebpf c |> <| BlacklistSync.store := st |>)) in
      on_control (fun c => c <| ebpf := BlacklistSync.ebpf y |> <| store := Some (BlacklistSync.store y) |>) a
        <| syncer := y |>
  | None => a
  end.

Definition prune_turn : Agent -> Agent :=
  with_secs (fun t => on_control (fun c => c <| adaptive ::= fmap (prune t) |>)).

Definition events_turn (a : Agent) : Agent :=
  let w := web a in
  let s := ebpf (control w) in
  match adaptive (control w) with
  | Some e =>
      let '(_, (e, shown, s)) := consume (EVENTS s) (e, stats w, s <| EVENTS ::= drop BATCH |>) in
      on_control (fun c => c <| ebpf := s |> <| adaptive := Some e |>) (on_stats (fun _ => shown) a)
  | None => a
  end.

Definition samples_turn (a : Agent) : Agent :=
  let '(_, (log, s)) := packet_log_run (packet_log (web a), ebpf (control (web a))) in
  on_kernel (fun _ => s) a <| web ::= fun w => w <| packet_log := log |> |>.

Definition counters_turn (others : list GlobalStats.t) (a : Agent) : Agent :=
  let slots := (fun g => g :: others) <$> array_get (GLOBAL_STATS (ebpf (control (web a)))) 0 in
  let '(read, shown) := sync_global_stats slots (totals a, stats (web a)) in
  on_stats (fun _ => shown) a <| totals := read |>.

Definition danger_turn (input : option (list Z) * option (Z * Z)) (a : Agent) : Agent :=
  match danger a with
  | Some (m, l) =>
      let d := danger_tick input (mkDangerTask m l (control (web a)) (stats (web a))) in
      on_control (fun _ => agent d) (on_stats (fun _ => shown d) a) <| danger := Some (monitor d, level d) |>
  | None => a
  end.

(** The time series of the statistics, and its part of the store. *)
Definition on_series (f : Series -> Series) (a : Agent) : Agent :=
  match store (control (web a)) with
  | Some st =>
      let y := f (mkSeries (window (web a)) st (persisted_ts a)) in
      on_control (fun c => c <| store := Some (disk y) |>) a
        <| web ::= fun w => w <| window := Series.window y |> |> <| persisted_ts := last_persisted_ts y |>
  | None => a
  end.

Definition persist_turn : Agent -> Agent := with_secs (fun t a =>
  on_series (series_persist t (Config.timeseries_retention_days (setup a))) a).

(** The end: the record of the stop, and the last save of the time series. *)
Definition terminate (a : Agent) : Agent :=
  on_series series_save (on_control (fun c => snd (audit "system" Stop DEmpty c)) a) <| running := false |>.

Definition turn (e : Event) : Agent -> Agent :=
  match e with
  | Frame p => on_kernel (fun s => snd (try_eshield (s <| packet := p |>)))
  | Ask r m => fun a => a <| web ::= fun w => snd (serve r m w) |>
  | Hangup => on_control (fun c => snd (reload_config_file c))
  | Terminate => terminate
  | Watch lock_free => fun a =>
      let '(n, shown) := monitor_xdp (XdpConfig.auto_reattach (Config.xdp (setup a))) lock_free (card a, stats (web a)) in
      on_stats (fun _ => shown) a <| card := n |>
  | Alarm wall_s => alarm_turn wall_s
  | Rotate key => rotate_turn key
  | Feed i => feed_turn i
  | HubLoop task => hub_turn task
  | SyncBlacklist => sync_turn
  | PruneEngine => prune_turn
  | DrainEvents => events_turn
  | DrainSamples => samples_turn
  | ReadCounters others => counters_turn others
  | ReadAttackers => fun a => on_stats (sync_top_attackers (ebpf (control (web a)))) a
  | ReadTrust => fun a => on_stats (sync_trust_scores (ebpf (control (web a)))) a
  | CountEntries => with_ns (fun t a => on_stats (sync_map_entries t (ebpf (control (web a)))) a)
  | SampleDanger input => danger_turn input
  | SamplePoint => with_secs (fun t a => a <| web ::= fun w => w <| window ::= record t (stats w) |> |>)
  | PersistPoints => persist_turn
  end.

Definition agent_step (a : Agent) (e : Event) : Agent := if running a then turn e a else a.
Definition agent_run : Agent -> list Event -> Agent := foldl agent_step.

(** The answer to a frame. *)
Definition answer (p : frame) (a : Agent) : Z := fst (try_eshield (ebpf (control (web a)) <| packet := p |>)).
End AgentRun.

(** ** What requests leave alone *)
Section Requests.
Context {KN : Kernel} {KL : KernelLaws} {MO : MapOps} {ML : MapLaws MO} {HO : HashOrder} {R : Redb} {J : RuleJson}
  {CL : CsvLib} {EN : AgentEnv} {FL : FeedLib} {AL : AuditLib} {CE : ConsoleEnv} {HT : Http}.

(** Requests that take something back: a reload of the file and, if [strict], the
    removal of a network from the white list. *)
Definition withdrawal (strict : bool) (path : string) (method : Method) : bool :=
  (String.eqb path "/api/config/reload" && bool_decide (method = POST)) ||
  (strict && String.eqb path "/api/whitelist" && bool_decide (method = DELETE)).

Context (Q : KState -> Prop) (LQ : lasting Q) (l v : Z).
Context (strict : bool) (Hdis : strict = false -> forall key prefix, keeps Q (whitelist_del key prefix)).

(** A lasting property of the maps, the level in the snapshot and on the page. *)
Definition steady (w : WebState) : Prop := stays Q l (control w) /\ Stats.danger_level (stats w) = v.

Definition unmoved (h : Handler) : Prop := forall r m w, steady w -> steady (snd (h r m w)).

Lemma unmoved_view f : unmoved (view f).
Proof. by intros r m w. Qed.

Lemma unmoved_extract {A} (get : ConsoleAuth.Request.t -> option A) k : (forall x, unmoved (k x)) -> unmoved (extract get k).
Proof. intros Hk r m w. unfold extract. destruct (get r); [apply Hk|done]. Qed.

Lemma unmoved_operate failure done (m : Try ControlState unit) : keeps (stays Q l) m -> unmoved (operate failure done m).
Proof. intros Hm r t w [H1 H2]. unfold operate. specialize (Hm _ H1). by destruct (m (control w)). Qed.

Lemma unmoved_limited (c : bool) e h : unmoved h -> unmoved (fun r m w => if c then (e, w) else h r m w).
Proof. intros Hh r m w. destruct c; [done|apply Hh]. Qed.

Lemma unmoved_idle h : idle h -> unmoved h.
Proof.
  intros Hi r m w [H1 H2]. destruct (Hi r m w) as (Hc & _ & Hs & _). split; [|by rewrite Hs].
  apply (f_equal (fun c => (ebpf c, runtime c))) in Hc. cbn in Hc. injection Hc as He Hr.
  apply (stays_same Q LQ l (control w)); [by rewrite He|done|done].
Qed.

Lemma unmoved_reset : unmoved reset_token_handler.
Proof. intros r m w H. unfold reset_token_handler. destruct (reset_token _ _) as [token au]. exact H. Qed.

Lemma unmoved_feeds : unmoved sync_threat_intel_handler.
Proof. intros r m w [H1 H2]. split; [|exact H2]. by apply (stays_feeds Q LQ l). Qed.

Create HintDb unmoved discriminated.
#[local] Hint Resolve unmoved_view unmoved_extract unmoved_operate unmoved_limited unmoved_reset unmoved_feeds
  stays_patch stays_block_ip stays_unblock stays_allow stays_acl stays_projects stays_l7 stays_reload_geoip : unmoved.

Lemma protected_unmoved :
  Forall (fun e => Forall (fun mh => withdrawal strict (fst e) (fst mh) = false -> forall role, unmoved (snd mh role)) (snd e))
    protected_routes.
Proof.
  unfold protected_routes. cbn [fst snd].
  repeat first [apply List.Forall_nil | apply List.Forall_cons]; cbn [fst snd]; intros Hw role;
    try (vm_compute in Hw; discriminate Hw);
    cbv beta delta [any page stats_handler config_handler usage_handler audit_verify_handler logout_handler auth_check_handler
      blacklist_handler list_whitelist_handler list_port_acl_handler list_protection_projects_handler list_l7_patterns_handler
      hub_status_handler hub_proxy attack_events_page packets_handler ip_detail_handler ip_series_handler
      attacker_series_handler metrics_series_handler protection_modules_handler metrics_handler extract_query
      patch_config_handler block_ip_handler unblock_ip_handler allow_cidr_handler set_port_acl_handler
      set_protection_projects_handler set_l7_patterns_handler reload_geoip_handler];
    eauto 6 with unmoved.
  apply unmoved_extract. intros cidr. apply unmoved_operate, (stays_disallow Q). apply Hdis. by destruct strict.
Qed.

Lemma middleware_readonly r au : auth_middleware r au = Next Readonly ->
  safe_method (ConsoleAuth.Request.method r) || String.eqb (ConsoleAuth.Request.path r) "/api/auth/logout" = true.
Proof.
  unfold auth_middleware. destruct (_ && _); [done|]. destruct (AuthState.token au) as [t|]; [|done].
  destruct (provided r ≫= _) as [role|]; [|by destruct (is_html_root r)]. destruct role; [by cbn|]. cbn.
  destruct (safe_method _); [done|]. by destruct (String.eqb _ _).
Qed.

(** The route of a withdrawal is for the administrator. *)
Lemma withdrawal_admin r w role path method :
  withdrawal strict path method = true -> path = ConsoleAuth.Request.path r -> method = ConsoleAuth.Request.method r ->
  auth_middleware r (auth w) = Next role -> role = Admin.
Proof.
  intros Hw Hp Hm Ha. destruct role; [done|]. apply middleware_readonly in Ha. rewrite <- Hp, <- Hm in Ha.
  unfold withdrawal in Hw. apply orb_true_iff in Hw as [Hw|Hw]; rewrite ?andb_true_iff, bool_decide_eq_true, String.eqb_eq in Hw.
  - by destruct Hw as [-> ->].
  - by destruct Hw as [[_ ->] ->].
Qed.

(** A request changes none of it, unless the administrator takes something back. *)
Lemma steady_serve r m w :
  ~ (withdrawal strict (ConsoleAuth.Request.path r) (ConsoleAuth.Request.method r) = true /\ auth_middleware r (auth w) = Next Admin) ->
  steady w -> steady (snd (serve r m w)).
Proof.
  intros Hn Hs. destruct (serve_runs r m w) as [-> |(role & h & Hh & ->)]; [done|].
  destruct Hh as (method & handlers & Hin & Hm & [Hp|[Hp Ha]]).
  - apply unmoved_idle; [|done]. pose proof public_idle as H. rewrite list.Forall_forall in H. specialize (H _ Hp).
    unfold idle_when in H. rewrite list.Forall_forall in H. by apply (H _ Hin).
  - pose proof protected_unmoved as H. rewrite list.Forall_forall in H. specialize (H _ Hp).
    rewrite list.Forall_forall in H. apply (H _ Hin); [|done]. cbn [fst]. apply not_true_is_false. intros Hw.
    destruct Hm as [Hm|[-> _]].
    + apply Hn. rewrite <- Hm. split; [done|]. rewrite Ha. f_equal. by eapply withdrawal_admin.
    + unfold withdrawal in Hw. by rewrite !andb_false_r in Hw.
Qed.
End Requests.

(** ** Events *)
Section Events.
Context {NI : Nic} {KN : Kernel} {KL : KernelLaws} {MO : MapOps} {ML : MapLaws MO} {HO : HashOrder} {R : Redb} {J : RuleJson}
  {CL : CsvLib} {EN : AgentEnv} {FL : FeedLib} {AL : AuditLib} {CE : ConsoleEnv} {HT : Http}.

(** The events that may take something back. *)
Definition retracts (strict : bool) (a : Agent) (e : Event) : Prop :=
  match e with
  | Hangup => True
  | Ask r _ => withdrawal strict (ConsoleAuth.Request.path r) (ConsoleAuth.Request.method r) = true /\
               auth_middleware r (auth (web a)) = Next Admin
  | _ => False
  end.

Fixpoint unretracted (strict : bool) (events : list Event) (a : Agent) : Prop :=
  match events with
  | [] => True
  | e :: events => ~ retracts strict a e /\ unretracted strict events (agent_step a e)
  end.

(** Events that retract nothing whatever the state. *)
Definition quiet (strict : bool) (e : Event) : bool :=
  match e with
  | Hangup => false
  | Ask r _ => negb (withdrawal strict (ConsoleAuth.Request.path r) (ConsoleAuth.Request.method r))
  | _ => true
  end.

Lemma unretracted_quiet strict events : forall a, forallb (quiet strict) events = true -> unretracted strict events a.
Proof.
  induction events as [|e events IH]; intros a; [done|]. cbn. intros [He H]%andb_true_iff. split; [|by apply IH].
  destruct e as [|r m| | | | | | | | | | | | | | | | | | ]; cbn [quiet retracts] in *; try (by intros []).
  intros [Hw _]. by rewrite Hw in He.
Qed.

Lemma unretracted_app strict l1 l2 : forall a,
  unretracted strict l1 a -> unretracted strict l2 (agent_run a l1) -> unretracted strict (l1 ++ l2) a.
Proof. induction l1 as [|e l1 IH]; intros a; [done|]. intros [He H1] H2. split; [exact He|by apply IH]. Qed.

Lemma agent_run_invariant strict (I : Agent -> Prop) events : forall a,
  (forall a e, I a -> ~ retracts strict a e -> I (turn e a)) -> I a -> unretracted strict events a -> I (agent_run a events).
Proof.
  induction events as [|e events IH]; intros a Hturn Ha Hu; [done|]. destruct Hu as [He Hu].
  apply (IH (agent_step a e)); [done| |done]. unfold agent_step. destruct (running a); [by apply Hturn|done].
Qed.

Section Steady.
Context (Q : KState -> Prop) (LQ : lasting Q) (l v : Z).

Lemma seen_frame p s : seen (snd (try_eshield (s <| packet := p |>))) = seen s.
Proof.
  pose proof (tables_try_eshield (s <| packet := p |>)) as H. unfold seen. unfold tables in H. by injection H as -> -> _ _ _ _ ->.
Qed.

Lemma steady_kernel f a : seen (f (ebpf (control (web a)))) = seen (ebpf (control (web a))) ->
  steady Q l v (web a) -> steady Q l v (web (on_kernel f a)).
Proof. intros Hf [H1 H2]. split; [|done]. apply (stays_same Q LQ l (control (web a))); [exact Hf|done|done]. Qed.

Lemma steady_control f a : keeps (stays Q l) (fun c => (Some tt, f c)) -> steady Q l v (web a) -> steady Q l v (web (on_control f a)).
Proof. intros Hf [H1 H2]. split; [by apply (Hf (control (web a)))|done]. Qed.

Lemma steady_stats f a : Stats.danger_level (f (stats (web a))) = Stats.danger_level (stats (web a)) ->
  steady Q l v (web a) -> steady Q l v (web (on_stats f a)).
Proof. intros Hf [H1 H2]. split; [done|]. cbn. by rewrite Hf. Qed.

Lemma steady_secs k a : (forall t a, steady Q l v (web a) -> steady Q l v (web (k t a))) ->
  steady Q l v (web a) -> steady Q l v (web (with_secs k a)).
Proof. intros Hk Ha. unfold with_secs. cbn -[on_kernel]. apply Hk. by apply steady_kernel. Qed.

Lemma steady_ns k a : (forall t a, steady Q l v (web a) -> steady Q l v (web (k t a))) ->
  steady Q l v (web a) -> steady Q l v (web (with_ns k a)).
Proof. intros Hk Ha. unfold with_ns. cbn -[on_kernel]. apply Hk. by apply steady_kernel. Qed.

Lemma steady_series f a : steady Q l v (web a) -> steady Q l v (web (on_series f a)).
Proof. intros [H1 H2]. unfold on_series. destruct (store (control (web a))); by split. Qed.

Lemma watch_level auto lock st : Stats.danger_level (snd (monitor_xdp auto lock st)) = Stats.danger_level (snd st).
Proof. destruct st as [n shown]. unfold monitor_xdp. repeat case_match; done. Qed.

Lemma steady_sync a : steady Q l v (web a) -> steady Q l v (web (sync_turn a)).
Proof.
  intros [[Hq Hs] Hv]. unfold sync_turn. destruct (store (control (web a))) as [st|]; [|by split].
  pose proof (stays_sync Q LQ (syncer a <| BlacklistSync.ebpf := ebpf (control (web a)) |> <| BlacklistSync.store := st |>) Hq) as H.
  split; [split; [exact H|exact Hs]|exact Hv].
Qed.

Lemma steady_events a : steady Q l v (web a) -> steady Q l v (web (events_turn a)).
Proof.
  intros [[Hq Hs] Hv]. unfold events_turn. cbv zeta. destruct (adaptive (control (web a))) as [e|]; [|by split].
  match goal with |- context [consume ?w ?x] => pose proof (seen_consume w x) as H; pose proof (page_consume w x) as H';
    destruct (consume w x) as [n [[e' shown] s]] end.
  cbn [fst snd] in H, H'. split; [split; [by apply (last_seen Q LQ (ebpf (control (web a))))|exact Hs]|]. cbn. by rewrite H'.
Qed.

(** Every event but the sampling of the danger level and what retracts. *)
Lemma steady_turn strict e a :
  (strict = false -> forall key prefix, keeps Q (whitelist_del key prefix)) ->
  match e with SampleDanger _ => False | _ => ~ retracts strict a e end ->
  steady Q l v (web a) -> steady Q l v (web (turn e a)).
Proof.
  intros Hdis He Ha. destruct e; cbn [turn retracts] in *; try done.
  - apply steady_kernel; [apply seen_frame|done].
  - by apply (steady_serve Q LQ l v strict Hdis).
  - apply steady_series, steady_control; [by intros c|done].
  - pose proof (watch_level (XdpConfig.auto_reattach (Config.xdp (setup a))) lock_free (card a, stats (web a))) as H.
    destruct (monitor_xdp _ _ _) as [n shown]. by apply steady_stats.
  - unfold alarm_turn. by destruct (alert_tick _ _ _ _).
  - apply steady_secs; [|done]. intros t a' Ha'. apply steady_kernel; [|done]. by destruct (rotate_cookie_secrets_inner _ _ _).
  - unfold feed_turn. destruct (_ !! i) as [feed|]; [|done]. apply steady_control; [|done]. by apply (stays_feed Q LQ).
  - unfold hub_turn. destruct (HubConfig.enabled _); [|done]. destruct Ha as [H1 H2]. split; [|done].
    by apply (stays_task Q LQ l (mkTasks (clients a) (control (web a)) (sent a))).
  - by apply steady_sync.
  - apply steady_secs; [|done]. intros t a' Ha'. apply steady_control; [by intros c|done].
  - by apply steady_events.
  - destruct Ha as [H1 H2]. split; [|done]. by apply (stays_same Q LQ l (control (web a))).
  - apply steady_ns; [|done]. intros t a' Ha'. by apply steady_stats.
  - apply steady_secs; [|done]. intros t a' Ha'. exact Ha'.
  - apply steady_secs; [|done]. intros t a' Ha'. by apply steady_series.
Qed.
End Steady.

(** *** The white list *)
Lemma allowed_danger b input a l v : steady (allowed b) l v (web a) -> exists l v, steady (allowed b) l v (web (danger_turn input a)).
Proof.
  intros [[[Hc Hn] Hs] Hv]. unfold danger_turn. destruct (danger a) as [[m old]|]; [|by exists l, v].
  eexists _, _. split; [|reflexivity]. split; [|reflexivity]. cbn [web on_control on_stats].
  assert (H : forall c new, allowed b (ebpf c) -> allowed b (ebpf (snd (set_danger_level new c)))).
  { intros c new [H1 H2]. unfold set_danger_level, update. rewrite try_modify. unfold on_ebpf. rewrite try_gets.
    unfold CONFIG_set, array_write. destruct (array_set _ _ _) as [t|] eqn:E; [|done].
    unfold array_set in E. destruct (_ <? _); [|done]. injection E as <-. split; [by destruct b|].
    change (ebpf (setter runtime _ c)) with (ebpf c) in *. cbn. destruct (CONFIG (ebpf c)); [done|]. by destruct (Z.to_nat 0). }
  unfold danger_tick. destruct (sample _ _ _ _) as [new m']. destruct (new =? level _); [done|]. by apply H.
Qed.

(** An address on the white list stays on it. *)
Lemma allowed_run b events a : allowed b (ebpf (control (web a))) -> unretracted true events a ->
  allowed b (ebpf (control (web (agent_run a events)))).
Proof.
  intros Ha Hu.
  destruct (agent_run_invariant true (fun a => exists l v, steady (allowed b) l v (web a)) events a) as (l & v & [[H _] _]);
    [|eexists _, _; split; [split; [exact Ha|reflexivity]|reflexivity]|exact Hu|exact H].
  intros a' e (l & v & H) He. destruct e as [| | | | | | | | | | | | | | | | |input| |] eqn:Ee;
    try (exists l, v; rewrite <- Ee; apply (steady_turn _ (allowed_lasting b) l v true); [done|by rewrite Ee|done]).
  by apply (allowed_danger b input a' l v).
Qed.

Lemma key_of_addr_parsed p r b : parse_frame p = Some r -> Parsed.src r = key_of_addr b -> forall s,
  lpm_member (WHITELIST_V4 s) (WHITELIST_V6 s) (Parsed.src r) = white s b.
Proof. intros Hp Hb s. rewrite Hb. reflexivity. Qed.

(** A packet from an address on the white list passes. *)
Lemma allowed_passes b a p r : ip_addr_ok b -> allowed b (ebpf (control (web a))) ->
  parse_frame p = Some r -> Parsed.src r = key_of_addr b -> answer p a = XDP_PASS.
Proof.
  intros Hb [Hw Hc] Hp Hr. apply white_covered in Hw; [|done]. unfold answer. set (s := ebpf (control (web a))) in *.
  destruct (CONFIG s) as [|cfg rest] eqn:E; [done|].
  rewrite (try_eshield_run _ r cfg); [|exact Hp|cbn; by rewrite E]. cbv zeta.
  change (WHITELIST_V4 (s <| packet := p |>)) with (WHITELIST_V4 s).
  change (WHITELIST_V6 (s <| packet := p |>)) with (WHITELIST_V6 s).
  rewrite (key_of_addr_parsed p r b Hp Hr s), Hw.
  unfold pass, bind. destruct (with_stats _ _). by destruct (trust_pass_sampled _ _ _ _).
Qed.

(** C7: no event takes an address off the white list but those that are meant to.
    Let an address be on the white list of the running agent.  Then every packet
    from it passes for as long as the agent runs, whatever frames arrive, however
    the tasks take turns, whatever the hubs and the feeds send, even if the
    address is put on the black list, until the configuration file is reloaded or
    the administrator removes a network from the white list. *)
Theorem allowed_keeps_passing b events a p r :
  ip_addr_ok b -> white (ebpf (control (web a))) b = true -> CONFIG (ebpf (control (web a))) <> [] ->
  unretracted true events a -> parse_frame p = Some r -> Parsed.src r = key_of_addr b ->
  answer p (agent_run a events) = XDP_PASS.
Proof.
  intros Hb Hw Hc Hu Hp Hr. apply white_covered in Hw; [|done].
  apply (allowed_passes b _ p r Hb); [|done..]. by apply allowed_run; [split|].
Qed.

(** After a start the white list of the file is in force. *)
Lemma start_lists {HL : HashOrderLaws HO} config s st c text :
  start_control config s st = Some c -> text ∈ Config.whitelist config ->
  exists key prefix, parse_cidr text = Some (key, prefix) /\ forall b, holds key prefix b -> allowed b (ebpf c).
Proof.
  intros E Ht. destruct (start_control_danger config s st c E) as [Hm _].
  unfold start_control in E. destruct (control_new _ _ _ _ _) as [c0|] eqn:En; [|done]. injection E as <-.
  destruct (control_new_lists _ _ _ _ _ _ text En Ht) as (key & prefix & Hp & H). exists key, prefix. split; [exact Hp|].
  intros b Hb. split; [|intros Hn; unfold map_danger in Hm; by rewrite Hn in Hm].
  apply (stays_load_persisted (listed b) (listed_lasting b) (RuntimeConfigSnapshot.danger_level (runtime c0)) c0). by split; [apply H|].
Qed.

(** C17: the white list of the configuration file holds from the start on.  After a
    start that succeeds, every entry of the file's white list is an address and a
    prefix length, and every packet from an address that agrees with it on the
    prefix passes, whatever happens to the agent meanwhile, until the file is
    reloaded or the administrator removes a network. *)
Theorem file_networks_pass {HL : HashOrderLaws HO} boot n run n' config infos text :
  start boot n = (Some run, n') -> config_file = Some config -> text ∈ Config.whitelist config ->
  exists addr plen a prefix, split "/"%char text = [addr; plen] /\ parse_ip_addr addr = Some a /\
    parse_uint 32 plen = Some prefix /\
    forall b events p r, ip_addr_ok b -> same_family a b = true ->
      Z.shiftr (be_val (octets b)) (width b - prefix) = Z.shiftr (be_val (octets a)) (width a - prefix) ->
      unretracted true events (agent_start config infos run n') ->
      parse_frame p = Some r -> Parsed.src r = key_of_addr b ->
      answer p (agent_run (agent_start config infos run n') events) = XDP_PASS.
Proof.
  intros Hst Hcf Ht. apply start_inv in Hst as (cfg & s & st & flags & (Hcf' & _) & _ & Es & _).
  rewrite Hcf in Hcf'. injection Hcf' as <-. destruct (start_lists config s st _ text Es Ht) as (key & prefix & Hp & Hall).
  destruct (parsed_holds _ _ _ Hp) as (addr & plen & a & Hs & Ha & Hpl & Hh). exists addr, plen, a, prefix.
  do 3 (split; [done|]). intros b events p r Hb Hf Hbits Hu Hpf Hr.
  apply (allowed_passes b _ p r Hb); [|done..]. apply allowed_run; [|exact Hu]. by apply Hall, Hh.
Qed.

(** *** The danger level *)
Definition level_of (a : Agent) : Z := match danger a with Some (_, l) => l | None => 0 end.

(** The level of the task, of the map, of the snapshot and of the page. *)
Definition levels_agree (a : Agent) : Prop :=
  0 <= level_of a <= 2 /\ steady (map_danger (level_of a)) (level_of a) (level_of a) (web a).

Lemma levels_sample input a : levels_agree a -> levels_agree (danger_turn input a).
Proof.
  intros [Hl [[Hm Hs] Hp]]. unfold danger_turn, levels_agree, level_of in *.
  destruct (danger a) as [[m l]|] eqn:E; [|by rewrite E].
  destruct (danger_tick_agrees input (mkDangerTask m l (control (web a)) (stats (web a)))) as (H1 & H2 & H3 & H4);
    [exact (conj Hl (conj Hm (conj Hs Hp)))|].
  exact (conj H1 (conj (conj H2 H3) H4)).
Qed.

Lemma series_danger f a : danger (on_series f a) = danger a.
Proof. unfold on_series. by destruct (store _). Qed.

Lemma turn_danger e a : match e with SampleDanger _ => False | _ => True end -> danger (turn e a) = danger a.
Proof.
  destruct e; intros He; cbn [turn]; try done.
  - unfold terminate. cbn -[on_series]. by rewrite series_danger.
  - by destruct (monitor_xdp _ _ _).
  - unfold alarm_turn. by destruct (alert_tick _ _ _ _).
  - unfold feed_turn. by destruct (_ !! i).
  - unfold hub_turn. by destruct (HubConfig.enabled _).
  - unfold sync_turn. by destruct (store _).
  - unfold events_turn. cbv zeta. destruct (adaptive _) as [e|]; [|done]. by destruct (consume _ _) as [n [[e' shown] s]].
  - unfold persist_turn, with_secs. cbn -[on_kernel on_series]. by rewrite series_danger.
Qed.

Lemma levels_turn e a : levels_agree a -> ~ retracts false a e -> levels_agree (turn e a).
Proof.
  intros Ha He. destruct (match e with SampleDanger _ => true | _ => false end) eqn:Ee; [destruct e; try done; by apply levels_sample|].
  destruct Ha as [Hl Ha]. unfold levels_agree, level_of. rewrite (turn_danger e a) by (by destruct e).
  split; [exact Hl|]. apply (steady_turn _ (danger_lasting _) _ _ false e); [|by destruct e|exact Ha].
  intros _. apply danger_disallow.
Qed.

(** C29: the danger level is the same everywhere, from the start on.  After a start
    that succeeds, whatever happens to the agent, the level the danger task
    measured last is the one in the [CONFIG] map from which the packet program
    scales its thresholds, the one in the snapshot of the configuration and the
    one on the statistics page, until the configuration file is reloaded. *)
Theorem danger_agrees_until_reload boot n run n' config infos events :
  start boot n = (Some run, n') ->
  let a := agent_start config infos run n' in
  unretracted false events a -> levels_agree (agent_run a events).
Proof.
  intros Hst a Hu. apply (agent_run_invariant false levels_agree); [intros a' e; apply levels_turn| |exact Hu].
  apply start_inv in Hst as (cfg & s & st & flags & _ & _ & Es & Hstats & _ & Hd).
  apply start_control_danger in Es as [Hm Hs]. unfold levels_agree, level_of, a, agent_start. cbn [danger web].
  rewrite Hd. assert (Hp : Stats.danger_level (AgentMain.stats run) = 0) by (by rewrite Hstats).
  destruct (DangerSignalConfig.enabled _); cbn; by split; [lia|].
Qed.
End Events.

(** ** A running agent, for the evaluated examples *)
Module AgentRunWitness.
Import NicSample Samples ControlSample.ControlSample.
#[local] Existing Instances ThreatIntelWitness.feeds AuditSample.lib HubClientWitness.hubs ConsoleWitness.console.
Import ConsoleWitness.

(** A TCP segment of 10.0.0.1, and the same of 10.1.0.5. *)
Definition segment : frame := TcpResetWitness.segment.
Definition segment_5 : frame := take 26 segment ++ [10; 1; 0; 5] ++ drop 30 segment.

(** The agent of the sample with one more network on its white list. *)
Definition node : Agent :=
  agent_start config [] (mkRunning Stats_default (mkSeries (window_new 360 10) RuleStore_empty 0)
    (with_readonly (Some "secret"%string) (Some "viewer"%string)) (snd (allow_cidr "10.0.0.0/8" agent)) None) virtio.

(** The administrator blocks 10.0.0.1, and the tasks take turns; a reader of the
    console asks for a reload in vain. *)
Definition block_request : ConsoleAuth.Request.t := request far POST "/api/blacklist" "block" [bearer "secret"].
Definition reload_request : ConsoleAuth.Request.t := request far POST "/api/config/reload" "" [bearer "viewer"].
Definition busy : list Event :=
  [Frame segment; Ask block_request moment; SyncBlacklist; DrainEvents; DrainSamples; HubLoop PullLoop; Feed 0;
   Rotate (replicate 16 7); ReadCounters []; SampleDanger AgentMainWitness.exhausted].
Definition busy_minute : list Event := busy ++ Ask reload_request moment :: [PersistPoints; Frame segment].

Lemma busy_unretracted strict : unretracted strict busy_minute node.
Proof.
  apply unretracted_app; [by apply unretracted_quiet; destruct strict|]. split; [|by apply unretracted_quiet].
  intros [_ H]. assert (E : auth_middleware reload_request (auth (web (agent_run node busy))) = Forbidden) by (vm_compute; reflexivity).
  rewrite E in H. discriminate H.
Qed.

Lemma allowed_keeps_passing_witness :
  fst (is_blacklisted alice 2000000000 (ebpf (control (web (agent_run node (take 2 busy_minute)))))) = true /\
  answer segment (agent_run node busy_minute) = XDP_PASS.
Proof.
  split; [vm_compute; reflexivity|].
  apply (allowed_keeps_passing (V4 [10; 0; 0; 1]) busy_minute node segment DataPlaneWitness.parsed).
  - split; [reflexivity|]. unfold bytes_ok, is_byte. rewrite !list.Forall_cons. repeat split; (lia || constructor).
  - vm_compute. reflexivity.
  - vm_compute. discriminate.
  - exact (busy_unretracted true).
  - exact DataPlaneWitness.s0_parsed.
  - vm_compute. reflexivity.
Defined.
(** What arrives in the first minute after a start. *)
Definition first_minute : list Event :=
  [Frame segment_5; Ask block_request moment; SyncBlacklist; HubLoop PushLoop; SampleDanger AgentMainWitness.exhausted;
   CountEntries; SamplePoint; Frame segment; PersistPoints; Terminate].

Lemma boots : exists run n', start AgentMainWitness.boot virtio = (Some run, n').
Proof.
  assert (Hs : match fst (start AgentMainWitness.boot virtio) with Some _ => true | None => false end = true) by (vm_compute; reflexivity).
  destruct (start AgentMainWitness.boot virtio) as [[run|] n'] eqn:E; [|discriminate Hs]. by exists run, n'.
Qed.

Lemma file_networks_pass_witness : exists run n', start AgentMainWitness.boot virtio = (Some run, n') /\
  answer segment_5 (agent_run (agent_start config [] run n') first_minute) = XDP_PASS.
Proof.
  destruct boots as (run & n' & E). exists run, n'. split; [exact E|].
  destruct (file_networks_pass AgentMainWitness.boot virtio run n' config [] "10.1.0.0/16" E eq_refl)
    as (addr & plen & a & prefix & Hs & Ha & Hp & H); [by left|].
  injection Hs as <- <-. injection Ha as <-. injection Hp as <-.
  destruct (parse_frame segment_5) as [r|] eqn:Er; [|vm_compute in Er; discriminate Er].
  apply (H (V4 [10; 1; 0; 5]) first_minute segment_5 r); [|reflexivity|reflexivity| |exact Er|].
  - split; [reflexivity|]. unfold bytes_ok, is_byte. rewrite !list.Forall_cons. repeat split; (lia || constructor).
  - by apply unretracted_quiet.
  - vm_compute in Er. injection Er as <-. reflexivity.
Defined.

Lemma danger_agrees_until_reload_witness : exists run n', start AgentMainWitness.boot virtio = (Some run, n') /\
  levels_agree (agent_run (agent_start config [] run n') first_minute).
Proof.
  destruct boots as (run & n' & E). exists run, n'. split; [exact E|].
  apply (danger_agrees_until_reload AgentMainWitness.boot virtio run n' config [] first_minute E).
  by apply unretracted_quiet.
Defined.
End AgentRunWitness.
